(* ===== verification/_CoqProject ===== *)
-Q . S2P
Prelude.v
RustStd.v
RustString.v
Model.v
Intent.v
Validation.v
Planner.v
FileSystem.v
Shadow.v
Normalize.v
Diff.v
Drift.v
ChangePlan.v
Journal.v
Locks.v
LockProtocol.v
Response.v
ApplyCoordinator.v
ApplyProtocol.v
ApplyCorrect.v
RecoveryCoordinator.v
RecoveryCorrect.v
Idempotency.v
Compensation.v
JsonLines.v
Telemetry.v
Onboarding.v
AdminOps.v
Ha.v
Service.v
ApplyScope.v
HaService.v
Gc.v
Alerts.v
Workers.v
Runtime.v
Daemon.v
Protobuf.v
Mapper.v
MapperCorrect.v
Client.v
ProductOps.v
ProductApi.v
HttpServer.v
Sot.v
Preflight.v
Cli.v
Metrics.v
KeyLocks.v
Decimal.v
LogLine.v
HttpAnswer.v
Construct.v
Probe.v
CliRun.v
Tasks.v
Binaries.v
