(* ===== verification/Prelude.v ===== *)
(** * Aria Underlay: a verification development for the Rust core

    Aria Underlay turns declarative intents about a network fabric (VLANs,
    interfaces, ACLs, BGP) into device configurations and applies them to the
    management endpoints of the fabric as journalled transactions.  This library
    models the Rust core under src/ as executable definitions and proves what
    makes it correct.  A request flows through the parts like this:

      intent --validate--> plan (one desired state per endpoint)
        --read device, normalize, diff--> change set --> change plan / dry run
        --journalled transaction over the adapter--> shadow state, answer, events

    and every part keeps its state behind an interface: the shadow store and the
    transaction journal are type classes with laws ([ShadowStoreLaws],
    [TxJournalLaws]), implemented in memory and as JSON files.  Devices are reached
    through a gRPC adapter; beside requests run periodic workers, and operators use an
    HTTP API and a command line.

    ** Files, in order, and the code they model

    - [Prelude]: [Result] and [?], state passing with early return, loops, their
      lemmas and tactics.  [RustStd]: saturating integers, [Ord], sorting,
      [BTreeMap]/[BTreeSet].  [RustString]: byte strings, [trim], decimal
      printing and parsing, [Ipv4Addr] parsing, [{:?}].
    - [Model], [Intent]: the data types of src/model/, src/error.rs, src/intent/.
    - [Validation]: src/intent/validation.rs, every check in source order, and the
      declarative notion of a valid intent it decides.
    - [Planner]: src/planner/, with the loops of [plan_underlay_domain], and what
      the state of an endpoint must hold, read off the intent alone.
    - [FileSystem]: src/utils/atomic_file.rs over a directory whose system calls
      may fail at any point (an oracle decides, also whether the [stat] behind
      [Path::exists] fails, which the code reads as absence), and the shared shape of the
      JSON stores: a directory of records stands for a map.
    - [Shadow]: src/state/shadow.rs, the store trait, both stores, the contract.
    - [Normalize], [Diff]: src/engine/normalize.rs, src/engine/diff.rs.
    - [Drift]: src/state/drift.rs, src/api/drift_ops.rs.
    - [ChangePlan]: src/engine/change_plan.rs, src/engine/dry_run.rs and the write
      decisions of src/device/model_profile.rs.
    - [Journal]: src/tx/: phases and their transitions, the record, both journal
      stores, recovery decisions, strategies.
    - [Response]: src/device/ (info, capability, inventory), src/api/response.rs,
      src/api/apply.rs, and the events an apply emits.
    - [ApplyCoordinator]: src/api/apply_coordinator.rs, all of it.
    - [ApplyProtocol]: the abstract machine an apply refines: which journal write or
      device call may follow which; consequences of the machine alone.
    - [ApplyCorrect]: a small program logic for bodies that hold the journal record,
      the refinement, and what it means for callers.
    - [RecoveryCoordinator]: src/api/recovery_coordinator.rs, src/api/recovery_ops.rs.
      [RecoveryCorrect]: what a recovery pass leaves in journal and shadow store.
    - [Locks]: src/tx/ endpoint_lock.rs, domain_lock.rs, lock_strategy.rs: keys, the
      waiting loop.  [LockProtocol]: requests as tasks that take mutexes, interleaved.
    - [Idempotency]: src/api/idempotency.rs and the record stores of
      src/api/apply_compensation.rs.  [Compensation]: the rest of that file.
    - [JsonLines]: append-only logs, what src/telemetry/audit.rs, ops.rs and alerts.rs
      share.  [Telemetry]: events, audit and summary records, their stores, the sink.
    - [Onboarding]: src/device/ registration.rs, secret.rs, onboarding.rs, bootstrap.rs.
    - [AdminOps]: src/authz.rs, src/api/admin_ops.rs and its requests.
    - [Ha]: src/ha.rs, the active-passive lease.
    - [Service]: src/api/service.rs, underlay_service.rs, operations.rs: every call of the
      facade, composed of the parts above.  [ApplyScope]: which applies exclude each
      other.  [HaService]: the wrappers that demand the lease.
    - [Gc]: src/worker/gc.rs, the collectors.
    - [Alerts]: src/telemetry/alerts.rs, src/worker/operation_alerts.rs,
      src/api/alert_lifecycle.rs, src/api/operation_alerts.rs.
    - [Workers]: the scheduling loop, the workers of src/worker/.  [Runtime]:
      src/worker/runtime.rs.  [Daemon]: src/worker/daemon.rs.
    - [Protobuf]: the messages and enumerations of proto/aria_underlay_adapter.proto as
      prost generates them.  [Mapper]: src/adapter_client/mapper.rs and the conversions of
      src/device/model_profile.rs, with a class [Wire] of types that survive the wire.
      [MapperCorrect]: what the conversions preserve.  [Client]:
      src/adapter_client/client.rs over a transport, the pool of channels, and the
      environment of the apply coordinator that it makes.
    - [ProductOps]: src/api/product_ops.rs, src/api/worker_config_admin.rs.  [ProductApi]:
      src/api/ product_identity.rs, product_api.rs, product_http.rs,
      product_server_config.rs.  [HttpServer]: src/api/product_http_server.rs.
    - [Sot]: src/sot/snapshot.rs.  [Preflight]: src/worker/deployment.rs.  [Cli]:
      src/ops_cli.rs, what a command line means.  [Metrics]: src/telemetry/metrics.rs.
      [KeyLocks]: the mutex tables of the file stores (src/state/shadow.rs,
      src/tx/journal.rs), with threads.
    - [Decimal]: printed numbers read back.  [LogLine]: the log lines of
      src/telemetry/sink.rs and src/api/product_http_server.rs, and a reader of them.
      [HttpAnswer]: the bytes the HTTP server writes, read by a client that shares no
      code with the server; the task of a connection.
    - [Construct]: the constructors and builders of src/api/service.rs.  [Probe]:
      src/examples/real_domain_apply_probe.rs against an interface to the service, which
      the service implements.  [CliRun]: what the commands of src/ops_cli.rs do to the
      stores they open.
    - [Tasks]: the tasks of src/worker/runtime.rs and their shutdown channel, interleaved
      with the supervisor.  [Binaries]: the programs of src/bin/.

    ** What the theorems show

    - Apply (C1-C6): every run refines the protocol machine; device calls come
      right after the journal acknowledged their phase; each status means what it
      says about device, journal and shadow store; the journal agrees with the
      answer; a crash after any call leaves a record that recovery finds; an
      unfinished transaction blocks its device.
    - Recovery (C7, C8): a pass settles every record it can, and a settled record says
      what the devices answered.
    - Diff, validation, planning (C9-C11): replaying a diff reconciles the shadow state;
      validation decides the declarative notion; a plan holds exactly what the intent lists
      for each endpoint.
    - Stores and phases (C12-C15): the JSON journal implements its contract whatever
      system call but a [stat] fails, and a failing [stat] costs it answers but no records;
      writes are atomic, also under concurrent writers; the phase machine makes progress.
    - Locks (C16): interleaved requests can always finish.
    - Requests (C17, C18, C20): a retry plans exactly the failed endpoints; key lengths
      against file name limits; a repeated request is answered from the record, after any
      calls and restarts.
    - Logs and operators (C19, C21, C25): acknowledged audit records stay;
      force-resolution happens on the books; alerts are delivered at least once.
    - Instances (C22, C23): a live lease excludes every other process; a site is
      called ready only when it is.
    - Workers (C24, C26, C27, C38): collection spares what recovery needs; the runtime
      keeps panicking workers running, once each, and its tasks behave as that takes for
      granted however they interleave; a reloading daemon runs what its checkpoint says.
    - The adapter (C28-C31): the scope that is read decides the diff; a planned state
      survives the wire; a report is typed before it is believed; errors say whether they
      are the transport's or the adapter's.
    - The product (C32-C36): configuration changes are authorized and audited; a request
      is the same however its bytes arrive; the deployment check agrees with the daemon's
      validation; bytes of nobody trusted change nothing and are not answered 200; what is
      written is what a client reads.
    - Around it (C37, C39, C40): the event log keeps events apart and reads back; a command
      changes only the files it names; the probe writes to a device only what its dry run
      showed harmless.

    Further theorems without a number carry these: the contracts of the other stores
    ([json_shadow_store_refines_map], [json_apply_stores_refine_maps]), normal forms
    ([normalize_idempotent]), what an empty diff means ([compute_diff_empty_iff]), planned
    states well formed ([plan_underlay_domain_wf]), settled records in the shadow store
    ([settle_updates_shadow]), retry and waiting bounds ([recover_retry_bounded],
    [lock_wait_bounded]), histories of committed records ([committed_was_confirmed]),
    change plans and their evidence ([change_plan_stages],
    [high_risk_write_needs_evidence]), which requests and applies exclude each other
    ([requests_exclude_each_other], [applies_exclude_iff]), audited alert transitions and
    listings ([alert_transition_audited], [list_operation_alerts_correct]), complete drift
    audits
    ([drift_audit_accounts_for_all]), validated configurations that build
    ([validated_config_runs]), command lines in any order ([options_in_any_order]), exact
    drift detection and dry runs ([detect_drift_clean_iff], [build_dry_run_plan_correct]),
    faithful alert histories ([alert_history_faithful]), commits of what was prepared
    ([commit_carries_prepared_checksum]), the router behind C35 ([http_only_trusted]),
    consistent snapshots ([snapshot_validated]), shutdowns that end ([shutdown_ends]),
    samples of counters ([samples_exact]), a product API on loopback addresses only
    ([product_api_listens_locally]).

    ** Modelling choices

    A [&mut] argument or interior mutability is explicit state passing, and the state
    reached is kept on errors; an early return is [Err].  What lies outside the
    source (the adapter's answers, file system faults, lock acquisition, the clock,
    uuids, the JSON serializer) is a parameter; an oracle receives a counter that
    every question advances, so it may answer each question differently.  A [stat] that
    fails ([stat_fault]) makes [Path::exists] false as in the code; what needs it not to
    fail assumes [StatsWork].  The only
    facts assumed of the serializer are that it reads back what it wrote
    ([codec_round_trip]) and, for logs, that it prints an object on one line
    ([prints_one_line]); of a quoted text, that it is read back and has no control
    characters ([JsonStringLaws]).  Integers are [N] with the source's saturation where it
    matters.  Six definitions have fuel: [strip_all] of [RustString], [split_ws] of
    [ProductApi] and [trim_back] of [Preflight], which consume a byte at least per step
    and get the length of the string ([strip_all_done]: enough), [read_fields] of [LogLine],
    whose steps consume a field each (C37: enough), [read_fields] of [HttpAnswer], whose
    steps consume a line each and which gets the length of the answer (C36: enough), and
    [acquire_loop] of [Locks], with [enough_rounds] computed from the policy
    ([lock_wait_bounded]: enough).
    In [CliRun] the journal, the summary log, the alerts, the product audit log and the
    configuration are in different directories, which the command line does not ask for.
    Each store operation is one atomic step; that the per-key mutexes make it so is
    shown in [KeyLocks].  A worker's timer is the list of what happens to its state
    between two ticks.

    ** Not modelled

    - What lies below the source: the transport under the gRPC client and sockets (what
      they answer is an input), tokio's scheduler (an interleaving is arbitrary), the JSON
      serializer, signals.
    - What is only printed: the JSON of a command's answer, usage texts, the lines the
      probe prints.
    - [with_event_sink] of the service: the inner sink is the list of the events emitted.
    - The other programs under src/examples/, which call the service once with fixed
      inputs, and the placeholder modules (src/tx/coordinator.rs and the like), which have
      no behaviour.
    - The Python adapter, a process of its own behind the protocol of [Protobuf].
    - Twins are one definition: the two JSON Lines stores, the schedules of the workers and
      the journal's mutex table share the model of the other; derived trait instances and
      [From] conversions that copy fields are the identity. *)
From stdpp Require Export base tactics list gmap strings pretty.

(** ** Fallible computations

    [Result<T, E>] of the source.  The error type stays a parameter here; the
    files that translate code instantiate it with [UnderlayError]. *)
Inductive result (E A : Type) : Type :=
  | Ok (a : A)
  | Err (e : E).
Arguments Ok {E A} a.
Arguments Err {E A} e.

#[export] Instance result_eq_dec {E A} `{EqDecision E, EqDecision A} :
  EqDecision (result E A).
Proof. solve_decision. Defined.

#[export] Instance result_ret {E} : MRet (result E) := λ A x, Ok x.

(** The [?] operator: the first error ends the computation. *)
#[export] Instance result_bind {E} : MBind (result E) := λ A B f m,
  match m with Ok a => f a | Err e => Err e end.

#[export] Instance result_fmap {E} : FMap (result E) := λ A B f m,
  match m with Ok a => Ok (f a) | Err e => Err e end.

Definition is_ok {E A} (r : result E A) : bool :=
  match r with Ok _ => true | Err _ => false end.

(** [Option::ok_or_else]. *)
Definition ok_or {E A} (o : option A) (e : E) : result E A :=
  match o with Some a => Ok a | None => Err e end.

(** [Result::map_err]. *)
Definition map_err {E F A} (f : E → F) (r : result E A) : result F A :=
  match r with Ok a => Ok a | Err e => Err (f e) end.

(** [if cond { return Err(e) }] *)
Definition reject_if {E} (c : bool) (e : E) : result E unit :=
  if c then Err e else Ok tt.

(** A [for] loop whose body may return early with an error, threading the
    mutable locals of the enclosing function as its accumulator. *)
Fixpoint foldM {E S A} (f : S → A → result E S) (s : S) (l : list A) : result E S :=
  match l with
  | [] => Ok s
  | x :: l => s' ← f s x; foldM f s' l
  end.

(** A [for] loop with no accumulator. *)
Fixpoint forM_ {E A} (f : A → result E unit) (l : list A) : result E unit :=
  match l with
  | [] => Ok tt
  | x :: l => _ ← f x; forM_ f l
  end.

(** [iter.map(f).collect::<Result<Vec<_>, _>>()] *)
Fixpoint traverse {E A B} (f : A → result E B) (l : list A) : result E (list B) :=
  match l with
  | [] => Ok []
  | x :: l => y ← f x; ys ← traverse f l; Ok (y :: ys)
  end.

(** ** Stateful fallible computations

    A body that mutates state and may return early: the state reached is kept
    whether the body returns [Ok] or [Err], as a [&mut] argument is. *)
Definition ST (E S A : Type) : Type := S → result E A * S.

#[export] Instance ST_ret {E S} : MRet (ST E S) := λ A x s, (Ok x, s).

#[export] Instance ST_bind {E S} : MBind (ST E S) := λ A B f m s,
  match m s with
  | (Ok a, s') => f a s'
  | (Err e, s') => (Err e, s')
  end.

Definition st_get {E S} : ST E S S := λ s, (Ok s, s).
Definition st_put {E S} (s : S) : ST E S unit := λ _, (Ok tt, s).
Definition st_fail {E S A} (e : E) : ST E S A := λ s, (Err e, s).
Definition st_lift {E S A} (r : result E A) : ST E S A := λ s, (r, s).
(** [match body { Ok(x) => .., Err(e) => .. }]: the outcome becomes a value. *)
Definition st_try {E S A} (m : ST E S A) : ST E S (result E A) := λ s,
  let '(r, s') := m s in (Ok r, s').

(** A [for] loop in such a body. *)
Fixpoint st_foldM {E S A B} (f : B → A → ST E S B) (b : B) (l : list A) : ST E S B :=
  match l with
  | [] => mret b
  | x :: l => b' ← f b x; st_foldM f b' l
  end.

(** ** Proof automation *)

Create HintDb rust discriminated.

Lemma bind_Ok {E A B} (m : result E A) (f : A → result E B) b :
  (m ≫= f) = Ok b ↔ ∃ a, m = Ok a ∧ f a = Ok b.
Proof. destruct m; simpl; naive_solver. Qed.

Lemma Ok_eq {E A} (a b : A) : Ok (E:=E) a = Ok b ↔ b = a.
Proof. naive_solver. Qed.

Lemma bind_unit_Ok {E B} (m : result E unit) (f : unit → result E B) b :
  (m ≫= f) = Ok b ↔ m = Ok tt ∧ f tt = Ok b.
Proof. rewrite bind_Ok. split; [intros ([] & ? & ?) | intros [? ?]]; eauto. Qed.

Lemma bind_Err {E A B} (m : result E A) (f : A → result E B) e :
  (m ≫= f) = Err e ↔ m = Err e ∨ ∃ a, m = Ok a ∧ f a = Err e.
Proof. destruct m; simpl; naive_solver. Qed.

Lemma fmap_Ok {E A B} (m : result E A) (f : A → B) b :
  f <$> m = Ok b ↔ ∃ a, m = Ok a ∧ b = f a.
Proof. destruct m; simpl; naive_solver. Qed.

Lemma ok_or_Ok {E A} (o : option A) (e : E) a : ok_or o e = Ok a ↔ o = Some a.
Proof. destruct o; simpl; naive_solver. Qed.

Lemma map_err_Ok {E F A} (f : E → F) (r : result E A) a :
  map_err f r = Ok a ↔ r = Ok a.
Proof. destruct r; simpl; naive_solver. Qed.

Lemma reject_if_Ok {E} c (e : E) u : reject_if c e = Ok u ↔ c = false.
Proof. destruct c, u; simpl; naive_solver. Qed.

Lemma is_ok_true {E A} (r : result E A) : is_ok r = true ↔ ∃ a, r = Ok a.
Proof. destruct r; simpl; naive_solver. Qed.

Lemma ST_bind_Ok {E S A B} (m : ST E S A) (f : A → ST E S B) s b s' :
  (m ≫= f) s = (Ok b, s') ↔ ∃ a s1, m s = (Ok a, s1) ∧ f a s1 = (Ok b, s').
Proof.
  unfold mbind, ST_bind. destruct (m s) as [[a|e] s1]; split; intros; naive_solver.
Qed.

(** Take a successful computation apart into the successes of its steps. *)
Ltac inv_ok :=
  repeat match goal with
  | u : unit |- _ => destruct u
  | H : Ok _ = Ok _ |- _ => injection H as H; try subst
  | H : Err _ = Err _ |- _ => injection H as H; try subst
  | H : Ok _ = Err _ |- _ => discriminate H
  | H : Err _ = Ok _ |- _ => discriminate H
  | H : mret _ = Ok _ |- _ => injection H as H; try subst
  | H : (_ ≫= _) = Ok _ |- _ =>
      let a := fresh "a" in let H1 := fresh "Hok" in
      apply bind_Ok in H as (a & H1 & H)
  | H : _ <$> _ = Ok _ |- _ =>
      let a := fresh "a" in let H1 := fresh "Hok" in
      apply fmap_Ok in H as (a & H1 & H)
  | H : ok_or _ _ = Ok _ |- _ => apply ok_or_Ok in H
  | H : map_err _ _ = Ok _ |- _ => apply map_err_Ok in H
  | H : reject_if _ _ = Ok _ |- _ => apply reject_if_Ok in H
  end.

(** The head symbol of an application. *)
Ltac head_of t := lazymatch t with ?f _ => head_of f | _ => t end.

(** Case analysis on the head [match]/[if] of the goal or of a hypothesis. *)
Ltac case_goal := repeat (case_match; simplify_eq/=; try done).

Lemma elem_of_gset_of_list {A} `{Countable A} (x : A) l :
  x ∈ (list_to_set l : gset A) ↔ x ∈ l.
Proof. apply elem_of_list_to_set. Qed.

(** Elements of a list with distinct keys are determined by their keys. *)
Lemma NoDup_key_eq {A K} (key : A → K) l x y :
  NoDup (key <$> l) → x ∈ l → y ∈ l → key x = key y → x = y.
Proof.
  induction l as [|z l IH]; [set_solver|]. rewrite fmap_cons, NoDup_cons, !elem_of_cons.
  intros [Hz Hl] [->|Hx] [->|Hy] Heq; [done| | |auto];
    destruct Hz; [rewrite Heq | rewrite <-Heq]; by apply list_elem_of_fmap_2.
Qed.

(** ** Loops *)

Lemma forM_Ok {E A} (f : A → result E unit) l u :
  forM_ f l = Ok u ↔ Forall (λ x, f x = Ok tt) l.
Proof.
  destruct u. induction l as [|x l IH]; simpl; [by split; auto|].
  rewrite bind_Ok, Forall_cons, <-IH. split; [intros ([] & ? & ?) | intros [? ?]]; eauto.
Qed.

Lemma foldM_app {E S A} (f : S → A → result E S) s l1 l2 :
  foldM f s (l1 ++ l2) = (s' ← foldM f s l1; foldM f s' l2).
Proof.
  revert s. induction l1 as [|x l1 IH]; intros s; simpl; [done|].
  destruct (f s x); simpl; [apply IH | done].
Qed.

(** An invariant of the loop body is an invariant of the loop. *)
Lemma foldM_inv {E S A} (P : S → Prop) (f : S → A → result E S) s l s' :
  (∀ s x s', x ∈ l → P s → f s x = Ok s' → P s') →
  P s → foldM f s l = Ok s' → P s'.
Proof.
  revert s. induction l as [|x l IH]; intros s Hstep Hs; simpl.
  - intros H. by inv_ok.
  - intros H. inv_ok. eapply IH; [| |done].
    + intros. eapply Hstep; [by right|done..].
    + eapply Hstep; [by left|done..].
Qed.

(** A loop whose body never fails on the states it can meet succeeds. *)
Lemma foldM_total {E S A} (P : S → Prop) (f : S → A → result E S) s l :
  (∀ s x, x ∈ l → P s → ∃ s', f s x = Ok s' ∧ P s') →
  P s → ∃ s', foldM f s l = Ok s' ∧ P s'.
Proof.
  revert s. induction l as [|x l IH]; intros s Hstep Hs; simpl; [by eauto|].
  destruct (Hstep s x) as (s1 & -> & Hs1); [by left|done|]. simpl.
  apply IH; [|done]. intros. apply Hstep; [by right|done].
Qed.

(** The shape of the validation loops: a check of each element and of the
    freshness of its key, [if !seen.insert(key) { return Err(..) }]. *)
Lemma foldM_unique {E A K} `{Countable K}
    (P : A → Prop) (key : A → K) (f : gset K → A → result E (gset K)) s l s' :
  (∀ s x s', f s x = Ok s' ↔ P x ∧ key x ∉ s ∧ s' = {[key x]} ∪ s) →
  foldM f s l = Ok s' ↔
    Forall P l ∧ NoDup (key <$> l) ∧ (∀ x, x ∈ l → key x ∉ s) ∧
    s' = list_to_set (key <$> l) ∪ s.
Proof.
  intros Hf. revert s. induction l as [|x l IH]; intros s; simpl.
  - split.
    + intros Hs. inv_ok. repeat split; [constructor..| |set_solver]. set_solver.
    + intros (_ & _ & _ & ->). f_equal. set_solver.
  - rewrite bind_Ok, Forall_cons, NoDup_cons. split.
    + intros (s1 & (HP & Hk & ->)%Hf & (HF & HN & Hfr & ->)%IH).
      split_and!; [done..| |done| |set_solver].
      * intros (y & Heq & Hy)%list_elem_of_fmap. apply (Hfr y Hy). set_solver.
      * intros y [->|Hy]%elem_of_cons; [done|]. specialize (Hfr y Hy). set_solver.
    + intros ([HP HF] & [Hnk HN] & Hfr & ->).
      exists ({[key x]} ∪ s). rewrite Hf, IH. split_and!; [done..| | |done|done| |].
      * apply Hfr. by left.
      * done.
      * intros y Hy [Heq%elem_of_singleton|Hin]%elem_of_union.
        -- apply Hnk. rewrite <-Heq. by apply list_elem_of_fmap_2.
        -- apply (Hfr y); [by right|done].
      * set_solver.
Qed.

Lemma foldM_unique_empty {E A K} `{Countable K}
    (P : A → Prop) (key : A → K) (f : gset K → A → result E (gset K)) l s' :
  (∀ s x s', f s x = Ok s' ↔ P x ∧ key x ∉ s ∧ s' = {[key x]} ∪ s) →
  foldM f ∅ l = Ok s' ↔
    Forall P l ∧ NoDup (key <$> l) ∧ s' = list_to_set (key <$> l).
Proof.
  intros Hf. rewrite (foldM_unique P key) by exact Hf.
  rewrite (right_id_L ∅ (∪)). set_solver.
Qed.

Lemma loop_unique {E A K} `{Countable K}
    (P : A → Prop) (key : A → K) (f : gset K → A → result E (gset K)) l u :
  (∀ s x s', f s x = Ok s' ↔ P x ∧ key x ∉ s ∧ s' = {[key x]} ∪ s) →
  (foldM f ∅ l ≫= λ _, Ok tt) = Ok u ↔ Forall P l ∧ NoDup (key <$> l).
Proof.
  intros Hf. destruct u. rewrite bind_Ok. setoid_rewrite (foldM_unique_empty P key); [|exact Hf].
  naive_solver.
Qed.
