(* ===== verification/RustStd.v ===== *)
(** * The parts of the Rust standard library the core uses

    Machine integers are [N] with their width written out where it matters;
    strings are byte strings (the UTF-8 bytes of a [String]/[&str]); a
    [BTreeMap]/[BTreeSet] is a stdpp [gmap]/[gset] together with its traversal
    in ascending key order; [sort]/[sort_by_key] is a stable insertion sort. *)
From S2P Require Export Prelude.
From stdpp Require Export sorting.

(** ** Integers *)

Definition U8_MAX : N := 255.
Definition U16_MAX : N := 65535.
Definition U32_MAX : N := 4294967295.
Definition U64_MAX : N := 18446744073709551615.

(** [u64::saturating_add] and [u64::saturating_sub]. *)
Definition u64_saturating_add (a b : N) : N := N.min (a + b) U64_MAX.
Definition u64_saturating_sub (a b : N) : N := a - b.

(** ** Orders *)

(** [Ord]: a decidable total order. *)
Class Ord (K : Type) := {
  ord_le : relation K;
  #[global] ord_le_dec :: RelDecision ord_le;
  #[global] ord_le_po :: PartialOrder ord_le;
  #[global] ord_le_total :: Total ord_le;
}.

#[export] Program Instance N_ord : Ord N := {| ord_le := N.le |}.

(** [str] compares byte by byte, which on UTF-8 is also the order of the
    code points. *)
#[export] Program Instance string_ord : Ord string := {| ord_le := String.le |}.

(** ** Stable sorting *)

Section sorting.
Context {A K : Type} `{Ord K} (key : A → K).

Fixpoint sort_insert (x : A) (l : list A) : list A :=
  match l with
  | [] => [x]
  | y :: l' => if decide (ord_le (key x) (key y)) then x :: l else y :: sort_insert x l'
  end.

(** [Vec::sort_by_key] *)
Definition sort_by_key (l : list A) : list A := foldr sort_insert [] l.

Definition key_le (x y : A) : Prop := ord_le (key x) (key y).

Lemma sort_insert_perm x l : sort_insert x l ≡ₚ x :: l.
Proof.
  induction l as [|y l IH]; simpl; [done|].
  case_decide; [done|]. rewrite IH. constructor.
Qed.

Lemma sort_by_key_perm l : sort_by_key l ≡ₚ l.
Proof. induction l as [|x l IH]; simpl; [done|]. by rewrite sort_insert_perm, IH. Qed.

Lemma elem_of_sort_by_key x l : x ∈ sort_by_key l ↔ x ∈ l.
Proof. by rewrite sort_by_key_perm. Qed.

Lemma sort_insert_sorted x l :
  StronglySorted key_le l → StronglySorted key_le (sort_insert x l).
Proof.
  induction 1 as [|y l Hl IH Hy]; simpl; [repeat constructor|].
  case_decide as Hle.
  - constructor; [by constructor|]. constructor; [done|].
    eapply Forall_impl; [exact Hy|]. unfold key_le. intros z Hz. simpl in Hz. by etrans.
  - constructor; [done|]. rewrite sort_insert_perm. constructor; [|done].
    unfold key_le. destruct (total ord_le (key x) (key y)); done.
Qed.

Lemma sort_by_key_sorted l : StronglySorted key_le (sort_by_key l).
Proof. induction l; simpl; [constructor|]. by apply sort_insert_sorted. Qed.

(** Sorting leaves a sorted vector as it is. *)
Lemma sort_by_key_id l : StronglySorted key_le l → sort_by_key l = l.
Proof.
  induction 1 as [|x l Hl IH Hx]; simpl; [done|]. rewrite IH.
  destruct l as [|y l]; simpl; [done|].
  rewrite decide_True; [done|]. by inversion Hx.
Qed.

Lemma sort_by_key_idemp l : sort_by_key (sort_by_key l) = sort_by_key l.
Proof. apply sort_by_key_id, sort_by_key_sorted. Qed.
End sorting.

Lemma StronglySorted_filter {A} (R : relation A) (P : A → Prop) `{∀ x, Decision (P x)} l :
  StronglySorted R l → StronglySorted R (filter P l).
Proof.
  induction 1 as [|x l Hl IH Hx]; [constructor|]. rewrite filter_cons. case_decide; [|done].
  constructor; [done|]. rewrite Forall_forall in Hx. apply Forall_forall.
  intros y [_ Hy]%list_elem_of_filter. auto.
Qed.

(** [Vec::sort] / [sort_unstable] on a type whose equal elements are identical. *)
Definition sort {K} `{Ord K} (l : list K) : list K := sort_by_key id l.

(** The result of a sort depends on the elements, not on their order. *)
Lemma sort_proper_perm {K} `{Ord K} (l1 l2 : list K) : l1 ≡ₚ l2 → sort l1 = sort l2.
Proof.
  intros Hp. apply (StronglySorted_unique ord_le); [apply (sort_by_key_sorted id)..|].
  unfold sort. by rewrite !(sort_by_key_perm id).
Qed.

(** [Vec::dedup]: drop an element equal to the one kept before it. *)
Fixpoint dedup {A} `{EqDecision A} (l : list A) : list A :=
  match l with
  | [] => []
  | x :: l' =>
      match dedup l' with
      | [] => [x]
      | y :: r => if decide (x = y) then y :: r else x :: y :: r
      end
  end.

Section dedup.
Context {A : Type} `{EqDecision A}.

Lemma elem_of_dedup (x : A) l : x ∈ dedup l ↔ x ∈ l.
Proof.
  induction l as [|y l IH]; simpl; [done|].
  rewrite elem_of_cons, <-IH. destruct (dedup l) as [|z r].
  - set_solver.
  - case_decide; subst; rewrite !elem_of_cons; tauto.
Qed.

Lemma dedup_NoDup_id (l : list A) : NoDup l → dedup l = l.
Proof.
  induction 1 as [|x l Hx Hl IH]; simpl; [done|]. rewrite IH.
  destruct l; [done|]. rewrite decide_False; [done|]. set_solver.
Qed.
End dedup.

Lemma dedup_sorted {K} `{Ord K, EqDecision K} (l : list K) :
  StronglySorted ord_le l → StronglySorted ord_le (dedup l) ∧ NoDup (dedup l).
Proof.
  induction 1 as [|x l Hl [IHs IHn] Hx]; simpl; [by split; constructor|].
  assert (Forall (ord_le x) (dedup l)) as Hx'.
  { apply Forall_forall. intros y. rewrite elem_of_dedup. rewrite Forall_forall in Hx. auto. }
  destruct (dedup l) as [|y r]; [split; [by repeat constructor|apply NoDup_singleton]|].
  case_decide as Heq; [done|]. split; [by constructor|].
  apply NoDup_cons. split; [|done].
  inversion IHs as [|? ? _ Hy]; subst. inversion Hx' as [|? ? Hxy _]; subst.
  intros [->|Hin]%elem_of_cons; [done|].
  rewrite Forall_forall in Hy. apply Heq. apply (anti_symm ord_le); auto.
Qed.

(** [v.sort_unstable(); v.dedup()] *)
Definition sort_dedup {K} `{Ord K, EqDecision K} (l : list K) : list K := dedup (sort l).

Lemma sort_dedup_spec {K} `{Ord K, EqDecision K} (l : list K) :
  StronglySorted ord_le (sort_dedup l) ∧ NoDup (sort_dedup l) ∧
  ∀ x, x ∈ sort_dedup l ↔ x ∈ l.
Proof.
  unfold sort_dedup, sort.
  destruct (dedup_sorted (sort_by_key id l)) as [Hs Hn]; [apply sort_by_key_sorted|].
  split_and!; [done..|]. intros x. by rewrite elem_of_dedup, elem_of_sort_by_key.
Qed.

Lemma sort_dedup_idemp {K} `{Ord K, EqDecision K} (l : list K) :
  sort_dedup (sort_dedup l) = sort_dedup l.
Proof.
  destruct (sort_dedup_spec l) as (Hs & Hn & _).
  unfold sort_dedup at 1, sort. rewrite sort_by_key_id by exact Hs.
  by apply dedup_NoDup_id.
Qed.

(** ** [BTreeMap] and [BTreeSet] *)

Section btree.
Context {K : Type} `{Ord K, Countable K}.

(** [map.iter()]: the entries in ascending key order. *)
Definition bt_entries {V} (m : gmap K V) : list (K * V) := sort_by_key fst (map_to_list m).
(** [map.values()] and [map.keys()] *)
Definition bt_values {V} (m : gmap K V) : list V := (bt_entries m).*2.
Definition bt_keys {V} (m : gmap K V) : list K := (bt_entries m).*1.
(** [set.iter()] *)
Definition bs_elems (s : gset K) : list K := sort (elements s).
(** [iter.collect::<BTreeMap<_, _>>()]: a later entry replaces an earlier one. *)
Definition bt_collect {V} (l : list (K * V)) : gmap K V :=
  foldl (λ m kv, <[kv.1 := kv.2]> m) ∅ l.
(** [iter.collect::<BTreeSet<_>>()] *)
Definition bs_collect (l : list K) : gset K := list_to_set l.
(** [if !set.insert(k) { return Err(e) }] *)
Definition insert_unique {E} (s : gset K) (k : K) (e : E) : result E (gset K) :=
  if decide (k ∈ s) then Err e else Ok ({[k]} ∪ s).

Lemma elem_of_bt_entries {V} (m : gmap K V) k v : (k, v) ∈ bt_entries m ↔ m !! k = Some v.
Proof. unfold bt_entries. by rewrite elem_of_sort_by_key, elem_of_map_to_list. Qed.

Lemma NoDup_bt_keys {V} (m : gmap K V) : NoDup (bt_entries m).*1.
Proof.
  unfold bt_entries. rewrite (sort_by_key_perm fst). apply NoDup_fst_map_to_list.
Qed.

Lemma bt_entries_empty {V} : bt_entries (∅ : gmap K V) = [].
Proof. unfold bt_entries. by rewrite map_to_list_empty. Qed.

Lemma elem_of_bt_values {V} (m : gmap K V) v : v ∈ bt_values m ↔ ∃ k, m !! k = Some v.
Proof.
  unfold bt_values. rewrite list_elem_of_fmap. split.
  - intros ([k v'] & -> & Hin%elem_of_bt_entries). eauto.
  - intros (k & Hk). exists (k, v). by rewrite elem_of_bt_entries.
Qed.

Lemma elem_of_bs_elems (s : gset K) k : k ∈ bs_elems s ↔ k ∈ s.
Proof. unfold bs_elems, sort. by rewrite elem_of_sort_by_key, elem_of_elements. Qed.

Lemma NoDup_bs_elems (s : gset K) : NoDup (bs_elems s).
Proof. unfold bs_elems, sort. rewrite (sort_by_key_perm id). apply NoDup_elements. Qed.

Lemma elem_of_bs_collect (l : list K) k : k ∈ bs_collect l ↔ k ∈ l.
Proof. unfold bs_collect. by rewrite elem_of_list_to_set. Qed.

Lemma insert_unique_Ok {E} (s : gset K) k (e : E) s' :
  insert_unique s k e = Ok s' ↔ k ∉ s ∧ s' = {[k]} ∪ s.
Proof. unfold insert_unique. case_decide; naive_solver. Qed.

Lemma bind_insert_unique_Ok {E B} (s : gset K) k (e : E) (f : gset K → result E B) b :
  (insert_unique s k e ≫= f) = Ok b ↔ k ∉ s ∧ f ({[k]} ∪ s) = Ok b.
Proof. rewrite bind_Ok. setoid_rewrite insert_unique_Ok. naive_solver. Qed.

Lemma bt_collect_snoc {V} l (kv : K * V) :
  bt_collect (l ++ [kv]) = <[kv.1 := kv.2]> (bt_collect l).
Proof. unfold bt_collect. by rewrite foldl_snoc. Qed.

(** A key is bound exactly when some entry carries it, and what it is bound
    to comes from such an entry. *)
Lemma bt_collect_Some {V} (l : list (K * V)) k v :
  bt_collect l !! k = Some v → (k, v) ∈ l.
Proof.
  induction l as [|[k' v'] l IH] using rev_ind; [by unfold bt_collect; simplify_map_eq|].
  rewrite bt_collect_snoc; simpl. destruct (decide (k' = k)) as [->|Hne];
    rewrite ?lookup_insert_eq, ?lookup_insert_ne by done; intros Hl; simplify_eq; set_solver.
Qed.

Lemma bt_collect_None {V} (l : list (K * V)) k :
  bt_collect l !! k = None ↔ k ∉ l.*1.
Proof.
  induction l as [|[k' v'] l IH] using rev_ind; [unfold bt_collect; set_solver|].
  rewrite bt_collect_snoc, fmap_app; simpl. destruct (decide (k' = k)) as [->|Hne].
  - rewrite lookup_insert_eq. set_solver.
  - rewrite lookup_insert_ne by done. rewrite IH. set_solver.
Qed.

Lemma bt_collect_is_Some {V} (l : list (K * V)) k :
  is_Some (bt_collect l !! k) ↔ k ∈ l.*1.
Proof.
  rewrite <-not_eq_None_Some, bt_collect_None. split; [apply dec_stable | auto].
Qed.

(** With distinct keys, or equal values for equal keys, lookup is membership. *)
Lemma bt_collect_lookup {V} (l : list (K * V)) k v :
  (∀ v', (k, v') ∈ l → v' = v) → (k, v) ∈ l → bt_collect l !! k = Some v.
Proof.
  intros Hun Hin. destruct (bt_collect l !! k) as [v'|] eqn:Hl.
  - by rewrite (Hun v' (bt_collect_Some _ _ _ Hl)).
  - apply bt_collect_None in Hl. destruct Hl. apply list_elem_of_fmap. by exists (k, v).
Qed.

(** The entries of a map are in strictly ascending key order. *)
Lemma bt_entries_sorted {V} (m : gmap K V) :
  StronglySorted (λ x y : K * V, ord_le x.1 y.1) (bt_entries m).
Proof. apply (sort_by_key_sorted fst). Qed.

(** Sorted entries with distinct keys are determined by the entries. *)
Lemma bt_entries_unique {V} (m : gmap K V) l :
  StronglySorted (λ x y : K * V, ord_le x.1 y.1) l → NoDup l.*1 →
  (∀ k v, (k, v) ∈ l ↔ m !! k = Some v) → bt_entries m = l.
Proof.
  intros Hs Hnd Hin. apply (StronglySorted_unique_strong (λ x y : K * V, ord_le x.1 y.1)).
  - intros [k1 v1] [k2 v2] H1%elem_of_bt_entries H2%Hin Hle1 Hle2. simpl in *.
    assert (k1 = k2) as <- by (by apply (anti_symm ord_le)). congruence.
  - apply bt_entries_sorted.
  - done.
  - apply NoDup_Permutation.
    + apply (NoDup_fmap_1 fst), NoDup_bt_keys.
    + by apply (NoDup_fmap_1 fst).
    + intros [k v]. by rewrite elem_of_bt_entries, Hin.
Qed.

(** A map that tabulates a function on a set. *)
Lemma bt_entries_set_to_map {V} (g : K → V) (s : gset K) :
  bt_entries (set_to_map (λ k, (k, g k)) s : gmap K V) = (λ k, (k, g k)) <$> bs_elems s.
Proof.
  apply bt_entries_unique.
  - eapply StronglySorted_fmap; [|apply (sort_by_key_sorted id)]. done.
  - rewrite <-list_fmap_compose, list_fmap_id. apply NoDup_bs_elems.
  - intros k v. rewrite lookup_set_to_map by done. rewrite list_elem_of_fmap.
    setoid_rewrite elem_of_bs_elems. naive_solver.
Qed.

Lemma bt_entries_nil {V} (m : gmap K V) : bt_entries m = [] → m = ∅.
Proof.
  intros Hnil. apply map_eq. intros k. rewrite lookup_empty.
  destruct (m !! k) as [v|] eqn:Hk; [|done].
  apply elem_of_bt_entries in Hk. rewrite Hnil in Hk. by apply elem_of_nil in Hk.
Qed.
End btree.
#[export] Hint Rewrite @elem_of_bt_values @elem_of_bs_elems @elem_of_bs_collect : rust.
