(* ===== verification/RustString.v ===== *)
(** * Strings of the Rust standard library

    A [String]/[&str] is its UTF-8 byte string.  [trim], [strip_prefix],
    [contains], [to_ascii_lowercase], [join], [format!] of integers and the
    parser of [Ipv4Addr] are written out as the standard library has them. *)
From S2P Require Export RustStd.
From Stdlib Require Export Ascii.

(** ** Bytes *)

Definition bytes (s : string) : list ascii := String.list_ascii_of_string s.
Definition of_bytes (l : list ascii) : string := String.string_of_list_ascii l.
Definition byte (n : N) : ascii := ascii_of_N n.

Lemma of_bytes_bytes s : of_bytes (bytes s) = s.
Proof. apply String.string_of_list_ascii_of_string. Qed.
Lemma bytes_of_bytes l : bytes (of_bytes l) = l.
Proof. apply String.list_ascii_of_string_of_list_ascii. Qed.
#[export] Instance bytes_inj : Inj (=) (=) bytes.
Proof. intros s1 s2 Heq. by rewrite <-(of_bytes_bytes s1), <-(of_bytes_bytes s2), Heq. Qed.

Lemma bytes_app s1 s2 : bytes (s1 +:+ s2) = bytes s1 ++ bytes s2.
Proof. induction s1 as [|a s1 IH]; [done|].
  change (a :: bytes (s1 +:+ s2) = a :: bytes s1 ++ bytes s2). by rewrite IH.
Qed.
Lemma of_bytes_app l1 l2 : of_bytes (l1 ++ l2) = of_bytes l1 +:+ of_bytes l2.
Proof. apply (inj bytes). by rewrite bytes_app, !bytes_of_bytes. Qed.

(** [str::is_empty] *)
Definition str_is_empty (s : string) : bool := bool_decide (s = "").

(** [char::is_ascii_alphanumeric] *)
Definition is_ascii_alphanumeric (c : ascii) : bool :=
  let n := N_of_ascii c in
  ((48 <=? n) && (n <=? 57) || (65 <=? n) && (n <=? 90) || (97 <=? n) && (n <=? 122))%N.

(** ** [str::trim]

    The UTF-8 encodings of the code points with the Unicode property
    [White_Space]: U+0009..000D, U+0020, U+0085, U+00A0, U+1680,
    U+2000..200A, U+2028, U+2029, U+202F, U+205F and U+3000. *)
Definition whitespace : list (list ascii) :=
  ((λ n, [byte n]) <$> [9; 10; 11; 12; 13; 32]%N) ++
  [[byte 194; byte 133]; [byte 194; byte 160]; [byte 225; byte 154; byte 128]] ++
  ((λ n, [byte 226; byte 128; byte n]) <$>
     [128; 129; 130; 131; 132; 133; 134; 135; 136; 137; 138; 168; 169; 175]%N) ++
  [[byte 226; byte 129; byte 159]; [byte 227; byte 128; byte 128]].

Section strip.
Variable ws : list (list ascii).

(** Remove one of the sequences [ws] from the front, if one is there. *)
Definition strip_one (l : list ascii) : option (list ascii) :=
  match filter (λ w, w `prefix_of` l) ws with
  | [] => None
  | w :: _ => Some (drop (length w) l)
  end.

Fixpoint strip_all (fuel : nat) (l : list ascii) : list ascii :=
  match fuel with
  | O => l
  | S fuel => match strip_one l with Some l' => strip_all fuel l' | None => l end
  end.

Lemma strip_one_None l : strip_one l = None ↔ ∀ w, w ∈ ws → ¬ w `prefix_of` l.
Proof.
  unfold strip_one. destruct (filter _ ws) as [|w r] eqn:Hf.
  - split; [|done]. intros _ w Hw Hp.
    assert (w ∈ filter (λ w, w `prefix_of` l) ws) as Hin
      by (by apply list_elem_of_filter).
    rewrite Hf in Hin. by apply elem_of_nil in Hin.
  - split; [done|]. intros Hno.
    assert (w ∈ filter (λ w, w `prefix_of` l) ws) as Hin by (rewrite Hf; by left).
    apply list_elem_of_filter in Hin as [Hp Hw]. by destruct (Hno w Hw).
Qed.

Hypothesis ws_nonempty : [] ∉ ws.

Lemma strip_one_shorter l l' : strip_one l = Some l' → length l' < length l ∧ l' `suffix_of` l.
Proof.
  unfold strip_one. destruct (filter _ ws) as [|w r] eqn:Hf; [done|]. intros [= <-].
  assert (w ∈ filter (λ w, w `prefix_of` l) ws) as Hin by (rewrite Hf; by left).
  apply list_elem_of_filter in Hin as [[k ->] Hw]. rewrite drop_app_length.
  split; [|by eexists].
  rewrite length_app. destruct w; [done|]. simpl. lia.
Qed.

Lemma strip_all_suffix fuel l : strip_all fuel l `suffix_of` l.
Proof.
  revert l. induction fuel as [|fuel IH]; intros l; simpl; [done|].
  destruct (strip_one l) as [l'|] eqn:Hs; [|done].
  etrans; [apply IH|]. by apply strip_one_shorter.
Qed.

(** Enough fuel, the length, strips everything there is to strip. *)
Lemma strip_all_done fuel l : length l ≤ fuel → strip_one (strip_all fuel l) = None.
Proof.
  revert l. induction fuel as [|fuel IH]; intros l Hlen; simpl.
  - destruct l; [|simpl in Hlen; lia]. apply strip_one_None.
    intros w Hw Hp. apply prefix_nil_inv in Hp. by subst.
  - destruct (strip_one l) as [l'|] eqn:Hs; [|done].
    apply IH. apply strip_one_shorter in Hs. lia.
Qed.

Lemma strip_all_id fuel l : strip_one l = None → strip_all fuel l = l.
Proof. destruct fuel; simpl; [done|]. by intros ->. Qed.
End strip.

Definition trim_start_bytes (l : list ascii) : list ascii := strip_all whitespace (length l) l.
Definition trim_end_bytes (l : list ascii) : list ascii :=
  reverse (strip_all (reverse <$> whitespace) (length l) (reverse l)).

(** [str::trim_start] and [str::trim] *)
Definition trim_start (s : string) : string := of_bytes (trim_start_bytes (bytes s)).
Definition trim (s : string) : string := of_bytes (trim_end_bytes (trim_start_bytes (bytes s))).

(** Neither end of the bytes is white space. *)
Definition trimmed_bytes (l : list ascii) : Prop :=
  (∀ w, w ∈ whitespace → ¬ w `prefix_of` l) ∧ (∀ w, w ∈ whitespace → ¬ w `suffix_of` l).

Lemma whitespace_nonempty : [] ∉ whitespace.
Proof. by apply (bool_decide_unpack _). Qed.
Lemma whitespace_rev_nonempty : [] ∉ reverse <$> whitespace.
Proof. by apply (bool_decide_unpack _). Qed.

Lemma trim_bytes_trimmed l : trimmed_bytes (trim_end_bytes (trim_start_bytes l)).
Proof.
  unfold trim_end_bytes. set (l1 := trim_start_bytes l).
  assert (∀ w, w ∈ whitespace → ¬ w `prefix_of` l1) as Hstart.
  { apply strip_one_None, strip_all_done; [apply whitespace_nonempty|done]. }
  assert (strip_one (reverse <$> whitespace)
    (strip_all (reverse <$> whitespace) (length l1) (reverse l1)) = None) as Hend.
  { apply strip_all_done; [apply whitespace_rev_nonempty|]. by rewrite length_reverse. }
  rewrite strip_one_None in Hend. split.
  - intros w Hw Hp. apply (Hstart w Hw). etrans; [exact Hp|].
    pose proof (strip_all_suffix _ whitespace_rev_nonempty (length l1) (reverse l1)) as Hsuf.
    apply suffix_prefix_reverse in Hsuf. by rewrite reverse_involutive in Hsuf.
  - intros w Hw Hs. apply (Hend (reverse w)); [by apply list_elem_of_fmap_2|].
    apply suffix_prefix_reverse in Hs. by rewrite reverse_involutive in Hs.
Qed.

Lemma trimmed_bytes_fixed l :
  trimmed_bytes l → trim_end_bytes (trim_start_bytes l) = l.
Proof.
  intros [Hp Hs]. unfold trim_start_bytes.
  rewrite strip_all_id by (by apply strip_one_None). unfold trim_end_bytes.
  rewrite strip_all_id; [apply reverse_involutive|]. apply strip_one_None.
  intros w (w' & -> & Hw')%list_elem_of_fmap Hpre.
  apply (Hs w' Hw'). by apply suffix_prefix_reverse.
Qed.

Definition trimmed (s : string) : Prop := trimmed_bytes (bytes s).

Lemma trim_trimmed s : trimmed (trim s).
Proof. unfold trimmed, trim. rewrite bytes_of_bytes. apply trim_bytes_trimmed. Qed.

Lemma trimmed_trim s : trimmed s → trim s = s.
Proof.
  intros Hs. unfold trim. rewrite trimmed_bytes_fixed by exact Hs. apply of_bytes_bytes.
Qed.

Lemma trim_idemp s : trim (trim s) = trim s.
Proof. apply trimmed_trim, trim_trimmed. Qed.
#[export] Hint Rewrite trim_idemp : rust.

(** ** Searching and case *)

(** [str::strip_prefix] and [str::starts_with] *)
Definition strip_prefix (p s : string) : option string :=
  if decide (bytes p `prefix_of` bytes s)
  then Some (of_bytes (drop (length (bytes p)) (bytes s))) else None.
Definition starts_with (s p : string) : bool := bool_decide (bytes p `prefix_of` bytes s).

Lemma strip_prefix_Some p s r : strip_prefix p s = Some r ↔ s = p +:+ r.
Proof.
  unfold strip_prefix. case_decide as Hp.
  - destruct Hp as [k Hk]. split.
    + intros [= <-]. apply (inj bytes). rewrite bytes_app, bytes_of_bytes, Hk.
      by rewrite drop_app_length.
    + intros ->. rewrite bytes_app, drop_app_length. by rewrite of_bytes_bytes.
  - split; [done|]. intros ->. destruct Hp. rewrite bytes_app. by eexists.
Qed.

(** [str::contains] of a [&str] pattern *)
Fixpoint contains_bytes (p l : list ascii) : bool :=
  bool_decide (p `prefix_of` l) ||
  match l with [] => false | _ :: l' => contains_bytes p l' end.
Definition str_contains (s p : string) : bool := contains_bytes (bytes p) (bytes s).

(** [str::to_ascii_lowercase].  [str::to_lowercase] maps no other character to
    one of the letters of the patterns it is searched for, so the searches of
    the core agree on both. *)
Definition ascii_lower (c : ascii) : ascii :=
  let n := N_of_ascii c in
  if ((65 <=? n) && (n <=? 90))%N then byte (n + 32) else c.
Definition to_ascii_lowercase (s : string) : string := of_bytes (ascii_lower <$> bytes s).

(** [[String]::join] *)
Fixpoint join (sep : string) (l : list string) : string :=
  match l with
  | [] => ""
  | [x] => x
  | x :: l => x +:+ sep +:+ join sep l
  end.

(** [{:?}] of a [str]: quotes, backslashes and the ASCII controls are escaped,
    printable characters stand for themselves. *)
Definition hex_digit (n : N) : ascii := if (n <? 10)%N then byte (48 + n) else byte (87 + n).
Definition debug_byte (c : ascii) : list ascii :=
  let n := N_of_ascii c in
  if (n =? 34)%N || (n =? 92)%N then [byte 92; c]
  else if (n =? 9)%N then [byte 92; byte 116]
  else if (n =? 10)%N then [byte 92; byte 110]
  else if (n =? 13)%N then [byte 92; byte 114]
  else if (n =? 0)%N then [byte 92; byte 48]
  else if (n <? 16)%N then [byte 92; byte 117; byte 123; hex_digit n; byte 125]
  else if (n <? 32)%N || (n =? 127)%N
    then [byte 92; byte 117; byte 123; hex_digit (n / 16); hex_digit (n mod 16); byte 125]
  else [c].
Definition debug_str (s : string) : string :=
  of_bytes ([byte 34] ++ (bytes s ≫= debug_byte) ++ [byte 34]).

(** ** [Ipv4Addr::from_str]

    Four decimal octets separated by dots, each of one to three digits, at
    most 255 and without a leading zero. *)
Definition digit_val (c : ascii) : option N :=
  let n := N_of_ascii c in if ((48 <=? n) && (n <=? 57))%N then Some (n - 48)%N else None.

Definition parse_octet (l : list ascii) : option N :=
  match mapM digit_val l with
  | None => None
  | Some ds =>
      let v := foldl (λ a d, a * 10 + d)%N 0%N ds in
      if bool_decide (l = []) || (3 <? length l)%nat || (U8_MAX <? v)%N
         || (bool_decide (head l = Some (byte 48)) && (1 <? length l)%nat)
      then None else Some v
  end.

Fixpoint split_dots (l cur : list ascii) : list (list ascii) :=
  match l with
  | [] => [reverse cur]
  | c :: l => if bool_decide (c = byte 46) then reverse cur :: split_dots l []
              else split_dots l (c :: cur)
  end.

Definition parse_ipv4 (s : string) : option (N * N * N * N) :=
  match split_dots (bytes s) [] with
  | [a; b; c; d] =>
      a ← parse_octet a; b ← parse_octet b; c ← parse_octet c; d ← parse_octet d;
      Some (a, b, c, d)
  | _ => None
  end.
Definition is_ipv4 (s : string) : bool := bool_decide (is_Some (parse_ipv4 s)).

Example parse_ipv4_examples :
  parse_ipv4 "10.0.255.1" = Some (10, 0, 255, 1)%N ∧
  parse_ipv4 "10.0.256.1" = None ∧ parse_ipv4 "10.0.01.1" = None ∧
  parse_ipv4 "10.0.1" = None ∧ parse_ipv4 "" = None ∧ parse_ipv4 "1.2.3.4 " = None.
Proof. by vm_compute. Qed.

(** ** Formatted integers *)

(** [{n}] of an unsigned integer *)
Definition fmt_N (n : N) : string := pretty n.
Definition fmt_usize (n : nat) : string := pretty n.
(** [{o:?}] of an [Option<u16>] and of a [Vec<u16>] *)
Definition debug_opt_N (o : option N) : string :=
  match o with None => "None" | Some n => "Some(" +:+ fmt_N n +:+ ")" end.
Definition debug_vec_N (l : list N) : string := "[" +:+ join ", " (fmt_N <$> l) +:+ "]".

#[export] Instance fmt_N_inj : Inj (=) (=) fmt_N.
Proof. unfold fmt_N. apply _. Qed.

(** ** [str::parse::<usize>] and [str::parse::<u64>], on 64 bits *)
Definition parse_digits (l : list ascii) : result string N :=
  match mapM digit_val l with
  | None => Err "invalid digit found in string"
  | Some ds => let v := foldl (λ a d, a * 10 + d)%N 0%N ds in
               if (v <? 2 ^ 64)%N then Ok v
               else Err "number too large to fit in target type"
  end.
Definition parse_u64 (s : string) : result string N :=
  match bytes s with
  | [] => Err "cannot parse integer from empty string"
  | [c] => parse_digits [c]
  | c :: l => parse_digits (if bool_decide (c = byte 43) then l else c :: l)
  end.

Example parse_u64_examples :
  parse_u64 "0" = Ok 0%N ∧ parse_u64 "+42" = Ok 42%N ∧ is_ok (parse_u64 "-1") = false ∧
  is_ok (parse_u64 "+") = false ∧ is_ok (parse_u64 "18446744073709551616") = false ∧
  parse_u64 "18446744073709551615" = Ok (2 ^ 64 - 1)%N.
Proof. by vm_compute. Qed.
