(* ===== verification/Model.v ===== *)
(** * The data model (src/model/) and the error type (src/error.rs)

    One type per struct or enum, with the source's fields and variants.  A
    field is named after its struct so that the same field name of two
    structs does not clash.  [u16], [u32] and [u64] fields are [N]. *)
From S2P Require Export RustString.

(** ** src/model/common.rs *)

Record DeviceId := mkDeviceId { device_id_0 : string }.
#[export] Instance DeviceId_eq_dec : EqDecision DeviceId.
Proof. solve_decision. Defined.
#[export] Program Instance DeviceId_countable : Countable DeviceId :=
  inj_countable' device_id_0 mkDeviceId _.
Next Obligation. by intros []. Qed.

#[export] Instance mkDeviceId_inj : Inj (=) (=) mkDeviceId.
Proof. by intros ?? [=]. Qed.

(** [DeviceId] derives [Ord]: the order of the wrapped string. *)
#[export] Program Instance DeviceId_ord : Ord DeviceId :=
  {| ord_le d1 d2 := ord_le (device_id_0 d1) (device_id_0 d2) |}.
Next Obligation. intros [] []. apply _. Defined.
Next Obligation.
  split; [split|].
  - intros []. done.
  - intros [] [] []. simpl. apply (transitivity (R := String.le)).
  - intros [s1] [s2] H1 H2. f_equal. by apply (anti_symm String.le).
Qed.
Next Obligation. intros [s1] [s2]. apply (total String.le). Qed.

Definition identifier_byte (c : ascii) : bool :=
  is_ascii_alphanumeric c || bool_decide (c = "-"%char) || bool_decide (c = "_"%char).
Definition is_canonical_identifier (value : string) : bool :=
  negb (str_is_empty value) && forallb identifier_byte (bytes value).
Definition is_canonical (d : DeviceId) : bool := is_canonical_identifier (device_id_0 d).
Definition canonical_rule : string :=
  "must be non-empty and contain only ASCII letters, digits, '-' or '_'".

Inductive Vendor := Huawei | H3c | Cisco | Ruijie | VendorUnknown.
#[export] Instance Vendor_eq_dec : EqDecision Vendor.
Proof. solve_decision. Defined.

Inductive DeviceRole := LeafA | LeafB.
#[export] Instance DeviceRole_eq_dec : EqDecision DeviceRole.
Proof. solve_decision. Defined.

(** ** src/model/vlan.rs and src/model/interface.rs *)

Record VlanConfig := mkVlanConfig {
  vlan_id : N;
  vlan_name : option string;
  vlan_description : option string;
}.
#[export] Instance VlanConfig_eq_dec : EqDecision VlanConfig.
Proof. solve_decision. Defined.

Inductive AdminState := Up | Down.
#[export] Instance AdminState_eq_dec : EqDecision AdminState.
Proof. solve_decision. Defined.

Inductive PortMode :=
  | Access (vlan_id : N)
  | Trunk (native_vlan : option N) (allowed_vlans : list N).
#[export] Instance PortMode_eq_dec : EqDecision PortMode.
Proof. solve_decision. Defined.

Record InterfaceConfig := mkInterfaceConfig {
  if_name : string;
  if_admin_state : AdminState;
  if_description : option string;
  if_mode : PortMode;
}.
#[export] Instance InterfaceConfig_eq_dec : EqDecision InterfaceConfig.
Proof. solve_decision. Defined.

(** ** src/model/acl.rs *)

Inductive AclAction := Permit | Deny.
Inductive AclProtocol := Ip | Tcp | Udp | Icmp.
Inductive AclDirection := Inbound | Outbound.
Inductive AclKind := AdvancedIpv4 | BasicIpv4.
#[export] Instance AclAction_eq_dec : EqDecision AclAction.
Proof. solve_decision. Defined.
#[export] Instance AclProtocol_eq_dec : EqDecision AclProtocol.
Proof. solve_decision. Defined.
#[export] Instance AclDirection_eq_dec : EqDecision AclDirection.
Proof. solve_decision. Defined.
#[export] Instance AclKind_eq_dec : EqDecision AclKind.
Proof. solve_decision. Defined.

Record AclEndpoint := mkAclEndpoint { ep_address : string; ep_wildcard : string }.
#[export] Instance AclEndpoint_eq_dec : EqDecision AclEndpoint.
Proof. solve_decision. Defined.

Record AclRule := mkAclRule {
  sequence : N;
  rule_action : AclAction;
  protocol : AclProtocol;
  source : option AclEndpoint;
  destination : option AclEndpoint;
  source_port_eq : option N;
  destination_port_eq : option N;
  rule_description : option string;
}.
#[export] Instance AclRule_eq_dec : EqDecision AclRule.
Proof. solve_decision. Defined.

Record AclConfig := mkAclConfig {
  acl_id : N;
  acl_kind : AclKind;
  acl_name : option string;
  acl_description : option string;
  acl_rules : list AclRule;
}.
#[export] Instance AclConfig_eq_dec : EqDecision AclConfig.
Proof. solve_decision. Defined.

Record AclBinding := mkAclBinding {
  ab_interface_name : string;
  ab_direction : AclDirection;
  ab_acl_id : N;
}.
#[export] Instance AclBinding_eq_dec : EqDecision AclBinding.
Proof. solve_decision. Defined.

Definition acl_binding_key (interface_name : string) (direction : AclDirection) : string :=
  interface_name +:+ "|" +:+
  match direction with Inbound => "inbound" | Outbound => "outbound" end.
Definition AclBinding_key (b : AclBinding) : string :=
  acl_binding_key (ab_interface_name b) (ab_direction b).

(** ** src/model/bgp.rs *)

Record BgpProcess := mkBgpProcess {
  bp_vrf : string;
  bp_local_as : N;
  bp_router_id : option string;
}.
#[export] Instance BgpProcess_eq_dec : EqDecision BgpProcess.
Proof. solve_decision. Defined.

Record BgpNeighbor := mkBgpNeighbor {
  bn_vrf : string;
  bn_address : string;
  bn_remote_as : N;
  bn_description : option string;
  bn_import_policy : option string;
  bn_export_policy : option string;
}.
#[export] Instance BgpNeighbor_eq_dec : EqDecision BgpNeighbor.
Proof. solve_decision. Defined.

Definition bgp_neighbor_key (vrf address : string) : string := vrf +:+ "|" +:+ address.
Definition BgpNeighbor_key (n : BgpNeighbor) : string :=
  bgp_neighbor_key (bn_vrf n) (bn_address n).

(** ** src/error.rs *)

Record AdapterErrorDetail := mkAdapterErrorDetail { aed_code : string; aed_message : string }.
#[export] Instance AdapterErrorDetail_eq_dec : EqDecision AdapterErrorDetail.
Proof. solve_decision. Defined.

Inductive UnderlayError :=
  | DeviceAlreadyExists (device : string)
  | DeviceNotFound (device : string)
  | InvalidDeviceState (message : string)
  | AdapterTransport (message : string)
  | AdapterOperation (code message : string) (retryable : bool) (errors : list AdapterErrorDetail)
  | InvalidIntent (message : string)
  | AuthorizationDenied (message : string)
  | AuthenticationFailed (message : string)
  | ProductAuditWriteFailed (message : string)
  | InvalidPhaseTransition (from to : string)
  | UnsupportedTransactionStrategy
  | Internal (message : string).
#[export] Instance UnderlayError_eq_dec : EqDecision UnderlayError.
Proof. solve_decision. Defined.

Notation UnderlayResult := (result UnderlayError).

(** ** Keys

    The separator of a binding key occurs in neither direction name, so the key
    determines the interface and the direction, whatever bytes the interface
    name has. *)
Lemma app_inj_r (l1 l2 k : list ascii) : l1 ++ k = l2 ++ k → l1 = l2.
Proof. apply (inj (.++ k)). Qed.

Lemma string_app_inj_r s1 s2 t : s1 +:+ t = s2 +:+ t → s1 = s2.
Proof.
  intros Heq%(f_equal bytes). rewrite !bytes_app in Heq.
  apply app_inj_r in Heq. by apply (inj bytes).
Qed.

#[export] Instance acl_binding_key_inj : Inj2 (=) (=) (=) acl_binding_key.
Proof.
  intros i1 d1 i2 d2 Heq. unfold acl_binding_key in Heq.
  assert (d1 = d2) as <-.
  { apply (f_equal bytes) in Heq. rewrite !bytes_app in Heq.
    apply (f_equal reverse) in Heq. rewrite !reverse_app in Heq.
    destruct d1, d2; by simplify_eq/=. }
  split; [|done]. by apply string_app_inj_r in Heq.
Qed.
