(* ===== verification/Intent.v ===== *)
(** * The intents (src/intent/): what a caller asks for *)
From S2P Require Export Model.

(** ** src/intent/vlan.rs, interface.rs, acl.rs, bgp.rs *)

Record VlanIntent := mkVlanIntent {
  vi_vlan_id : N;
  vi_name : option string;
  vi_description : option string;
}.
Record InterfaceIntent := mkInterfaceIntent {
  ii_device_id : DeviceId;
  ii_name : string;
  ii_admin_state : AdminState;
  ii_description : option string;
  ii_mode : PortMode;
}.
Record InterfaceDeleteIntent := mkInterfaceDeleteIntent {
  idi_device_id : DeviceId;
  idi_name : string;
}.
Record AclIntent := mkAclIntent {
  ai_acl_id : N;
  ai_kind : AclKind;
  ai_name : option string;
  ai_description : option string;
  ai_rules : list AclRule;
}.
Record AclBindingIntent := mkAclBindingIntent {
  abi_device_id : DeviceId;
  abi_interface_name : string;
  abi_direction : AclDirection;
  abi_acl_id : N;
}.
Record BgpProcessIntent := mkBgpProcessIntent {
  bpi_device_id : DeviceId;
  bpi_vrf : string;
  bpi_local_as : N;
  bpi_router_id : option string;
}.
Record BgpNeighborIntent := mkBgpNeighborIntent {
  bni_device_id : DeviceId;
  bni_vrf : string;
  bni_address : string;
  bni_remote_as : N;
  bni_description : option string;
  bni_import_policy : option string;
  bni_export_policy : option string;
}.
Record BgpProcessDeleteIntent := mkBgpProcessDeleteIntent {
  bpd_device_id : DeviceId;
  bpd_vrf : string;
}.
Record BgpNeighborDeleteIntent := mkBgpNeighborDeleteIntent {
  bnd_device_id : DeviceId;
  bnd_vrf : string;
  bnd_address : string;
}.

(** ** src/intent/domain.rs *)

Inductive UnderlayTopology :=
  | StackSingleManagementIp
  | MlagDualManagementIp
  | SmallFabric.
#[export] Instance UnderlayTopology_eq_dec : EqDecision UnderlayTopology.
Proof. solve_decision. Defined.

Record ManagementEndpointIntent := mkManagementEndpointIntent {
  me_endpoint_id : string;
  me_host : string;
  me_port : N;
  me_secret_ref : string;
  me_vendor_hint : option Vendor;
  me_model_hint : option string;
}.
Record SwitchMemberIntent := mkSwitchMemberIntent {
  sm_member_id : string;
  sm_role : option DeviceRole;
  sm_management_endpoint_id : string;
}.

Record UnderlayDomainIntent := mkUnderlayDomainIntent {
  domain_id : string;
  topology : UnderlayTopology;
  endpoints : list ManagementEndpointIntent;
  members : list SwitchMemberIntent;
  di_vlans : list VlanIntent;
  di_interfaces : list InterfaceIntent;
  di_acls : list AclIntent;
  di_acl_bindings : list AclBindingIntent;
  di_delete_vlan_ids : list N;
  di_delete_interfaces : list InterfaceDeleteIntent;
  di_delete_acl_ids : list N;
  di_delete_acl_bindings : list AclBindingIntent;
  di_bgp_processes : list BgpProcessIntent;
  di_bgp_neighbors : list BgpNeighborIntent;
  di_delete_bgp_processes : list BgpProcessDeleteIntent;
  di_delete_bgp_neighbors : list BgpNeighborDeleteIntent;
}.

(** ** src/intent/switch_pair.rs *)

Record SwitchIntent := mkSwitchIntent { sw_device_id : DeviceId; sw_role : DeviceRole }.
Record SwitchPairIntent := mkSwitchPairIntent {
  pair_id : string;
  switches : list SwitchIntent;
  sp_vlans : list VlanIntent;
  sp_interfaces : list InterfaceIntent;
}.
