(* ===== verification/Validation.v ===== *)
(** * Intent validation (src/intent/validation.rs)

    The validators as the source has them, in the order they check and with the
    messages they report; then a declarative reading of a valid intent and the
    theorem that the validator accepts exactly the valid intents. *)
From S2P Require Export Intent.
Local Open Scope N_scope.

Definition validate_non_empty (field value : string) : UnderlayResult unit :=
  reject_if (str_is_empty (trim value)) (InvalidIntent (field +:+ " is empty")).

Definition validate_identifier (field value : string) : UnderlayResult unit :=
  reject_if (negb (is_canonical_identifier value))
    (InvalidIntent (field +:+ " is invalid: " +:+ canonical_rule)).

Definition validate_device_id (field : string) (d : DeviceId) : UnderlayResult unit :=
  reject_if (negb (is_canonical d))
    (InvalidIntent (field +:+ " " +:+ device_id_0 d +:+ " is invalid: " +:+ canonical_rule)).

(** [(lo..=hi).contains(&x)] *)
Definition in_range (lo hi x : N) : bool := (lo <=? x) && (x <=? hi).

Definition validate_vlans (vlan_ids : list N) (context : string) : UnderlayResult unit :=
  _ ← foldM (λ seen vid,
      _ ← reject_if (negb (in_range 1 4094 vid))
            (InvalidIntent (context +:+ " has invalid vlan_id " +:+ fmt_N vid +:+
                            "; valid range is 1..=4094"));
      insert_unique seen vid
        (InvalidIntent (context +:+ " has duplicate vlan_id " +:+ fmt_N vid)))
    (∅ : gset N) vlan_ids;
  Ok tt.

Definition validate_topology_shape (intent : UnderlayDomainIntent) : UnderlayResult unit :=
  let n := length (endpoints intent) in
  match topology intent with
  | StackSingleManagementIp =>
      reject_if (negb (n =? 1)%nat) (InvalidIntent
        ("stack topology requires exactly one management endpoint, got " +:+ fmt_usize n))
  | MlagDualManagementIp =>
      reject_if (negb (n =? 2)%nat) (InvalidIntent
        ("mlag topology requires exactly two management endpoints, got " +:+ fmt_usize n))
  | SmallFabric =>
      reject_if (n <? 2)%nat (InvalidIntent
        ("small fabric topology requires at least two management endpoints, got " +:+ fmt_usize n))
  end.

Definition validate_acl_id_for_kind (context : string) (id : N) (kind : AclKind)
    : UnderlayResult unit :=
  match kind with
  | AdvancedIpv4 =>
      reject_if (negb (in_range 3000 3999 id)) (InvalidIntent
        (context +:+ " has invalid IPv4 advanced acl_id " +:+ fmt_N id +:+
         "; valid range is 3000..=3999"))
  | BasicIpv4 =>
      reject_if (negb (in_range 2000 2999 id)) (InvalidIntent
        (context +:+ " has invalid IPv4 basic acl_id " +:+ fmt_N id +:+
         "; valid range is 2000..=2999"))
  end.

Definition is_some {A} (o : option A) : bool := match o with Some _ => true | None => false end.

Definition acl_rule_where (context : string) (acl : AclConfig) (rule : AclRule) : string :=
  context +:+ " ACL " +:+ fmt_N (acl_id acl) +:+ " rule " +:+ fmt_N (sequence rule).

Definition validate_basic_acl_rule (context : string) (acl : AclConfig) (rule : AclRule)
    : UnderlayResult unit :=
  let at_rule := context +:+ " basic IPv4 ACL " +:+ fmt_N (acl_id acl) +:+ " rule " +:+
                 fmt_N (sequence rule) in
  _ ← reject_if (negb (bool_decide (protocol rule = Ip)))
        (InvalidIntent (at_rule +:+ " must use ip protocol"));
  _ ← reject_if (is_some (destination rule))
        (InvalidIntent (at_rule +:+ " cannot match destination"));
  reject_if (is_some (source_port_eq rule) || is_some (destination_port_eq rule))
    (InvalidIntent (at_rule +:+ " cannot match ports")).

Definition validate_acl_endpoint (context : string) (id seq : N) (field : string)
    (endpoint : AclEndpoint) : UnderlayResult unit :=
  let at_rule := context +:+ " ACL " +:+ fmt_N id +:+ " rule " +:+ fmt_N seq in
  _ ← reject_if (negb (is_ipv4 (ep_address endpoint)))
        (InvalidIntent (at_rule +:+ " has invalid " +:+ field +:+ " IPv4 address " +:+
                        ep_address endpoint));
  reject_if (negb (is_ipv4 (ep_wildcard endpoint)))
    (InvalidIntent (at_rule +:+ " has invalid " +:+ field +:+ " wildcard " +:+
                    ep_wildcard endpoint)).

Definition tcp_or_udp (p : AclProtocol) : bool :=
  match p with Tcp | Udp => true | Ip | Icmp => false end.

(** The body of the loop over [acl.rules]. *)
Definition validate_acl_rule (context : string) (acl : AclConfig) (rule_ids : gset N)
    (rule : AclRule) : UnderlayResult (gset N) :=
  rule_ids ← insert_unique rule_ids (sequence rule)
    (InvalidIntent (context +:+ " ACL " +:+ fmt_N (acl_id acl) +:+
                    " has duplicate rule sequence " +:+ fmt_N (sequence rule)));
  _ ← reject_if (is_some (source_port_eq rule) && negb (tcp_or_udp (protocol rule)))
        (InvalidIntent (acl_rule_where context acl rule +:+
                        " has source_port_eq but protocol is not tcp/udp"));
  _ ← reject_if (is_some (destination_port_eq rule) && negb (tcp_or_udp (protocol rule)))
        (InvalidIntent (acl_rule_where context acl rule +:+
                        " has destination_port_eq but protocol is not tcp/udp"));
  _ ← reject_if (bool_decide (source_port_eq rule = Some 0)
                 || bool_decide (destination_port_eq rule = Some 0))
        (InvalidIntent (acl_rule_where context acl rule +:+ " has invalid port 0"));
  _ ← match acl_kind acl with
      | BasicIpv4 => validate_basic_acl_rule context acl rule
      | AdvancedIpv4 => Ok tt
      end;
  _ ← match source rule with
      | Some src => validate_acl_endpoint context (acl_id acl) (sequence rule) "source" src
      | None => Ok tt
      end;
  _ ← match destination rule with
      | Some dst => validate_acl_endpoint context (acl_id acl) (sequence rule) "destination" dst
      | None => Ok tt
      end;
  Ok rule_ids.

Definition validate_acls (acls : list AclConfig) (context : string) : UnderlayResult unit :=
  _ ← foldM (λ seen acl,
      _ ← validate_acl_id_for_kind context (acl_id acl) (acl_kind acl);
      seen ← insert_unique seen (acl_id acl)
        (InvalidIntent (context +:+ " has duplicate acl_id " +:+ fmt_N (acl_id acl)));
      _ ← foldM (validate_acl_rule context acl) (∅ : gset N) (acl_rules acl);
      Ok seen)
    (∅ : gset N) acls;
  Ok tt.

Definition validate_acl_ids (acl_ids : list N) (context : string) : UnderlayResult unit :=
  _ ← foldM (λ seen id,
      _ ← reject_if (negb (in_range 2000 3999 id))
            (InvalidIntent (context +:+ " has invalid numeric IPv4 acl_id " +:+ fmt_N id +:+
                            "; valid range is 2000..=3999"));
      insert_unique seen id
        (InvalidIntent (context +:+ " has duplicate acl_id " +:+ fmt_N id)))
    (∅ : gset N) acl_ids;
  Ok tt.

Definition validate_ipv4_text (field value : string) : UnderlayResult unit :=
  reject_if (negb (is_ipv4 value)) (InvalidIntent ("invalid " +:+ field +:+ " " +:+ value)).

Definition ensure_known_member (member_ids : gset DeviceId) (d : DeviceId) (subject : string)
    : UnderlayResult unit :=
  if decide (d ∈ member_ids) then Ok tt else
  Err (InvalidIntent (subject +:+ " references unknown switch member " +:+ device_id_0 d)).

Definition debug_AclDirection (d : AclDirection) : string :=
  match d with Inbound => "Inbound" | Outbound => "Outbound" end.

Definition validate_bgp_processes (processes : list BgpProcessIntent)
    (deletes : list BgpProcessDeleteIntent) (member_ids : gset DeviceId) (context : string)
    : UnderlayResult unit :=
  upserts ← foldM (λ upserts p,
      _ ← validate_device_id "BGP process device_id" (bpi_device_id p);
      _ ← ensure_known_member member_ids (bpi_device_id p) "BGP process";
      _ ← validate_non_empty "BGP process vrf" (bpi_vrf p);
      let vrf := trim (bpi_vrf p) in
      _ ← reject_if (bpi_local_as p =? 0)
            (InvalidIntent (context +:+ " BGP process " +:+ device_id_0 (bpi_device_id p) +:+ "/"
                            +:+ vrf +:+ " has invalid local_as 0"));
      _ ← match bpi_router_id p with
          | Some router_id =>
              let router_id := trim router_id in
              _ ← validate_non_empty "BGP router_id" router_id;
              validate_ipv4_text "BGP router_id" router_id
          | None => Ok tt
          end;
      insert_unique upserts (bpi_device_id p, vrf)
        (InvalidIntent (context +:+ " has duplicate BGP process " +:+
                        device_id_0 (bpi_device_id p) +:+ "/" +:+ vrf)))
    (∅ : gset (DeviceId * string)) processes;
  _ ← foldM (λ delete_keys d,
      _ ← validate_device_id "BGP process delete device_id" (bpd_device_id d);
      _ ← ensure_known_member member_ids (bpd_device_id d) "BGP process delete";
      _ ← validate_non_empty "BGP process delete vrf" (bpd_vrf d);
      let vrf := trim (bpd_vrf d) in
      _ ← reject_if (bool_decide ((bpd_device_id d, vrf) ∈ upserts))
            (InvalidIntent (context +:+ " cannot upsert and delete BGP process " +:+
                            device_id_0 (bpd_device_id d) +:+ "/" +:+ vrf +:+
                            " in the same request"));
      insert_unique delete_keys (bpd_device_id d, vrf)
        (InvalidIntent (context +:+ " has duplicate BGP process delete " +:+
                        device_id_0 (bpd_device_id d) +:+ "/" +:+ vrf)))
    (∅ : gset (DeviceId * string)) deletes;
  Ok tt.

Definition neighbor_text (d : DeviceId) (vrf address : string) : string :=
  device_id_0 d +:+ "/" +:+ vrf +:+ "/" +:+ address.

Definition validate_bgp_neighbors (neighbors : list BgpNeighborIntent)
    (deletes : list BgpNeighborDeleteIntent) (process_deletes : list BgpProcessDeleteIntent)
    (member_ids : gset DeviceId) (context : string) : UnderlayResult unit :=
  let deleted_process_keys : gset (DeviceId * string) :=
    bs_collect ((λ d, (bpd_device_id d, trim (bpd_vrf d))) <$> process_deletes) in
  upserts ← foldM (λ upserts n,
      _ ← validate_device_id "BGP neighbor device_id" (bni_device_id n);
      _ ← ensure_known_member member_ids (bni_device_id n) "BGP neighbor";
      _ ← validate_non_empty "BGP neighbor vrf" (bni_vrf n);
      _ ← validate_non_empty "BGP neighbor address" (bni_address n);
      let vrf := trim (bni_vrf n) in
      let address := trim (bni_address n) in
      _ ← validate_ipv4_text "BGP neighbor address" address;
      _ ← reject_if (bool_decide ((bni_device_id n, vrf) ∈ deleted_process_keys))
            (InvalidIntent (context +:+ " cannot delete BGP process " +:+
               device_id_0 (bni_device_id n) +:+ "/" +:+ vrf +:+ " and upsert BGP neighbor " +:+
               neighbor_text (bni_device_id n) vrf address +:+ " in the same request"));
      _ ← reject_if (bni_remote_as n =? 0)
            (InvalidIntent (context +:+ " BGP neighbor " +:+
               neighbor_text (bni_device_id n) vrf address +:+ " has invalid remote_as 0"));
      insert_unique upserts (bni_device_id n, vrf, address)
        (InvalidIntent (context +:+ " has duplicate BGP neighbor " +:+
           neighbor_text (bni_device_id n) vrf address)))
    (∅ : gset (DeviceId * string * string)) neighbors;
  _ ← foldM (λ delete_keys d,
      _ ← validate_device_id "BGP neighbor delete device_id" (bnd_device_id d);
      _ ← ensure_known_member member_ids (bnd_device_id d) "BGP neighbor delete";
      _ ← validate_non_empty "BGP neighbor delete vrf" (bnd_vrf d);
      _ ← validate_non_empty "BGP neighbor delete address" (bnd_address d);
      let vrf := trim (bnd_vrf d) in
      let address := trim (bnd_address d) in
      _ ← validate_ipv4_text "BGP neighbor delete address" address;
      _ ← reject_if (bool_decide ((bnd_device_id d, vrf, address) ∈ upserts))
            (InvalidIntent (context +:+ " cannot upsert and delete BGP neighbor " +:+
               neighbor_text (bnd_device_id d) vrf address +:+ " in the same request"));
      insert_unique delete_keys (bnd_device_id d, vrf, address)
        (InvalidIntent (context +:+ " has duplicate BGP neighbor delete " +:+
           neighbor_text (bnd_device_id d) vrf address)))
    (∅ : gset (DeviceId * string * string)) deletes;
  Ok tt.

Definition abi_key (b : AclBindingIntent) : DeviceId * string :=
  (abi_device_id b, acl_binding_key (abi_interface_name b) (abi_direction b)).

Definition validate_acl_bindings (bindings : list AclBindingIntent)
    (valid_device_ids : gset DeviceId) (declared_acls : gset N) (context : string)
    : UnderlayResult unit :=
  _ ← foldM (λ seen b,
      _ ← validate_non_empty "ACL binding interface_name" (abi_interface_name b);
      _ ← reject_if (negb (bool_decide (abi_device_id b ∈ valid_device_ids)))
            (InvalidIntent (context +:+ " ACL binding for interface " +:+ abi_interface_name b
               +:+ " references unknown switch member " +:+ device_id_0 (abi_device_id b)));
      _ ← reject_if (negb (bool_decide (abi_acl_id b ∈ declared_acls)))
            (InvalidIntent (context +:+ " ACL binding on " +:+ abi_interface_name b +:+
               " references undeclared ACL " +:+ fmt_N (abi_acl_id b)));
      insert_unique seen (abi_key b)
        (InvalidIntent (context +:+ " has duplicate ACL binding on " +:+ abi_interface_name b
           +:+ " direction " +:+ debug_AclDirection (abi_direction b))))
    (∅ : gset (DeviceId * string)) bindings;
  Ok tt.

Definition validate_acl_binding_deletes (deletes upserts : list AclBindingIntent)
    (valid_device_ids : gset DeviceId) (context : string) : UnderlayResult unit :=
  let upsert_keys : gset (DeviceId * string) := bs_collect (abi_key <$> upserts) in
  _ ← foldM (λ seen b,
      _ ← validate_non_empty "ACL binding delete interface_name" (abi_interface_name b);
      _ ← reject_if (negb (bool_decide (abi_device_id b ∈ valid_device_ids)))
            (InvalidIntent (context +:+ " ACL binding delete for interface " +:+
               abi_interface_name b +:+ " references unknown switch member " +:+
               device_id_0 (abi_device_id b)));
      _ ← reject_if (negb (in_range 2000 3999 (abi_acl_id b)))
            (InvalidIntent (context +:+ " ACL binding delete on " +:+ abi_interface_name b +:+
               " has invalid numeric IPv4 acl_id " +:+ fmt_N (abi_acl_id b) +:+
               "; valid range is 2000..=3999"));
      _ ← reject_if (bool_decide (abi_key b ∈ upsert_keys))
            (InvalidIntent (context +:+ " cannot upsert and delete ACL binding on " +:+
               abi_interface_name b +:+ " direction " +:+ debug_AclDirection (abi_direction b)
               +:+ " in the same request"));
      insert_unique seen (abi_key b)
        (InvalidIntent (context +:+ " has duplicate ACL binding delete on " +:+
           abi_interface_name b +:+ " direction " +:+ debug_AclDirection (abi_direction b))))
    (∅ : gset (DeviceId * string)) deletes;
  Ok tt.

Definition validate_declared_vlan (vid : N) (declared_vlans : gset N) (context : string)
    (d : DeviceId) (interface_name : string) : UnderlayResult unit :=
  reject_if (negb (bool_decide (vid ∈ declared_vlans)))
    (InvalidIntent (context +:+ " interface " +:+ interface_name +:+ " on " +:+ device_id_0 d +:+
                    " references undeclared VLAN " +:+ fmt_N vid)).

Definition validate_port_mode (mode : PortMode) (declared_vlans : gset N) (context : string)
    (d : DeviceId) (interface_name : string) : UnderlayResult unit :=
  match mode with
  | Access vid => validate_declared_vlan vid declared_vlans context d interface_name
  | Trunk native_vlan allowed_vlans =>
      _ ← reject_if (bool_decide (allowed_vlans = []) && negb (is_some native_vlan))
            (InvalidIntent (context +:+ " trunk interface " +:+ interface_name +:+ " on " +:+
                            device_id_0 d +:+ " has no native or allowed VLAN"));
      _ ← match native_vlan with
          | Some vid => validate_declared_vlan vid declared_vlans context d interface_name
          | None => Ok tt
          end;
      _ ← foldM (λ seen vid,
          _ ← validate_declared_vlan vid declared_vlans context d interface_name;
          insert_unique seen vid
            (InvalidIntent (context +:+ " trunk interface " +:+ interface_name +:+ " on " +:+
               device_id_0 d +:+ " has duplicate allowed VLAN " +:+ fmt_N vid)))
        (∅ : gset N) allowed_vlans;
      Ok tt
  end.

Definition validate_interfaces (interfaces : list (DeviceId * string * PortMode))
    (valid_device_ids : gset DeviceId) (declared_vlans : gset N)
    (context unknown_device_label : string) : UnderlayResult unit :=
  _ ← foldM (λ seen '(d, name, mode),
      _ ← validate_non_empty "interface name" name;
      _ ← reject_if (negb (bool_decide (d ∈ valid_device_ids)))
            (InvalidIntent (context +:+ " interface " +:+ name +:+ " references unknown " +:+
                            unknown_device_label +:+ " " +:+ device_id_0 d));
      seen ← insert_unique seen (d, name)
        (InvalidIntent (context +:+ " has duplicate interface " +:+ name +:+ " on " +:+
                        device_id_0 d));
      _ ← validate_port_mode mode declared_vlans context d name;
      Ok seen)
    (∅ : gset (DeviceId * string)) interfaces;
  Ok tt.

Definition validate_interface_deletes (deletes upserts : list (DeviceId * string))
    (valid_device_ids : gset DeviceId) (context : string) : UnderlayResult unit :=
  let upsert_keys : gset (DeviceId * string) := bs_collect upserts in
  _ ← foldM (λ seen '(d, name),
      _ ← validate_non_empty "interface delete name" name;
      _ ← reject_if (negb (bool_decide (d ∈ valid_device_ids)))
            (InvalidIntent (context +:+ " interface delete " +:+ name +:+
               " references unknown switch member " +:+ device_id_0 d));
      _ ← reject_if (bool_decide ((d, name) ∈ upsert_keys))
            (InvalidIntent (context +:+ " cannot upsert and delete interface " +:+ name +:+
               " on " +:+ device_id_0 d +:+ " in the same request"));
      insert_unique seen (d, name)
        (InvalidIntent (context +:+ " has duplicate interface delete " +:+ name +:+ " on " +:+
                        device_id_0 d)))
    (∅ : gset (DeviceId * string)) deletes;
  Ok tt.

(** The loop of [validate_underlay_domain_intent] over [intent.endpoints]. *)
Definition validate_endpoint (ids : gset string) (e : ManagementEndpointIntent)
    : UnderlayResult (gset string) :=
  _ ← validate_identifier "management endpoint endpoint_id" (me_endpoint_id e);
  _ ← validate_non_empty "management endpoint host" (me_host e);
  _ ← validate_non_empty "management endpoint secret_ref" (me_secret_ref e);
  _ ← reject_if (me_port e =? 0)
        (InvalidIntent ("management endpoint " +:+ me_endpoint_id e +:+ " has invalid port 0"));
  insert_unique ids (me_endpoint_id e)
    (InvalidIntent ("duplicate management endpoint " +:+ me_endpoint_id e)).

(** The loop over [intent.members]. *)
Definition validate_member (endpoint_ids : gset string) (ids : gset DeviceId)
    (m : SwitchMemberIntent) : UnderlayResult (gset DeviceId) :=
  _ ← validate_identifier "switch member member_id" (sm_member_id m);
  _ ← validate_identifier "switch member management_endpoint_id" (sm_management_endpoint_id m);
  ids ← insert_unique ids (mkDeviceId (sm_member_id m))
    (InvalidIntent ("duplicate switch member " +:+ sm_member_id m));
  _ ← reject_if (negb (bool_decide (sm_management_endpoint_id m ∈ endpoint_ids)))
        (InvalidIntent ("switch member " +:+ sm_member_id m +:+
           " references unknown management endpoint " +:+ sm_management_endpoint_id m));
  Ok ids.

(** [if ids.contains(id) { return Err(..) }] over the deleted ids. *)
Definition reject_upserted (declared : gset N) (what : string) (deletes : list N)
    : UnderlayResult unit :=
  forM_ (λ id, reject_if (bool_decide (id ∈ declared))
    (InvalidIntent ("underlay domain cannot upsert and delete " +:+ what +:+ " " +:+ fmt_N id +:+
                    " in the same request"))) deletes.

Definition acl_config_of_intent (a : AclIntent) : AclConfig :=
  mkAclConfig (ai_acl_id a) (ai_kind a) (ai_name a) (ai_description a) (ai_rules a).

Definition validate_underlay_domain_intent (intent : UnderlayDomainIntent) : UnderlayResult unit :=
  _ ← validate_non_empty "underlay domain_id" (domain_id intent);
  _ ← reject_if (match endpoints intent with [] => true | _ => false end)
        (InvalidIntent "underlay domain has no management endpoints");
  _ ← reject_if (match members intent with [] => true | _ => false end)
        (InvalidIntent "underlay domain has no switch members");
  _ ← validate_topology_shape intent;
  endpoint_ids ← foldM validate_endpoint ∅ (endpoints intent);
  member_ids ← foldM (validate_member endpoint_ids) ∅ (members intent);
  _ ← validate_vlans (vi_vlan_id <$> di_vlans intent) "underlay domain";
  _ ← validate_vlans (di_delete_vlan_ids intent) "underlay domain delete";
  let declared_vlans := bs_collect (vi_vlan_id <$> di_vlans intent) in
  _ ← reject_upserted declared_vlans "VLAN" (di_delete_vlan_ids intent);
  _ ← validate_interfaces
        ((λ i, (ii_device_id i, ii_name i, ii_mode i)) <$> di_interfaces intent)
        member_ids declared_vlans "underlay domain" "switch member";
  _ ← validate_interface_deletes
        ((λ i, (idi_device_id i, idi_name i)) <$> di_delete_interfaces intent)
        ((λ i, (ii_device_id i, ii_name i)) <$> di_interfaces intent)
        member_ids "underlay domain";
  _ ← validate_acls (acl_config_of_intent <$> di_acls intent) "underlay domain";
  _ ← validate_acl_ids (di_delete_acl_ids intent) "underlay domain delete";
  let declared_acls := bs_collect (ai_acl_id <$> di_acls intent) in
  _ ← reject_upserted declared_acls "ACL" (di_delete_acl_ids intent);
  _ ← validate_acl_bindings (di_acl_bindings intent) member_ids declared_acls "underlay domain";
  _ ← validate_acl_binding_deletes (di_delete_acl_bindings intent) (di_acl_bindings intent)
        member_ids "underlay domain";
  _ ← validate_bgp_processes (di_bgp_processes intent) (di_delete_bgp_processes intent)
        member_ids "underlay domain";
  _ ← validate_bgp_neighbors (di_bgp_neighbors intent) (di_delete_bgp_neighbors intent)
        (di_delete_bgp_processes intent) member_ids "underlay domain";
  Ok tt.

Definition validate_switch_pair_intent (intent : SwitchPairIntent) : UnderlayResult unit :=
  _ ← reject_if (str_is_empty (trim (pair_id intent)))
        (InvalidIntent "switch pair intent has empty pair_id");
  _ ← reject_if (match switches intent with [] => true | _ => false end)
        (InvalidIntent "intent has no switches");
  switch_ids ← foldM (λ ids s,
      _ ← validate_device_id "switch device_id" (sw_device_id s);
      insert_unique ids (sw_device_id s)
        (InvalidIntent ("duplicate switch device_id " +:+ device_id_0 (sw_device_id s))))
    (∅ : gset DeviceId) (switches intent);
  _ ← validate_vlans (vi_vlan_id <$> sp_vlans intent) "switch pair";
  let declared_vlans := bs_collect (vi_vlan_id <$> sp_vlans intent) in
  _ ← validate_interfaces
        ((λ i, (ii_device_id i, ii_name i, ii_mode i)) <$> sp_interfaces intent)
        switch_ids declared_vlans "switch pair" "switch";
  Ok tt.

(** ** What a valid intent is *)

(** A string with something in it besides white space. *)
Definition nonblank (s : string) : Prop := trim s ≠ "".
Definition canonical_identifier (s : string) : Prop :=
  s ≠ "" ∧ Forall (λ c, identifier_byte c = true) (bytes s).
Definition ipv4_text (s : string) : Prop := is_Some (parse_ipv4 s).
Definition between (lo hi x : N) : Prop := lo ≤ x ≤ hi.

Definition valid_topology (t : UnderlayTopology) (n : nat) : Prop :=
  match t with
  | StackSingleManagementIp => n = 1%nat
  | MlagDualManagementIp => n = 2%nat
  | SmallFabric => (2 ≤ n)%nat
  end.

Definition valid_endpoint (e : ManagementEndpointIntent) : Prop :=
  canonical_identifier (me_endpoint_id e) ∧ nonblank (me_host e) ∧
  nonblank (me_secret_ref e) ∧ me_port e ≠ 0.

Definition valid_member (endpoint_ids : list string) (m : SwitchMemberIntent) : Prop :=
  canonical_identifier (sm_member_id m) ∧
  canonical_identifier (sm_management_endpoint_id m) ∧
  sm_management_endpoint_id m ∈ endpoint_ids.

Definition valid_port_mode (vlans : list N) (mode : PortMode) : Prop :=
  match mode with
  | Access v => v ∈ vlans
  | Trunk native allowed =>
      (allowed ≠ [] ∨ is_Some native) ∧ (∀ v, native = Some v → v ∈ vlans) ∧
      (∀ v, v ∈ allowed → v ∈ vlans) ∧ NoDup allowed
  end.

Definition valid_interface (device_ids : list DeviceId) (vlans : list N)
    (i : DeviceId * string * PortMode) : Prop :=
  nonblank i.1.2 ∧ i.1.1 ∈ device_ids ∧ valid_port_mode vlans i.2.

Definition valid_interface_delete (device_ids : list DeviceId) (upserts : list (DeviceId * string))
    (i : DeviceId * string) : Prop :=
  nonblank i.2 ∧ i.1 ∈ device_ids ∧ i ∉ upserts.

Definition valid_acl_endpoint (e : AclEndpoint) : Prop :=
  ipv4_text (ep_address e) ∧ ipv4_text (ep_wildcard e).

Definition valid_acl_rule (kind : AclKind) (r : AclRule) : Prop :=
  (is_Some (source_port_eq r) ∨ is_Some (destination_port_eq r) →
     protocol r = Tcp ∨ protocol r = Udp) ∧
  source_port_eq r ≠ Some 0 ∧ destination_port_eq r ≠ Some 0 ∧
  (kind = BasicIpv4 →
     protocol r = Ip ∧ destination r = None ∧
     source_port_eq r = None ∧ destination_port_eq r = None) ∧
  (∀ e, source r = Some e → valid_acl_endpoint e) ∧
  (∀ e, destination r = Some e → valid_acl_endpoint e).

Definition valid_acl_id (kind : AclKind) (id : N) : Prop :=
  match kind with AdvancedIpv4 => between 3000 3999 id | BasicIpv4 => between 2000 2999 id end.

Definition valid_acl (a : AclIntent) : Prop :=
  valid_acl_id (ai_kind a) (ai_acl_id a) ∧
  Forall (valid_acl_rule (ai_kind a)) (ai_rules a) ∧ NoDup (sequence <$> ai_rules a).

Definition valid_binding (device_ids : list DeviceId) (acls : list N) (b : AclBindingIntent)
    : Prop :=
  nonblank (abi_interface_name b) ∧ abi_device_id b ∈ device_ids ∧ abi_acl_id b ∈ acls.

Definition valid_binding_delete (device_ids : list DeviceId) (upserts : list AclBindingIntent)
    (b : AclBindingIntent) : Prop :=
  nonblank (abi_interface_name b) ∧ abi_device_id b ∈ device_ids ∧
  between 2000 3999 (abi_acl_id b) ∧ abi_key b ∉ abi_key <$> upserts.

Definition known_device (device_ids : list DeviceId) (d : DeviceId) : Prop :=
  canonical_identifier (device_id_0 d) ∧ d ∈ device_ids.

Definition bpi_key (p : BgpProcessIntent) : DeviceId * string := (bpi_device_id p, trim (bpi_vrf p)).
Definition bpd_key (p : BgpProcessDeleteIntent) : DeviceId * string :=
  (bpd_device_id p, trim (bpd_vrf p)).
Definition bni_key (n : BgpNeighborIntent) : DeviceId * string * string :=
  (bni_device_id n, trim (bni_vrf n), trim (bni_address n)).
Definition bnd_key (n : BgpNeighborDeleteIntent) : DeviceId * string * string :=
  (bnd_device_id n, trim (bnd_vrf n), trim (bnd_address n)).

Definition valid_bgp_process (device_ids : list DeviceId) (p : BgpProcessIntent) : Prop :=
  known_device device_ids (bpi_device_id p) ∧ nonblank (bpi_vrf p) ∧ bpi_local_as p ≠ 0 ∧
  (∀ r, bpi_router_id p = Some r → nonblank r ∧ ipv4_text (trim r)).

Definition valid_bgp_process_delete (device_ids : list DeviceId)
    (upserts : list BgpProcessIntent) (d : BgpProcessDeleteIntent) : Prop :=
  known_device device_ids (bpd_device_id d) ∧ nonblank (bpd_vrf d) ∧
  bpd_key d ∉ bpi_key <$> upserts.

Definition valid_bgp_neighbor (device_ids : list DeviceId)
    (process_deletes : list BgpProcessDeleteIntent) (n : BgpNeighborIntent) : Prop :=
  known_device device_ids (bni_device_id n) ∧ nonblank (bni_vrf n) ∧ nonblank (bni_address n) ∧
  ipv4_text (trim (bni_address n)) ∧
  (bni_device_id n, trim (bni_vrf n)) ∉ bpd_key <$> process_deletes ∧ bni_remote_as n ≠ 0.

Definition valid_bgp_neighbor_delete (device_ids : list DeviceId)
    (upserts : list BgpNeighborIntent) (d : BgpNeighborDeleteIntent) : Prop :=
  known_device device_ids (bnd_device_id d) ∧ nonblank (bnd_vrf d) ∧ nonblank (bnd_address d) ∧
  ipv4_text (trim (bnd_address d)) ∧ bnd_key d ∉ bni_key <$> upserts.

(** The endpoint ids, member ids, VLANs and ACLs an intent declares. *)
Definition endpoint_ids_of (i : UnderlayDomainIntent) : list string :=
  me_endpoint_id <$> endpoints i.
Definition member_ids_of (i : UnderlayDomainIntent) : list DeviceId :=
  (λ m, mkDeviceId (sm_member_id m)) <$> members i.
Definition vlan_ids_of (i : UnderlayDomainIntent) : list N := vi_vlan_id <$> di_vlans i.
Definition acl_ids_of (i : UnderlayDomainIntent) : list N := ai_acl_id <$> di_acls i.
Definition interfaces_of (i : UnderlayDomainIntent) : list (DeviceId * string * PortMode) :=
  (λ x, (ii_device_id x, ii_name x, ii_mode x)) <$> di_interfaces i.
Definition interface_keys_of (i : UnderlayDomainIntent) : list (DeviceId * string) :=
  (λ x, (ii_device_id x, ii_name x)) <$> di_interfaces i.
Definition interface_delete_keys_of (i : UnderlayDomainIntent) : list (DeviceId * string) :=
  (λ x, (idi_device_id x, idi_name x)) <$> di_delete_interfaces i.

Record valid_domain_intent (i : UnderlayDomainIntent) : Prop := {
  vd_domain_id : nonblank (domain_id i);
  vd_endpoints_some : endpoints i ≠ [];
  vd_members_some : members i ≠ [];
  vd_topology : valid_topology (topology i) (length (endpoints i));
  vd_endpoints : Forall valid_endpoint (endpoints i) ∧ NoDup (endpoint_ids_of i);
  vd_members : Forall (valid_member (endpoint_ids_of i)) (members i) ∧ NoDup (member_ids_of i);
  vd_vlans : Forall (between 1 4094) (vlan_ids_of i) ∧ NoDup (vlan_ids_of i);
  vd_vlan_deletes :
    Forall (between 1 4094) (di_delete_vlan_ids i) ∧ NoDup (di_delete_vlan_ids i) ∧
    (∀ v, v ∈ di_delete_vlan_ids i → v ∉ vlan_ids_of i);
  vd_interfaces :
    Forall (valid_interface (member_ids_of i) (vlan_ids_of i)) (interfaces_of i) ∧
    NoDup (interface_keys_of i);
  vd_interface_deletes :
    Forall (valid_interface_delete (member_ids_of i) (interface_keys_of i))
      (interface_delete_keys_of i) ∧ NoDup (interface_delete_keys_of i);
  vd_acls : Forall valid_acl (di_acls i) ∧ NoDup (acl_ids_of i);
  vd_acl_deletes :
    Forall (between 2000 3999) (di_delete_acl_ids i) ∧ NoDup (di_delete_acl_ids i) ∧
    (∀ a, a ∈ di_delete_acl_ids i → a ∉ acl_ids_of i);
  vd_bindings :
    Forall (valid_binding (member_ids_of i) (acl_ids_of i)) (di_acl_bindings i) ∧
    NoDup (abi_key <$> di_acl_bindings i);
  vd_binding_deletes :
    Forall (valid_binding_delete (member_ids_of i) (di_acl_bindings i))
      (di_delete_acl_bindings i) ∧ NoDup (abi_key <$> di_delete_acl_bindings i);
  vd_bgp_processes :
    Forall (valid_bgp_process (member_ids_of i)) (di_bgp_processes i) ∧
    NoDup (bpi_key <$> di_bgp_processes i);
  vd_bgp_process_deletes :
    Forall (valid_bgp_process_delete (member_ids_of i) (di_bgp_processes i))
      (di_delete_bgp_processes i) ∧ NoDup (bpd_key <$> di_delete_bgp_processes i);
  vd_bgp_neighbors :
    Forall (valid_bgp_neighbor (member_ids_of i) (di_delete_bgp_processes i))
      (di_bgp_neighbors i) ∧ NoDup (bni_key <$> di_bgp_neighbors i);
  vd_bgp_neighbor_deletes :
    Forall (valid_bgp_neighbor_delete (member_ids_of i) (di_bgp_neighbors i))
      (di_delete_bgp_neighbors i) ∧ NoDup (bnd_key <$> di_delete_bgp_neighbors i);
}.

(** ** The validators decide it *)

Lemma str_is_empty_false s : str_is_empty s = false ↔ s ≠ "".
Proof. unfold str_is_empty. by rewrite bool_decide_eq_false. Qed.

Lemma validate_non_empty_Ok f v u : validate_non_empty f v = Ok u ↔ nonblank v.
Proof. unfold validate_non_empty. by rewrite reject_if_Ok, str_is_empty_false. Qed.

Lemma is_canonical_identifier_spec v : is_canonical_identifier v = true ↔ canonical_identifier v.
Proof.
  unfold is_canonical_identifier, canonical_identifier.
  rewrite andb_true_iff, negb_true_iff, str_is_empty_false, forallb_forall, Forall_forall.
  by setoid_rewrite list_elem_of_In.
Qed.

Lemma validate_identifier_Ok f v u : validate_identifier f v = Ok u ↔ canonical_identifier v.
Proof.
  unfold validate_identifier. by rewrite reject_if_Ok, negb_false_iff, is_canonical_identifier_spec.
Qed.

Lemma validate_device_id_Ok f d u :
  validate_device_id f d = Ok u ↔ canonical_identifier (device_id_0 d).
Proof.
  unfold validate_device_id, is_canonical.
  by rewrite reject_if_Ok, negb_false_iff, is_canonical_identifier_spec.
Qed.

Lemma in_range_spec lo hi x : in_range lo hi x = true ↔ between lo hi x.
Proof. unfold in_range, between. rewrite andb_true_iff, !N.leb_le. done. Qed.

Lemma is_ipv4_spec s : is_ipv4 s = true ↔ ipv4_text s.
Proof. unfold is_ipv4. by rewrite bool_decide_eq_true. Qed.

Lemma validate_ipv4_text_Ok f v u : validate_ipv4_text f v = Ok u ↔ ipv4_text v.
Proof. unfold validate_ipv4_text. by rewrite reject_if_Ok, negb_false_iff, is_ipv4_spec. Qed.

Lemma ensure_known_member_Ok (ids : gset DeviceId) d s u :
  ensure_known_member ids d s = Ok u ↔ d ∈ ids.
Proof. unfold ensure_known_member. case_decide; destruct u; naive_solver. Qed.

Lemma is_some_spec {A} (o : option A) : is_some o = true ↔ is_Some o.
Proof. destruct o; split; [eauto | done | done | by intros [? ?]]. Qed.
Lemma is_some_false {A} (o : option A) : is_some o = false ↔ o = None.
Proof. destruct o; simpl; split; done. Qed.

Create HintDb validate.
#[local] Hint Rewrite @bind_insert_unique_Ok @Ok_eq @bind_unit_Ok @reject_if_Ok @insert_unique_Ok validate_non_empty_Ok
  validate_identifier_Ok validate_device_id_Ok validate_ipv4_text_Ok ensure_known_member_Ok
  negb_false_iff in_range_spec bool_decide_eq_true bool_decide_eq_false N.eqb_neq
  @elem_of_gset_of_list @elem_of_bs_collect is_ipv4_spec : validate.

(** Rewrite every check of a validator into the condition it tests. *)
Ltac validate := autorewrite with validate.

Lemma validate_vlans_Ok l c u : validate_vlans l c = Ok u ↔ Forall (between 1 4094) l ∧ NoDup l.
Proof.
  unfold validate_vlans. rewrite (loop_unique (between 1 4094) id).
  - by rewrite list_fmap_id.
  - intros s x s'. validate. done.
Qed.

Lemma validate_acl_ids_Ok l c u :
  validate_acl_ids l c = Ok u ↔ Forall (between 2000 3999) l ∧ NoDup l.
Proof.
  unfold validate_acl_ids. rewrite (loop_unique (between 2000 3999) id).
  - by rewrite list_fmap_id.
  - intros s x s'. validate. done.
Qed.

Lemma validate_topology_shape_Ok i u :
  validate_topology_shape i = Ok u ↔ valid_topology (topology i) (length (endpoints i)).
Proof.
  unfold validate_topology_shape. destruct (topology i); simpl; validate.
  - apply Nat.eqb_eq.
  - apply Nat.eqb_eq.
  - apply Nat.ltb_ge.
Qed.

Lemma validate_declared_vlan_Ok v (vlans : list N) c d n u :
  validate_declared_vlan v (bs_collect vlans) c d n = Ok u ↔ v ∈ vlans.
Proof. unfold validate_declared_vlan. by validate. Qed.
#[local] Hint Rewrite validate_declared_vlan_Ok : validate.

Lemma validate_port_mode_Ok m (vlans : list N) c d n u :
  validate_port_mode m (bs_collect vlans) c d n = Ok u ↔ valid_port_mode vlans m.
Proof.
  destruct m as [v|native allowed]; simpl; validate; [done|].
  rewrite (loop_unique (.∈ vlans) id).
  - rewrite list_fmap_id, Forall_forall, andb_false_iff, negb_false_iff, is_some_spec, bool_decide_eq_false.
    destruct native as [v|]; validate; naive_solver.
  - intros s x s'. by validate.
Qed.
#[local] Hint Rewrite validate_port_mode_Ok : validate.

Lemma validate_interfaces_Ok l (ids : list DeviceId) (vlans : list N) c lbl u :
  validate_interfaces l (list_to_set ids) (bs_collect vlans) c lbl = Ok u ↔
  Forall (valid_interface ids vlans) l ∧ NoDup (fst <$> l).
Proof.
  unfold validate_interfaces. apply (loop_unique (valid_interface ids vlans) fst).
  intros s [[d n] m] s'. unfold valid_interface; simpl. validate.
  naive_solver.
Qed.

Lemma validate_interface_deletes_Ok l ups (ids : list DeviceId) c u :
  validate_interface_deletes l ups (list_to_set ids) c = Ok u ↔
  Forall (valid_interface_delete ids ups) l ∧ NoDup l.
Proof.
  unfold validate_interface_deletes. rewrite (loop_unique (valid_interface_delete ids ups) id).
  - by rewrite list_fmap_id.
  - intros s [d n] s'. unfold valid_interface_delete; simpl. validate. naive_solver.
Qed.

Lemma validate_acl_endpoint_Ok c id seq f e u :
  validate_acl_endpoint c id seq f e = Ok u ↔ valid_acl_endpoint e.
Proof. unfold validate_acl_endpoint. by validate. Qed.

Lemma validate_basic_acl_rule_Ok c a r u :
  validate_basic_acl_rule c a r = Ok u ↔
  protocol r = Ip ∧ destination r = None ∧ source_port_eq r = None ∧ destination_port_eq r = None.
Proof.
  unfold validate_basic_acl_rule; simpl. validate. rewrite orb_false_iff, !is_some_false. naive_solver.
Qed.
#[local] Hint Rewrite validate_acl_endpoint_Ok validate_basic_acl_rule_Ok : validate.

Lemma port_guard {A} (o : option A) p :
  is_some o && negb (tcp_or_udp p) = false ↔ (is_Some o → p = Tcp ∨ p = Udp).
Proof.
  rewrite andb_false_iff, negb_false_iff, is_some_false, eq_None_not_Some.
  destruct p; simpl; intuition (auto; congruence).
Qed.

Lemma validate_acl_rule_Ok c a s r s' :
  validate_acl_rule c a s r = Ok s' ↔
  valid_acl_rule (acl_kind a) r ∧ sequence r ∉ s ∧ s' = {[sequence r]} ∪ s.
Proof.
  unfold validate_acl_rule, valid_acl_rule. validate.
  rewrite !port_guard, orb_false_iff, !bool_decide_eq_false.
  assert ((match acl_kind a with
           | BasicIpv4 => validate_basic_acl_rule c a r | AdvancedIpv4 => Ok tt end) = Ok tt ↔
    (acl_kind a = BasicIpv4 → protocol r = Ip ∧ destination r = None ∧
       source_port_eq r = None ∧ destination_port_eq r = None)) as ->.
  { destruct (acl_kind a); validate; naive_solver. }
  assert (∀ f (o : option AclEndpoint),
    match o with Some e => validate_acl_endpoint c (acl_id a) (sequence r) f e | None => Ok tt end
      = Ok tt ↔ ∀ e, o = Some e → valid_acl_endpoint e) as Hep.
  { intros f [e|]; validate; naive_solver. }
  rewrite !Hep. intuition.
Qed.

Lemma validate_acl_id_for_kind_Ok c id k u :
  validate_acl_id_for_kind c id k = Ok u ↔ valid_acl_id k id.
Proof. destruct k; simpl; by validate. Qed.

Lemma validate_acls_Ok l c u :
  validate_acls (acl_config_of_intent <$> l) c = Ok u ↔
  Forall valid_acl l ∧ NoDup (ai_acl_id <$> l).
Proof.
  unfold validate_acls.
  set (P := λ a, valid_acl_id (acl_kind a) (acl_id a) ∧
    Forall (valid_acl_rule (acl_kind a)) (acl_rules a) ∧ NoDup (sequence <$> acl_rules a)).
  rewrite (loop_unique P acl_id).
  - rewrite Forall_fmap, <-list_fmap_compose. done.
  - intros s a s'. subst P. simpl. validate. rewrite validate_acl_id_for_kind_Ok, bind_Ok.
    setoid_rewrite (foldM_unique_empty (valid_acl_rule (acl_kind a)) sequence);
      [|intros; apply validate_acl_rule_Ok]. naive_solver.
Qed.

Lemma validate_acl_bindings_Ok l (ids : list DeviceId) (acls : list N) c u :
  validate_acl_bindings l (list_to_set ids) (bs_collect acls) c = Ok u ↔
  Forall (valid_binding ids acls) l ∧ NoDup (abi_key <$> l).
Proof.
  unfold validate_acl_bindings. apply (loop_unique (valid_binding ids acls) abi_key).
  intros s b s'. unfold valid_binding. validate. naive_solver.
Qed.

Lemma validate_acl_binding_deletes_Ok l ups (ids : list DeviceId) c u :
  validate_acl_binding_deletes l ups (list_to_set ids) c = Ok u ↔
  Forall (valid_binding_delete ids ups) l ∧ NoDup (abi_key <$> l).
Proof.
  unfold validate_acl_binding_deletes.
  apply (loop_unique (valid_binding_delete ids ups) abi_key).
  intros s b s'. unfold valid_binding_delete. validate. naive_solver.
Qed.

(** A loop that only checks, run over a set built by an earlier loop. *)
Lemma bind_loops_Ok {A B K L} `{Countable K, Countable L} (P : A → Prop) (key : A → K)
    (Q : B → Prop) (key' : B → L) f (g : gset K → gset L → B → UnderlayResult (gset L)) l l' u :
  (∀ s x s', f s x = Ok s' ↔ P x ∧ key x ∉ s ∧ s' = {[key x]} ∪ s) →
  (∀ s x s', g (list_to_set (key <$> l)) s x = Ok s' ↔
             Q x ∧ key' x ∉ s ∧ s' = {[key' x]} ∪ s) →
  (upserts ← foldM f ∅ l; _ ← foldM (g upserts) ∅ l'; Ok tt) = Ok u ↔
  (Forall P l ∧ NoDup (key <$> l)) ∧ (Forall Q l' ∧ NoDup (key' <$> l')).
Proof.
  intros Hf Hg. rewrite bind_Ok. setoid_rewrite (foldM_unique_empty P key); [|done].
  split.
  - intros (s & (? & ? & ->) & Hl). rewrite (loop_unique Q key') in Hl by done. done.
  - intros ([? ?] & Hl). eexists. split; [done|]. by rewrite (loop_unique Q key') by done.
Qed.

Lemma router_id_Ok (o : option string) :
  match o with
  | Some r => let r := trim r in
      _ ← validate_non_empty "BGP router_id" r; validate_ipv4_text "BGP router_id" r
  | None => Ok tt
  end = Ok tt ↔ ∀ r, o = Some r → nonblank r ∧ ipv4_text (trim r).
Proof. destruct o; simpl; validate; unfold nonblank; rewrite ?trim_idemp; naive_solver. Qed.

Lemma validate_bgp_processes_Ok l ds (ids : list DeviceId) c u :
  validate_bgp_processes l ds (list_to_set ids) c = Ok u ↔
  (Forall (valid_bgp_process ids) l ∧ NoDup (bpi_key <$> l)) ∧
  (Forall (valid_bgp_process_delete ids l) ds ∧ NoDup (bpd_key <$> ds)).
Proof.
  unfold validate_bgp_processes.
  apply (bind_loops_Ok (valid_bgp_process ids) bpi_key (valid_bgp_process_delete ids l) bpd_key).
  - intros s p s'. unfold valid_bgp_process, known_device, bpi_key. validate.
    rewrite router_id_Ok. naive_solver.
  - intros s d s'. unfold valid_bgp_process_delete, known_device, bpd_key. validate. naive_solver.
Qed.

Lemma validate_bgp_neighbors_Ok l ds pds (ids : list DeviceId) c u :
  validate_bgp_neighbors l ds pds (list_to_set ids) c = Ok u ↔
  (Forall (valid_bgp_neighbor ids pds) l ∧ NoDup (bni_key <$> l)) ∧
  (Forall (valid_bgp_neighbor_delete ids l) ds ∧ NoDup (bnd_key <$> ds)).
Proof.
  unfold validate_bgp_neighbors.
  apply (bind_loops_Ok (valid_bgp_neighbor ids pds) bni_key
           (valid_bgp_neighbor_delete ids l) bnd_key).
  - intros s n s'. unfold valid_bgp_neighbor, known_device, bni_key. validate. naive_solver.
  - intros s d s'. unfold valid_bgp_neighbor_delete, known_device, bnd_key. validate. naive_solver.
Qed.

Lemma validate_endpoint_Ok s e s' :
  validate_endpoint s e = Ok s' ↔
  valid_endpoint e ∧ me_endpoint_id e ∉ s ∧ s' = {[me_endpoint_id e]} ∪ s.
Proof. unfold validate_endpoint, valid_endpoint. validate. naive_solver. Qed.

Lemma validate_member_Ok (eids : list string) s m s' :
  validate_member (list_to_set eids) s m = Ok s' ↔
  valid_member eids m ∧ mkDeviceId (sm_member_id m) ∉ s ∧
  s' = {[mkDeviceId (sm_member_id m)]} ∪ s.
Proof. unfold validate_member, valid_member. validate. naive_solver. Qed.

Lemma reject_upserted_Ok (l ds : list N) w u :
  reject_upserted (bs_collect l) w ds = Ok u ↔ ∀ x, x ∈ ds → x ∉ l.
Proof.
  unfold reject_upserted. rewrite forM_Ok, Forall_forall. setoid_rewrite reject_if_Ok.
  setoid_rewrite bool_decide_eq_false. setoid_rewrite elem_of_bs_collect. done.
Qed.

Lemma non_nil_Ok {A} (l : list A) (e : UnderlayError) u :
  reject_if (match l with [] => true | _ => false end) e = Ok u ↔ l ≠ [].
Proof. rewrite reject_if_Ok. destruct l; naive_solver. Qed.

Lemma validate_domain_Ok i :
  validate_underlay_domain_intent i = Ok tt ↔ valid_domain_intent i.
Proof.
  unfold validate_underlay_domain_intent.
  rewrite !bind_unit_Ok, validate_non_empty_Ok, !non_nil_Ok, validate_topology_shape_Ok, bind_Ok.
  setoid_rewrite (foldM_unique_empty valid_endpoint me_endpoint_id); [|apply validate_endpoint_Ok].
  split.
  - intros (? & ? & ? & ? & eids & (? & ? & ->) & Hm). apply bind_Ok in Hm as (mids & Hm & Hr).
    rewrite (foldM_unique_empty (valid_member (endpoint_ids_of i))
      (λ m, mkDeviceId (sm_member_id m))) in Hm by (intros; apply validate_member_Ok).
    destruct Hm as (? & ? & ->). rewrite !bind_unit_Ok, !validate_vlans_Ok, !reject_upserted_Ok,
      validate_interfaces_Ok, validate_interface_deletes_Ok, validate_acls_Ok, validate_acl_ids_Ok,
      validate_acl_bindings_Ok, validate_acl_binding_deletes_Ok, validate_bgp_processes_Ok,
      validate_bgp_neighbors_Ok, <-list_fmap_compose in Hr.
    destruct_and!. split; try done.
  - intros []. destruct_and!. split_and!; try done. eexists. split; [done|]. apply bind_Ok.
    eexists. split.
    + rewrite (foldM_unique_empty (valid_member (endpoint_ids_of i))
        (λ m, mkDeviceId (sm_member_id m))) by (intros; apply validate_member_Ok). done.
    + rewrite !bind_unit_Ok, !validate_vlans_Ok, !reject_upserted_Ok,
        validate_interfaces_Ok, validate_interface_deletes_Ok, validate_acls_Ok,
        validate_acl_ids_Ok, validate_acl_bindings_Ok, validate_acl_binding_deletes_Ok,
        validate_bgp_processes_Ok, validate_bgp_neighbors_Ok, <-list_fmap_compose.
      split_and!; done.
Qed.

(** Every rejection of a validator is an [InvalidIntent]. *)
Definition intent_errors {A} (r : UnderlayResult A) : Prop :=
  ∀ e, r = Err e → ∃ m, e = InvalidIntent m.

Lemma intent_errors_ok {A} (a : A) : intent_errors (Ok a).
Proof. done. Qed.
Lemma intent_errors_err {A} m : intent_errors (A:=A) (Err (InvalidIntent m)).
Proof. intros e [= <-]. eauto. Qed.
Lemma intent_errors_reject c m : intent_errors (reject_if c (InvalidIntent m)).
Proof. destruct c; intros e [= <-]; eauto. Qed.
Lemma intent_errors_insert `{Ord K, Countable K} (s : gset K) k m :
  intent_errors (insert_unique s k (InvalidIntent m)).
Proof. unfold insert_unique. case_decide; intros e; naive_solver. Qed.
Lemma intent_errors_bind {A B} (r : UnderlayResult A) (f : A → UnderlayResult B) :
  intent_errors r → (∀ a, intent_errors (f a)) → intent_errors (r ≫= f).
Proof. intros Hr Hf e [He | (a & _ & He)]%bind_Err; [by apply Hr | by eapply Hf]. Qed.
Lemma intent_errors_foldM {A S} (f : S → A → UnderlayResult S) s l :
  (∀ s x, intent_errors (f s x)) → intent_errors (foldM f s l).
Proof.
  intros Hf. revert s. induction l as [|x l IH]; intros s; simpl; [done|].
  apply intent_errors_bind; auto.
Qed.
Lemma intent_errors_forM {A} (f : A → UnderlayResult unit) l :
  (∀ x, intent_errors (f x)) → intent_errors (forM_ f l).
Proof.
  intros Hf. induction l as [|x l IH]; simpl; [done|]. apply intent_errors_bind; auto.
Qed.

(** Walk a validator, closing each check it makes. *)
Ltac intent_errors :=
  repeat match goal with
  | |- intent_errors (_ ≫= _) => apply intent_errors_bind; [|intros ?]
  | |- intent_errors (foldM _ _ _) => apply intent_errors_foldM; intros ? ?
  | |- intent_errors (forM_ _ _) => apply intent_errors_forM; intros ?
  | |- intent_errors (Ok _) => apply intent_errors_ok
  | |- intent_errors (Err (InvalidIntent _)) => apply intent_errors_err
  | |- intent_errors (reject_if _ (InvalidIntent _)) => apply intent_errors_reject
  | |- intent_errors (insert_unique _ _ (InvalidIntent _)) => apply intent_errors_insert
  | |- intent_errors (let _ := _ in _) => progress cbv zeta
  | |- intent_errors (match ?x with _ => _ end) => destruct x
  | |- intent_errors ((λ _, _) _) => progress cbv beta
  | |- intent_errors ?t => let h := head_of t in unfold h
  end.

Lemma validate_domain_errors i : intent_errors (validate_underlay_domain_intent i).
Proof. intent_errors. Qed.

(** C10. Validation decides exactly the declarative notion of a valid domain
    intent, on every one of its checks: [validate_underlay_domain_intent]
    returns [Ok] for the valid intents and only for them, and what it returns
    for any other intent is an [InvalidIntent] error, never another error. *)
Theorem validate_underlay_domain_intent_correct i :
  match validate_underlay_domain_intent i with
  | Ok _ => valid_domain_intent i
  | Err e => ¬ valid_domain_intent i ∧ ∃ m, e = InvalidIntent m
  end.
Proof.
  destruct (validate_underlay_domain_intent i) as [[]|e] eqn:Hv.
  - by apply validate_domain_Ok.
  - split; [|by apply (validate_domain_errors i)]. rewrite <-validate_domain_Ok. congruence.
Qed.
