(* ===== verification/Planner.v ===== *)
(** * The planner (src/planner/)

    [plan_underlay_domain] turns a domain intent into one desired state per
    management endpoint; [plan_switch_pair] does so for the older switch-pair
    intent. *)
From S2P Require Export Validation.

(** ** src/planner/device_plan.rs *)

Record DeviceDesiredState := mkDeviceDesiredState {
  ds_device_id : DeviceId;
  ds_vlans : gmap N VlanConfig;
  ds_interfaces : gmap string InterfaceConfig;
  ds_acls : gmap N AclConfig;
  ds_acl_bindings : gmap string AclBinding;
  ds_route_policy_refs : gset string;
  ds_bgp_processes : gmap string BgpProcess;
  ds_bgp_neighbors : gmap string BgpNeighbor;
  ds_delete_vlan_ids : gset N;
  ds_delete_interface_names : gset string;
  ds_delete_acl_ids : gset N;
  ds_delete_acl_bindings : gmap string AclBinding;
  ds_delete_bgp_process_vrfs : gset string;
  ds_delete_bgp_neighbors : gmap string BgpNeighbor;
}.
#[export] Instance DeviceDesiredState_eq_dec : EqDecision DeviceDesiredState.
Proof. solve_decision. Defined.

Definition vlan_config_of_intent (v : VlanIntent) : VlanConfig :=
  mkVlanConfig (vi_vlan_id v) (vi_name v) (vi_description v).
Definition interface_config_of_intent (i : InterfaceIntent) : InterfaceConfig :=
  mkInterfaceConfig (ii_name i) (ii_admin_state i) (ii_description i) (ii_mode i).

Definition plan_vlans (vlans : list VlanIntent) : gmap N VlanConfig :=
  bt_collect ((λ v, (vi_vlan_id v, vlan_config_of_intent v)) <$> vlans).

Definition plan_switch_pair (intent : SwitchPairIntent) : list DeviceDesiredState :=
  (λ switch,
    {| ds_device_id := sw_device_id switch;
       ds_vlans := plan_vlans (sp_vlans intent);
       ds_interfaces :=
         bt_collect ((λ i, (ii_name i, interface_config_of_intent i)) <$>
           filter (λ i, ii_device_id i = sw_device_id switch) (sp_interfaces intent));
       ds_acls := ∅; ds_acl_bindings := ∅; ds_route_policy_refs := ∅;
       ds_bgp_processes := ∅; ds_bgp_neighbors := ∅;
       ds_delete_vlan_ids := ∅; ds_delete_interface_names := ∅; ds_delete_acl_ids := ∅;
       ds_delete_acl_bindings := ∅; ds_delete_bgp_process_vrfs := ∅;
       ds_delete_bgp_neighbors := ∅ |}) <$> switches intent.

(** ** src/planner/domain_plan.rs *)

(** The entry of [states] an endpoint starts with. *)
Definition initial_state (intent : UnderlayDomainIntent) (id : DeviceId) : DeviceDesiredState :=
  {| ds_device_id := id;
     ds_vlans := plan_vlans (di_vlans intent);
     ds_interfaces := ∅;
     ds_acls := bt_collect ((λ a, (ai_acl_id a, acl_config_of_intent a)) <$> di_acls intent);
     ds_acl_bindings := ∅; ds_route_policy_refs := ∅;
     ds_bgp_processes := ∅; ds_bgp_neighbors := ∅;
     ds_delete_vlan_ids := bs_collect (di_delete_vlan_ids intent);
     ds_delete_interface_names := ∅;
     ds_delete_acl_ids := bs_collect (di_delete_acl_ids intent);
     ds_delete_acl_bindings := ∅; ds_delete_bgp_process_vrfs := ∅;
     ds_delete_bgp_neighbors := ∅ |}.

(** The statements of the loops that change one field of [state]. *)
Definition add_interface (i : InterfaceIntent) (s : DeviceDesiredState) : DeviceDesiredState :=
  let 'mkDeviceDesiredState a b c d e f g h i1 i2 i3 i4 i5 i6 := s in
  mkDeviceDesiredState a b (<[ii_name i := interface_config_of_intent i]> c)
    d e f g h i1 i2 i3 i4 i5 i6.
Definition add_delete_interface (i : InterfaceDeleteIntent) (s : DeviceDesiredState)
    : DeviceDesiredState :=
  let 'mkDeviceDesiredState a b c d e f g h i1 i2 i3 i4 i5 i6 := s in
  mkDeviceDesiredState a b c d e f g h i1 ({[idi_name i]} ∪ i2) i3 i4 i5 i6.
Definition binding_of_intent (b : AclBindingIntent) : AclBinding :=
  mkAclBinding (abi_interface_name b) (abi_direction b) (abi_acl_id b).
Definition add_acl_binding (x : AclBindingIntent) (s : DeviceDesiredState) : DeviceDesiredState :=
  let 'mkDeviceDesiredState a b c d e f g h i1 i2 i3 i4 i5 i6 := s in
  let binding := binding_of_intent x in
  mkDeviceDesiredState a b c d (<[AclBinding_key binding := binding]> e)
    f g h i1 i2 i3 i4 i5 i6.
Definition add_delete_acl_binding (x : AclBindingIntent) (s : DeviceDesiredState)
    : DeviceDesiredState :=
  let 'mkDeviceDesiredState a b c d e f g h i1 i2 i3 i4 i5 i6 := s in
  let binding := binding_of_intent x in
  mkDeviceDesiredState a b c d e f g h i1 i2 i3
    (<[AclBinding_key binding := binding]> i4) i5 i6.
Definition process_of_intent (p : BgpProcessIntent) : BgpProcess :=
  mkBgpProcess (bpi_vrf p) (bpi_local_as p) (bpi_router_id p).
Definition add_bgp_process (x : BgpProcessIntent) (s : DeviceDesiredState) : DeviceDesiredState :=
  let 'mkDeviceDesiredState a b c d e f g h i1 i2 i3 i4 i5 i6 := s in
  mkDeviceDesiredState a b c d e f (<[bpi_vrf x := process_of_intent x]> g)
    h i1 i2 i3 i4 i5 i6.
Definition neighbor_of_intent (n : BgpNeighborIntent) : BgpNeighbor :=
  mkBgpNeighbor (bni_vrf n) (bni_address n) (bni_remote_as n) (bni_description n)
    (bni_import_policy n) (bni_export_policy n).
Definition add_bgp_neighbor (x : BgpNeighborIntent) (s : DeviceDesiredState)
    : DeviceDesiredState :=
  let 'mkDeviceDesiredState a b c d e f g h i1 i2 i3 i4 i5 i6 := s in
  let neighbor := neighbor_of_intent x in
  mkDeviceDesiredState a b c d e f g (<[BgpNeighbor_key neighbor := neighbor]> h)
    i1 i2 i3 i4 i5 i6.
Definition add_delete_bgp_process (x : BgpProcessDeleteIntent) (s : DeviceDesiredState)
    : DeviceDesiredState :=
  let 'mkDeviceDesiredState a b c d e f g h i1 i2 i3 i4 i5 i6 := s in
  mkDeviceDesiredState a b c d e f g h i1 i2 i3 i4 ({[bpd_vrf x]} ∪ i5) i6.
Definition deleted_neighbor (n : BgpNeighborDeleteIntent) : BgpNeighbor :=
  mkBgpNeighbor (bnd_vrf n) (bnd_address n) 0 None None None.
Definition add_delete_bgp_neighbor (x : BgpNeighborDeleteIntent) (s : DeviceDesiredState)
    : DeviceDesiredState :=
  let 'mkDeviceDesiredState a b c d e f g h i1 i2 i3 i4 i5 i6 := s in
  let neighbor := deleted_neighbor x in
  mkDeviceDesiredState a b c d e f g h i1 i2 i3 i4 i5
    (<[BgpNeighbor_key neighbor := neighbor]> i6).

(** The body shared by the eight loops: find the endpoint of the member, find
    its state, update it in place. *)
Definition update_member_state (member_to_endpoint : gmap DeviceId DeviceId) (subject : string)
    (device_id : DeviceId) (update : DeviceDesiredState → DeviceDesiredState)
    (states : gmap DeviceId DeviceDesiredState) : UnderlayResult (gmap DeviceId DeviceDesiredState) :=
  endpoint_id ← ok_or (member_to_endpoint !! device_id)
    (InvalidIntent (subject +:+ " references unknown switch member " +:+ device_id_0 device_id));
  state ← ok_or (states !! endpoint_id)
    (InvalidIntent ("member references unknown management endpoint " +:+ device_id_0 endpoint_id));
  Ok (<[endpoint_id := update state]> states).

Definition member_loop {A} (member_to_endpoint : gmap DeviceId DeviceId) (subject : string)
    (device_id : A → DeviceId) (update : A → DeviceDesiredState → DeviceDesiredState)
    (states : gmap DeviceId DeviceDesiredState) (l : list A)
    : UnderlayResult (gmap DeviceId DeviceDesiredState) :=
  foldM (λ states x,
    update_member_state member_to_endpoint subject (device_id x) (update x) states) states l.

Definition member_endpoints (intent : UnderlayDomainIntent) : gmap DeviceId DeviceId :=
  bt_collect ((λ m, (mkDeviceId (sm_member_id m), mkDeviceId (sm_management_endpoint_id m)))
    <$> members intent).

Definition plan_underlay_domain (intent : UnderlayDomainIntent)
    : UnderlayResult (list DeviceDesiredState) :=
  _ ← validate_underlay_domain_intent intent;
  let m2e := member_endpoints intent in
  let states : gmap DeviceId DeviceDesiredState :=
    bt_collect ((λ e, (mkDeviceId (me_endpoint_id e),
                       initial_state intent (mkDeviceId (me_endpoint_id e))))
      <$> endpoints intent) in
  states ← member_loop m2e "interface" ii_device_id add_interface states (di_interfaces intent);
  states ← member_loop m2e "interface delete" idi_device_id add_delete_interface states
             (di_delete_interfaces intent);
  states ← member_loop m2e "ACL binding" abi_device_id add_acl_binding states
             (di_acl_bindings intent);
  states ← member_loop m2e "ACL binding delete" abi_device_id add_delete_acl_binding states
             (di_delete_acl_bindings intent);
  states ← member_loop m2e "BGP process" bpi_device_id add_bgp_process states
             (di_bgp_processes intent);
  states ← member_loop m2e "BGP neighbor" bni_device_id add_bgp_neighbor states
             (di_bgp_neighbors intent);
  states ← member_loop m2e "BGP process delete" bpd_device_id add_delete_bgp_process states
             (di_delete_bgp_processes intent);
  states ← member_loop m2e "BGP neighbor delete" bnd_device_id add_delete_bgp_neighbor states
             (di_delete_bgp_neighbors intent);
  Ok (bt_values states).

(** ** Planning one endpoint on its own

    What the loops do to one endpoint: its initial state with the items of its
    own members folded in, in the order of the intent.  A step of the proofs; what
    the result must hold is [plan_holds] below. *)
Definition items_of {A} (m2e : gmap DeviceId DeviceId) (dev : A → DeviceId) (e : DeviceId)
    (l : list A) : list A := filter (λ x, m2e !! dev x = Some e) l.

Definition endpoint_fold (intent : UnderlayDomainIntent) (e : DeviceId) : DeviceDesiredState :=
  let add {A} (dev : A → DeviceId) (upd : A → DeviceDesiredState → DeviceDesiredState)
      (l : list A) (s : DeviceDesiredState) :=
    foldl (λ s x, upd x s) s (items_of (member_endpoints intent) dev e l) in
  add bnd_device_id add_delete_bgp_neighbor (di_delete_bgp_neighbors intent) $
  add bpd_device_id add_delete_bgp_process (di_delete_bgp_processes intent) $
  add bni_device_id add_bgp_neighbor (di_bgp_neighbors intent) $
  add bpi_device_id add_bgp_process (di_bgp_processes intent) $
  add abi_device_id add_delete_acl_binding (di_delete_acl_bindings intent) $
  add abi_device_id add_acl_binding (di_acl_bindings intent) $
  add idi_device_id add_delete_interface (di_delete_interfaces intent) $
  add ii_device_id add_interface (di_interfaces intent) $
  initial_state intent e.

(** The endpoints of an intent in the order of [states.into_values()]. *)
Definition planned_endpoints (intent : UnderlayDomainIntent) : list DeviceId :=
  sort ((λ e, mkDeviceId (me_endpoint_id e)) <$> endpoints intent).

(** A loop updates every endpoint by the items of its own members, provided each
    item's member has an endpoint with a state. *)
Lemma member_loop_spec {A} m2e subject (dev : A → DeviceId) upd
    (g : DeviceId → DeviceDesiredState) (ids : gset DeviceId) l :
  (∀ x, x ∈ l → ∃ e, m2e !! dev x = Some e ∧ e ∈ ids) →
  member_loop m2e subject dev upd (set_to_map (λ e, (e, g e)) ids) l =
  Ok (set_to_map (λ e, (e, foldl (λ s x, upd x s) (g e) (items_of m2e dev e l))) ids).
Proof.
  revert g. induction l as [|x l IH]; intros g Hl; unfold member_loop; simpl; [done|].
  destruct (Hl x) as (e & He & Hin); [by left|].
  unfold update_member_state. rewrite He; simpl.
  assert (set_to_map (λ e, (e, g e)) ids !! e = Some (g e)) as ->.
  { apply lookup_set_to_map; [done|]. by exists e. }
  simpl. assert (<[e := upd x (g e)]> (set_to_map (λ e, (e, g e)) ids) =
    set_to_map (λ e', (e', if decide (e' = e) then upd x (g e') else g e')) ids
    :> gmap DeviceId DeviceDesiredState) as ->.
  { apply map_eq. intros k. apply option_eq. intros s.
    rewrite lookup_set_to_map by done.
    destruct (decide (e = k)) as [<-|Hne].
    - rewrite lookup_insert_eq. split.
      + intros [= <-]. exists e. rewrite decide_True by done. done.
      + intros (k & ? & ?); simplify_eq. by rewrite decide_True.
    - rewrite lookup_insert_ne by done. rewrite lookup_set_to_map by done.
      split; intros (k' & ? & ?); simplify_eq; exists k; rewrite decide_False; done. }
  change (member_loop m2e subject dev upd
    (set_to_map (λ e', (e', if decide (e' = e) then upd x (g e') else g e')) ids) l = 
    Ok (set_to_map (λ e', (e', foldl (λ s y, upd y s) (g e') (items_of m2e dev e' (x :: l)))) ids)).
  rewrite (IH (λ e', if decide (e' = e) then upd x (g e') else g e')).
  2:{ intros y Hy. apply Hl. by right. }
  f_equal. apply map_eq. intros k. apply option_eq. intros s.
  rewrite !lookup_set_to_map by done.
  assert (∀ k, items_of m2e dev k (x :: l) =
    if decide (k = e) then x :: items_of m2e dev k l else items_of m2e dev k l) as Hitems.
  { intros k'. unfold items_of. rewrite filter_cons, He. by repeat case_decide; simplify_eq. }
  setoid_rewrite Hitems.
  split; intros (k' & ? & ?); simplify_eq; exists k; split; try done; by case_decide.
Qed.

(** ** Correctness of the planner *)

Section planner.
Context (i : UnderlayDomainIntent).

Definition endpoint_device_ids : list DeviceId :=
  (λ e, mkDeviceId (me_endpoint_id e)) <$> endpoints i.

Lemma initial_states_eq :
  bt_collect ((λ e, (mkDeviceId (me_endpoint_id e),
    initial_state i (mkDeviceId (me_endpoint_id e)))) <$> endpoints i) =
  (set_to_map (λ e, (e, initial_state i e)) (list_to_set endpoint_device_ids : gset DeviceId)
    : gmap DeviceId DeviceDesiredState).
Proof.
  apply map_eq. intros k. apply option_eq. intros s. rewrite lookup_set_to_map by done.
  setoid_rewrite elem_of_gset_of_list. unfold endpoint_device_ids.
  setoid_rewrite list_elem_of_fmap. split.
  - intros Hk%bt_collect_Some. apply list_elem_of_fmap in Hk as (e & ? & He). simplify_eq.
    eexists. split; [by exists e|done].
  - intros (k' & (e & -> & He) & Heq). simplify_eq. apply bt_collect_lookup.
    + intros v' (e' & ? & ?)%list_elem_of_fmap. congruence.
    + apply list_elem_of_fmap. eauto.
Qed.

Lemma member_endpoints_lookup :
  NoDup (member_ids_of i) → ∀ m, m ∈ members i →
  member_endpoints i !! mkDeviceId (sm_member_id m) =
  Some (mkDeviceId (sm_management_endpoint_id m)).
Proof.
  intros Hnd m Hm. unfold member_endpoints. apply bt_collect_lookup.
  - intros v' (m' & ? & Hm')%list_elem_of_fmap. simplify_eq.
    assert (m' = m) as ->; [|done].
    by apply (NoDup_key_eq (λ m, mkDeviceId (sm_member_id m)) (members i)); [|..|congruence].
  - apply list_elem_of_fmap. eauto.
Qed.

Lemma member_has_endpoint :
  valid_domain_intent i → ∀ d, d ∈ member_ids_of i →
  ∃ e, member_endpoints i !! d = Some e ∧
       e ∈ (list_to_set endpoint_device_ids : gset DeviceId).
Proof.
  intros Hv d (m & -> & Hm)%list_elem_of_fmap. destruct (vd_members _ Hv) as [Hms Hnd].
  exists (mkDeviceId (sm_management_endpoint_id m)).
  split; [by apply member_endpoints_lookup|]. rewrite elem_of_gset_of_list.
  rewrite Forall_forall in Hms. destruct (Hms m Hm) as (_ & _ & He).
  apply list_elem_of_fmap in He as (e & -> & He). apply list_elem_of_fmap. eauto.
Qed.

(** The members the items of a valid intent name are declared ones. *)
Lemma valid_item_devices :
  valid_domain_intent i →
  (∀ x, x ∈ di_interfaces i → ii_device_id x ∈ member_ids_of i) ∧
  (∀ x, x ∈ di_delete_interfaces i → idi_device_id x ∈ member_ids_of i) ∧
  (∀ x, x ∈ di_acl_bindings i → abi_device_id x ∈ member_ids_of i) ∧
  (∀ x, x ∈ di_delete_acl_bindings i → abi_device_id x ∈ member_ids_of i) ∧
  (∀ x, x ∈ di_bgp_processes i → bpi_device_id x ∈ member_ids_of i) ∧
  (∀ x, x ∈ di_bgp_neighbors i → bni_device_id x ∈ member_ids_of i) ∧
  (∀ x, x ∈ di_delete_bgp_processes i → bpd_device_id x ∈ member_ids_of i) ∧
  (∀ x, x ∈ di_delete_bgp_neighbors i → bnd_device_id x ∈ member_ids_of i).
Proof.
  intros Hv. pose proof (vd_interfaces _ Hv) as [H1 _].
  pose proof (vd_interface_deletes _ Hv) as [H2 _]. pose proof (vd_bindings _ Hv) as [H3 _].
  pose proof (vd_binding_deletes _ Hv) as [H4 _]. pose proof (vd_bgp_processes _ Hv) as [H5 _].
  pose proof (vd_bgp_neighbors _ Hv) as [H6 _].
  pose proof (vd_bgp_process_deletes _ Hv) as [H7 _].
  pose proof (vd_bgp_neighbor_deletes _ Hv) as [H8 _].
  unfold interfaces_of, interface_delete_keys_of in *. rewrite Forall_fmap in H1. rewrite Forall_fmap in H2.
  setoid_rewrite Forall_forall in H1. setoid_rewrite Forall_forall in H2.
  rewrite Forall_forall in H3. rewrite Forall_forall in H4. rewrite Forall_forall in H5.
  rewrite Forall_forall in H6. rewrite Forall_forall in H7. rewrite Forall_forall in H8.
  split_and!; intros x Hx.
  - apply (H1 x Hx).
  - apply (H2 x Hx).
  - apply (H3 x Hx).
  - apply (H4 x Hx).
  - apply (H5 x Hx).
  - apply (H6 x Hx).
  - apply (H7 x Hx).
  - apply (H8 x Hx).
Qed.

Lemma planned_endpoints_elems :
  NoDup (endpoint_ids_of i) →
  bs_elems (list_to_set endpoint_device_ids : gset DeviceId) = planned_endpoints i.
Proof.
  intros Hnd. apply sort_proper_perm. apply elements_list_to_set.
  unfold endpoint_device_ids. unfold endpoint_ids_of in Hnd.
  rewrite (list_fmap_compose me_endpoint_id mkDeviceId). by apply (NoDup_fmap_2 mkDeviceId).
Qed.

Lemma plan_valid :
  valid_domain_intent i →
  plan_underlay_domain i = Ok (endpoint_fold i <$> planned_endpoints i).
Proof.
  intros Hv. unfold plan_underlay_domain.
  rewrite (proj2 (validate_domain_Ok i) Hv). simpl. rewrite initial_states_eq.
  destruct (valid_item_devices Hv) as (?&?&?&?&?&?&?&?).
  do 8 (rewrite member_loop_spec; [|intros; apply member_has_endpoint; auto]; simpl).
  unfold bt_values. rewrite bt_entries_set_to_map, <-list_fmap_compose.
  rewrite planned_endpoints_elems by apply (vd_endpoints _ Hv). done.
Qed.
End planner.

(** ** Well-formed desired states

    Every map is keyed by the key of the value it holds, a VLAN or an ACL is not
    both wanted and deleted, ports use VLANs of the state and bindings use ACLs
    of the state. *)
Definition keyed {K V} `{Countable K} (key : V → K) (m : gmap K V) : Prop :=
  map_Forall (λ k v, key v = k) m.

Record desired_wf (s : DeviceDesiredState) : Prop := {
  wf_vlans : keyed vlan_id (ds_vlans s);
  wf_interfaces : keyed if_name (ds_interfaces s);
  wf_acls : keyed acl_id (ds_acls s);
  wf_bindings : keyed AclBinding_key (ds_acl_bindings s);
  wf_processes : keyed bp_vrf (ds_bgp_processes s);
  wf_neighbors : keyed BgpNeighbor_key (ds_bgp_neighbors s);
  wf_delete_bindings : keyed AclBinding_key (ds_delete_acl_bindings s);
  wf_delete_neighbors : keyed BgpNeighbor_key (ds_delete_bgp_neighbors s);
  wf_vlans_disjoint : dom (ds_vlans s) ## ds_delete_vlan_ids s;
  wf_acls_disjoint : dom (ds_acls s) ## ds_delete_acl_ids s;
  wf_port_vlans :
    map_Forall (λ _ c, valid_port_mode (bs_elems (dom (ds_vlans s))) (if_mode c)) (ds_interfaces s);
  wf_binding_acls :
    map_Forall (λ _ b, ab_acl_id b ∈ dom (ds_acls s)) (ds_acl_bindings s);
}.

Lemma keyed_insert {K V} `{Countable K} (key : V → K) m v :
  keyed key m → keyed key (<[key v := v]> m).
Proof. intros Hm. by apply map_Forall_insert_2. Qed.

Lemma keyed_collect {K V} `{Ord K, Countable K} (key : V → K) l :
  Forall (λ kv, key kv.2 = kv.1) l → keyed key (bt_collect l).
Proof.
  intros Hl k v Hk%bt_collect_Some. rewrite Forall_forall in Hl. apply (Hl _ Hk).
Qed.

Lemma foldl_inv {A S} (P : S → Prop) (upd : A → S → S) l s :
  (∀ x s, x ∈ l → P s → P (upd x s)) → P s → P (foldl (λ s x, upd x s) s l).
Proof.
  revert s. induction l as [|x l IH]; intros s Hstep Hs; simpl; [done|].
  apply IH; [|by apply Hstep; [left|]]. intros. by apply Hstep; [right|].
Qed.

Lemma elem_of_items_of {A} m2e (dev : A → DeviceId) e l x :
  x ∈ items_of m2e dev e l ↔ m2e !! dev x = Some e ∧ x ∈ l.
Proof. unfold items_of. by rewrite list_elem_of_filter. Qed.

Lemma valid_port_mode_ext l1 l2 m :
  (∀ x, x ∈ l1 ↔ x ∈ l2) → valid_port_mode l1 m → valid_port_mode l2 m.
Proof. intros Hl. destruct m; simpl; naive_solver. Qed.

(** An update that leaves alone the fields an invariant reads. *)
Lemma dom_initial_vlans i v : v ∈ dom (plan_vlans (di_vlans i)) ↔ v ∈ vlan_ids_of i.
Proof.
  rewrite elem_of_dom. unfold plan_vlans. rewrite bt_collect_is_Some, <-list_fmap_compose. done.
Qed.

Lemma dom_initial_acls i a :
  a ∈ dom (bt_collect ((λ a, (ai_acl_id a, acl_config_of_intent a)) <$> di_acls i)) ↔
  a ∈ acl_ids_of i.
Proof. rewrite elem_of_dom, bt_collect_is_Some, <-list_fmap_compose. done. Qed.

Lemma initial_state_wf i e : valid_domain_intent i → desired_wf (initial_state i e).
Proof.
  intros Hv. split; simpl;
    match goal with
    | |- keyed _ ∅ => apply map_Forall_empty
    | |- map_Forall _ ∅ => apply map_Forall_empty
    | _ => idtac
    end.
  - apply keyed_collect, Forall_fmap, Forall_true. done.
  - apply keyed_collect, Forall_fmap, Forall_true. done.
  - intros v Hv1%dom_initial_vlans Hv2%elem_of_bs_collect.
    by eapply (vd_vlan_deletes _ Hv).
  - intros v Hv1%dom_initial_acls Hv2%elem_of_bs_collect.
    by eapply (vd_acl_deletes _ Hv).
Qed.

(** What the planner adds to an endpoint keeps the state well-formed; [wf_step]
    carries the fields the updates do not touch. *)
Definition wf_step (i : UnderlayDomainIntent) (s : DeviceDesiredState) : Prop :=
  desired_wf s ∧ ds_vlans s = plan_vlans (di_vlans i) ∧
  dom (ds_acls s) = list_to_set (acl_ids_of i).

Ltac wf_update :=
  intros ? [] ? (Hwf & ? & ?); split_and!; [|done|done];
  destruct Hwf; simpl in *; split; simpl; try done;
  match goal with |- keyed ?key (<[_ := ?v]> ?m) => by apply (keyed_insert key m v) end.

Lemma endpoint_fold_wf_step i e : valid_domain_intent i → wf_step i (endpoint_fold i e).
Proof.
  intros Hv. unfold endpoint_fold.
  do 5 (apply (foldl_inv (wf_step i)); [by wf_update|]).
  apply (foldl_inv (wf_step i)); [|apply (foldl_inv (wf_step i)); [by wf_update|];
    apply (foldl_inv (wf_step i))].
  - intros x [] [_ Hx]%elem_of_items_of (Hwf & ? & Ha).
    split_and!; [|done|done]. destruct Hwf; simpl in *; split; simpl; try done.
    + by apply keyed_insert.
    + apply map_Forall_insert_2; [|done]. simpl. rewrite Ha, elem_of_list_to_set.
      destruct (vd_bindings _ Hv) as [Hb _]. rewrite Forall_forall in Hb. apply (Hb x Hx).
  - intros x [] [_ Hx]%elem_of_items_of (Hwf & Hvl & Ha).
    split_and!; [|done|done]. destruct Hwf; simpl in *; split; simpl; try done.
    + by apply (keyed_insert if_name _ (interface_config_of_intent x)).
    + apply map_Forall_insert_2; [|done]. simpl.
      destruct (vd_interfaces _ Hv) as [Hb _]. unfold interfaces_of in Hb.
      rewrite Forall_fmap in Hb. setoid_rewrite Forall_forall in Hb.
      destruct (Hb x Hx) as (_ & _ & Hm). eapply valid_port_mode_ext; [|exact Hm].
      intros v. by rewrite elem_of_bs_elems, Hvl, dom_initial_vlans.
  - split_and!; [by apply initial_state_wf|done|].
    apply set_eq. intros a. simpl. by rewrite dom_initial_acls, elem_of_list_to_set.
Qed.

(** ** What a plan must hold

    The specification of the planner, read off the intent alone: an entry of a
    map is the last item of the intent with that key that belongs to the
    endpoint, a set holds exactly the items that belong to it.  A VLAN or an ACL
    belongs to every endpoint; the other items belong to the endpoint that
    manages their switch member. *)
Definition managed_by (i : UnderlayDomainIntent) (e d : DeviceId) : Prop :=
  Exists (λ m, sm_member_id m = device_id_0 d ∧ sm_management_endpoint_id m = device_id_0 e)
    (members i).
#[export] Instance managed_by_dec i e d : Decision (managed_by i e d).
Proof. unfold managed_by. apply _. Defined.

Definition last_with {A} (P : A → Prop) `{∀ x, Decision (P x)} (l : list A) : option A :=
  last (filter P l).

Definition binding_named (i : UnderlayDomainIntent) (e : DeviceId) (l : list AclBindingIntent)
    (k : string) : option AclBinding :=
  (λ b, mkAclBinding (abi_interface_name b) (abi_direction b) (abi_acl_id b)) <$>
  last_with (λ b, managed_by i e (abi_device_id b) ∧
    abi_interface_name b +:+ "|" +:+
      match abi_direction b with Inbound => "inbound" | Outbound => "outbound" end = k) l.

Record plan_holds (i : UnderlayDomainIntent) (e : DeviceId) (s : DeviceDesiredState) : Prop := {
  pf_device_id : ds_device_id s = e;
  pf_vlans : ∀ k, ds_vlans s !! k =
    (λ v, mkVlanConfig (vi_vlan_id v) (vi_name v) (vi_description v)) <$>
    last_with (λ v, vi_vlan_id v = k) (di_vlans i);
  pf_interfaces : ∀ k, ds_interfaces s !! k =
    (λ x, mkInterfaceConfig (ii_name x) (ii_admin_state x) (ii_description x) (ii_mode x)) <$>
    last_with (λ x, managed_by i e (ii_device_id x) ∧ ii_name x = k) (di_interfaces i);
  pf_acls : ∀ k, ds_acls s !! k =
    (λ a, mkAclConfig (ai_acl_id a) (ai_kind a) (ai_name a) (ai_description a) (ai_rules a)) <$>
    last_with (λ a, ai_acl_id a = k) (di_acls i);
  pf_bindings : ∀ k, ds_acl_bindings s !! k = binding_named i e (di_acl_bindings i) k;
  pf_route_policy_refs : ds_route_policy_refs s = ∅;
  pf_processes : ∀ k, ds_bgp_processes s !! k =
    (λ p, mkBgpProcess (bpi_vrf p) (bpi_local_as p) (bpi_router_id p)) <$>
    last_with (λ p, managed_by i e (bpi_device_id p) ∧ bpi_vrf p = k) (di_bgp_processes i);
  pf_neighbors : ∀ k, ds_bgp_neighbors s !! k =
    (λ n, mkBgpNeighbor (bni_vrf n) (bni_address n) (bni_remote_as n) (bni_description n)
            (bni_import_policy n) (bni_export_policy n)) <$>
    last_with (λ n, managed_by i e (bni_device_id n) ∧
      bni_vrf n +:+ "|" +:+ bni_address n = k) (di_bgp_neighbors i);
  pf_delete_vlans : ∀ v, v ∈ ds_delete_vlan_ids s ↔ v ∈ di_delete_vlan_ids i;
  pf_delete_interfaces : ∀ n, n ∈ ds_delete_interface_names s ↔
    ∃ x, x ∈ di_delete_interfaces i ∧ managed_by i e (idi_device_id x) ∧ idi_name x = n;
  pf_delete_acls : ∀ a, a ∈ ds_delete_acl_ids s ↔ a ∈ di_delete_acl_ids i;
  pf_delete_bindings : ∀ k,
    ds_delete_acl_bindings s !! k = binding_named i e (di_delete_acl_bindings i) k;
  pf_delete_processes : ∀ v, v ∈ ds_delete_bgp_process_vrfs s ↔
    ∃ x, x ∈ di_delete_bgp_processes i ∧ managed_by i e (bpd_device_id x) ∧ bpd_vrf x = v;
  pf_delete_neighbors : ∀ k, ds_delete_bgp_neighbors s !! k =
    (λ n, mkBgpNeighbor (bnd_vrf n) (bnd_address n) 0 None None None) <$>
    last_with (λ n, managed_by i e (bnd_device_id n) ∧
      bnd_vrf n +:+ "|" +:+ bnd_address n = k) (di_delete_bgp_neighbors i);
}.

(** The specification leaves nothing open. *)
Lemma plan_holds_unique i e s1 s2 : plan_holds i e s1 → plan_holds i e s2 → s1 = s2.
Proof.
  intros [] []. destruct s1, s2; simpl in *. f_equal; try congruence;
    match goal with
    | H1 : ∀ k, ?m1 !! k = _, H2 : ∀ k, ?m2 !! k = _ |- ?m1 = ?m2 =>
        apply map_eq; intros k; by rewrite H1, H2
    | H1 : ∀ x, x ∈ ?s1 ↔ _, H2 : ∀ x, x ∈ ?s2 ↔ _ |- ?s1 = ?s2 =>
        apply set_eq; intros x; by rewrite H1, H2
    end.
Qed.

Lemma last_with_snoc {A} (P : A → Prop) `{∀ x, Decision (P x)} l x :
  last_with P (l ++ [x]) = if decide (P x) then Some x else last_with P l.
Proof.
  unfold last_with. rewrite filter_app, filter_cons, filter_nil.
  case_decide; [by rewrite last_snoc|]. by rewrite app_nil_r.
Qed.

Lemma collect_last_with {A K V} `{Ord K, Countable K} (key : A → K) (val : A → V) l k :
  bt_collect ((λ x, (key x, val x)) <$> l) !! k = val <$> last_with (λ x, key x = k) l.
Proof.
  induction l as [|x l IH] using rev_ind; [done|].
  rewrite fmap_app, last_with_snoc. simpl. rewrite bt_collect_snoc; simpl.
  case_decide as Hk; [subst; by rewrite lookup_insert_eq|]. by rewrite lookup_insert_ne.
Qed.

(** A loop whose statement leaves a field alone, inserts into a map of the state,
    or adds to a set of it. *)
Lemma foldl_frame {A S F} (get : S → F) (upd : A → S → S) l s :
  (∀ x s, get (upd x s) = get s) → get (foldl (λ s x, upd x s) s l) = get s.
Proof. intros Hu. revert s. induction l as [|x l IH]; intros s; simpl; [done|]. by rewrite IH. Qed.

Lemma foldl_inserts {A S K V} `{Countable K} (get : S → gmap K V) (upd : A → S → S)
    (P : A → Prop) `{∀ x, Decision (P x)} (key : A → K) (val : A → V) l s k :
  get s = ∅ → (∀ x s, get (upd x s) = <[key x := val x]> (get s)) →
  get (foldl (λ s x, upd x s) s (filter P l)) !! k =
  val <$> last_with (λ x, P x ∧ key x = k) l.
Proof.
  intros Hs Hu. induction l as [|x l IH] using rev_ind; simpl; [by rewrite Hs|].
  rewrite last_with_snoc, filter_app, filter_cons, filter_nil, foldl_app.
  destruct (decide (P x)); simpl.
  - rewrite Hu. destruct (decide (key x = k)) as [<-|].
    + rewrite lookup_insert_eq. by rewrite decide_True.
    + rewrite lookup_insert_ne by done. rewrite decide_False by tauto. done.
  - rewrite decide_False by tauto. done.
Qed.

Lemma foldl_adds {A S V} `{Countable V} (get : S → gset V) (upd : A → S → S)
    (P : A → Prop) `{∀ x, Decision (P x)} (val : A → V) l s v :
  get s = ∅ → (∀ x s, get (upd x s) = {[val x]} ∪ get s) →
  v ∈ get (foldl (λ s x, upd x s) s (filter P l)) ↔ ∃ x, x ∈ l ∧ P x ∧ val x = v.
Proof.
  intros Hs Hu. induction l as [|x l IH] using rev_ind; simpl; [rewrite Hs; set_solver|].
  rewrite filter_app, filter_cons, filter_nil, foldl_app.
  setoid_rewrite elem_of_app. setoid_rewrite list_elem_of_singleton.
  case_decide; simpl; [rewrite Hu, elem_of_union, elem_of_singleton|]; rewrite IH; naive_solver.
Qed.

(** For a valid intent a member's endpoint is the one that manages it. *)
Lemma managed_by_lookup i e d :
  NoDup (member_ids_of i) → member_endpoints i !! d = Some e ↔ managed_by i e d.
Proof.
  intros Hnd. unfold managed_by. rewrite Exists_exists. split.
  - intros (m & Heq & Hm)%bt_collect_Some%list_elem_of_fmap. simplify_eq. by exists m.
  - intros (m & Hm & H1 & H2). destruct d as [d], e as [e]; simpl in *. subst.
    by apply member_endpoints_lookup.
Qed.

Lemma items_managed {A} i (dev : A → DeviceId) e l :
  NoDup (member_ids_of i) →
  items_of (member_endpoints i) dev e l = filter (λ x, managed_by i e (dev x)) l.
Proof. intros Hnd. apply list_filter_iff. intros x. by apply managed_by_lookup. Qed.

(** Passes over the loops that leave the field [get] reads alone. *)
Ltac peel get := repeat (rewrite (foldl_frame get) by (by intros ? [])).

Lemma endpoint_fold_planned i e : valid_domain_intent i → plan_holds i e (endpoint_fold i e).
Proof.
  intros Hv. destruct (vd_members _ Hv) as [_ Hnd].
  unfold endpoint_fold. rewrite !(items_managed i) by done.
  split; unfold binding_named.
  - by peel ds_device_id.
  - intros k. peel ds_vlans. apply (collect_last_with vi_vlan_id).
  - intros k. peel ds_interfaces.
    by rewrite (foldl_inserts ds_interfaces add_interface _ ii_name interface_config_of_intent);
      [|peel ds_interfaces|intros ? []].
  - intros k. peel ds_acls. apply (collect_last_with ai_acl_id).
  - intros k. peel ds_acl_bindings.
    by rewrite (foldl_inserts ds_acl_bindings add_acl_binding _
      (λ x, AclBinding_key (binding_of_intent x)) binding_of_intent);
      [|peel ds_acl_bindings|intros ? []].
  - by peel ds_route_policy_refs.
  - intros k. peel ds_bgp_processes.
    by rewrite (foldl_inserts ds_bgp_processes add_bgp_process _ bpi_vrf process_of_intent);
      [|peel ds_bgp_processes|intros ? []].
  - intros k. peel ds_bgp_neighbors.
    by rewrite (foldl_inserts ds_bgp_neighbors add_bgp_neighbor _
      (λ x, BgpNeighbor_key (neighbor_of_intent x)) neighbor_of_intent);
      [|peel ds_bgp_neighbors|intros ? []].
  - intros v. peel ds_delete_vlan_ids. apply elem_of_bs_collect.
  - intros n. peel ds_delete_interface_names.
    by apply (foldl_adds ds_delete_interface_names add_delete_interface _ idi_name);
      [peel ds_delete_interface_names|intros ? []].
  - intros a. peel ds_delete_acl_ids. apply elem_of_bs_collect.
  - intros k. peel ds_delete_acl_bindings.
    by rewrite (foldl_inserts ds_delete_acl_bindings add_delete_acl_binding _
      (λ x, AclBinding_key (binding_of_intent x)) binding_of_intent);
      [|peel ds_delete_acl_bindings|intros ? []].
  - intros v. peel ds_delete_bgp_process_vrfs.
    by apply (foldl_adds ds_delete_bgp_process_vrfs add_delete_bgp_process _ bpd_vrf);
      [peel ds_delete_bgp_process_vrfs|intros ? []].
  - intros k.
    by rewrite (foldl_inserts ds_delete_bgp_neighbors add_delete_bgp_neighbor _
      (λ x, BgpNeighbor_key (deleted_neighbor x)) deleted_neighbor);
      [|peel ds_delete_bgp_neighbors|intros ? []].
Qed.

Lemma planned_states_hold i :
  valid_domain_intent i →
  Forall2 (plan_holds i) (planned_endpoints i) (endpoint_fold i <$> planned_endpoints i).
Proof.
  intros Hv. apply Forall2_fmap_r, Forall_Forall2_diag, Forall_forall. intros e _.
  by apply endpoint_fold_planned.
Qed.

Lemma plan_valid_intent i states : plan_underlay_domain i = Ok states → valid_domain_intent i.
Proof. intros Hplan. apply validate_domain_Ok. unfold plan_underlay_domain in Hplan. by inv_ok. Qed.

(** C11. Planning is total on what validation accepts and plans what the intent
    says: for every valid intent the eight loops over the shared [states] map
    produce exactly one desired state per management endpoint, in ascending order
    of the endpoint ids, and each holds, entry by entry, what the intent lists for
    that endpoint ([plan_holds]): every VLAN and ACL and their deletes, and the
    interfaces, ACL bindings, BGP processes and neighbors and the deletes of the
    members the endpoint manages, with every attribute of the item; of several
    items with one key the last one, and nothing else.  For every other intent
    the planner returns the validator's error. *)
Theorem plan_underlay_domain_correct i :
  match validate_underlay_domain_intent i with
  | Ok _ => ∃ states, plan_underlay_domain i = Ok states ∧
      Forall2 (plan_holds i) (planned_endpoints i) states
  | Err e => plan_underlay_domain i = Err e
  end.
Proof.
  destruct (validate_underlay_domain_intent i) as [[]|e] eqn:Hval.
  - apply validate_domain_Ok in Hval. eexists.
    split; [by apply plan_valid|by apply planned_states_hold].
  - unfold plan_underlay_domain. by rewrite Hval.
Qed.

Lemma endpoint_fold_device_id i e : ds_device_id (endpoint_fold i e) = e.
Proof.
  unfold endpoint_fold.
  do 8 (apply (foldl_inv (λ s, ds_device_id s = e)); [by intros ? []|]). done.
Qed.

(** What the planner hands on is well-formed: the states are those of the
    endpoints, each once; every map of a state is keyed by its value's own key,
    no VLAN or ACL is both wanted and deleted, every port uses VLANs the state
    creates and every ACL binding an ACL the state creates. *)
Theorem plan_underlay_domain_wf i states :
  plan_underlay_domain i = Ok states →
  Forall desired_wf states ∧ ds_device_id <$> states = planned_endpoints i ∧
  NoDup (ds_device_id <$> states).
Proof.
  intros Hplan. pose proof (plan_valid_intent i states Hplan) as Hv.
  rewrite (plan_valid i Hv) in Hplan. inv_ok.
  assert (ds_device_id <$> (endpoint_fold i <$> planned_endpoints i) = planned_endpoints i)
    as Hids.
  { rewrite <-list_fmap_compose. rewrite <-(list_fmap_id (planned_endpoints i)) at 2.
    apply list_fmap_ext. intros. apply endpoint_fold_device_id. }
  split_and!; [|done|].
  - rewrite Forall_fmap. apply Forall_forall. intros e _. by apply (endpoint_fold_wf_step i e).
  - rewrite Hids, <-planned_endpoints_elems by apply (vd_endpoints _ Hv). apply NoDup_bs_elems.
Qed.

(** ** A small stack: two members behind one management endpoint *)
Module Sample.
Definition member (id : string) : SwitchMemberIntent := mkSwitchMemberIntent id None "stack-1".
Definition port (m name : string) (v : N) : InterfaceIntent :=
  mkInterfaceIntent (mkDeviceId m) name Up None (Access v).
Definition stack (ports : list InterfaceIntent) : UnderlayDomainIntent :=
  {| domain_id := "pod-1"; topology := StackSingleManagementIp;
     endpoints := [mkManagementEndpointIntent "stack-1" "10.0.0.1" 830 "vault:stack" None None];
     members := [member "leaf-a"; member "leaf-b"];
     di_vlans := [mkVlanIntent 10 (Some "prod") None; mkVlanIntent 20 None None];
     di_interfaces := ports;
     di_acls := [mkAclIntent 3000 AdvancedIpv4 None None []];
     di_acl_bindings := [mkAclBindingIntent (mkDeviceId "leaf-a") "GE1/0/1" Inbound 3000];
     di_delete_vlan_ids := [30%N]; di_delete_interfaces := []; di_delete_acl_ids := [3001%N];
     di_delete_acl_bindings := []; 
     di_bgp_processes := [mkBgpProcessIntent (mkDeviceId "leaf-b") "vpn1" 65001 (Some "1.1.1.1")];
     di_bgp_neighbors := [mkBgpNeighborIntent (mkDeviceId "leaf-b") "vpn1" "10.1.1.2" 65002
                            None None None];
     di_delete_bgp_processes := []; di_delete_bgp_neighbors := [] |}.
Definition intent : UnderlayDomainIntent :=
  stack [port "leaf-a" "GE1/0/1" 10; port "leaf-b" "GE2/0/1" 20].
End Sample.

Lemma plan_underlay_domain_wf_witness :
  Forall desired_wf [endpoint_fold Sample.intent (mkDeviceId "stack-1")].
Proof.
  apply (plan_underlay_domain_wf Sample.intent). vm_compute. reflexivity.
Defined.

(** Interfaces are checked for duplicates per member but planned per endpoint: two
    members of one endpoint that name the same interface pass validation and the
    later entry replaces the earlier one. *)
Example shared_endpoint_overwrites :
  let i := Sample.stack [Sample.port "leaf-a" "GE1/0/1" 10; Sample.port "leaf-b" "GE1/0/1" 20] in
  validate_underlay_domain_intent i = Ok tt ∧
  ds_interfaces (endpoint_fold i (mkDeviceId "stack-1")) =
    {[ "GE1/0/1" := mkInterfaceConfig "GE1/0/1" Up None (Access 20) ]}.
Proof. vm_compute. split; reflexivity. Qed.
