(* ===== verification/FileSystem.v ===== *)
(** * The directory a store keeps its files in (src/utils/atomic_file.rs)

    The JSON stores keep one file per record in a directory of their own and
    replace files only through [atomic_write].  The directory is a map from
    file names to contents.  Every call into the operating system can fail: the
    oracle [io_fault n] says whether and how the [n]-th call does, and a failed
    [write_all] leaves the prefix of the payload the oracle [written n] gives.  A failed
    [stat] has no error: [path.exists()] is then [false], as for a path that is not there. *)
From S2P Require Export Planner.

Record Fs := mkFs {
  fs_root : bool;                    (* the root directory exists *)
  fs_files : gmap string string;     (* file name ↦ contents *)
  fs_calls : nat;                    (* system calls made so far *)
}.

(** What the system decides: faults, the length of a partial write, the order
    of [read_dir], and the text of a fresh [Uuid]. *)
Record FsOracle := mkFsOracle {
  io_fault : nat → option string;
  written : nat → nat;
  dir_order : list string → list string;
  dir_order_perm : ∀ l, dir_order l ≡ₚ l;   (* every entry, once *)
  new_v4 : nat → string;
  stat_fault : nat → string → bool;         (* does a [stat] of this path fail? *)
}.

Definition reliable (o : FsOracle) : Prop := ∀ n, io_fault o n = None.
(** No [stat] fails, whatever else does. *)
Class StatsWork (o : FsOracle) : Prop := stat_works n name : stat_fault o n name = false.

Section fs.
Context (o : FsOracle).

Notation FS := (ST string Fs).

Definition bump (s : Fs) : Fs := mkFs (fs_root s) (fs_files s) (S (fs_calls s)).
Definition set_files (m : gmap string string) (s : Fs) : Fs := mkFs (fs_root s) m (fs_calls s).

(** One system call: it fails as the oracle says, else it does [f]. *)
Definition syscall {A} (f : Fs → result string A * Fs) : FS A := λ s,
  match io_fault o (fs_calls s) with
  | Some e => (Err e, bump s)
  | None => let '(r, s') := f s in (r, bump s')
  end.

Definition create_dir_all : FS unit :=
  syscall (λ s, (Ok tt, mkFs true (fs_files s) (fs_calls s))).
(** [OpenOptions::new().write(true).create_new(true).open(..)] *)
Definition open_new (name : string) : FS unit :=
  syscall (λ s, match fs_files s !! name with
                | Some _ => (Err "File exists (os error 17)", s)
                | None => (Ok tt, set_files (<[name := ""]> (fs_files s)) s)
                end).
Definition write_all (name payload : string) : FS unit := λ s,
  match io_fault o (fs_calls s) with
  | Some e => (Err e, bump (set_files
      (<[name := of_bytes (take (written o (fs_calls s)) (bytes payload))]> (fs_files s)) s))
  | None => (Ok tt, bump (set_files (<[name := payload]> (fs_files s)) s))
  end.
Definition sync : FS unit := syscall (λ s, (Ok tt, s)).
Definition rename (from to : string) : FS unit :=
  syscall (λ s, match fs_files s !! from with
                | Some c => (Ok tt, set_files (<[to := c]> (delete from (fs_files s))) s)
                | None => (Err "No such file or directory (os error 2)", s)
                end).
Definition remove_file (name : string) : FS unit :=
  syscall (λ s, match fs_files s !! name with
                | Some _ => (Ok tt, set_files (delete name (fs_files s)) s)
                | None => (Err "No such file or directory (os error 2)", s)
                end).
Definition read_file (name : string) : FS string :=
  syscall (λ s, match fs_files s !! name with
                | Some c => (Ok c, s)
                | None => (Err "No such file or directory (os error 2)", s)
                end).
Definition read_dir : FS (list string) :=
  syscall (λ s, (Ok (dir_order o (bt_keys (fs_files s))), s)).
(** A [stat] of this path succeeds if the path is there. *)
Definition stat_ok (path : string) (s : Fs) : bool := negb (stat_fault o (fs_calls s) path).
Definition has_file (name : string) (s : Fs) : bool := bool_decide (is_Some (fs_files s !! name)).
(** [path.exists()], which is [false] when the call fails. *)
Definition exists_file (name : string) (s : Fs) : bool := stat_ok name s && has_file name s.
(** [root.exists()]; no file of the directory has the empty name. *)
Definition root_exists (s : Fs) : bool := stat_ok "" s && fs_root s.

Lemma exists_file_true name s : exists_file name s = true → is_Some (fs_files s !! name).
Proof. unfold exists_file, has_file. intros [_ H]%andb_prop. by apply bool_decide_eq_true in H. Qed.
Lemma exists_file_false name s :
  exists_file name s = false → fs_files s !! name = None ∨ stat_fault o (fs_calls s) name = true.
Proof.
  unfold exists_file, stat_ok, has_file. destruct (stat_fault _ _ _); [by right|]. simpl.
  intros H%bool_decide_eq_false. left. by apply eq_None_not_Some.
Qed.
Lemma exists_file_works `{!StatsWork o} name s :
  exists_file name s = bool_decide (is_Some (fs_files s !! name)).
Proof. unfold exists_file, stat_ok. by rewrite stat_works. Qed.
Lemma root_exists_false s :
  root_exists s = false → fs_root s = false ∨ stat_fault o (fs_calls s) "" = true.
Proof. unfold root_exists, stat_ok. destruct (stat_fault _ _ _), (fs_root s); auto. Qed.
Lemma root_exists_works `{!StatsWork o} s : root_exists s = fs_root s.
Proof. unfold root_exists, stat_ok. by rewrite stat_works. Qed.

Definition map_io {A} (io_error : string → UnderlayError) (m : FS A) : ST UnderlayError Fs A :=
  λ s, let '(r, s') := m s in (map_err io_error r, s').

(** ** src/utils/atomic_file.rs

    The path is [root.join(name)], so it has a parent and a file name. *)
Definition unique_tmp_path (name : string) (s : Fs) : string :=
  "." +:+ name +:+ "." +:+ new_v4 o (fs_calls s) +:+ ".tmp".

Definition sync_parent_dir (io_error : string → UnderlayError) : ST UnderlayError Fs unit :=
  map_io io_error sync.

Definition write_then_rename (name tmp payload : string) (io_error : string → UnderlayError)
    : ST UnderlayError Fs unit :=
  _ ← map_io io_error (open_new tmp);
  _ ← map_io io_error (write_all tmp payload);
  _ ← map_io io_error sync;
  _ ← map_io io_error (rename tmp name);
  sync_parent_dir io_error.

Definition atomic_write (name payload : string) (io_error : string → UnderlayError)
    : ST UnderlayError Fs unit :=
  _ ← map_io io_error create_dir_all;
  s ← st_get;
  let tmp := unique_tmp_path name s in
  result ← st_try (write_then_rename name tmp payload io_error);
  _ ← (if is_ok result then mret tt
       else _ ← st_try (map_io io_error (remove_file tmp)); mret tt);
  st_lift result.

(** ** Atomicity *)

Lemma unique_tmp_path_ne name s : unique_tmp_path name s ≠ name.
Proof.
  unfold unique_tmp_path. intros Heq%(f_equal (length ∘ bytes)). revert Heq. simpl.
  rewrite !bytes_app. simpl. rewrite !length_app. simpl. lia.
Qed.

(** The state a call leaves: the files other than [names] are as they were. *)
Definition untouched (names : list string) (s s' : Fs) : Prop :=
  ∀ k, k ∉ names → fs_files s' !! k = fs_files s !! k.

Ltac fs_steps :=
  unfold map_io, syscall, mbind, ST_bind, st_get, st_try, st_lift, mret, ST_ret in *;
  repeat (case_match; simplify_eq/=; try done).

Lemma write_then_rename_spec name tmp payload io_error s r s' :
  tmp ≠ name → write_then_rename name tmp payload io_error s = (r, s') →
  untouched [name; tmp] s s' ∧ fs_root s' = fs_root s ∧
  (fs_files s' !! name = Some payload ∨
   fs_files s' !! name = fs_files s !! name ∧ is_ok r = false).
Proof.
  intros Hne. unfold write_then_rename, open_new, write_all, sync_parent_dir, sync, rename.
  fs_steps; intros; simplify_eq/=; (split_and!; [|done|]).
  all: try (intros k Hk; rewrite !not_elem_of_cons in Hk; destruct Hk as (? & ? & _);
    simplify_map_eq; done).
  all: simplify_map_eq; auto.
Qed.

Lemma atomic_write_spec name payload io_error s r s' :
  atomic_write name payload io_error s = (r, s') →
  (∃ tmp_id, untouched [name; "." +:+ name +:+ "." +:+ tmp_id +:+ ".tmp"] s s') ∧
  (fs_root s' = true ∨ fs_root s' = fs_root s ∧ fs_files s' = fs_files s) ∧
  match r with
  | Ok _ => fs_root s' = true ∧ fs_files s' !! name = Some payload
  | Err _ => fs_files s' !! name = Some payload ∨ fs_files s' !! name = fs_files s !! name
  end.
Proof.
  unfold atomic_write. unfold mbind at 1, ST_bind at 1.
  destruct (map_io io_error create_dir_all s) as [[[]|e] s1] eqn:Hdir.
  2:{ intros [= <- <-]. revert Hdir. unfold create_dir_all. fs_steps. intros. simplify_eq/=.
      split_and!; [by exists ""|by right|by right]. }
  assert (fs_root s1 = true ∧ fs_files s1 = fs_files s) as [Hroot Hfiles].
  { revert Hdir. unfold create_dir_all. fs_steps. intros. by simplify_eq/=. }
  unfold mbind at 1, ST_bind at 1, st_get at 1.
  set (tmp := unique_tmp_path name s1).
  unfold mbind at 1, ST_bind at 1, st_try at 1.
  destruct (write_then_rename name tmp payload io_error s1) as [r1 s2] eqn:Hw.
  apply write_then_rename_spec in Hw as (Hu & Hr2 & Hn); [|apply unique_tmp_path_ne].
  assert (untouched [name; tmp] s s2) as Hu'.
  { intros k Hk. rewrite (Hu k Hk). by rewrite Hfiles. }
  intros Hfin. assert (r = r1 ∧ fs_root s' = true ∧ untouched [tmp] s2 s') as (-> & Hr' & Ht).
  { destruct r1 as [[]|e1]; simpl in Hfin.
    - unfold mbind, ST_bind, mret, ST_ret, st_lift in Hfin. simplify_eq/=.
      split_and!; [done|congruence|done].
    - revert Hfin. unfold remove_file. fs_steps; intros; simplify_eq/=;
        (split_and!; [done|congruence|]); try done.
      intros k Hk. rewrite not_elem_of_cons in Hk. simpl. by rewrite lookup_delete_ne by (destruct Hk; congruence). }
  assert (fs_files s' !! name = fs_files s2 !! name) as Hname.
  { apply Ht. rewrite list_elem_of_singleton. apply not_eq_sym, unique_tmp_path_ne. }
  split_and!; [|by left|].
  - exists (new_v4 o (fs_calls s1)). intros k Hk. rewrite Ht; [by apply Hu'|]. set_solver.
  - rewrite Hname. rewrite <-Hfiles. destruct r1; naive_solver.
Qed.
(** Nothing fails and the temporary name is new: the file is written and nothing
    else changes. *)
Lemma atomic_write_reliable name payload io_error s :
  reliable o → (∀ n, fs_files s !! ("." +:+ name +:+ "." +:+ new_v4 o n +:+ ".tmp") = None) →
  ∃ n, atomic_write name payload io_error s = (Ok tt, mkFs true (<[name := payload]> (fs_files s)) n).
Proof.
  intros Hr Hnew. eexists. unfold atomic_write, write_then_rename, sync_parent_dir, map_io,
    create_dir_all, open_new, write_all, sync, rename, syscall, mbind, ST_bind, st_get, st_try, st_lift.
  rewrite Hr. simpl. unfold unique_tmp_path. simpl. rewrite Hr. rewrite Hnew. simpl. repeat (rewrite Hr; simpl).
  rewrite lookup_insert_eq. simpl. repeat (rewrite Hr; simpl).
  rewrite insert_insert_eq, delete_insert_id by apply Hnew. reflexivity.
Qed.

End fs.

(** C13. A write replaces a file as a whole: whatever fails, and wherever a partial
    write stops, the file holds the new contents or is as it was, and no other file
    changes but a temporary one; on [Ok] it holds the new contents; and the write
    succeeds, leaving no temporary file, when no system call fails. *)
Theorem atomic_write_atomic o name payload io_error s :
  let '(r, s') := atomic_write o name payload io_error s in
  (∃ id, untouched [name; "." +:+ name +:+ "." +:+ id +:+ ".tmp"] s s') ∧
  match r with
  | Ok _ => fs_files s' !! name = Some payload
  | Err _ => fs_files s' !! name = Some payload ∨ fs_files s' !! name = fs_files s !! name
  end ∧
  (reliable o → (∀ n, fs_files s !! ("." +:+ name +:+ "." +:+ new_v4 o n +:+ ".tmp") = None) →
   r = Ok tt ∧ fs_files s' = <[name := payload]> (fs_files s)).
Proof.
  destruct (atomic_write o name payload io_error s) as [r s'] eqn:Hw. split_and!.
  - by apply atomic_write_spec in Hw as [? _].
  - apply atomic_write_spec in Hw as (_ & _ & Hr). by destruct r; [destruct Hr|].
  - intros Hr Hnew. destruct (atomic_write_reliable o name payload io_error s Hr Hnew) as [n Hn].
    rewrite Hn in Hw. by simplify_eq.
Qed.

Definition sample_oracle : FsOracle :=
  mkFsOracle (λ _, None) (λ _, 0) (λ l, l) (λ _, Permutation_refl _) (λ _, "u") (λ _ _, false).
#[export] Instance sample_stats : StatsWork sample_oracle.
Proof. done. Qed.

Lemma atomic_write_atomic_witness :
  fs_files (atomic_write sample_oracle "a.json" "{}" Internal (mkFs false ∅ 0)).2 = {[ "a.json" := "{}" ]}.
Proof.
  pose proof (atomic_write_atomic sample_oracle "a.json" "{}" Internal (mkFs false ∅ 0)) as H.
  destruct (atomic_write _ _ _ _ _) as [r s']. apply H; [intros n; reflexivity|].
  intros n. apply lookup_empty.
Defined.


(** ** File names *)

(** [Path::extension]: what follows the last dot, when something precedes it.
    [split_dot] works on the reversed name. *)
Fixpoint split_dot (l : list ascii) : option (list ascii * list ascii) :=
  match l with
  | [] => None
  | c :: l => if decide (c = "."%char) then Some ([], l)
              else '(ext, stem) ← split_dot l; Some (c :: ext, stem)
  end.
Definition extension (name : string) : option string :=
  match split_dot (reverse (bytes name)) with
  | Some (ext, _ :: _) => Some (of_bytes (reverse ext))
  | _ => None
  end.

Lemma split_dot_Some l ext stem :
  split_dot l = Some (ext, stem) ↔ l = ext ++ "."%char :: stem ∧ "."%char ∉ ext.
Proof.
  revert ext stem. induction l as [|c l IH]; intros ext stem; simpl.
  { split; [done|]. intros [Heq _]. by destruct ext. }
  case_decide as Hc; subst.
  - split; [intros; simplify_eq; split; [done|set_solver]|].
    intros [Heq Hd]. destruct ext as [|c ext]; simplify_eq/=; [done|set_solver].
  - rewrite bind_Some. split.
    + intros ([e st] & [-> Hd]%IH & Heq). simplify_eq/=. split; [done|set_solver].
    + intros [Heq Hd]. destruct ext as [|c' ext]; simplify_eq/=.
      exists (ext, stem). split; [|done]. apply IH. set_solver.
Qed.

Definition json_name (id : string) : string := id +:+ ".json".

#[export] Instance json_name_inj : Inj (=) (=) json_name.
Proof. intros x y. apply string_app_inj_r. Qed.

Lemma extension_json name :
  extension name = Some "json" ↔ ∃ id, id ≠ "" ∧ name = json_name id.
Proof.
  unfold extension. split.
  - destruct (split_dot _) as [[ext [|c stem]]|] eqn:Hs; try done. intros [= Hext].
    apply split_dot_Some in Hs as [Hs _].
    assert (reverse ext = bytes "json") as Hext' by (by rewrite <-Hext, bytes_of_bytes).
    exists (of_bytes (reverse (c :: stem))). split.
    + intros Heq%(f_equal (length ∘ bytes)). revert Heq. simpl.
      rewrite bytes_of_bytes, length_reverse. done.
    + apply (inj bytes). unfold json_name. rewrite bytes_app, bytes_of_bytes.
      apply (inj reverse). rewrite Hs, reverse_app, reverse_involutive. simpl.
      by rewrite <-(reverse_involutive ext), Hext'.
  - intros (id & Hid & ->). unfold json_name. rewrite bytes_app, reverse_app.
    assert (split_dot (reverse (bytes ".json") ++ reverse (bytes id)) =
      Some (reverse (bytes "json"), reverse (bytes id))) as ->.
    { apply split_dot_Some. split; [done|]. by apply (bool_decide_unpack _), I. }
    destruct (reverse (bytes id)) eqn:Hr; [|done].
    destruct Hid. apply (inj bytes). apply (inj reverse). by rewrite Hr.
Qed.

Lemma tmp_not_json name u id : "." +:+ name +:+ "." +:+ u +:+ ".tmp" ≠ json_name id.
Proof.
  intros Heq%(f_equal (reverse ∘ bytes)). unfold json_name, compose in Heq.
  rewrite !bytes_app, !reverse_app in Heq. discriminate Heq.
Qed.

(** ** A directory of JSON records

    What the file stores have in common.  [serde_json] is outside the source:
    [encode] and [decode] stand for it. *)
Record Codec (A : Type) := mkCodec {
  encode : A → result string string;
  decode : string → result string A;
}.
Arguments mkCodec {A}. Arguments encode {A}. Arguments decode {A}.

(** What the stores rely on: what was written reads back as it was. *)
Definition codec_round_trip {A} (c : Codec A) : Prop :=
  ∀ a text, encode c a = Ok text → decode c text = Ok a.

Section json_dir.
Context (o : FsOracle) {A K : Type} `{Ord K, Countable K}.
Context (codec : Codec A) (key : A → K) (id_of : K → string).
Context (io_error : string → UnderlayError) (parse_error : string → string → UnderlayError).

Definition file_of (k : K) : string := json_name (id_of k).

Definition read_record (name : string) : ST UnderlayError Fs A :=
  payload ← map_io io_error (read_file o name);
  st_lift (map_err (parse_error name) (decode codec payload)).

(** [if !path.exists() { return Ok(None) } read_record(&path).map(Some)] *)
Definition read_if_exists (name : string) : ST UnderlayError Fs (option A) :=
  s ← st_get;
  if exists_file o name s then a ← read_record name; mret (Some a) else mret None.

(** [serde_json::to_vec_pretty(..)?; atomic_write(..)] *)
Definition write_record (name : string) (serialize_error : string → UnderlayError) (a : A)
    : ST UnderlayError Fs unit :=
  payload ← st_lift (map_err serialize_error (encode codec a));
  atomic_write o name payload io_error.

(** The body of the loop over the directory. *)
Definition scan_step (keep : A → bool) (records : list A) (name : string)
    : ST UnderlayError Fs (list A) :=
  _ ← map_io io_error (sync o);
  if decide (extension name = Some "json") then
    a ← read_record name;
    mret (if keep a then records ++ [a] else records)
  else mret records.

(** The scan of [list]/[list_recoverable]: read every [.json] file, keep some
    records, sort by key. *)
Definition scan_records (keep : A → bool) : ST UnderlayError Fs (list A) :=
  s ← st_get;
  if negb (root_exists o s) then mret [] else
  names ← map_io io_error (read_dir o);
  records ← st_foldM (scan_step keep) [] names;
  mret (sort_by_key key records).

(** ** The map a directory stands for: the records that can be read *)
Definition dir_entry (nc : string * string) : option (K * A) :=
  match decode codec nc.2 with
  | Ok a => if decide (id_of (key a) ≠ "" ∧ nc.1 = file_of (key a)) then Some (key a, a) else None
  | Err _ => None
  end.
Definition dir_view (s : Fs) : gmap K A := bt_collect (omap dir_entry (map_to_list (fs_files s))).

(** A directory the store has written: a readable record is in the file its
    key names, and there are no files without the directory. *)
Definition dir_ok (s : Fs) : Prop :=
  (fs_root s = false → fs_files s = ∅) ∧
  ∀ name text a, extension name = Some "json" → fs_files s !! name = Some text →
    decode codec text = Ok a → name = file_of (key a).

#[local] Set Default Proof Using "Type".

Lemma dir_ok_empty n : dir_ok (mkFs false ∅ n).
Proof. split; [done|]. intros name text a _ Hl. simpl in Hl. by rewrite lookup_empty in Hl. Qed.

(** A call that only reads. *)
Definition reads_only {B} (m : ST UnderlayError Fs B) : Prop :=
  ∀ s r s', m s = (r, s') → fs_files s' = fs_files s ∧ fs_root s' = fs_root s.

Lemma reads_only_ret {B} (b : B) : reads_only (mret b).
Proof. intros s r s' [= <- <-]. done. Qed.
Lemma reads_only_lift {B} (b : UnderlayResult B) : reads_only (st_lift b).
Proof. intros s r s' [= <- <-]. done. Qed.
Lemma reads_only_get : reads_only st_get.
Proof. intros s r s' [= <- <-]. done. Qed.
Lemma reads_only_bind {B C} (m : ST UnderlayError Fs B) (f : B → ST UnderlayError Fs C) :
  reads_only m → (∀ b, reads_only (f b)) → reads_only (m ≫= f).
Proof.
  intros Hm Hf s r s'. unfold mbind, ST_bind. destruct (m s) as [[b|e] s1] eqn:Hs.
  - intros Hr. destruct (Hm _ _ _ Hs), (Hf _ _ _ _ Hr). split; congruence.
  - intros [= <- <-]. by apply (Hm _ _ _ Hs).
Qed.
Lemma reads_only_foldM {B C} (f : B → C → ST UnderlayError Fs B) b l :
  (∀ b c, reads_only (f b c)) → reads_only (st_foldM f b l).
Proof.
  intros Hf. revert b. induction l; intros b; simpl; [apply reads_only_ret|].
  apply reads_only_bind; auto.
Qed.
Lemma reads_only_call {B} (f : Fs → result string B * Fs) :
  (∀ s, (f s).2 = s) → reads_only (map_io io_error (syscall o f)).
Proof.
  intros Hf s r s'. unfold map_io, syscall. destruct (io_fault o (fs_calls s)).
  - intros [= <- <-]. done.
  - specialize (Hf s). destruct (f s) as [b s1]. simpl in Hf. subst. intros [= <- <-]. done.
Qed.

Lemma read_record_reads name : reads_only (read_record name).
Proof.
  apply reads_only_bind; [|intros; apply reads_only_lift].
  apply reads_only_call. intros s. by destruct (fs_files s !! name).
Qed.

Lemma read_if_exists_reads name : reads_only (read_if_exists name).
Proof.
  apply reads_only_bind; [apply reads_only_get|]. intros s. cbv beta. case_match.
  - apply reads_only_bind; [apply read_record_reads|]. intros. apply reads_only_ret.
  - apply reads_only_ret.
Qed.

Lemma scan_records_reads keep : reads_only (scan_records keep).
Proof.
  apply reads_only_bind; [apply reads_only_get|]. intros s. cbv beta. case_match; [apply reads_only_ret|].
  apply reads_only_bind; [by apply reads_only_call|]. intros names.
  apply reads_only_bind; [|intros; apply reads_only_ret].
  apply reads_only_foldM. intros. apply reads_only_bind; [by apply reads_only_call|]. intros _. cbv beta.
  case_decide; [|apply reads_only_ret].
  apply reads_only_bind; [apply read_record_reads|]. intros. apply reads_only_ret.
Qed.

Lemma read_record_Ok name s a s' :
  read_record name s = (Ok a, s') →
  ∃ text, fs_files s !! name = Some text ∧ decode codec text = Ok a.
Proof.
  unfold read_record, read_file, map_io, syscall, mbind, ST_bind, st_lift.
  intros Hr. repeat (case_match; simplify_eq/=; try done).
  destruct (decode codec _) eqn:Hd; simplify_eq/=. eauto.
Qed.

Lemma dir_ok_same s s' :
  fs_files s' = fs_files s → fs_root s' = fs_root s → dir_ok s → dir_ok s'.
Proof. intros Hf Hr [H1 H2]. split; rewrite Hf, ?Hr; done. Qed.

Context `{!Inj (=) (=) id_of}.
#[local] Set Default Proof Using "Type*".

Lemma file_of_inj k1 k2 : file_of k1 = file_of k2 → k1 = k2.
Proof. intros Heq. by apply (inj id_of), (inj json_name). Qed.

Lemma dir_view_lookup s k a :
  dir_view s !! k = Some a ↔
  ∃ text, fs_files s !! file_of k = Some text ∧ decode codec text = Ok a ∧ key a = k ∧ id_of k ≠ "".
Proof.
  assert (∀ k a, (k, a) ∈ omap dir_entry (map_to_list (fs_files s)) ↔
    ∃ text, fs_files s !! file_of k = Some text ∧ decode codec text = Ok a ∧ key a = k ∧
            id_of k ≠ "") as Hin.
  { intros k' a'. rewrite list_elem_of_omap. split.
    - intros ([name text] & Hel%elem_of_map_to_list & Hd). unfold dir_entry in Hd. simpl in Hd.
      destruct (decode codec text) as [a0|] eqn:Ht; [|done].
      case_decide as Hc; simplify_eq. destruct Hc as [? ->]. eauto.
    - intros (text & Hf & Hd & <- & ?). exists (file_of (key a'), text).
      rewrite elem_of_map_to_list. split; [done|]. unfold dir_entry. simpl. rewrite Hd.
      by rewrite decide_True. }
  unfold dir_view. split.
  - intros Hl%bt_collect_Some. by apply Hin.
  - intros Ht. apply bt_collect_lookup; [|by apply Hin].
    intros a' (t' & ? & ? & ? & ?)%Hin. destruct Ht as (t & ? & ? & ? & ?). congruence.
Qed.

(** Reading the file of a key gives what the view has there. *)
Lemma dir_view_read s k :
  dir_ok s → id_of k ≠ "" →
  ∀ a, dir_view s !! k = Some a ↔
  ∃ text, fs_files s !! file_of k = Some text ∧ decode codec text = Ok a.
Proof.
  intros [_ Hok] Hid a. rewrite dir_view_lookup. split.
  { intros (text & ? & ? & _). by exists text. }
  intros (text & Hf & Hd). exists text. split_and!; try done.
  symmetry. apply file_of_inj. eapply Hok; [|done..]. apply extension_json. eauto.
Qed.

Lemma dir_view_ext s s' :
  (∀ k, fs_files s' !! file_of k = fs_files s !! file_of k) → dir_view s' = dir_view s.
Proof.
  intros Heq. apply map_eq. intros k. apply option_eq. intros a.
  rewrite !dir_view_lookup. by setoid_rewrite Heq.
Qed.

Lemma dir_view_write s s' a text :
  id_of (key a) ≠ "" → decode codec text = Ok a →
  fs_files s' !! file_of (key a) = Some text →
  (∀ k, k ≠ key a → fs_files s' !! file_of k = fs_files s !! file_of k) →
  dir_view s' = <[key a := a]> (dir_view s).
Proof.
  intros Hid Hd Hf Hu. apply map_eq. intros k. apply option_eq. intros a'.
  destruct (decide (k = key a)) as [->|Hne].
  - rewrite lookup_insert_eq, dir_view_lookup, Hf. split.
    + intros (t & ? & ? & ?). congruence.
    + intros [= <-]. eauto.
  - rewrite lookup_insert_ne, !dir_view_lookup by done. by rewrite Hu.
Qed.

(** Reading a key: the view is untouched, and what an [Ok] carries is what the
    view has, or nothing when the [stat] of the file failed. *)
Lemma read_if_exists_any k s r s' :
  dir_ok s → id_of k ≠ "" → read_if_exists (file_of k) s = (r, s') →
  dir_ok s' ∧ dir_view s' = dir_view s ∧
  ∀ v, r = Ok v → v = dir_view s !! k ∨ v = None ∧ stat_fault o (fs_calls s) (file_of k) = true.
Proof.
  intros Hok Hid Hr. destruct (read_if_exists_reads _ _ _ _ Hr) as [Hf Hroot].
  split_and!; [by eapply dir_ok_same|by apply dir_view_ext; intros; rewrite Hf|].
  intros v ->. revert Hr. unfold read_if_exists, mbind, ST_bind, st_get, mret, ST_ret.
  destruct (exists_file o (file_of k) s) eqn:He.
  - destruct (read_record _ s) as [[a|e] s1] eqn:Hrr; intros [= <- <-].
    left. symmetry. apply dir_view_read; [done..|]. by eapply read_record_Ok.
  - intros [= <- <-]. apply exists_file_false in He as [He|He]; [left|by right].
    symmetry. apply eq_None_not_Some. intros [a Ha].
    apply dir_view_read in Ha as (t & Ht & _); [|done..]. congruence.
Qed.
Lemma read_if_exists_spec `{!StatsWork o} k s r s' :
  dir_ok s → id_of k ≠ "" → read_if_exists (file_of k) s = (r, s') →
  dir_ok s' ∧ dir_view s' = dir_view s ∧ ∀ v, r = Ok v → v = dir_view s !! k.
Proof.
  intros Hok Hid Hr. destruct (read_if_exists_any _ _ _ _ Hok Hid Hr) as (? & ? & Hv).
  split_and!; [done..|]. intros v [?|[_ Hs]]%Hv; [done|]. by rewrite stat_works in Hs.
Qed.

(** Writing a record: on [Ok] the view is updated at its key; on an error it
    is as before or updated, nothing in between. *)
Lemma write_record_spec a serialize_error s r s' :
  codec_round_trip codec → dir_ok s → id_of (key a) ≠ "" →
  write_record (file_of (key a)) serialize_error a s = (r, s') →
  dir_ok s' ∧
  (dir_view s' = <[key a := a]> (dir_view s) ∨ is_ok r = false ∧ dir_view s' = dir_view s).
Proof.
  intros Hcodec [Hroot Hok] Hid. unfold write_record, mbind, ST_bind, st_lift.
  destruct (encode codec a) as [text|e] eqn:He; simpl.
  2:{ intros [= <- <-]. split; [done|]. right. done. }
  intros ((tmp & Hu) & Hr & Hm)%atomic_write_spec.
  apply Hcodec in He.
  assert (∀ k, k ≠ key a → fs_files s' !! file_of k = fs_files s !! file_of k) as Hother.
  { intros k Hk. apply Hu. rewrite !not_elem_of_cons. split_and!; [| |apply not_elem_of_nil].
    - intros ?%file_of_inj. done.
    - apply not_eq_sym, tmp_not_json. }
  assert (fs_files s' !! file_of (key a) = Some text ∨
    fs_files s' !! file_of (key a) = fs_files s !! file_of (key a) ∧ is_ok r = false) as Hnew.
  { destruct r as [[]|e]; [left; apply Hm|]. destruct Hm; auto. }
  split.
  - split.
    + destruct Hr as [Hr|[Hr Hf]]; [congruence|]. rewrite Hr, Hf. done.
    + intros name text' a' Hext Hf Hd. destruct (decide (name = file_of (key a))) as [->|Hn].
      * destruct Hnew as [Hnew|[Hnew _]]; rewrite Hnew in Hf; [|by eapply Hok].
        simplify_eq. congruence.
      * eapply Hok; [done| |done]. rewrite <-Hf. symmetry. apply Hu.
        apply extension_json in Hext as (id & _ & ->). rewrite !not_elem_of_cons.
        split_and!; [done|apply not_eq_sym, tmp_not_json|apply not_elem_of_nil].
  - destruct Hnew as [Hnew|[Hnew Hb]].
    + left. eapply dir_view_write; done.
    + right. split; [done|]. apply dir_view_ext. intros k.
      destruct (decide (k = key a)) as [->|]; auto.
Qed.

(** Removing a record: [fs::remove_file(&path)] on a file that exists. *)
Lemma remove_file_spec k s r s' :
  dir_ok s → map_io io_error (remove_file o (file_of k)) s = (r, s') →
  dir_ok s' ∧ match r with
              | Ok _ => dir_view s' = delete k (dir_view s)
              | Err _ => dir_view s' = dir_view s
              end.
Proof.
  intros [Hroot Hok]. unfold map_io, remove_file, syscall.
  destruct (io_fault o (fs_calls s)); [by intros [= <- <-]|].
  destruct (fs_files s !! file_of k) eqn:Hf; intros [= <- <-]; [|done].
  split; [split; simpl|].
  - intros Hr. rewrite (Hroot Hr). apply delete_empty.
  - intros name text a Hext [_ Hl]%lookup_delete_Some Hd. by eapply Hok.
  - apply map_eq. intros k'. apply option_eq. intros a.
    destruct (decide (k' = k)) as [->|Hne].
    + rewrite lookup_delete_eq, dir_view_lookup. simpl. rewrite lookup_delete_eq.
      split; [by intros (? & ? & _)|done].
    + rewrite lookup_delete_ne, !dir_view_lookup by done. simpl.
      rewrite lookup_delete_ne; [done|]. intros ?%file_of_inj. done.
Qed.

(** What one file contributes to a scan. *)
Definition scanned (files : gmap string string) (name : string) : option A :=
  if decide (extension name = Some "json") then
    text ← files !! name; match decode codec text with Ok a => Some a | Err _ => None end
  else None.

Lemma scan_step_Ok keep l name s l' s' :
  scan_step keep l name s = (Ok l', s') →
  fs_files s' = fs_files s ∧
  l' = l ++ filter (λ a, keep a = true) (option_list (scanned (fs_files s) name)).
Proof.
  unfold scan_step, scanned. unfold mbind at 1, ST_bind at 1.
  destruct (map_io io_error (sync o) s) as [[[]|e] s1] eqn:Hs; [|done].
  assert (fs_files s1 = fs_files s) as Hf.
  { eapply (reads_only_call (λ s, (Ok tt, s))); [done|exact Hs]. }
  case_decide; [|intros [= <- <-]; split; [done|by rewrite app_nil_r]].
  unfold mbind at 1, ST_bind at 1.
  destruct (read_record name s1) as [[a|e] s2] eqn:Hr; [|done]. intros [= <- <-].
  destruct (read_record_reads _ _ _ _ Hr) as [Hf2 _].
  apply read_record_Ok in Hr as (text & Ht & Hd). rewrite Hf in Ht. rewrite Ht. simpl.
  rewrite Hd. split; [congruence|]. simpl. rewrite filter_cons, filter_nil.
  case_match; case_decide; congruence || by rewrite ?app_nil_r.
Qed.

Lemma scan_fold_Ok keep names : ∀ l s l' s',
  st_foldM (scan_step keep) l names s = (Ok l', s') →
  l' = l ++ filter (λ a, keep a = true) (omap (scanned (fs_files s)) names).
Proof.
  induction names as [|name names IH]; intros l s l' s'; simpl.
  - intros [= <- <-]. by rewrite app_nil_r.
  - unfold mbind, ST_bind.
    destruct (scan_step keep l name s) as [[l1|e] s1] eqn:Hs; [|done].
    apply scan_step_Ok in Hs as [Hf ->]. intros ->%IH. rewrite Hf, <-app_assoc. f_equal.
    destruct (scanned (fs_files s) name); simpl; [|done].
    rewrite !filter_cons, filter_nil. by case_decide.
Qed.

Lemma scanned_Some s name a :
  dir_ok s → scanned (fs_files s) name = Some a →
  name = file_of (key a) ∧ dir_view s !! key a = Some a.
Proof.
  intros Hok. unfold scanned. case_decide as Hext; [|done].
  intros (text & Hf & Hd)%bind_Some. destruct (decode codec text) as [a'|] eqn:Ht; simplify_eq.
  destruct Hok as [Hroot Hok]. pose proof (Hok _ _ _ Hext Hf Ht) as ->. split; [done|].
  apply dir_view_read; [done| |eauto].
  apply extension_json in Hext as (id & Hid & Heq). unfold file_of in Heq.
  apply (inj json_name) in Heq. congruence.
Qed.

Lemma keys_of_view s : key <$> bt_values (dir_view s) = bt_keys (dir_view s).
Proof.
  unfold bt_values, bt_keys. rewrite <-list_fmap_compose. apply list_fmap_ext.
  intros i [k a] Hi%list_elem_of_lookup_2. simpl. apply elem_of_bt_entries in Hi.
  by apply dir_view_lookup in Hi as (? & _ & _ & ? & _).
Qed.

Lemma omap_scanned_perm s names :
  dir_ok s → names ≡ₚ bt_keys (fs_files s) →
  omap (scanned (fs_files s)) names ≡ₚ bt_values (dir_view s).
Proof.
  intros Hok Hp. apply NoDup_Permutation.
  - assert (NoDup names) as Hnd.
    { rewrite Hp. apply NoDup_bt_keys. }
    clear Hp. induction Hnd as [|n names Hn Hnd IH]; simpl; [constructor|].
    destruct (scanned (fs_files s) n) as [a|] eqn:Ha; [|done].
    apply NoDup_cons. split; [|done]. intros (n' & Hn' & Ha')%list_elem_of_omap.
    apply scanned_Some in Ha as [-> _]; [|done]. apply scanned_Some in Ha' as [-> _]; done.
  - apply (NoDup_fmap_1 key). rewrite keys_of_view. apply NoDup_bt_keys.
  - intros a. rewrite list_elem_of_omap, elem_of_bt_values. split.
    + intros (n & _ & Ha). apply scanned_Some in Ha as [_ Ha]; eauto.
    + intros (k & (text & Hf & Hd & <- & Hid)%dir_view_lookup). exists (file_of (key a)). split.
      * rewrite Hp. unfold bt_keys. apply list_elem_of_fmap. exists (file_of (key a), text).
        by rewrite elem_of_bt_entries.
      * unfold scanned. rewrite decide_True; [|by apply extension_json; eauto].
        rewrite Hf. simpl. by rewrite Hd.
Qed.

Lemma bt_values_view_sorted s : StronglySorted (key_le key) (bt_values (dir_view s)).
Proof.
  unfold bt_values. assert (∀ k a, (k, a) ∈ bt_entries (dir_view s) → key a = k) as Hkey.
  { intros k a Hin%elem_of_bt_entries. by apply dir_view_lookup in Hin as (? & _ & _ & ? & _). }
  revert Hkey. induction (bt_entries_sorted (dir_view s)) as [|[k a] l Hl IH Hx]; intros Hkey;
    csimpl; constructor.
  - apply IH. intros. apply Hkey. by right.
  - rewrite Forall_fmap. rewrite Forall_forall in Hx. apply Forall_forall.
    intros [k' a'] Hin. unfold key_le. simpl.
    rewrite (Hkey k a), (Hkey k' a') by set_solver. apply (Hx _ Hin).
Qed.

(** A scan that succeeds returns the kept records of the view in key order, or nothing when
    the [stat] of the directory failed. *)
Lemma scan_records_any keep s l s' :
  dir_ok s → scan_records keep s = (Ok l, s') →
  l = filter (λ a, keep a = true) (bt_values (dir_view s)) ∨
  l = [] ∧ stat_fault o (fs_calls s) "" = true.
Proof.
  intros Hok. unfold scan_records, mbind, ST_bind, st_get. case_match eqn:Hr.
  - intros [= <- <-]. apply negb_true_iff, root_exists_false in Hr as [Hr|Hr]; [left|by right].
    destruct Hok as [Hroot _].
    assert (dir_view s = ∅) as ->; [|by unfold bt_values; rewrite bt_entries_empty].
    apply map_empty. intros k. apply eq_None_not_Some. intros [a Ha].
    apply dir_view_lookup in Ha as (t & Ht & _). by rewrite (Hroot Hr), lookup_empty in Ht.
  - destruct (map_io io_error (read_dir o) s) as [[names|e] s1] eqn:Hd; [|done].
    assert (fs_files s1 = fs_files s ∧ names ≡ₚ bt_keys (fs_files s)) as [Hf Hp].
    { revert Hd. unfold map_io, read_dir, syscall. destruct (io_fault _ _); [done|].
      intros [= <- <-]. split; [done|]. apply dir_order_perm. }
    destruct (st_foldM _ [] names s1) as [[l1|e] s2] eqn:Hl; [|done].
    apply scan_fold_Ok in Hl as ->. rewrite Hf. intros [= <- <-]. left.
    assert (∀ s, StronglySorted (key_le key)
      (filter (λ a, keep a = true) (bt_values (dir_view s)))) as Hsorted.
    { intros s3. apply StronglySorted_filter, bt_values_view_sorted. }
    apply (StronglySorted_unique_strong (key_le key)); [|apply sort_by_key_sorted|done|].
    + intros a b Ha%elem_of_sort_by_key Hb Hab Hba. simpl in Ha.
      rewrite omap_scanned_perm in Ha by done.
      apply list_elem_of_filter in Ha as [_ Ha], Hb as [_ Hb].
      apply (NoDup_key_eq key (bt_values (dir_view s))); [|done..|by apply (anti_symm ord_le)].
      rewrite keys_of_view. apply NoDup_bt_keys.
    + rewrite sort_by_key_perm. simpl. by rewrite omap_scanned_perm.
Qed.
Lemma scan_records_spec `{!StatsWork o} keep s l s' :
  dir_ok s → scan_records keep s = (Ok l, s') →
  l = filter (λ a, keep a = true) (bt_values (dir_view s)).
Proof.
  intros Hok [?|[_ Hs]]%scan_records_any; [done| |done]. by rewrite stat_works in Hs.
Qed.
End json_dir.
