(* ===== verification/Shadow.v ===== *)
(** * The shadow state of a device and its stores (src/state/shadow.rs)

    The shadow state is what the controller believes a device runs.  A store
    keeps one per device; the trait is the class [ShadowStateStore] with its
    contract [ShadowStoreLaws], which the in-memory store and the store of JSON
    files both discharge. *)
From S2P Require Export FileSystem.
Local Open Scope N_scope.

Record DeviceShadowState := mkDeviceShadowState {
  ss_device_id : DeviceId;
  ss_revision : N;
  ss_vlans : gmap N VlanConfig;
  ss_interfaces : gmap string InterfaceConfig;
  ss_acls : gmap N AclConfig;
  ss_acl_bindings : gmap string AclBinding;
  ss_bgp_processes : gmap string BgpProcess;
  ss_bgp_neighbors : gmap string BgpNeighbor;
  ss_warnings : list string;
}.
#[export] Instance DeviceShadowState_eq_dec : EqDecision DeviceShadowState.
Proof. solve_decision. Defined.

Definition from_desired (desired : DeviceDesiredState) (revision : N) : DeviceShadowState :=
  {| ss_device_id := ds_device_id desired;
     ss_revision := revision;
     ss_vlans := ds_vlans desired;
     ss_interfaces := ds_interfaces desired;
     ss_acls := ds_acls desired;
     ss_acl_bindings := ds_acl_bindings desired;
     ss_bgp_processes := ds_bgp_processes desired;
     ss_bgp_neighbors := ds_bgp_neighbors desired;
     ss_warnings := [] |}.

Definition with_revision (s : DeviceShadowState) (revision : N) : DeviceShadowState :=
  {| ss_device_id := ss_device_id s; ss_revision := revision; ss_vlans := ss_vlans s;
     ss_interfaces := ss_interfaces s; ss_acls := ss_acls s; ss_acl_bindings := ss_acl_bindings s;
     ss_bgp_processes := ss_bgp_processes s; ss_bgp_neighbors := ss_bgp_neighbors s;
     ss_warnings := ss_warnings s |}.

(** ** The trait and its contract *)

Class ShadowStateStore (S : Type) := {
  shadow_get : DeviceId → ST UnderlayError S (option DeviceShadowState);
  shadow_put : DeviceShadowState → ST UnderlayError S DeviceShadowState;
  shadow_remove : DeviceId → ST UnderlayError S (option DeviceShadowState);
  shadow_list : ST UnderlayError S (list DeviceShadowState);
}.

(** The revision a state is stored with: one more than the one it replaces. *)
Definition next_revision (current : option DeviceShadowState) (state : DeviceShadowState) : N :=
  match current with
  | Some current => u64_saturating_add (ss_revision current) 1
  | None => N.max (ss_revision state) 1
  end.
Definition stored (view : gmap DeviceId DeviceShadowState) (state : DeviceShadowState)
    : DeviceShadowState :=
  with_revision state (next_revision (view !! ss_device_id state) state).

(** A store stands for a map.  A read never changes it and returns what is there;
    a write returns what it stored; a write that fails has stored it or left the
    map as it was. *)
Class ShadowStoreLaws (S : Type) `{ShadowStateStore S}
    (ok : S → Prop) (view : S → gmap DeviceId DeviceShadowState) : Prop := {
  shadow_get_law d s r s' : ok s → shadow_get d s = (r, s') →
    ok s' ∧ view s' = view s ∧ ∀ v, r = Ok v → v = view s !! d;
  shadow_put_law st s r s' : ok s → shadow_put st s = (r, s') →
    let st' := stored (view s) st in
    ok s' ∧ (∀ v, r = Ok v → v = st') ∧
    (view s' = <[ss_device_id st := st']> (view s) ∨ is_ok r = false ∧ view s' = view s);
  shadow_remove_law d s r s' : ok s → shadow_remove d s = (r, s') →
    ok s' ∧ match r with
            | Ok v => v = view s !! d ∧ view s' = delete d (view s)
            | Err _ => view s' = view s
            end;
  shadow_list_law s r s' : ok s → shadow_list s = (r, s') →
    ok s' ∧ view s' = view s ∧ ∀ l, r = Ok l → l = bt_values (view s);
}.

(** ** InMemoryShadowStateStore *)
Module InMemoryShadow.
Record Store := mkStore { inner : gmap DeviceId DeviceShadowState }.

Definition get (d : DeviceId) : ST UnderlayError Store (option DeviceShadowState) := λ s,
  (Ok (inner s !! d), s).

Definition put (state : DeviceShadowState) : ST UnderlayError Store DeviceShadowState := λ s,
  match inner s !! ss_device_id state with
  | Some entry =>
      let state := with_revision state (u64_saturating_add (ss_revision entry) 1) in
      (Ok state, mkStore (<[ss_device_id state := state]> (inner s)))
  | None =>
      let state := with_revision state (N.max (ss_revision state) 1) in
      (Ok state, mkStore (<[ss_device_id state := state]> (inner s)))
  end.

Definition remove (d : DeviceId) : ST UnderlayError Store (option DeviceShadowState) := λ s,
  (Ok (inner s !! d), mkStore (delete d (inner s))).

Definition list : ST UnderlayError Store (list DeviceShadowState) := λ s,
  (Ok (sort_by_key ss_device_id (snd <$> map_to_list (inner s))), s).

#[export] Instance store : ShadowStateStore Store :=
  {| shadow_get := get; shadow_put := put; shadow_remove := remove; shadow_list := list |}.

(** Every state is under its own device id. *)
Definition ok (s : Store) : Prop := keyed ss_device_id (inner s).

Lemma list_spec s : ok s → sort_by_key ss_device_id (snd <$> map_to_list (inner s)) = bt_values (inner s).
Proof.
  intros Hok. unfold bt_values, bt_entries.
  assert (∀ l : Datatypes.list (DeviceId * DeviceShadowState),
    Forall (λ kv, ss_device_id kv.2 = kv.1) l →
    sort_by_key ss_device_id (snd <$> l) = snd <$> sort_by_key fst l) as Hs.
  { assert (∀ (x : DeviceId * DeviceShadowState) l, ss_device_id x.2 = x.1 →
      Forall (λ kv, ss_device_id kv.2 = kv.1) l →
      sort_insert ss_device_id x.2 (snd <$> l) = snd <$> sort_insert fst x l) as Hi.
    { intros x l Hx. induction 1 as [|y l Hy Hl IH]; csimpl; [done|].
      rewrite Hx, Hy. case_decide; csimpl; congruence. }
    intros l. induction 1 as [|x l Hx Hl IH]; csimpl; [done|].
    rewrite IH. apply Hi; [done|]. by rewrite (sort_by_key_perm fst). }
  apply Hs, Forall_forall. intros [k v] Hin%elem_of_map_to_list. by apply (Hok k v).
Qed.

#[export] Instance laws : ShadowStoreLaws Store ok inner.
Proof.
  split.
  - intros d s r s' Hok [= <- <-]. naive_solver.
  - intros st s r s' Hok. simpl. unfold put, stored, next_revision.
    destruct (inner s !! ss_device_id st) as [entry|]; intros [= <- <-]; simpl;
      (split_and!; [by apply (map_Forall_insert_2) | naive_solver | by left]).
  - intros d s r s' Hok [= <- <-]. simpl. split; [by apply map_Forall_delete|done].
  - intros s r s' Hok [= <- <-]. split_and!; [done..|]. intros l [= <-]. by apply list_spec.
Qed.
End InMemoryShadow.
#[export] Existing Instance InMemoryShadow.store.

(** ** JsonFileShadowStateStore *)
Module JsonFileShadow.
Definition shadow_io_error (e : string) : UnderlayError :=
  Internal ("shadow state io error: " +:+ e).
Definition parse_error (path e : string) : UnderlayError :=
  Internal ("parse shadow state " +:+ debug_str path +:+ ": " +:+ e).
Definition serialize_error (e : string) : UnderlayError :=
  Internal ("serialize shadow state: " +:+ e).

Definition validate_shadow_device_id (d : DeviceId) : UnderlayResult unit :=
  reject_if (negb (is_canonical d))
    (InvalidDeviceState ("device_id " +:+ device_id_0 d +:+
       " is invalid for file shadow store: " +:+ canonical_rule)).

Section store.
Context (o : FsOracle) (codec : Codec DeviceShadowState).

Definition path_for (d : DeviceId) : UnderlayResult string :=
  _ ← validate_shadow_device_id d;
  Ok (json_name (device_id_0 d)).

Definition read_shadow_state (path : string) : ST UnderlayError Fs DeviceShadowState :=
  read_record o codec shadow_io_error parse_error path.

Definition get (d : DeviceId) : ST UnderlayError Fs (option DeviceShadowState) :=
  path ← st_lift (path_for d);
  read_if_exists o codec shadow_io_error parse_error path.

(** The per-device mutex is held throughout; it is released on every path. *)
Definition put (state : DeviceShadowState) : ST UnderlayError Fs DeviceShadowState :=
  current ← get (ss_device_id state);
  let state := with_revision state
    (match current with
     | Some current => u64_saturating_add (ss_revision current) 1
     | None => N.max (ss_revision state) 1
     end) in
  path ← st_lift (path_for (ss_device_id state));
  _ ← write_record o codec shadow_io_error path serialize_error state;
  mret state.

Definition remove (d : DeviceId) : ST UnderlayError Fs (option DeviceShadowState) :=
  path ← st_lift (path_for d);
  s ← st_get;
  if negb (exists_file o path s) then mret None else
  state ← read_shadow_state path;
  _ ← map_io shadow_io_error (remove_file o path);
  mret (Some state).

Definition list : ST UnderlayError Fs (list DeviceShadowState) :=
  scan_records o codec ss_device_id shadow_io_error parse_error (λ _, true).

#[export] Instance store : ShadowStateStore Fs :=
  {| shadow_get := get; shadow_put := put; shadow_remove := remove; shadow_list := list |}.

(** ** The contract *)
Notation dir_ok := (dir_ok codec ss_device_id device_id_0).
Notation dir_view := (dir_view codec ss_device_id device_id_0).
Context (Hcodec : codec_round_trip codec) `{!StatsWork o}.

#[local] Instance device_id_0_inj : Inj (=) (=) device_id_0.
Proof. intros [] []. simpl. congruence. Qed.

Lemma path_for_Ok d p :
  path_for d = Ok p ↔ p = file_of device_id_0 d ∧ is_canonical d = true.
Proof.
  unfold path_for, validate_shadow_device_id. rewrite bind_unit_Ok, reject_if_Ok.
  rewrite negb_false_iff. unfold file_of. naive_solver.
Qed.

Lemma canonical_nonempty d : is_canonical d = true → device_id_0 d ≠ "".
Proof. intros Hc%is_canonical_identifier_spec. apply Hc. Qed.

Ltac side := first [done | by apply _ | by apply canonical_nonempty | by eapply dir_ok_same].

Lemma get_spec d s r s' :
  dir_ok s → get d s = (r, s') →
  dir_ok s' ∧ dir_view s' = dir_view s ∧ ∀ v, r = Ok v → v = dir_view s !! d.
Proof.
  intros Hok. unfold get, mbind, ST_bind, st_lift.
  destruct (path_for d) as [p|e] eqn:Hp; [|intros [= <- <-]; naive_solver].
  apply path_for_Ok in Hp as [-> Hc]. apply read_if_exists_spec; side.
Qed.

Lemma put_spec st s r s' :
  dir_ok s → put st s = (r, s') →
  let st' := stored (dir_view s) st in
  dir_ok s' ∧ (∀ v, r = Ok v → v = st') ∧
  (dir_view s' = <[ss_device_id st := st']> (dir_view s) ∨
   is_ok r = false ∧ dir_view s' = dir_view s).
Proof.
  intros Hok. unfold put. unfold mbind at 1, ST_bind at 1.
  destruct (get (ss_device_id st) s) as [[cur|e] s1] eqn:Hg;
    apply get_spec in Hg as (Hok1 & Hv1 & Hg); try done.
  2:{ intros [= <- <-]. split_and!; [done|naive_solver|by right]. }
  rewrite (Hg _ eq_refl). fold (next_revision (dir_view s !! ss_device_id st) st).
  fold (stored (dir_view s) st). set (st' := stored (dir_view s) st).
  unfold mbind, ST_bind, st_lift.
  destruct (path_for (ss_device_id st')) as [p|e] eqn:Hp.
  2:{ intros [= <- <-]. split_and!; [done|naive_solver|by right]. }
  apply path_for_Ok in Hp as [-> Hc].
  destruct (write_record _ _ _ _ _ st' s1) as [r2 s2] eqn:Hw.
  apply (write_record_spec o codec ss_device_id device_id_0) in Hw as (Hok2 & Hv2);
    [|side..].
  rewrite Hv1 in Hv2. destruct r2 as [[]|e]; intros [= <- <-]; simpl in Hv2.
  - split_and!; [done|naive_solver|]. left. destruct Hv2 as [Hv2|[? _]]; done.
  - split_and!; [done|naive_solver|]. destruct Hv2 as [Hv2|[_ Hv2]]; auto.
Qed.

Lemma remove_spec d s r s' :
  dir_ok s → remove d s = (r, s') →
  dir_ok s' ∧ match r with
              | Ok v => v = dir_view s !! d ∧ dir_view s' = delete d (dir_view s)
              | Err _ => dir_view s' = dir_view s
              end.
Proof.
  intros Hok. unfold remove. unfold mbind at 1, ST_bind at 1, st_lift at 1.
  destruct (path_for d) as [p|e] eqn:Hp; [|by intros [= <- <-]].
  apply path_for_Ok in Hp as [-> Hc]. apply canonical_nonempty in Hc as Hne.
  unfold mbind, ST_bind, st_get, mret, ST_ret.
  rewrite (exists_file_works o). case_bool_decide as He; simpl.
  - destruct (read_shadow_state _ s) as [[st|e] s1] eqn:Hr;
      pose proof Hr as Hr'; apply read_record_reads in Hr' as [Hf Hroot]; try side.
    2:{ intros [= <- <-]. split; [by eapply dir_ok_same|]. apply dir_view_ext; [side..|].
        intros. by rewrite Hf. }
    apply read_record_Ok in Hr. rewrite <-dir_view_read in Hr; [|side..].
    destruct (map_io _ _ s1) as [r2 s2] eqn:Hrm.
    apply (remove_file_spec o codec ss_device_id device_id_0) in Hrm as [Hok2 Hv2];
      [|side..].
    assert (dir_view s1 = dir_view s) as Hv1.
    { apply dir_view_ext; [side..|]. intros. by rewrite Hf. }
    rewrite Hv1 in Hv2. destruct r2; intros [= <- <-]; split; done.
  - intros [= <- <-]. split; [done|].
    assert (dir_view s !! d = None) as Hn.
    { apply eq_None_not_Some. intros [a Ha]. apply dir_view_read in Ha as (t & Ht & _);
        [|side..]. eauto. }
    split; [done|]. by rewrite delete_id.
Qed.

Lemma laws : ShadowStoreLaws Fs dir_ok dir_view.
Proof.
  split.
  - apply get_spec.
  - apply put_spec.
  - apply remove_spec.
  - intros s r s' Hok Hl.
    pose proof Hl as Hl'. apply scan_records_reads in Hl' as [Hf Hroot]; try side.
    split_and!; [by eapply dir_ok_same|apply dir_view_ext; [side..|]; intros; by rewrite Hf|].
    intros l ->. apply (scan_records_spec o codec ss_device_id device_id_0) in Hl as ->; [|side..].
    induction (bt_values (dir_view s)) as [|x l' IH]; [done|].
    rewrite filter_cons, decide_True by done. by f_equal.
Qed.
End store.
End JsonFileShadow.

(** The JSON file store keeps the contract of [ShadowStateStore]: a directory of
    records written by it stands for a map from devices to states; whatever system
    calls fail, [stat] apart, reads return what the map holds and leave it, a write stores the
    state with its next revision or leaves the map as it was (and stores it when it
    returns [Ok]), a removal deletes one entry, and a listing is the map's values in
    device order.  It relies on the serializer reading back what it wrote. *)
Theorem json_shadow_store_refines_map (o : FsOracle) (codec : Codec DeviceShadowState) :
  codec_round_trip codec → StatsWork o →
  ShadowStoreLaws Fs (H := JsonFileShadow.store o codec)
    (dir_ok codec ss_device_id device_id_0) (dir_view codec ss_device_id device_id_0).
Proof. apply JsonFileShadow.laws. Qed.

Module ShadowSample.
Definition state : DeviceShadowState :=
  mkDeviceShadowState (mkDeviceId "leaf-a") 1 ∅ ∅ ∅ ∅ ∅ ∅ [].
(** A serializer that knows [state] in its first two revisions. *)
Definition codec : Codec DeviceShadowState :=
  mkCodec (λ s, if decide (s = state) then Ok "one" else
                if decide (s = with_revision state 2) then Ok "two" else Err "unsupported")
          (λ t, if decide (t = "one") then Ok state else
                if decide (t = "two") then Ok (with_revision state 2) else Err "parse").
Lemma codec_ok : codec_round_trip codec.
Proof. intros s t. simpl. repeat case_decide; naive_solver. Qed.
End ShadowSample.

Lemma json_shadow_store_refines_map_witness :
  ∃ s', (JsonFileShadow.put sample_oracle ShadowSample.codec ShadowSample.state (mkFs false ∅ 0)) =
          (Ok ShadowSample.state, s') ∧
    dir_view ShadowSample.codec ss_device_id device_id_0 s' !! mkDeviceId "leaf-a" = Some ShadowSample.state.
Proof.
  destruct (json_shadow_store_refines_map sample_oracle ShadowSample.codec ShadowSample.codec_ok _)
    as [_ Hput _ _].
  destruct (JsonFileShadow.put _ _ _ _) as [r s'] eqn:Hr.
  assert (r = Ok ShadowSample.state) as -> 
    by (change r with (r, s').1; rewrite <-Hr; vm_compute; reflexivity).
  exists s'. split; [reflexivity|].
  apply Hput in Hr as (_ & Hst & [->|[? _]]); [|done|apply dir_ok_empty].
  specialize (Hst _ eq_refl). rewrite <-Hst. apply lookup_insert_eq.
Defined.

(** ** What any store gives its clients *)
Section clients.
Context {S} `{ShadowStateStore S} (ok : S → Prop) (view : S → gmap DeviceId DeviceShadowState).
Context (Hlaws : ShadowStoreLaws S ok view).

(** Clients read their writes: after a successful write of a device's state, a
    successful read returns what the write returned, which is the written state with
    a revision above that of the state it replaced (until revisions saturate at
    [u64::MAX]); every other device reads as before. *)
Theorem shadow_read_your_writes st s st' s1 d v s2 :
  ok s → shadow_put st s = (Ok st', s1) → shadow_get d s1 = (Ok v, s2) →
  v = (if decide (d = ss_device_id st) then Some st' else view s !! d) ∧
  st' = with_revision st (ss_revision st') ∧
  match view s !! ss_device_id st with
  | Some old => ss_revision old < ss_revision st' ∨ U64_MAX ≤ ss_revision old
  | None => 1 ≤ ss_revision st'
  end.
Proof.
  intros Hok Hput Hget. destruct (shadow_put_law _ _ _ _ Hok Hput) as (Hok1 & Hst & Hv).
  specialize (Hst st' eq_refl). destruct Hv as [Hv|[? _]]; [|done].
  destruct (shadow_get_law _ _ _ _ Hok1 Hget) as (_ & _ & Hr). specialize (Hr v eq_refl).
  rewrite Hr, Hv, <-Hst. split_and!.
  - case_decide as Hd; [subst; by rewrite lookup_insert_eq|by rewrite lookup_insert_ne].
  - subst st'. unfold stored. by destruct st.
  - subst st'. unfold stored, next_revision. destruct st; simpl.
    destruct (view s !! _); [|lia]. unfold u64_saturating_add. lia.
Qed.
End clients.

Lemma shadow_read_your_writes_witness :
  ∃ s, InMemoryShadow.put (with_revision ShadowSample.state 7)
         (InMemoryShadow.mkStore {[ mkDeviceId "leaf-a" := ShadowSample.state ]})
       = (Ok (with_revision ShadowSample.state 2), s) ∧
    InMemoryShadow.inner s !! mkDeviceId "leaf-a" = Some (with_revision ShadowSample.state 2).
Proof.
  eexists. split; [vm_compute; reflexivity|].
  pose proof (shadow_read_your_writes _ _ InMemoryShadow.laws (with_revision ShadowSample.state 7)
    (InMemoryShadow.mkStore {[ mkDeviceId "leaf-a" := ShadowSample.state ]})
    (with_revision ShadowSample.state 2)) as H.
  eapply (H _ (mkDeviceId "leaf-a")); [|vm_compute; reflexivity|reflexivity].
  intros k v Hv. simpl in Hv. apply lookup_singleton_Some in Hv as [<- <-]. reflexivity.
Defined.

Definition missing_shadow_state (d : DeviceId) : UnderlayError :=
  InvalidDeviceState ("missing shadow state for device " +:+ device_id_0 d).
