(* ===== verification/Normalize.v ===== *)
(** * Normal forms of configurations and states (src/engine/normalize.rs) *)
From S2P Require Export Shadow.

(** The trait. *)
Class Normalize (A : Type) := normalize : A → A.

(** [if self.f.as_deref() == Some("") { self.f = None; }] *)
Definition drop_empty (o : option string) : option string :=
  if decide (o = Some "") then None else o.

(** The table of long names and what replaces them, in the order it is tried. *)
Definition interface_prefixes : list (string * string) :=
  [("GigabitEthernet", "GE"); ("Ten-GigabitEthernet", "XGE"); ("FortyGigE", "FGE")].

Fixpoint shorten (table : list (string * string)) (trimmed : string) : string :=
  match table with
  | [] => trimmed
  | (long_name, short_name) :: table =>
      match strip_prefix long_name trimmed with
      | Some rest => short_name +:+ rest
      | None => shorten table trimmed
      end
  end.

Definition canonical_interface_name (name : string) : string :=
  shorten interface_prefixes (trim name).

#[export] Instance normalize_VlanConfig : Normalize VlanConfig := λ v,
  mkVlanConfig (vlan_id v) (drop_empty (vlan_name v)) (drop_empty (vlan_description v)).

Definition normalize_mode (m : PortMode) : PortMode :=
  match m with
  | Trunk native allowed => Trunk native (sort_dedup allowed)
  | Access v => Access v
  end.
#[export] Instance normalize_InterfaceConfig : Normalize InterfaceConfig := λ i,
  mkInterfaceConfig (canonical_interface_name (if_name i)) (if_admin_state i)
    (drop_empty (if_description i)) (normalize_mode (if_mode i)).

#[export] Instance normalize_AclRule : Normalize AclRule := λ r,
  mkAclRule (sequence r) (rule_action r) (protocol r) (source r) (destination r)
    (source_port_eq r) (destination_port_eq r) (drop_empty (rule_description r)).

#[export] Instance normalize_AclConfig : Normalize AclConfig := λ a,
  mkAclConfig (acl_id a) (acl_kind a) (drop_empty (acl_name a)) (drop_empty (acl_description a))
    (sort_by_key sequence (normalize <$> acl_rules a)).

#[export] Instance normalize_AclBinding : Normalize AclBinding := λ b,
  mkAclBinding (canonical_interface_name (ab_interface_name b)) (ab_direction b) (ab_acl_id b).

#[export] Instance normalize_BgpProcess : Normalize BgpProcess := λ p,
  mkBgpProcess (trim (bp_vrf p)) (bp_local_as p) (drop_empty (bp_router_id p)).

#[export] Instance normalize_BgpNeighbor : Normalize BgpNeighbor := λ n,
  mkBgpNeighbor (trim (bn_vrf n)) (trim (bn_address n)) (bn_remote_as n)
    (drop_empty (bn_description n)) (drop_empty (bn_import_policy n))
    (drop_empty (bn_export_policy n)).

(** [map.into_values().map(|v| { let v = v.normalize(); (v.key(), v) }).collect()] *)
Definition renormalize {K V} `{Ord K, Countable K, Normalize V} (key : V → K) (m : gmap K V)
    : gmap K V :=
  bt_collect ((λ v, (key (normalize v), normalize v)) <$> bt_values m).

Definition normalize_desired_state (s : DeviceDesiredState) : DeviceDesiredState :=
  {| ds_device_id := ds_device_id s;
     ds_vlans := renormalize vlan_id (ds_vlans s);
     ds_interfaces := renormalize if_name (ds_interfaces s);
     ds_acls := renormalize acl_id (ds_acls s);
     ds_acl_bindings := renormalize AclBinding_key (ds_acl_bindings s);
     ds_route_policy_refs := bs_collect (filter (λ p, str_is_empty p = false)
       (trim <$> bs_elems (ds_route_policy_refs s)));
     ds_bgp_processes := renormalize bp_vrf (ds_bgp_processes s);
     ds_bgp_neighbors := renormalize BgpNeighbor_key (ds_bgp_neighbors s);
     ds_delete_vlan_ids := ds_delete_vlan_ids s;
     ds_delete_interface_names :=
       bs_collect (canonical_interface_name <$> bs_elems (ds_delete_interface_names s));
     ds_delete_acl_ids := ds_delete_acl_ids s;
     ds_delete_acl_bindings := renormalize AclBinding_key (ds_delete_acl_bindings s);
     ds_delete_bgp_process_vrfs := bs_collect (trim <$> bs_elems (ds_delete_bgp_process_vrfs s));
     ds_delete_bgp_neighbors :=
       renormalize (λ n, bgp_neighbor_key (bn_vrf n) (bn_address n)) (ds_delete_bgp_neighbors s) |}.

Definition normalize_shadow_state (s : DeviceShadowState) : DeviceShadowState :=
  {| ss_device_id := ss_device_id s;
     ss_revision := ss_revision s;
     ss_vlans := renormalize vlan_id (ss_vlans s);
     ss_interfaces := renormalize if_name (ss_interfaces s);
     ss_acls := renormalize acl_id (ss_acls s);
     ss_acl_bindings := renormalize AclBinding_key (ss_acl_bindings s);
     ss_bgp_processes := renormalize bp_vrf (ss_bgp_processes s);
     ss_bgp_neighbors := renormalize BgpNeighbor_key (ss_bgp_neighbors s);
     ss_warnings := ss_warnings s |}.

(** ** Normalizing is idempotent *)

Class NormalizeIdemp (A : Type) `{Normalize A} : Prop :=
  normalize_idemp : ∀ x : A, normalize (normalize x) = normalize x.

Lemma drop_empty_idemp o : drop_empty (drop_empty o) = drop_empty o.
Proof. unfold drop_empty. by repeat case_decide. Qed.

(** Replacing the front of a trimmed string by visible characters leaves it
    trimmed. *)
Lemma trimmed_replace p q r :
  q ≠ "" → (∀ w c, w ∈ whitespace → c ∈ w → c ∉ bytes q) →
  trimmed (p +:+ r) → trimmed (q +:+ r).
Proof.
  unfold trimmed. rewrite !bytes_app. intros Hq Hvis [_ Hsuf]. split.
  - intros w Hw [k Hk]. destruct w as [|c w]; [by apply whitespace_nonempty|].
    destruct (bytes q) as [|c' q'] eqn:Hbq.
    { destruct Hq. apply (inj bytes). by rewrite Hbq. }
    simplify_eq/=. apply (Hvis _ c Hw); by left.
  - intros w Hw [k Hk]. apply app_eq_app in Hk as (k' & [[Hq' Hw']|[Hk Hr]]).
    + destruct k' as [|c k'].
      * simpl in Hw'. subst w. apply (Hsuf _ Hw). by exists (bytes p).
      * subst w. apply (Hvis _ c Hw); [by left|]. rewrite Hq'. set_solver.
    + apply (Hsuf w Hw). rewrite Hr. exists (bytes p ++ k'). by rewrite app_assoc.
Qed.

Lemma shorten_spec table s :
  shorten table s = s ∨ ∃ long short rest,
    (long, short) ∈ table ∧ s = long +:+ rest ∧ shorten table s = short +:+ rest.
Proof.
  induction table as [|[long short] table IH]; simpl; [by left|].
  destruct (strip_prefix long s) as [rest|] eqn:Hs.
  - apply strip_prefix_Some in Hs. right. exists long, short, rest. set_solver.
  - destruct IH as [->|(l & sh & r & ? & ? & ->)]; [by left|].
    right. exists l, sh, r. set_solver.
Qed.

Lemma strip_prefix_short long short short' rest :
  (long, short) ∈ interface_prefixes → short' ∈ interface_prefixes.*2 →
  strip_prefix long (short' +:+ rest) = None.
Proof.
  intros Hl Hs. destruct (strip_prefix _ _) as [r|] eqn:Heq; [|done].
  apply strip_prefix_Some in Heq. apply (f_equal bytes) in Heq. rewrite !bytes_app in Heq.
  change (interface_prefixes.*2) with ["GE"; "XGE"; "FGE"] in Hs. unfold interface_prefixes in Hl.
  rewrite !elem_of_cons, elem_of_nil in Hl. rewrite !elem_of_cons, elem_of_nil in Hs.
  destruct Hl as [?|[?|[?|[]]]], Hs as [?|[?|[?|[]]]]; simplify_eq/=.
Qed.

Lemma short_names_visible short :
  short ∈ interface_prefixes.*2 →
  short ≠ "" ∧ ∀ w c, w ∈ whitespace → c ∈ w → c ∉ bytes short.
Proof.
  intros Hs. split.
  - unfold interface_prefixes in Hs. set_solver.
  - assert (Forall (λ s, Forall (λ w, Forall (λ c, c ∉ bytes s) w) whitespace)
      interface_prefixes.*2) as Hall by (by apply (bool_decide_unpack _); vm_compute).
    rewrite Forall_forall in Hall. intros w c Hw Hc. specialize (Hall _ Hs).
    rewrite Forall_forall in Hall. specialize (Hall _ Hw). rewrite Forall_forall in Hall. auto.
Qed.

Lemma canonical_interface_name_idemp n :
  canonical_interface_name (canonical_interface_name n) = canonical_interface_name n.
Proof.
  unfold canonical_interface_name at 2 3. pose proof (trim_trimmed n) as Ht.
  destruct (shorten_spec interface_prefixes (trim n))
    as [Hid|(long & short & rest & Hin & Hs & Heq)].
  - rewrite Hid. unfold canonical_interface_name. by rewrite trim_idemp.
  - rewrite Heq. rewrite Hs in Ht.
    assert (short ∈ interface_prefixes.*2) as Hsh by (by apply (list_elem_of_fmap_2 snd) in Hin).
    destruct (short_names_visible short Hsh) as [Hne Hvis].
    unfold canonical_interface_name. rewrite (trimmed_trim (short +:+ rest))
      by (by eapply trimmed_replace).
    destruct (shorten_spec interface_prefixes (short +:+ rest))
      as [->|(long' & short' & rest' & Hin' & Hs' & _)]; [done|].
    pose proof (strip_prefix_short long' short' short rest Hin' Hsh) as Hnone.
    by rewrite (proj2 (strip_prefix_Some _ _ _) Hs') in Hnone.
Qed.

#[export] Instance normalize_VlanConfig_idemp : NormalizeIdemp VlanConfig.
Proof. intros []. unfold normalize, normalize_VlanConfig. simpl. by rewrite !drop_empty_idemp. Qed.

#[export] Instance normalize_InterfaceConfig_idemp : NormalizeIdemp InterfaceConfig.
Proof.
  intros [? ? ? []]; unfold normalize, normalize_InterfaceConfig; simpl;
    by rewrite canonical_interface_name_idemp, drop_empty_idemp, ?sort_dedup_idemp.
Qed.

#[export] Instance normalize_AclRule_idemp : NormalizeIdemp AclRule.
Proof. intros []. unfold normalize, normalize_AclRule. simpl. by rewrite !drop_empty_idemp. Qed.

(** Mapping a function that keeps the keys commutes with a stable sort. *)
Lemma sort_by_key_fmap {A K} `{Ord K} (key : A → K) (f : A → A) l :
  (∀ x, key (f x) = key x) → sort_by_key key (f <$> l) = f <$> sort_by_key key l.
Proof.
  intros Hkey. assert (∀ x l, sort_insert key (f x) (f <$> l) = f <$> sort_insert key x l) as Hi.
  { intros x l'. induction l' as [|y l' IH]; csimpl; [done|]. rewrite !Hkey.
    case_decide; csimpl; congruence. }
  induction l as [|x l IH]; csimpl; [done|]. by rewrite IH, Hi.
Qed.

#[export] Instance normalize_AclConfig_idemp : NormalizeIdemp AclConfig.
Proof.
  intros []. unfold normalize, normalize_AclConfig. simpl. rewrite !drop_empty_idemp. f_equal.
  rewrite (sort_by_key_fmap sequence) by done. rewrite sort_by_key_idemp.
  rewrite (sort_by_key_fmap sequence normalize_AclRule) by done.
  rewrite <-list_fmap_compose. apply list_fmap_ext. intros. simpl. apply normalize_AclRule_idemp.
Qed.

#[export] Instance normalize_AclBinding_idemp : NormalizeIdemp AclBinding.
Proof.
  intros []. unfold normalize, normalize_AclBinding. simpl. by rewrite canonical_interface_name_idemp.
Qed.

#[export] Instance normalize_BgpProcess_idemp : NormalizeIdemp BgpProcess.
Proof.
  intros []. unfold normalize, normalize_BgpProcess. simpl. by rewrite trim_idemp, drop_empty_idemp.
Qed.

#[export] Instance normalize_BgpNeighbor_idemp : NormalizeIdemp BgpNeighbor.
Proof.
  intros []. unfold normalize, normalize_BgpNeighbor. simpl. by rewrite !trim_idemp, !drop_empty_idemp.
Qed.

(** ** Normal maps and states *)

(** Keyed by the values' own keys, with normal values. *)
Definition normal_map {K V} `{Countable K, Normalize V} (key : V → K) (m : gmap K V) : Prop :=
  map_Forall (λ k v, key v = k ∧ normalize v = v) m.

Section renormalize.
Context {K V : Type} `{Ord K, Countable K, Normalize V, !NormalizeIdemp V} (key : V → K).

Lemma renormalize_normal m : normal_map key (renormalize key m).
Proof.
  intros k v (x & Heq & _)%bt_collect_Some%list_elem_of_fmap. simplify_eq.
  split; [done|]. apply normalize_idemp.
Qed.

Lemma renormalize_id m : normal_map key m → renormalize key m = m.
Proof.
  intros Hm. apply map_eq. intros k. apply option_eq. intros v. unfold renormalize.
  split.
  - intros (x & Heq & (k' & Hk')%elem_of_bt_values)%bt_collect_Some%list_elem_of_fmap.
    simplify_eq. destruct (Hm _ _ Hk') as [<- ->]. done.
  - intros Hk. destruct (Hm _ _ Hk) as [Hkv Hv]. apply bt_collect_lookup.
    + intros v' (x & Heq & (k' & Hk')%elem_of_bt_values)%list_elem_of_fmap.
      destruct (Hm _ _ Hk') as [Hkx Hx]. simplify_eq. rewrite Hx in *. congruence.
    + apply list_elem_of_fmap. exists v. rewrite Hv, Hkv. split; [done|].
      apply elem_of_bt_values. eauto.
Qed.

Lemma renormalize_idemp m : renormalize key (renormalize key m) = renormalize key m.
Proof. apply renormalize_id, renormalize_normal. Qed.

(** The keys of the result are the keys of the normalized values. *)
Lemma renormalize_is_Some m k :
  is_Some (renormalize key m !! k) ↔ ∃ k' v, m !! k' = Some v ∧ key (normalize v) = k.
Proof.
  unfold renormalize. rewrite bt_collect_is_Some, <-list_fmap_compose, list_elem_of_fmap.
  setoid_rewrite elem_of_bt_values. simpl. naive_solver.
Qed.
End renormalize.

Record normal_shadow (s : DeviceShadowState) : Prop := {
  ns_vlans : normal_map vlan_id (ss_vlans s);
  ns_interfaces : normal_map if_name (ss_interfaces s);
  ns_acls : normal_map acl_id (ss_acls s);
  ns_bindings : normal_map AclBinding_key (ss_acl_bindings s);
  ns_processes : normal_map bp_vrf (ss_bgp_processes s);
  ns_neighbors : normal_map BgpNeighbor_key (ss_bgp_neighbors s);
}.

Lemma normalize_shadow_normal s : normal_shadow (normalize_shadow_state s).
Proof. split; apply renormalize_normal; apply _. Qed.

Lemma normalize_shadow_id s : normal_shadow s → normalize_shadow_state s = s.
Proof. intros []. destruct s; unfold normalize_shadow_state; simpl in *. f_equal; by apply renormalize_id. Qed.

Lemma collect_map_idemp {K} `{Ord K, Countable K} (f : K → K) (s : gset K) :
  (∀ x, f (f x) = f x) →
  bs_collect (f <$> bs_elems (bs_collect (f <$> bs_elems s))) = bs_collect (f <$> bs_elems s).
Proof.
  intros Hf. apply set_eq. intros x. rewrite !elem_of_bs_collect, !list_elem_of_fmap.
  setoid_rewrite elem_of_bs_elems. setoid_rewrite elem_of_bs_collect.
  setoid_rewrite list_elem_of_fmap. setoid_rewrite elem_of_bs_elems.
  split; [intros (y & -> & z & -> & Hz); rewrite Hf; eauto|].
  intros (z & -> & Hz). exists (f z). rewrite Hf. eauto.
Qed.

Lemma policy_refs_idemp (s : gset string) :
  let norm (s : gset string) : gset string :=
    bs_collect (filter (λ p, str_is_empty p = false) (trim <$> bs_elems s)) in
  norm (norm s) = norm s.
Proof.
  apply set_eq. intros x. rewrite !elem_of_bs_collect, !list_elem_of_filter, !list_elem_of_fmap.
  setoid_rewrite elem_of_bs_elems. setoid_rewrite elem_of_bs_collect.
  setoid_rewrite list_elem_of_filter. setoid_rewrite list_elem_of_fmap.
  setoid_rewrite elem_of_bs_elems. split.
  - intros (He & y & -> & _ & z & -> & Hz). rewrite trim_idemp in *. eauto.
  - intros (He & z & -> & Hz). split; [done|]. exists (trim z). rewrite trim_idemp. eauto.
Qed.

(** Normalization reaches a normal form in one pass: normalizing a desired
    state or a shadow state twice gives what normalizing it once gives, so
    comparing normalized states does not depend on how often either side was
    normalized before. *)
Theorem normalize_idempotent (d : DeviceDesiredState) (s : DeviceShadowState) :
  normalize_desired_state (normalize_desired_state d) = normalize_desired_state d ∧
  normalize_shadow_state (normalize_shadow_state s) = normalize_shadow_state s.
Proof.
  split.
  - unfold normalize_desired_state; simpl.
    f_equal; (apply renormalize_idemp || apply policy_refs_idemp || apply collect_map_idemp).
    + intros. apply canonical_interface_name_idemp.
    + intros. apply trim_idemp.
  - apply normalize_shadow_id, normalize_shadow_normal.
Qed.
