(* ===== verification/Diff.v ===== *)
(** * The difference between what is wanted and what a device has
      (src/engine/diff.rs)

    [compute_diff] lists the changes that take a device from its current state
    to the desired one; [apply_to_shadow] replays a change set on a shadow
    state. *)
From S2P Require Export Normalize.
Local Open Scope N_scope.

Inductive ChangeOp :=
  | CreateVlan (vlan : VlanConfig)
  | UpdateVlan (before after : VlanConfig)
  | DeleteVlan (vlan_id : N)
  | UpdateInterface (before : option InterfaceConfig) (after : InterfaceConfig)
  | DeleteInterfaceConfig (interface_name : string)
  | CreateAcl (acl : AclConfig)
  | UpdateAcl (before after : AclConfig)
  | DeleteAcl (acl_id : N)
  | CreateAclBinding (binding : AclBinding)
  | UpdateAclBinding (before after : AclBinding)
  | DeleteAclBinding (interface_name : string) (direction : AclDirection) (acl_id : N)
  | CreateBgpProcess (process : BgpProcess)
  | UpdateBgpProcess (before after : BgpProcess)
  | DeleteBgpProcess (vrf : string)
  | CreateBgpNeighbor (neighbor : BgpNeighbor)
  | UpdateBgpNeighbor (before after : BgpNeighbor)
  | DeleteBgpNeighbor (vrf address : string).
#[export] Instance ChangeOp_eq_dec : EqDecision ChangeOp.
Proof. solve_decision. Defined.

Record ChangeSet := mkChangeSet { cs_device_id : DeviceId; ops : list ChangeOp }.
#[export] Instance ChangeSet_eq_dec : EqDecision ChangeSet.
Proof. solve_decision. Defined.

Definition empty_change_set (d : DeviceId) : ChangeSet := mkChangeSet d [].
Definition change_set_is_empty (c : ChangeSet) : bool :=
  match ops c with [] => true | _ => false end.

(** The loops of [compute_diff] over the wanted entries of one family: nothing for
    an entry the device has, an update for one it has otherwise, else a create. *)
Definition diff_upserts {K V} `{Ord K, Countable K, EqDecision V}
    (create : V → ChangeOp) (update : V → V → ChangeOp) (desired current : gmap K V)
    : list ChangeOp :=
  bt_entries desired ≫= λ '(k, wanted),
    match current !! k with
    | Some has => if decide (has = wanted) then [] else [update has wanted]
    | None => [create wanted]
    end.

(** The loops over the ids to delete. *)
Definition diff_deletes {K V} `{Ord K, Countable K}
    (delete : K → ChangeOp) (ids : gset K) (current : gmap K V) : list ChangeOp :=
  bs_elems ids ≫= λ k, if decide (is_Some (current !! k)) then [delete k] else [].

(** The loops over the bindings and the neighbours to delete; [same] is the
    condition on the entry the device has. *)
Definition diff_delete_entries {K V} `{Ord K, Countable K}
    (delete : V → ChangeOp) (same : V → V → bool) (deletes current : gmap K V) : list ChangeOp :=
  bt_entries deletes ≫= λ '(k, gone),
    match current !! k with
    | Some has => if same has gone then [delete gone] else []
    | None => []
    end.

Definition diff_ops (desired : DeviceDesiredState) (current : DeviceShadowState) : list ChangeOp :=
  diff_upserts CreateVlan UpdateVlan (ds_vlans desired) (ss_vlans current) ++
  diff_upserts (UpdateInterface None) (λ has, UpdateInterface (Some has))
    (ds_interfaces desired) (ss_interfaces current) ++
  diff_deletes DeleteInterfaceConfig (ds_delete_interface_names desired) (ss_interfaces current) ++
  diff_deletes DeleteVlan (ds_delete_vlan_ids desired) (ss_vlans current) ++
  diff_upserts CreateAcl UpdateAcl (ds_acls desired) (ss_acls current) ++
  diff_upserts CreateAclBinding UpdateAclBinding (ds_acl_bindings desired) (ss_acl_bindings current) ++
  diff_delete_entries
    (λ b, DeleteAclBinding (ab_interface_name b) (ab_direction b) (ab_acl_id b))
    (λ has gone, ab_acl_id has =? ab_acl_id gone)
    (ds_delete_acl_bindings desired) (ss_acl_bindings current) ++
  diff_deletes DeleteAcl (ds_delete_acl_ids desired) (ss_acls current) ++
  diff_upserts CreateBgpProcess UpdateBgpProcess (ds_bgp_processes desired) (ss_bgp_processes current) ++
  diff_upserts CreateBgpNeighbor UpdateBgpNeighbor (ds_bgp_neighbors desired) (ss_bgp_neighbors current) ++
  diff_delete_entries (λ n, DeleteBgpNeighbor (bn_vrf n) (bn_address n)) (λ _ _, true)
    (ds_delete_bgp_neighbors desired) (ss_bgp_neighbors current) ++
  diff_deletes DeleteBgpProcess (ds_delete_bgp_process_vrfs desired) (ss_bgp_processes current).

Definition compute_diff (desired : DeviceDesiredState) (current : DeviceShadowState) : ChangeSet :=
  let desired := normalize_desired_state desired in
  let current := normalize_shadow_state current in
  mkChangeSet (ds_device_id desired) (diff_ops desired current).

(** ** Replaying a change set *)

(** [map.retain(|_, v| keep(v))] *)
Definition retain {K V} `{Countable K} (keep : V → bool) (m : gmap K V) : gmap K V :=
  filter (λ kv, keep kv.2 = true) m.

(** The arms of the [match] in [apply_to_shadow]. *)
Definition apply_op (s : DeviceShadowState) (op : ChangeOp) : DeviceShadowState :=
  let 'mkDeviceShadowState dev rev vlans interfaces acls bindings processes neighbors warnings := s in
  match op with
  | CreateVlan v | UpdateVlan _ v =>
      mkDeviceShadowState dev rev (<[vlan_id v := v]> vlans) interfaces acls bindings processes
        neighbors warnings
  | DeleteVlan id =>
      mkDeviceShadowState dev rev (delete id vlans) interfaces acls bindings processes neighbors
        warnings
  | UpdateInterface _ i =>
      mkDeviceShadowState dev rev vlans (<[if_name i := i]> interfaces) acls bindings processes
        neighbors warnings
  | DeleteInterfaceConfig name =>
      mkDeviceShadowState dev rev vlans (delete name interfaces) acls bindings processes neighbors
        warnings
  | CreateAcl a | UpdateAcl _ a =>
      mkDeviceShadowState dev rev vlans interfaces (<[acl_id a := a]> acls) bindings processes
        neighbors warnings
  | DeleteAcl id =>
      mkDeviceShadowState dev rev vlans interfaces (delete id acls)
        (retain (λ b, negb (ab_acl_id b =? id)) bindings) processes neighbors warnings
  | CreateAclBinding b | UpdateAclBinding _ b =>
      mkDeviceShadowState dev rev vlans interfaces acls (<[AclBinding_key b := b]> bindings)
        processes neighbors warnings
  | DeleteAclBinding name direction _ =>
      mkDeviceShadowState dev rev vlans interfaces acls
        (delete (acl_binding_key name direction) bindings) processes neighbors warnings
  | CreateBgpProcess p | UpdateBgpProcess _ p =>
      mkDeviceShadowState dev rev vlans interfaces acls bindings (<[bp_vrf p := p]> processes)
        neighbors warnings
  | DeleteBgpProcess vrf =>
      mkDeviceShadowState dev rev vlans interfaces acls bindings (delete vrf processes)
        (retain (λ n, negb (bool_decide (bn_vrf n = vrf))) neighbors) warnings
  | CreateBgpNeighbor n | UpdateBgpNeighbor _ n =>
      mkDeviceShadowState dev rev vlans interfaces acls bindings processes
        (<[BgpNeighbor_key n := n]> neighbors) warnings
  | DeleteBgpNeighbor vrf address =>
      mkDeviceShadowState dev rev vlans interfaces acls bindings processes
        (delete (bgp_neighbor_key vrf address) neighbors) warnings
  end.

Definition apply_to_shadow (cs : ChangeSet) (base : option DeviceShadowState)
    (desired : DeviceDesiredState) (revision : N) : DeviceShadowState :=
  let state := match base with
    | Some b => b
    | None => mkDeviceShadowState (ds_device_id desired) revision ∅ ∅ ∅ ∅ ∅ ∅ []
    end in
  let state := mkDeviceShadowState (ds_device_id desired) revision (ss_vlans state)
    (ss_interfaces state) (ss_acls state) (ss_acl_bindings state) (ss_bgp_processes state)
    (ss_bgp_neighbors state) [] in
  foldl apply_op state (ops cs).

Lemma apply_to_shadow_device cs base desired revision :
  ss_device_id (apply_to_shadow cs base desired revision) = ds_device_id desired.
Proof.
  unfold apply_to_shadow. set (s := mkDeviceShadowState _ _ _ _ _ _ _ _ _).
  change (ds_device_id desired) with (ss_device_id s). clearbody s.
  induction (ops cs) as [|op l IH] in s |- *; simpl; [done|]. rewrite IH. by destruct op, s.
Qed.

(** ** What an empty diff means *)

(** The device has every wanted entry as wanted and none of those to be deleted. *)
Record satisfies (d : DeviceDesiredState) (s : DeviceShadowState) : Prop := {
  sat_vlans : ds_vlans d ⊆ ss_vlans s;
  sat_interfaces : ds_interfaces d ⊆ ss_interfaces s;
  sat_acls : ds_acls d ⊆ ss_acls s;
  sat_bindings : ds_acl_bindings d ⊆ ss_acl_bindings s;
  sat_processes : ds_bgp_processes d ⊆ ss_bgp_processes s;
  sat_neighbors : ds_bgp_neighbors d ⊆ ss_bgp_neighbors s;
  sat_no_vlans : ds_delete_vlan_ids d ## dom (ss_vlans s);
  sat_no_interfaces : ds_delete_interface_names d ## dom (ss_interfaces s);
  sat_no_acls : ds_delete_acl_ids d ## dom (ss_acls s);
  sat_no_bindings : ∀ k gone has, ds_delete_acl_bindings d !! k = Some gone →
    ss_acl_bindings s !! k = Some has → ab_acl_id has ≠ ab_acl_id gone;
  sat_no_processes : ds_delete_bgp_process_vrfs d ## dom (ss_bgp_processes s);
  sat_no_neighbors : dom (ds_delete_bgp_neighbors d) ## dom (ss_bgp_neighbors s);
}.

Lemma bind_nil {A B} (f : A → list B) l : l ≫= f = [] ↔ ∀ x, x ∈ l → f x = [].
Proof.
  induction l as [|x l IH]; csimpl; [set_solver|].
  split.
  - intros [Hx Hl]%app_eq_nil y [->|Hy]%elem_of_cons; [done|]. by apply IH.
  - intros Hall. rewrite (Hall x) by set_solver. apply IH. intros. apply Hall. by right.
Qed.

Section families.
Context {K V : Type} `{Ord K, Countable K}.

Lemma diff_upserts_nil `{EqDecision V} create update (d c : gmap K V) :
  diff_upserts create update d c = [] ↔ d ⊆ c.
Proof.
  unfold diff_upserts. rewrite bind_nil, map_subseteq_spec. split.
  - intros Hall k v Hk. specialize (Hall (k, v)). rewrite elem_of_bt_entries in Hall.
    specialize (Hall Hk). case_goal.
  - intros Hsub [k v] Hk%elem_of_bt_entries. rewrite (Hsub k v Hk). by rewrite decide_True.
Qed.

Lemma diff_deletes_nil del (ids : gset K) (c : gmap K V) :
  diff_deletes del ids c = [] ↔ ids ## dom c.
Proof.
  unfold diff_deletes. rewrite bind_nil. setoid_rewrite elem_of_bs_elems.
  unfold disjoint, set_disjoint_instance. split.
  - intros Hall k Hk Hc%elem_of_dom. specialize (Hall k Hk). by rewrite decide_True in Hall.
  - intros Hdis k Hk. rewrite decide_False; [done|]. rewrite <-elem_of_dom. eauto.
Qed.

Lemma diff_delete_entries_nil del same (gs c : gmap K V) :
  diff_delete_entries del same gs c = [] ↔
  ∀ k gone has, gs !! k = Some gone → c !! k = Some has → same has gone = false.
Proof.
  unfold diff_delete_entries. rewrite bind_nil. split.
  - intros Hall k gone has Hg Hc. specialize (Hall (k, gone)).
    rewrite elem_of_bt_entries in Hall. specialize (Hall Hg). rewrite Hc in Hall. case_goal.
  - intros Hall [k gone] Hg%elem_of_bt_entries. destruct (c !! k) eqn:Hc; [|done].
    by erewrite Hall.
Qed.
End families.

Lemma diff_ops_nil d s : diff_ops d s = [] ↔ satisfies d s.
Proof.
  unfold diff_ops.
  assert (∀ l1 l2 : list ChangeOp, l1 ++ l2 = [] ↔ l1 = [] ∧ l2 = []) as Happ.
  { intros [] ?; naive_solver. }
  rewrite !Happ, !diff_upserts_nil, !diff_deletes_nil, !diff_delete_entries_nil.
  assert ((∀ k gone has, ds_delete_acl_bindings d !! k = Some gone →
      ss_acl_bindings s !! k = Some has → (ab_acl_id has =? ab_acl_id gone) = false) ↔
    (∀ k gone has, ds_delete_acl_bindings d !! k = Some gone →
      ss_acl_bindings s !! k = Some has → ab_acl_id has ≠ ab_acl_id gone)) as ->.
  { by setoid_rewrite N.eqb_neq. }
  assert ((∀ k gone has, ds_delete_bgp_neighbors d !! k = Some gone →
      ss_bgp_neighbors s !! k = Some has → true = false) ↔
    dom (ds_delete_bgp_neighbors d) ## dom (ss_bgp_neighbors s)) as ->.
  { split.
    - intros Hall k [g Hg]%elem_of_dom [h Hh]%elem_of_dom. by specialize (Hall k g h Hg Hh).
    - intros Hdis k g h Hg Hh. destruct (Hdis k); apply elem_of_dom; eauto. }
  split.
  - intros. destruct_and!. by split.
  - intros []. split_and!; done.
Qed.

(** The diff is empty exactly when there is nothing to do: the device, after
    normalization, has every wanted VLAN, interface, ACL, binding, BGP process and
    neighbour as wanted, and none of those to be deleted (a binding to be deleted
    counts as gone when another ACL is bound in its place). *)
Theorem compute_diff_empty_iff d s :
  change_set_is_empty (compute_diff d s) = true ↔
  satisfies (normalize_desired_state d) (normalize_shadow_state s).
Proof.
  rewrite <-diff_ops_nil. unfold change_set_is_empty, compute_diff. simpl.
  by destruct (diff_ops _ _).
Qed.

(** ** Replaying a diff

    The families of a state are changed independently, except that deleting an
    ACL drops its bindings and deleting a BGP process drops its neighbours.  What
    an operation does to each family: *)
Definition vlan_effect (m : gmap N VlanConfig) (op : ChangeOp) : gmap N VlanConfig :=
  match op with
  | CreateVlan v | UpdateVlan _ v => <[vlan_id v := v]> m
  | DeleteVlan id => delete id m
  | _ => m
  end.
Definition interface_effect (m : gmap string InterfaceConfig) (op : ChangeOp) :=
  match op with
  | UpdateInterface _ i => <[if_name i := i]> m
  | DeleteInterfaceConfig n => delete n m
  | _ => m
  end.
Definition acl_effect (m : gmap N AclConfig) (op : ChangeOp) : gmap N AclConfig :=
  match op with
  | CreateAcl a | UpdateAcl _ a => <[acl_id a := a]> m
  | DeleteAcl id => delete id m
  | _ => m
  end.
Definition binding_effect (m : gmap string AclBinding) (op : ChangeOp) : gmap string AclBinding :=
  match op with
  | CreateAclBinding b | UpdateAclBinding _ b => <[AclBinding_key b := b]> m
  | DeleteAclBinding n d _ => delete (acl_binding_key n d) m
  | DeleteAcl id => retain (λ b, negb (ab_acl_id b =? id)) m
  | _ => m
  end.
Definition process_effect (m : gmap string BgpProcess) (op : ChangeOp) : gmap string BgpProcess :=
  match op with
  | CreateBgpProcess p | UpdateBgpProcess _ p => <[bp_vrf p := p]> m
  | DeleteBgpProcess vrf => delete vrf m
  | _ => m
  end.
Definition neighbor_effect (m : gmap string BgpNeighbor) (op : ChangeOp) : gmap string BgpNeighbor :=
  match op with
  | CreateBgpNeighbor n | UpdateBgpNeighbor _ n => <[BgpNeighbor_key n := n]> m
  | DeleteBgpNeighbor vrf a => delete (bgp_neighbor_key vrf a) m
  | DeleteBgpProcess vrf => retain (λ n, negb (bool_decide (bn_vrf n = vrf))) m
  | _ => m
  end.

Lemma apply_ops_effects l s :
  let s' := foldl apply_op s l in
  ss_vlans s' = foldl vlan_effect (ss_vlans s) l ∧
  ss_interfaces s' = foldl interface_effect (ss_interfaces s) l ∧
  ss_acls s' = foldl acl_effect (ss_acls s) l ∧
  ss_acl_bindings s' = foldl binding_effect (ss_acl_bindings s) l ∧
  ss_bgp_processes s' = foldl process_effect (ss_bgp_processes s) l ∧
  ss_bgp_neighbors s' = foldl neighbor_effect (ss_bgp_neighbors s) l ∧
  ss_device_id s' = ss_device_id s ∧ ss_revision s' = ss_revision s ∧
  ss_warnings s' = ss_warnings s.
Proof.
  revert s. induction l as [|op l IH]; intros s; simpl; [done|].
  destruct (IH (apply_op s op)) as (-> & -> & -> & -> & -> & -> & -> & -> & ->).
  destruct s, op; done.
Qed.

(** The effect of one loop of [compute_diff] on the family it writes, and that
    it has none on the others. *)
Section replay.
Context {K V : Type} `{Ord K, Countable K}.

Lemma foldl_skip {S} (eff : S → ChangeOp → S) l m :
  (∀ op, op ∈ l → eff m op = m) → foldl eff m l = m.
Proof.
  induction l as [|op l IH]; intros Hskip; simpl; [done|].
  rewrite (Hskip op) by set_solver. apply IH. set_solver.
Qed.

Lemma replay_upserts `{EqDecision V} (key : V → K) eff create update (d c m : gmap K V) :
  keyed key d →
  (∀ v m, eff m (create v) = <[key v := v]> m) →
  (∀ b v m, eff m (update b v) = <[key v := v]> m) →
  (∀ k, is_Some (d !! k) → m !! k = c !! k) →
  foldl eff m (diff_upserts create update d c) = d ∪ m.
Proof.
  intros Hkey Hc Hu. unfold diff_upserts.
  assert (∀ l, NoDup l.*1 → (∀ k v, (k, v) ∈ l → d !! k = Some v) → ∀ m,
    (∀ k, k ∈ l.*1 → m !! k = c !! k) →
    foldl eff m (l ≫= λ '(k, wanted),
      match c !! k with
      | Some has => if decide (has = wanted) then [] else [update has wanted]
      | None => [create wanted]
      end) = list_to_map l ∪ m) as Hgen.
  { induction l as [|[k v] l IH]; intros Hnd Hd m1 Hm1; csimpl; [by rewrite (left_id_L ∅ _)|].
    rewrite foldl_app. apply NoDup_cons in Hnd as [Hk Hnd].
    assert (foldl eff m1 match c !! k with
      | Some has => if decide (has = v) then [] else [update has v]
      | None => [create v] end = <[k := v]> m1) as ->.
    { pose proof (Hkey k v (Hd k v ltac:(by left))) as Hkv.
      specialize (Hm1 k ltac:(by left)). destruct (c !! k) as [has|]; simpl.
      - case_decide; simpl; [subst; by rewrite insert_id | by rewrite Hu, Hkv].
      - by rewrite Hc, Hkv. }
    rewrite IH; [|done|set_solver|].
    - rewrite <-insert_union_r; [by rewrite insert_union_l|].
      apply not_elem_of_list_to_map_1. done.
    - intros k' Hk'. rewrite lookup_insert_ne by set_solver. apply Hm1. by right. }
  intros Hm. rewrite Hgen; [|apply NoDup_bt_keys|by intros; apply elem_of_bt_entries|].
  - f_equal. apply map_eq. intros k. apply option_eq. intros v.
    rewrite <-elem_of_list_to_map by apply NoDup_bt_keys. apply elem_of_bt_entries.
  - intros k ([k' v] & -> & Hk)%list_elem_of_fmap. apply Hm. simpl.
    apply elem_of_bt_entries in Hk. eauto.
Qed.

Lemma replay_deletes eff del (ids : gset K) (c m : gmap K V) k v :
  (∀ k m, eff m (del k) = delete k m) →
  foldl eff m (diff_deletes del ids c) !! k = Some v ↔
  m !! k = Some v ∧ (k ∈ ids → c !! k = None).
Proof.
  intros Hdel. unfold diff_deletes. setoid_rewrite <-elem_of_bs_elems. revert m.
  induction (bs_elems ids) as [|x l IH]; intros m; csimpl; [set_solver|].
  rewrite foldl_app, IH. case_decide as Hx; simpl.
  - rewrite Hdel, lookup_delete_Some, elem_of_cons, eq_None_not_Some. naive_solver.
  - rewrite elem_of_cons, eq_None_not_Some. naive_solver.
Qed.

Lemma replay_retains {I W} `{Ord I, Countable I} eff del (keep : I → V → bool)
    (ids : gset I) (c : gmap I W) (m : gmap K V) k v :
  (∀ i m, eff m (del i) = retain (keep i) m) →
  foldl eff m (diff_deletes del ids c) !! k = Some v ↔
  m !! k = Some v ∧ ∀ i, i ∈ ids → is_Some (c !! i) → keep i v = true.
Proof.
  intros Hdel. unfold diff_deletes. setoid_rewrite <-elem_of_bs_elems. revert m.
  induction (bs_elems ids) as [|x l IH]; intros m; csimpl; [set_solver|].
  rewrite foldl_app, IH. setoid_rewrite elem_of_cons. case_decide as Hx; simpl.
  - rewrite Hdel. unfold retain. rewrite map_lookup_filter_Some. simpl. naive_solver.
  - naive_solver.
Qed.

Lemma replay_delete_entries (key : V → K) eff del same (gs c m : gmap K V) k v :
  keyed key gs → (∀ g m, eff m (del g) = delete (key g) m) →
  foldl eff m (diff_delete_entries del same gs c) !! k = Some v ↔
  m !! k = Some v ∧ ∀ g has, gs !! k = Some g → c !! k = Some has → same has g = false.
Proof.
  intros Hkey Hdel. unfold diff_delete_entries. setoid_rewrite <-(elem_of_bt_entries gs).
  assert (∀ k g, (k, g) ∈ bt_entries gs → key g = k) as Hin.
  { intros k' g Hg%elem_of_bt_entries. by apply Hkey. }
  revert m Hin. induction (bt_entries gs) as [|[x g] l IH]; intros m Hin; csimpl; [set_solver|].
  rewrite foldl_app, IH by set_solver. setoid_rewrite elem_of_cons.
  pose proof (Hin x g ltac:(by left)) as <-.
  destruct (c !! key g) as [has|] eqn:Hc; simpl.
  - destruct (same has g) eqn:Hs; simpl.
    + rewrite Hdel, lookup_delete_Some. split.
      * intros ((Hne & Hm) & Hall). split; [done|].
        intros g' has' [?|?]; [congruence|by apply Hall].
      * intros (Hm & Hall). split_and!; [|done|by eauto].
        intros Heq. specialize (Hall g has). rewrite Heq in *. intuition congruence.
    + split; intros [Hm Hall]; (split; [done|]); [|by eauto].
      intros g' has' [?|?] Hh; [congruence|by apply Hall].
  - split; intros [Hm Hall]; (split; [done|]); [|by eauto].
    intros g' has' [?|?] Hh; [congruence|by apply Hall].
Qed.
End replay.

Section skip.
Context {K V S : Type} `{Ord K, Countable K} (eff : S → ChangeOp → S).

Lemma skip_upserts `{EqDecision V} create update (d c : gmap K V) m :
  (∀ v m, eff m (create v) = m) → (∀ h v m, eff m (update h v) = m) →
  foldl eff m (diff_upserts create update d c) = m.
Proof.
  intros Hc Hu. apply foldl_skip. intros op ([k v] & Hop & _)%list_elem_of_bind.
  revert Hop. case_match; [case_decide|]; rewrite ?elem_of_nil, ?list_elem_of_singleton;
    intros; subst; done.
Qed.

Lemma skip_deletes del (ids : gset K) (c : gmap K V) m :
  (∀ k m, eff m (del k) = m) → foldl eff m (diff_deletes del ids c) = m.
Proof.
  intros Hd. apply foldl_skip. intros op (k & Hop & _)%list_elem_of_bind.
  revert Hop. case_decide; rewrite ?elem_of_nil, ?list_elem_of_singleton; intros; subst; done.
Qed.

Lemma skip_delete_entries del same (gs c : gmap K V) m :
  (∀ g m, eff m (del g) = m) → foldl eff m (diff_delete_entries del same gs c) = m.
Proof.
  intros Hd. apply foldl_skip. intros op ([k v] & Hop & _)%list_elem_of_bind.
  revert Hop. case_match; [case_match|]; rewrite ?elem_of_nil, ?list_elem_of_singleton;
    intros; subst; done.
Qed.
End skip.

(** Drop the loops that do not write the family at hand. *)
Ltac skip_families :=
  rewrite !foldl_app;
  repeat match goal with
  | |- context [foldl ?eff ?m (diff_upserts ?c ?u ?d ?cur)] =>
      rewrite (skip_upserts eff c u d cur m) by done
  | |- context [foldl ?eff ?m (diff_deletes ?del ?ids ?cur)] =>
      rewrite (skip_deletes eff del ids cur m) by done
  | |- context [foldl ?eff ?m (diff_delete_entries ?del ?same ?gs ?cur)] =>
      rewrite (skip_delete_entries eff del same gs cur m) by done
  end.

(** A request that does not ask for an entry and for its removal at once. *)
Record conflict_free (d : DeviceDesiredState) : Prop := {
  cf_vlans : dom (ds_vlans d) ## ds_delete_vlan_ids d;
  cf_interfaces : dom (ds_interfaces d) ## ds_delete_interface_names d;
  cf_acls : dom (ds_acls d) ## ds_delete_acl_ids d;
  cf_bindings : dom (ds_acl_bindings d) ## dom (ds_delete_acl_bindings d);
  cf_binding_acls : map_Forall (λ _ b, ab_acl_id b ∉ ds_delete_acl_ids d) (ds_acl_bindings d);
  cf_processes : dom (ds_bgp_processes d) ## ds_delete_bgp_process_vrfs d;
  cf_neighbors : dom (ds_bgp_neighbors d) ## dom (ds_delete_bgp_neighbors d);
  cf_neighbor_vrfs :
    map_Forall (λ _ n, bn_vrf n ∉ ds_delete_bgp_process_vrfs d) (ds_bgp_neighbors d);
}.

(** [m'] is [m] with the entries of [d] put in and the [gone] ones taken out. *)
Definition updated {K V} `{Countable K} (d : gmap K V) (gone : K → V → Prop) (m m' : gmap K V)
    : Prop :=
  ∀ k v, m' !! k = Some v ↔ d !! k = Some v ∨ d !! k = None ∧ m !! k = Some v ∧ ¬ gone k v.

(** What a device looks like once a request is carried out: the wanted entries are
    there, the unwanted ones and what depends on them are not, the others are as
    they were. *)
Record reconciled (d : DeviceDesiredState) (s s' : DeviceShadowState) : Prop := {
  rc_vlans : updated (ds_vlans d) (λ k _, k ∈ ds_delete_vlan_ids d) (ss_vlans s) (ss_vlans s');
  rc_interfaces :
    updated (ds_interfaces d) (λ k _, k ∈ ds_delete_interface_names d)
      (ss_interfaces s) (ss_interfaces s');
  rc_acls : updated (ds_acls d) (λ k _, k ∈ ds_delete_acl_ids d) (ss_acls s) (ss_acls s');
  rc_bindings :
    updated (ds_acl_bindings d)
      (λ k b, (∃ g, ds_delete_acl_bindings d !! k = Some g ∧ ab_acl_id b = ab_acl_id g) ∨
              (ab_acl_id b ∈ ds_delete_acl_ids d ∧ is_Some (ss_acls s !! ab_acl_id b)))
      (ss_acl_bindings s) (ss_acl_bindings s');
  rc_processes :
    updated (ds_bgp_processes d) (λ k _, k ∈ ds_delete_bgp_process_vrfs d)
      (ss_bgp_processes s) (ss_bgp_processes s');
  rc_neighbors :
    updated (ds_bgp_neighbors d)
      (λ k n, is_Some (ds_delete_bgp_neighbors d !! k) ∨
              (bn_vrf n ∈ ds_delete_bgp_process_vrfs d ∧
               is_Some (ss_bgp_processes s !! bn_vrf n)))
      (ss_bgp_neighbors s) (ss_bgp_neighbors s');
  rc_device : ss_device_id s' = ds_device_id d;
  rc_warnings : ss_warnings s' = [];
}.

Lemma updated_ext {K V} `{Countable K} (d : gmap K V) (P Q : K → V → Prop) m m' :
  (∀ k v, P k v ↔ Q k v) → updated d P m m' → updated d Q m m'.
Proof. intros Hpq Hu k v. by rewrite (Hu k v), Hpq. Qed.

Lemma normal_map_keyed {K V} `{Countable K, Normalize V} (key : V → K) m :
  normal_map key m → keyed key m.
Proof. intros Hm k v Hk. apply (Hm k v Hk). Qed.

(** The plain families: entries put in, then ids deleted. *)
Lemma updated_plain {K V} `{Ord K, Countable K, EqDecision V} (key : V → K) eff create update del
    (d c : gmap K V) ids :
  keyed key d → dom d ## ids →
  (∀ v m, eff m (create v) = <[key v := v]> m) →
  (∀ b v m, eff m (update b v) = <[key v := v]> m) →
  (∀ k m, eff m (del k) = delete k m) →
  updated d (λ k _, k ∈ ids) c
    (foldl eff (foldl eff c (diff_upserts create update d c)) (diff_deletes del ids c)).
Proof.
  intros Hkey Hdis Hc Hu Hd k v.
  rewrite (replay_deletes eff) by done. rewrite (replay_upserts key eff) by done.
  rewrite lookup_union_Some_raw. split.
  - intros [[Hk|[Hn Hk]] Hdel]; [by left|]. right. split_and!; [done..|].
    intros Hin. specialize (Hdel Hin). congruence.
  - intros [Hk|(Hn & Hk & Hnin)]; (split; [naive_solver|]); [|done].
    intros Hin. exfalso. eapply Hdis; [|done]. apply elem_of_dom. eauto.
Qed.

(** The families with dependents: entries put in, entries deleted by key, then
    what depends on a deleted parent dropped. *)
Lemma updated_dependent {K V I W} `{Ord K, Countable K, EqDecision V, Ord I, Countable I}
    (key : V → K) (parent : V → I) eff create update del same delp (keep : I → V → bool)
    (d c gs : gmap K V) (ids : gset I) (p : gmap I W) :
  keyed key d → keyed key gs → dom d ## dom gs → map_Forall (λ _ v, parent v ∉ ids) d →
  (∀ v m, eff m (create v) = <[key v := v]> m) →
  (∀ b v m, eff m (update b v) = <[key v := v]> m) →
  (∀ g m, eff m (del g) = delete (key g) m) →
  (∀ i m, eff m (delp i) = retain (keep i) m) →
  (∀ i v, keep i v = true ↔ parent v ≠ i) →
  updated d
    (λ k v, (∃ g, gs !! k = Some g ∧ same v g = true) ∨ (parent v ∈ ids ∧ is_Some (p !! parent v)))
    c
    (foldl eff (foldl eff (foldl eff c (diff_upserts create update d c))
      (diff_delete_entries del same gs c)) (diff_deletes delp ids p)).
Proof.
  intros Hkey Hgs Hdis Hpar Hc Hu Hd Hr Hkeep k v.
  rewrite (replay_retains eff delp keep) by done.
  rewrite (replay_delete_entries key eff) by done.
  rewrite (replay_upserts key eff) by done. setoid_rewrite Hkeep.
  rewrite lookup_union_Some_raw. split.
  - intros [[[Hk|[Hn Hk]] Hdel] Hret]; [by left|]. right. split_and!; [done..|].
    intros [(g & Hg & Hs)|[Hin Hp]]; [|by eapply Hret].
    by rewrite (Hdel g v Hg Hk) in Hs.
  - intros [Hk|(Hn & Hk & Hgone)].
    + split_and!; [by left| |].
      * intros g has Hg. exfalso. eapply (Hdis k); apply elem_of_dom; eauto.
      * intros i Hi _ <-. by eapply Hpar.
    + split_and!; [by right| |].
      * intros g has Hg Hh. simplify_eq. destruct (same v g) eqn:Hs; [|done]. destruct Hgone. eauto.
      * intros i Hi Hp <-. auto.
Qed.

Lemma apply_diff_reconciles d s rev :
  normal_shadow s → conflict_free (normalize_desired_state d) →
  reconciled (normalize_desired_state d) s (apply_to_shadow (compute_diff d s) (Some s) d rev).
Proof.
  intros Hs [Cv Ci Ca Cb Cba Cp Cn Cnv]. unfold apply_to_shadow, compute_diff.
  rewrite (normalize_shadow_id s Hs). cbv zeta. set (nd := normalize_desired_state d) in *.
  match goal with |- reconciled _ _ (foldl apply_op ?s0 ?l) =>
    destruct (apply_ops_effects l s0) as (Ev & Ei & Ea & Eb & Ep & En & Edev & _ & Ew) end.
  simpl in *. split; try done; rewrite ?Ev, ?Ei, ?Ea, ?Eb, ?Ep, ?En;
    clear Ev Ei Ea Eb Ep En Edev Ew; unfold diff_ops; skip_families.
  - apply (updated_plain vlan_id); try done. apply normal_map_keyed, renormalize_normal.
  - apply (updated_plain if_name); try done. apply normal_map_keyed, renormalize_normal.
  - apply (updated_plain acl_id); try done. apply normal_map_keyed, renormalize_normal.
  - eapply updated_ext; [|apply (updated_dependent AclBinding_key ab_acl_id)
      with (keep := λ i b, negb (ab_acl_id b =? i)); try done].
    + intros k b. simpl. by setoid_rewrite N.eqb_eq.
    + apply normal_map_keyed, renormalize_normal.
    + apply normal_map_keyed, renormalize_normal.
    + intros i b. simpl. by rewrite negb_true_iff, N.eqb_neq.
  - apply (updated_plain bp_vrf); try done. apply normal_map_keyed, renormalize_normal.
  - eapply updated_ext; [|apply (updated_dependent BgpNeighbor_key bn_vrf)
      with (keep := λ i n, negb (bool_decide (bn_vrf n = i))); try done].
    + intros k n. simpl. unfold is_Some. naive_solver.
    + apply normal_map_keyed, renormalize_normal.
    + apply normal_map_keyed, renormalize_normal.
    + intros i n. simpl. by rewrite negb_true_iff, bool_decide_eq_false.
Qed.

Lemma updated_normal {K V} `{Countable K, Normalize V} (key : V → K) d gone m m' :
  normal_map key d → normal_map key m → updated d gone m m' → normal_map key m'.
Proof. intros Hd Hm Hu k v [Hk|(_ & Hk & _)]%Hu; [by apply Hd | by apply Hm]. Qed.

Lemma updated_subseteq {K V} `{Countable K} (d : gmap K V) gone m m' :
  updated d gone m m' → d ⊆ m'.
Proof. intros Hu. apply map_subseteq_spec. intros k v Hk. apply Hu. by left. Qed.

Lemma updated_gone {K V} `{Countable K} (d : gmap K V) (ids : gset K) m m' :
  dom d ## ids → updated d (λ k _, k ∈ ids) m m' → ids ## dom m'.
Proof.
  intros Hdis Hu k Hk [v [Hd|(_ & _ & Hn)]%Hu]%elem_of_dom; [|done].
  apply (Hdis k); [|done]. apply elem_of_dom. eauto.
Qed.

Lemma reconciled_satisfies d s s' : conflict_free d → reconciled d s s' → satisfies d s'.
Proof.
  intros [] []. split; try by eapply updated_subseteq.
  - by eapply updated_gone.
  - by eapply updated_gone.
  - by eapply updated_gone.
  - intros k gone has Hg Hh. apply rc_bindings0 in Hh as [Hd|(_ & _ & Hn)].
    + exfalso. eapply (cf_bindings0 k); apply elem_of_dom; eauto.
    + intros Heq. apply Hn. left. eauto.
  - by eapply updated_gone.
  - intros k [g Hg]%elem_of_dom [n [Hd|(_ & _ & Hn)]%rc_neighbors0]%elem_of_dom.
    + eapply (cf_neighbors0 k); apply elem_of_dom; eauto.
    + apply Hn. left. eauto.
Qed.

Lemma reconciled_normal d s s' :
  normal_shadow s → reconciled (normalize_desired_state d) s s' → normal_shadow s'.
Proof.
  intros [] []. split; (eapply updated_normal; [| |eassumption]; [apply renormalize_normal|done]).
Qed.

(** C9. Carrying out a diff does what the request says, and once, for a shadow
    state that is normalized and a request that, once normalized, does not ask for
    an entry and for its removal (or the removal of what it depends on) at once:
    replaying [compute_diff] by [apply_to_shadow] puts in the wanted entries,
    removes the unwanted ones with what depends on them (an ACL's bindings, a BGP
    process's neighbours), leaves every other entry as it was, keeps the state
    normalized, and leaves nothing to do: the diff of the same request against the
    result is empty.  Both conditions are needed: see
    [raw_shadow_does_not_converge] and [two_spellings_do_not_converge]. *)
Theorem apply_diff_converges d s rev :
  normal_shadow s → conflict_free (normalize_desired_state d) →
  let s' := apply_to_shadow (compute_diff d s) (Some s) d rev in
  reconciled (normalize_desired_state d) s s' ∧ normal_shadow s' ∧
  compute_diff d s' = empty_change_set (ds_device_id d).
Proof.
  intros Hs Hcf s'. pose proof (apply_diff_reconciles d s rev Hs Hcf) as Hr.
  pose proof (reconciled_normal _ _ _ Hs Hr) as Hs'. split_and!; [done..|].
  unfold compute_diff. rewrite (normalize_shadow_id s' Hs').
  assert (diff_ops (normalize_desired_state d) s' = []) as ->; [|done].
  apply diff_ops_nil. by eapply reconciled_satisfies.
Qed.

Module DiffSample.
Definition desired : DeviceDesiredState := endpoint_fold Sample.intent (mkDeviceId "stack-1").
(** A device with a VLAN and an ACL to be deleted, the ACL bound to a port. *)
Definition current : DeviceShadowState :=
  normalize_shadow_state {| ss_device_id := mkDeviceId "stack-1"; ss_revision := 3;
     ss_vlans := {[ 10 := mkVlanConfig 10 (Some "old") None; 30 := mkVlanConfig 30 None None ]};
     ss_interfaces :=
       {[ "GigabitEthernet1/0/1" := mkInterfaceConfig "GigabitEthernet1/0/1" Down (Some "")
            (Trunk None [20; 10; 20]) ]};
     ss_acls := {[ 3001 := mkAclConfig 3001 AdvancedIpv4 None None [] ]};
     ss_acl_bindings := {[ "GE1/0/9|inbound" := mkAclBinding "GE1/0/9" Inbound 3001 ]};
     ss_bgp_processes := ∅; ss_bgp_neighbors := ∅; ss_warnings := ["w"] |}.
End DiffSample.

Lemma DiffSample_conflict_free : conflict_free (normalize_desired_state DiffSample.desired).
Proof. split; apply (bool_decide_unpack _); vm_compute; exact I. Qed.

Lemma apply_diff_converges_witness :
  compute_diff DiffSample.desired (apply_to_shadow
    (compute_diff DiffSample.desired DiffSample.current) (Some DiffSample.current)
    DiffSample.desired 4) = empty_change_set (mkDeviceId "stack-1").
Proof.
  apply (apply_diff_converges DiffSample.desired DiffSample.current 4).
  - apply normalize_shadow_normal.
  - exact DiffSample_conflict_free.
Defined.

(** On a shadow state that is not normalized the wanted interface is put in beside
    the entry under its long name, which shadows it again when the result is
    normalized: the diff does not become empty. *)
Example raw_shadow_does_not_converge :
  let port name v := mkInterfaceConfig name Up None (Access v) in
  let d := mkDeviceDesiredState (mkDeviceId "leaf-a") ∅ {[ "GE1/0/1" := port "GE1/0/1" 10 ]}
             ∅ ∅ ∅ ∅ ∅ ∅ ∅ ∅ ∅ ∅ ∅ in
  let s := mkDeviceShadowState (mkDeviceId "leaf-a") 1 ∅
             {[ "GigabitEthernet1/0/1" := port "GigabitEthernet1/0/1" 20 ]} ∅ ∅ ∅ ∅ [] in
  let s' := apply_to_shadow (compute_diff d s) (Some s) d 2 in
  ops (compute_diff d s') = ops (compute_diff d s) ∧ ops (compute_diff d s) ≠ [].
Proof. vm_compute. split; [reflexivity|done]. Qed.

(** Validation compares the names as they are spelled: an intent that wants a port
    under its short name and deletes it under its long one is accepted, its diff
    holds both operations, and carrying it out leaves the port to be created
    again. *)
Example two_spellings_do_not_converge :
  let i0 := Sample.intent in
  let i :=
    {| domain_id := domain_id i0; topology := topology i0; endpoints := endpoints i0;
       members := members i0; di_vlans := di_vlans i0; di_interfaces := di_interfaces i0;
       di_acls := di_acls i0; di_acl_bindings := di_acl_bindings i0;
       di_delete_vlan_ids := di_delete_vlan_ids i0;
       di_delete_interfaces :=
         [mkInterfaceDeleteIntent (mkDeviceId "leaf-a") "GigabitEthernet1/0/1"];
       di_delete_acl_ids := di_delete_acl_ids i0; di_delete_acl_bindings := [];
       di_bgp_processes := di_bgp_processes i0; di_bgp_neighbors := di_bgp_neighbors i0;
       di_delete_bgp_processes := []; di_delete_bgp_neighbors := [] |} in
  let d := endpoint_fold i (mkDeviceId "stack-1") in
  let s' := apply_to_shadow (compute_diff d DiffSample.current) (Some DiffSample.current) d 4 in
  validate_underlay_domain_intent i = Ok tt ∧ plan_underlay_domain i = Ok [d] ∧
  DeleteInterfaceConfig "GE1/0/1" ∈ ops (compute_diff d DiffSample.current) ∧
  ops (compute_diff d s') =
    [UpdateInterface None (mkInterfaceConfig "GE1/0/1" Up None (Access 10))].
Proof.
  split_and!; [vm_compute; reflexivity..| |vm_compute; reflexivity].
  apply (bool_decide_unpack _). vm_compute. exact I.
Qed.
