(* ===== verification/Drift.v ===== *)
(** * Drift between the expected and the observed state (src/state/drift.rs,
      src/api/drift_ops.rs) *)
From S2P Require Export Diff.

Inductive DriftPolicy := ReportOnly | BlockNewTransaction | AutoReconcile.
#[export] Instance DriftPolicy_eq_dec : EqDecision DriftPolicy.
Proof. solve_decision. Defined.
Definition default_drift_policy : DriftPolicy := ReportOnly.

Inductive DriftType :=
  | MissingVlan | ExtraVlan | VlanAttributeMismatch
  | MissingInterface | ExtraInterface | InterfaceAttributeMismatch
  | MissingAcl | ExtraAcl | AclAttributeMismatch
  | MissingAclBinding | ExtraAclBinding | AclBindingAttributeMismatch
  | AdapterWarning.
#[export] Instance DriftType_eq_dec : EqDecision DriftType.
Proof. solve_decision. Defined.

Record DriftFinding := mkDriftFinding {
  drift_type : DriftType;
  drift_path : string;
  expected : option string;
  actual : option string;
}.
Record DriftReport := mkDriftReport {
  dr_device_id : DeviceId;
  drift_detected : bool;
  findings : list DriftFinding;
  dr_warnings : list string;
}.

Definition clean (d : DeviceId) : DriftReport := mkDriftReport d false [] [].

Definition warning_finding (warning : string) : DriftFinding :=
  mkDriftFinding AdapterWarning "adapter.warning" None (Some warning).

Definition non_empty {A} (l : list A) : bool := match l with [] => false | _ => true end.

Definition from_adapter_warnings (d : DeviceId) (warnings : list string) : DriftReport :=
  let findings := warning_finding <$> warnings in
  mkDriftReport d (non_empty findings) findings warnings.

Definition debug_AdminState (a : AdminState) : string :=
  match a with Up => "Up" | Down => "Down" end.
Definition debug_PortMode (m : PortMode) : string :=
  match m with
  | Access v => "Access { vlan_id: " +:+ fmt_N v +:+ " }"
  | Trunk native allowed =>
      "Trunk { native_vlan: " +:+ debug_opt_N native +:+ ", allowed_vlans: " +:+
      debug_vec_N allowed +:+ " }"
  end.
Definition or_empty (o : option string) : string := default "" o.

Definition vlan_summary (v : VlanConfig) : string :=
  "id=" +:+ fmt_N (vlan_id v) +:+ ",name=" +:+ or_empty (vlan_name v) +:+ ",description=" +:+
  or_empty (vlan_description v).
Definition interface_summary (i : InterfaceConfig) : string :=
  "name=" +:+ if_name i +:+ ",admin=" +:+ debug_AdminState (if_admin_state i) +:+
  ",description=" +:+ or_empty (if_description i) +:+ ",mode=" +:+ debug_PortMode (if_mode i).
Definition acl_summary (a : AclConfig) : string :=
  "id=" +:+ fmt_N (acl_id a) +:+ ",name=" +:+ or_empty (acl_name a) +:+ ",description=" +:+
  or_empty (acl_description a) +:+ ",rules=" +:+ fmt_usize (length (acl_rules a)).
Definition acl_binding_summary (b : AclBinding) : string :=
  "interface=" +:+ ab_interface_name b +:+ ",direction=" +:+ debug_AclDirection (ab_direction b)
  +:+ ",acl_id=" +:+ fmt_N (ab_acl_id b).

(** [compare_vlan], [compare_interface], [compare_acl], [compare_acl_binding]. *)
Definition compare_attrs {V} `{EqDecision V} (mismatch : DriftType) (path : string)
    (summary : V → string) (expected observed : V) : list DriftFinding :=
  if decide (expected = observed) then [] else
  [mkDriftFinding mismatch path (Some (summary expected)) (Some (summary observed))].
Definition compare_vlan (vid : N) : VlanConfig → VlanConfig → list DriftFinding :=
  compare_attrs VlanAttributeMismatch ("vlans." +:+ fmt_N vid) vlan_summary.
Definition compare_interface (name : string) : InterfaceConfig → InterfaceConfig → list DriftFinding :=
  compare_attrs InterfaceAttributeMismatch ("interfaces." +:+ name) interface_summary.
Definition compare_acl (id : N) : AclConfig → AclConfig → list DriftFinding :=
  compare_attrs AclAttributeMismatch ("acls." +:+ fmt_N id) acl_summary.
Definition compare_acl_binding (key : string) : AclBinding → AclBinding → list DriftFinding :=
  compare_attrs AclBindingAttributeMismatch ("acl_bindings." +:+ key) acl_binding_summary.

(** The two loops over one family: the expected entries against the observed
    ones, then the observed entries nobody expects. *)
Definition drift_family {K V} `{Ord K, Countable K} (missing extra : DriftType) (path : K → string)
    (summary : V → string) (compare : K → V → V → list DriftFinding) (expected observed : gmap K V)
    : list DriftFinding :=
  (bt_entries expected ≫= λ '(k, e),
     match observed !! k with
     | Some o => compare k e o
     | None => [mkDriftFinding missing (path k) (Some (summary e)) None]
     end) ++
  (bt_entries observed ≫= λ '(k, o),
     if decide (is_Some (expected !! k)) then []
     else [mkDriftFinding extra (path k) None (Some (summary o))]).

Definition detect_drift (expected observed : DeviceShadowState) : DriftReport :=
  let expected := normalize_shadow_state expected in
  let observed := normalize_shadow_state observed in
  let findings :=
    drift_family MissingVlan ExtraVlan (λ k, "vlans." +:+ fmt_N k) vlan_summary compare_vlan
      (ss_vlans expected) (ss_vlans observed) ++
    drift_family MissingInterface ExtraInterface (λ k, "interfaces." +:+ k) interface_summary
      compare_interface (ss_interfaces expected) (ss_interfaces observed) ++
    drift_family MissingAcl ExtraAcl (λ k, "acls." +:+ fmt_N k) acl_summary compare_acl
      (ss_acls expected) (ss_acls observed) ++
    drift_family MissingAclBinding ExtraAclBinding (λ k, "acl_bindings." +:+ k)
      acl_binding_summary compare_acl_binding (ss_acl_bindings expected) (ss_acl_bindings observed) ++
    (warning_finding <$> ss_warnings observed) in
  mkDriftReport (ss_device_id expected) (non_empty findings) findings (ss_warnings observed).

(** ** src/api/drift_ops.rs *)
Definition drift_policy_error (policy : DriftPolicy) (device_list : string) : UnderlayResult unit :=
  match policy with
  | BlockNewTransaction => Err (AdapterOperation "DRIFT_BLOCKED"
      ("device has unresolved out-of-band drift: " +:+ device_list) false [])
  | AutoReconcile => Err (AdapterOperation "DRIFT_AUTORECONCILE_UNIMPLEMENTED"
      ("auto reconcile is not implemented for drifted device(s): " +:+ device_list) false [])
  | ReportOnly => Ok tt
  end.

(** ** Correctness *)

Lemma drift_family_nil {K V} `{Ord K, Countable K, EqDecision V} missing extra path summary
    (compare : K → V → V → list DriftFinding) (e o : gmap K V) :
  (∀ k x y, compare k x y = [] ↔ x = y) →
  drift_family missing extra path summary compare e o = [] ↔ e = o.
Proof.
  intros Hcmp. unfold drift_family. split.
  - intros [He Ho]%app_eq_nil. rewrite bind_nil in He. rewrite bind_nil in Ho. apply map_eq. intros k.
    destruct (e !! k) as [x|] eqn:Hx.
    + specialize (He (k, x)). rewrite elem_of_bt_entries in He. specialize (He Hx).
      simpl in He. destruct (o !! k) as [y|]; [|done]. apply Hcmp in He. by subst.
    + destruct (o !! k) as [y|] eqn:Hy; [|done]. specialize (Ho (k, y)).
      rewrite elem_of_bt_entries in Ho. specialize (Ho Hy). simpl in Ho.
      rewrite decide_False in Ho; [done|]. rewrite Hx. by intros [].
  - intros <-. apply app_nil. rewrite !bind_nil. split; intros [k x] Hx%elem_of_bt_entries; rewrite Hx.
    + by apply Hcmp.
    + by rewrite decide_True.
Qed.

Lemma compare_attrs_nil {V} `{EqDecision V} t p (f : V → string) x y :
  compare_attrs t p f x y = [] ↔ x = y.
Proof. unfold compare_attrs. case_decide; naive_solver. Qed.

(** Drift detection is sound and complete for what it compares: no drift is
    reported exactly when the normalized VLANs, interfaces, ACLs and ACL bindings of
    the two states are the same and the observed state carries no adapter warning;
    and drift is detected exactly when there is a finding.  (BGP processes and
    neighbours are not compared.) *)
Theorem detect_drift_clean_iff e o :
  let ne := normalize_shadow_state e in
  let no := normalize_shadow_state o in
  (drift_detected (detect_drift e o) = false ↔ findings (detect_drift e o) = []) ∧
  (findings (detect_drift e o) = [] ↔
   ss_vlans ne = ss_vlans no ∧ ss_interfaces ne = ss_interfaces no ∧ ss_acls ne = ss_acls no ∧
   ss_acl_bindings ne = ss_acl_bindings no ∧ ss_warnings o = []).
Proof.
  intros ne no. split; [unfold detect_drift; simpl; by destruct (_ ++ _)|].
  unfold detect_drift. cbv zeta. fold ne. fold no. simpl findings.
  assert (∀ l1 l2 : list DriftFinding, l1 ++ l2 = [] ↔ l1 = [] ∧ l2 = []) as Happ.
  { intros [] ?; naive_solver. }
  rewrite !Happ.
  rewrite !drift_family_nil by (intros; apply compare_attrs_nil).
  change (ss_warnings no) with (ss_warnings o).
  split; intros (? & ? & ? & ? & Hw); split_and!; try done.
  - by destruct (ss_warnings o).
  - by rewrite Hw.
Qed.
