(* ===== verification/ChangePlan.v ===== *)
(** * Change plans and dry runs (src/engine/change_plan.rs, src/engine/dry_run.rs,
      the data of src/device/model_profile.rs)

    A change plan orders the operations of a change set in stages, names what
    they depend on, and decides from the device's model profile whether they may
    be written. *)
From S2P Require Export Drift.
Local Open Scope N_scope.

(** ** src/device/model_profile.rs *)

Inductive ModelProtocol := OpenConfigGnmi | OpenConfigNetconf | VendorNativeYang | VendorCli.
Inductive WriteReadiness := ReadinessReadOnly | WriteSafe | WriteRejected.
Inductive WriteDecision :=
  | WdAllowedStandardModel | WdAllowedVendorNative | ReadOnlyOnly | RejectedUnsafeTransaction
  | RejectedMissingPath.
#[export] Instance ModelProtocol_eq_dec : EqDecision ModelProtocol.
Proof. solve_decision. Defined.
#[export] Instance WriteReadiness_eq_dec : EqDecision WriteReadiness.
Proof. solve_decision. Defined.
#[export] Instance WriteDecision_eq_dec : EqDecision WriteDecision.
Proof. solve_decision. Defined.

Record ModelPathSupport := mkModelPathSupport {
  mp_protocol : ModelProtocol;
  mp_model : string;
  mp_revision : option string;
  mp_path : string;
  readable : bool;
  writable : bool;
  verified_on_device : bool;
  deviations : list string;
  notes : list string;
}.
Record DeviceModelProfile := mkDeviceModelProfile {
  profile_id : string;
  pf_vendor : Vendor;
  pf_model : string;
  pf_os_version : string;
  paths : list ModelPathSupport;
  pbr_write_readiness : WriteReadiness;
  bgp_write_readiness : WriteReadiness;
  rejection_reasons : list string;
  yang_module_count : N;
}.
Record FeatureSupport := mkFeatureSupport {
  fs_feature : string;
  required_paths : list ModelPathSupport;
  requires_candidate : bool;
  requires_validate : bool;
  fs_supports_candidate : bool;
  fs_supports_validate : bool;
}.

Definition path_evidence (p : ModelPathSupport) : bool :=
  readable p && writable p && verified_on_device p.

Definition write_decision (f : FeatureSupport) : WriteDecision :=
  if (requires_candidate f && negb (fs_supports_candidate f))
     || (requires_validate f && negb (fs_supports_validate f))
  then RejectedUnsafeTransaction else
  match List.find path_evidence (required_paths f) with
  | None => RejectedMissingPath
  | Some best =>
      match mp_protocol best with
      | OpenConfigGnmi | OpenConfigNetconf => WdAllowedStandardModel
      | VendorNativeYang => WdAllowedVendorNative
      | VendorCli => ReadOnlyOnly
      end
  end.

(** ** The data of a change plan *)

Inductive HighRiskFeature := Pbr | Bgp | Qos | Nqa.
#[export] Instance HighRiskFeature_eq_dec : EqDecision HighRiskFeature.
Proof. solve_decision. Defined.
Inductive DryRunWriteDecision :=
  | AllowedStandardModel | AllowedVendorNative | AllowedVendorPrivate | DryRunReadOnly | Rejected.
#[export] Instance DryRunWriteDecision_eq_dec : EqDecision DryRunWriteDecision.
Proof. solve_decision. Defined.
Inductive ChangePlanStageKind :=
  | UnbindReferences | DeleteBaseObjects | CreateBaseObjects | UpdateBaseObjects | BindReferences.
#[export] Instance ChangePlanStageKind_eq_dec : EqDecision ChangePlanStageKind.
Proof. solve_decision. Defined.
Inductive BlastRadius := NoChange | LocalInterfaceOrVlan | PolicyReference | RoutingControlPlane.
#[export] Instance BlastRadius_eq_dec : EqDecision BlastRadius.
Proof. solve_decision. Defined.
Inductive RoutePolicyDirection := Import | Export_.

Record ChangePlanStage := mkChangePlanStage { st_kind : ChangePlanStageKind; st_ops : list ChangeOp }.
Record ChangeDependencyEdge := mkEdge { edge_from : string; edge_to : string }.
Record RoutePolicyDependency := mkRoutePolicyDependency {
  rp_neighbor : string;
  rp_policy : string;
  rp_direction : RoutePolicyDirection;
}.
Record ChangePlan := mkChangePlan {
  cp_device_id : string;
  high_risk_features : list HighRiskFeature;
  stages : list ChangePlanStage;
  dependency_edges : list ChangeDependencyEdge;
  route_policy_dependencies : list RoutePolicyDependency;
  cp_missing_route_policy_refs : list string;
  rollback_order : list string;
  blast_radius : BlastRadius;
  unsupported_paths : list string;
  cp_write_decision : DryRunWriteDecision;
}.

(** ** Names of nodes *)

Definition acl_direction_text (d : AclDirection) : string :=
  match d with Inbound => "inbound" | Outbound => "outbound" end.
Definition acl_node (id : N) (suffix : string) : string :=
  if decide (suffix = "") then "acl " +:+ fmt_N id else "acl " +:+ fmt_N id +:+ " " +:+ suffix.
Definition acl_binding_node (name : string) (d : AclDirection) (id : N) (suffix : string) : string :=
  let node := "acl-binding " +:+ name +:+ " " +:+ acl_direction_text d +:+ " acl " +:+ fmt_N id in
  if decide (suffix = "") then node else node +:+ " " +:+ suffix.
Definition bgp_process_node (vrf : string) : string := "bgp-process " +:+ vrf.
Definition bgp_neighbor_node (vrf address : string) : string :=
  "bgp-neighbor " +:+ vrf +:+ " " +:+ address.
Definition route_policy_node (policy : string) : string := "route-policy " +:+ policy.
Definition normalized_policy_ref (policy : option string) : option string :=
  p ← policy;
  let p := trim p in
  if str_is_empty p then None else Some p.

Definition feature_name (f : HighRiskFeature) : string :=
  match f with Pbr => "pbr" | Bgp => "bgp" | Qos => "qos" | Nqa => "nqa" end.
Definition matches_path (f : HighRiskFeature) (p : ModelPathSupport) : bool :=
  let model := to_ascii_lowercase (mp_model p) in
  let path_text := to_ascii_lowercase (mp_path p) in
  match f with
  | Pbr => str_contains model "pbr" || str_contains model "policy-forwarding"
           || str_contains path_text "pbr" || str_contains path_text "policy-forwarding"
  | Bgp => str_contains model "bgp" || str_contains path_text "bgp"
  | Qos => str_contains model "qos" || str_contains model "quality-of-service"
           || str_contains path_text "qos" || str_contains path_text "quality-of-service"
           || str_contains path_text "traffic"
  | Nqa => str_contains model "nqa" || str_contains path_text "nqa"
  end.

(** ** What a change set touches *)

Definition op_touches_acl (op : ChangeOp) : bool :=
  match op with
  | CreateAcl _ | UpdateAcl _ _ | DeleteAcl _ | CreateAclBinding _ | UpdateAclBinding _ _
  | DeleteAclBinding _ _ _ => true
  | _ => false
  end.
Definition op_touches_bgp (op : ChangeOp) : bool :=
  match op with
  | CreateBgpProcess _ | UpdateBgpProcess _ _ | DeleteBgpProcess _ | CreateBgpNeighbor _
  | UpdateBgpNeighbor _ _ | DeleteBgpNeighbor _ _ => true
  | _ => false
  end.
Definition touches_acl (c : ChangeSet) : bool := existsb op_touches_acl (ops c).
Definition touches_pbr (c : ChangeSet) : bool := false.
Definition touches_bgp (c : ChangeSet) : bool := existsb op_touches_bgp (ops c).

Definition push_unique_feature (l : list HighRiskFeature) (f : HighRiskFeature) : list HighRiskFeature :=
  if decide (f ∈ l) then l else l ++ [f].
Definition effective_high_risk_features (c : ChangeSet) (declared : list HighRiskFeature)
    : list HighRiskFeature :=
  let features := [] in
  let features := if touches_pbr c then push_unique_feature features Pbr else features in
  let features := if touches_bgp c then push_unique_feature features Bgp else features in
  foldl push_unique_feature features declared.

Definition classify_blast_radius (c : ChangeSet) (features : list HighRiskFeature) : BlastRadius :=
  if decide (Bgp ∈ features) then RoutingControlPlane
  else if decide (features ≠ []) then PolicyReference
  else if decide (ops c = []) then NoChange
  else if touches_bgp c then RoutingControlPlane
  else if touches_acl c then PolicyReference
  else LocalInterfaceOrVlan.

(** ** Dependencies *)

Definition delete_acl_binding_edges (c : ChangeSet) (id : N) : list ChangeDependencyEdge :=
  omap (λ op, match op with
    | DeleteAclBinding name d bid =>
        if bid =? id then Some (mkEdge (acl_node id "delete") (acl_binding_node name d id "unbind"))
        else None
    | _ => None
    end) (ops c).
Definition delete_bgp_neighbor_edges (c : ChangeSet) (vrf : string) : list ChangeDependencyEdge :=
  omap (λ op, match op with
    | DeleteBgpNeighbor nvrf address =>
        if decide (nvrf = vrf) then
          Some (mkEdge (bgp_process_node vrf +:+ " delete") (bgp_neighbor_node vrf address +:+ " delete"))
        else None
    | _ => None
    end) (ops c).

Definition policies_of (n : BgpNeighbor) : list (string * RoutePolicyDirection) :=
  (match normalized_policy_ref (bn_import_policy n) with Some p => [(p, Import)] | None => [] end) ++
  (match normalized_policy_ref (bn_export_policy n) with Some p => [(p, Export_)] | None => [] end).

Definition edges_of_op (c : ChangeSet) (op : ChangeOp) : list ChangeDependencyEdge :=
  match op with
  | CreateAclBinding b | UpdateAclBinding _ b =>
      [mkEdge (acl_binding_node (ab_interface_name b) (ab_direction b) (ab_acl_id b) "")
         (acl_node (ab_acl_id b) "")]
  | DeleteAcl id =>
      match delete_acl_binding_edges c id with
      | [] => [mkEdge (acl_node id "delete") ("all acl " +:+ fmt_N id +:+ " bindings unbound")]
      | edges => edges
      end
  | CreateBgpNeighbor n | UpdateBgpNeighbor _ n =>
      let node := bgp_neighbor_node (bn_vrf n) (bn_address n) in
      mkEdge node (bgp_process_node (bn_vrf n)) ::
      ((λ p, mkEdge node (route_policy_node p.1)) <$> policies_of n)
  | DeleteBgpProcess vrf =>
      match delete_bgp_neighbor_edges c vrf with
      | [] => [mkEdge (bgp_process_node vrf +:+ " delete")
                 ("all bgp process " +:+ vrf +:+ " neighbors removed")]
      | edges => edges
      end
  | _ => []
  end.
Definition dependency_edges_for_change_set (c : ChangeSet) : list ChangeDependencyEdge :=
  ops c ≫= edges_of_op c.

Definition route_policy_dependencies_for_change_set (c : ChangeSet) : list RoutePolicyDependency :=
  ops c ≫= λ op,
    match op with
    | CreateBgpNeighbor n | UpdateBgpNeighbor _ n =>
        (λ p, mkRoutePolicyDependency (bgp_neighbor_node (bn_vrf n) (bn_address n)) p.1 p.2)
          <$> policies_of n
    | _ => []
    end.

Definition missing_route_policy_refs (deps : list RoutePolicyDependency) (evidence : gset string)
    : list string :=
  bs_elems (bs_collect
    (filter (λ p, p ∉ evidence) (filter (λ p, str_is_empty p = false)
      ((λ d, trim (rp_policy d)) <$> deps)))).

(** ** Rolling back *)

Definition rollback_action_for_op (op : ChangeOp) : string :=
  match op with
  | CreateVlan v => "delete vlan " +:+ fmt_N (vlan_id v)
  | UpdateVlan before _ => "restore vlan " +:+ fmt_N (vlan_id before)
  | DeleteVlan id => "restore vlan " +:+ fmt_N id
  | UpdateInterface _ after => "restore interface " +:+ if_name after
  | DeleteInterfaceConfig name => "restore interface " +:+ name
  | CreateAcl a => "delete acl " +:+ fmt_N (acl_id a)
  | UpdateAcl before _ => "restore acl " +:+ fmt_N (acl_id before)
  | DeleteAcl id => "restore acl " +:+ fmt_N id
  | CreateAclBinding b =>
      "remove acl binding " +:+ fmt_N (ab_acl_id b) +:+ " on " +:+ ab_interface_name b +:+ " " +:+
      acl_direction_text (ab_direction b)
  | UpdateAclBinding b _ =>
      "restore acl binding " +:+ fmt_N (ab_acl_id b) +:+ " on " +:+ ab_interface_name b +:+ " " +:+
      acl_direction_text (ab_direction b)
  | DeleteAclBinding name d id =>
      "restore acl binding " +:+ fmt_N id +:+ " on " +:+ name +:+ " " +:+ acl_direction_text d
  | CreateBgpProcess p => "delete bgp process " +:+ bp_vrf p
  | UpdateBgpProcess before _ => "restore bgp process " +:+ bp_vrf before
  | DeleteBgpProcess vrf => "restore bgp process " +:+ vrf
  | CreateBgpNeighbor n => "delete bgp neighbor " +:+ bn_vrf n +:+ " " +:+ bn_address n
  | UpdateBgpNeighbor before _ =>
      "restore bgp neighbor " +:+ bn_vrf before +:+ " " +:+ bn_address before
  | DeleteBgpNeighbor vrf address => "restore bgp neighbor " +:+ vrf +:+ " " +:+ address
  end.

Definition rollback_order_for_stages (l : list ChangePlanStage) : list string :=
  reverse l ≫= λ st, rollback_action_for_op <$> reverse (st_ops st).

(** ** May it be written? *)

Definition feature_readiness (p : DeviceModelProfile) (f : HighRiskFeature) : option WriteReadiness :=
  match f with
  | Pbr => Some (pbr_write_readiness p)
  | Bgp => Some (bgp_write_readiness p)
  | Qos | Nqa => None
  end.
Definition is_bgp_path (p : ModelPathSupport) : bool :=
  str_contains (to_ascii_lowercase (mp_model p)) "bgp"
  || str_contains (to_ascii_lowercase (mp_path p)) "bgp".
Definition has_writable_bgp_path (p : DeviceModelProfile) : bool :=
  existsb (λ x, is_bgp_path x && verified_on_device x && writable x && readable x) (paths p).
Definition has_verified_writable_path_for_feature (p : DeviceModelProfile) (f : HighRiskFeature) : bool :=
  existsb (λ x, readable x && writable x && verified_on_device x && matches_path f x) (paths p).

Definition first_rejection_reason (p : DeviceModelProfile) (feature : string) : string :=
  match List.find (λ r, str_contains (to_ascii_lowercase r) feature) (rejection_reasons p) with
  | Some r => r
  | None => "write rejected for " +:+ feature
  end.
Definition feature_rejection_reason (p : DeviceModelProfile) (feature : string) : string :=
  let reason := first_rejection_reason p feature in
  if starts_with (to_ascii_lowercase (trim_start reason)) (feature +:+ ":") then reason
  else feature +:+ ": " +:+ reason.

(** What one feature adds to the unsupported paths of a profile. *)
Definition unsupported_for_feature (p : DeviceModelProfile) (f : HighRiskFeature) : list string :=
  match feature_readiness p f with
  | Some WriteSafe =>
      if decide (f = Bgp) then
        if has_writable_bgp_path p then [] else ["bgp: missing writable BGP path evidence"]
      else if has_verified_writable_path_for_feature p f then []
      else [feature_name f +:+ ": missing verified writable path-level evidence"]
  | Some ReadinessReadOnly => [feature_name f +:+ ": write readiness is read-only"]
  | Some WriteRejected => [feature_rejection_reason p (feature_name f)]
  | None => [feature_name f +:+ ": DeviceModelProfile write readiness is not implemented"]
  end.

Definition collect_unsupported_paths (c : ChangeSet) (profile : option DeviceModelProfile)
    (missing : list string) (features : list HighRiskFeature) : list string :=
  ((λ p, "bgp: missing route-policy evidence " +:+ p) <$> missing) ++
  match profile with
  | None => (λ f, feature_name f +:+ ": missing device model profile") <$> features
  | Some p => features ≫= unsupported_for_feature p
  end.

Definition routing_or_policy (b : BlastRadius) : bool :=
  match b with RoutingControlPlane | PolicyReference => true | _ => false end.

Definition classify_write_decision (profile : option DeviceModelProfile) (b : BlastRadius)
    (unsupported : list string) (c : ChangeSet) (features : list HighRiskFeature)
    : DryRunWriteDecision :=
  match profile with
  | None =>
      if non_empty features || bool_decide (b = RoutingControlPlane) then Rejected
      else AllowedVendorPrivate
  | Some p =>
      if existsb (λ f, bool_decide (feature_readiness p f = Some ReadinessReadOnly)) features
      then DryRunReadOnly
      else if routing_or_policy b && non_empty unsupported then Rejected
      else if bool_decide (pbr_write_readiness p = WriteRejected)
              && bool_decide (bgp_write_readiness p = WriteRejected)
              && bool_decide (b = RoutingControlPlane) then Rejected
      else if ((touches_pbr c && bool_decide (pbr_write_readiness p = ReadinessReadOnly))
               || (touches_bgp c && bool_decide (bgp_write_readiness p = ReadinessReadOnly)))
              && routing_or_policy b then DryRunReadOnly
      else
        let writable_paths :=
          List.filter (λ x, verified_on_device x && writable x && readable x)
            (List.filter (λ x, negb (touches_bgp c) || is_bgp_path x) (paths p)) in
        if non_empty writable_paths then
          if existsb (λ x, verified_on_device x && writable x &&
               match mp_protocol x with OpenConfigGnmi | OpenConfigNetconf => true | _ => false end)
             writable_paths
          then AllowedStandardModel else AllowedVendorNative
        else AllowedVendorPrivate
  end.

(** ** Building the plan *)

(** The stage an operation goes to, by the arms of the loop over [change_set.ops]. *)
Definition stage_of (op : ChangeOp) : ChangePlanStageKind :=
  match op with
  | DeleteAclBinding _ _ _ | DeleteBgpNeighbor _ _ => UnbindReferences
  | DeleteAcl _ | DeleteVlan _ | DeleteInterfaceConfig _ | DeleteBgpProcess _ => DeleteBaseObjects
  | CreateAcl _ | CreateVlan _ | CreateBgpProcess _ => CreateBaseObjects
  | UpdateAcl _ _ | UpdateVlan _ _ | UpdateInterface _ _ | UpdateBgpProcess _ _ => UpdateBaseObjects
  | CreateAclBinding _ | UpdateAclBinding _ _ | CreateBgpNeighbor _ | UpdateBgpNeighbor _ _ =>
      BindReferences
  end.
Definition push_stage (l : list ChangePlanStage) (kind : ChangePlanStageKind) (ops : list ChangeOp)
    : list ChangePlanStage :=
  match ops with [] => l | _ => l ++ [mkChangePlanStage kind ops] end.
Definition ops_for (c : ChangeSet) (kind : ChangePlanStageKind) : list ChangeOp :=
  filter (λ op, stage_of op = kind) (ops c).
Definition build_stages (c : ChangeSet) : list ChangePlanStage :=
  let l := push_stage [] UnbindReferences (ops_for c UnbindReferences) in
  let l := push_stage l DeleteBaseObjects (ops_for c DeleteBaseObjects) in
  let l := push_stage l CreateBaseObjects (ops_for c CreateBaseObjects) in
  let l := push_stage l UpdateBaseObjects (ops_for c UpdateBaseObjects) in
  push_stage l BindReferences (ops_for c BindReferences).

Definition build_change_plan_with_profile_route_policy_evidence_and_high_risk_features
    (c : ChangeSet) (profile : option DeviceModelProfile) (evidence : gset string)
    (declared : list HighRiskFeature) : ChangePlan :=
  let stages := build_stages c in
  let deps := route_policy_dependencies_for_change_set c in
  let missing := missing_route_policy_refs deps evidence in
  let features := effective_high_risk_features c declared in
  let edges := dependency_edges_for_change_set c in
  let rollback := rollback_order_for_stages stages in
  let blast := classify_blast_radius c features in
  let unsupported := collect_unsupported_paths c profile missing features in
  {| cp_device_id := device_id_0 (cs_device_id c);
     high_risk_features := features;
     stages := stages;
     dependency_edges := edges;
     route_policy_dependencies := deps;
     cp_missing_route_policy_refs := missing;
     rollback_order := rollback;
     blast_radius := blast;
     unsupported_paths := unsupported;
     cp_write_decision := classify_write_decision profile blast unsupported c features |}.

Definition build_change_plan_with_profile_and_route_policy_evidence (c : ChangeSet)
    (profile : option DeviceModelProfile) (evidence : gset string) : ChangePlan :=
  build_change_plan_with_profile_route_policy_evidence_and_high_risk_features c profile evidence [].
Definition build_change_plan_with_profile_and_high_risk_features (c : ChangeSet)
    (profile : option DeviceModelProfile) (declared : list HighRiskFeature) : ChangePlan :=
  build_change_plan_with_profile_route_policy_evidence_and_high_risk_features c profile ∅ declared.
Definition build_change_plan_with_profile (c : ChangeSet) (profile : option DeviceModelProfile)
    : ChangePlan :=
  build_change_plan_with_profile_and_high_risk_features c profile [].
Definition build_change_plan (c : ChangeSet) : ChangePlan := build_change_plan_with_profile c None.

(** ** src/engine/dry_run.rs *)

Record DryRunPlan := mkDryRunPlan { dp_change_sets : list ChangeSet; dp_change_plans : list ChangePlan }.

Definition is_noop (p : DryRunPlan) : bool := forallb change_set_is_empty (dp_change_sets p).

Definition build_dry_run_plan_with_profiles (desired : list DeviceDesiredState)
    (current : list DeviceShadowState) (profiles : gmap DeviceId DeviceModelProfile)
    : UnderlayResult DryRunPlan :=
  let current_by_device : gmap DeviceId DeviceShadowState :=
    bt_collect ((λ s, (ss_device_id s, s)) <$> current) in
  '(sets, plans) ← foldM (λ '(sets, plans) d,
      cur ← ok_or (current_by_device !! ds_device_id d)
        (InvalidDeviceState ("missing current state for device " +:+ device_id_0 (ds_device_id d)));
      let change_set := compute_diff d cur in
      let plan := build_change_plan_with_profile_and_route_policy_evidence change_set
        (profiles !! ds_device_id d) (ds_route_policy_refs d) in
      Ok (sets ++ [change_set], plans ++ [plan])) ([], []) desired;
  Ok (mkDryRunPlan sets plans).

Definition build_dry_run_plan (desired : list DeviceDesiredState) (current : list DeviceShadowState)
    : UnderlayResult DryRunPlan :=
  build_dry_run_plan_with_profiles desired current ∅.

(** ** Correctness *)

Definition stage_rank (k : ChangePlanStageKind) : nat :=
  match k with
  | UnbindReferences => 0 | DeleteBaseObjects => 1 | CreateBaseObjects => 2
  | UpdateBaseObjects => 3 | BindReferences => 4
  end.

Lemma push_stage_concat l k o : concat (st_ops <$> push_stage l k o) = concat (st_ops <$> l) ++ o.
Proof.
  unfold push_stage. destruct o; [by rewrite app_nil_r|].
  rewrite fmap_app, concat_app. simpl. by rewrite app_nil_r.
Qed.

Lemma build_stages_concat c :
  concat (st_ops <$> build_stages c) =
  ops_for c UnbindReferences ++ ops_for c DeleteBaseObjects ++ ops_for c CreateBaseObjects ++
  ops_for c UpdateBaseObjects ++ ops_for c BindReferences.
Proof. unfold build_stages. rewrite !push_stage_concat. simpl. by rewrite <-!app_assoc. Qed.

Lemma stages_of_ops (l : list ChangeOp) :
  (filter (λ op, stage_of op = UnbindReferences) l ++
   filter (λ op, stage_of op = DeleteBaseObjects) l ++
   filter (λ op, stage_of op = CreateBaseObjects) l ++
   filter (λ op, stage_of op = UpdateBaseObjects) l ++
   filter (λ op, stage_of op = BindReferences) l) ≡ₚ l.
Proof.
  induction l as [|op l IH]; [done|]. rewrite !filter_cons.
  transitivity (op :: (filter (λ op, stage_of op = UnbindReferences) l ++
    filter (λ op, stage_of op = DeleteBaseObjects) l ++
    filter (λ op, stage_of op = CreateBaseObjects) l ++
    filter (λ op, stage_of op = UpdateBaseObjects) l ++
    filter (λ op, stage_of op = BindReferences) l)); [|by rewrite IH].
  destruct (stage_of op) eqn:Hs; repeat (rewrite decide_True by done || rewrite decide_False by done);
    solve_Permutation.
Qed.

(** Each stage holds operations of its kind and is not empty. *)
Definition stage_ok (s : ChangePlanStage) : Prop :=
  st_ops s ≠ [] ∧ Forall (λ op, stage_of op = st_kind s) (st_ops s).

Lemma push_stage_ok l k o bound :
  Forall stage_ok l → StronglySorted (λ s t, (stage_rank (st_kind s) < stage_rank (st_kind t))%nat) l →
  Forall (λ s, (stage_rank (st_kind s) < bound)%nat) l → (bound ≤ stage_rank k)%nat →
  Forall (λ op, stage_of op = k) o →
  Forall stage_ok (push_stage l k o) ∧
  StronglySorted (λ s t, (stage_rank (st_kind s) < stage_rank (st_kind t))%nat) (push_stage l k o) ∧
  Forall (λ s, (stage_rank (st_kind s) < S (stage_rank k))%nat) (push_stage l k o).
Proof.
  intros Hok Hs Hb Hk Ho. unfold push_stage. destruct o as [|op o].
  { split_and!; [done..|]. eapply Forall_impl; [exact Hb|]. simpl. lia. }
  split_and!.
  - apply Forall_app. split; [done|]. apply Forall_singleton. by split.
  - clear Hok. induction Hs as [|s l Hl IH Hs]; simpl; [repeat constructor|].
    apply Forall_cons in Hb as [Hb1 Hb2]. constructor; [by apply IH|].
    apply Forall_app. split; [done|]. apply Forall_singleton. simpl. lia.
  - apply Forall_app. split; [|apply Forall_singleton; simpl; lia].
    eapply Forall_impl; [exact Hb|]. simpl. lia.
Qed.

Lemma ops_for_kind c k : Forall (λ op, stage_of op = k) (ops_for c k).
Proof. apply Forall_forall. intros op [Ho _]%list_elem_of_filter. done. Qed.

Lemma build_stages_ok c :
  Forall stage_ok (build_stages c) ∧
  StronglySorted (λ s t, (stage_rank (st_kind s) < stage_rank (st_kind t))%nat) (build_stages c).
Proof.
  unfold build_stages.
  destruct (push_stage_ok [] UnbindReferences (ops_for c UnbindReferences) 0) as (?&?&?);
    [constructor..|done|apply ops_for_kind|].
  destruct (push_stage_ok _ DeleteBaseObjects (ops_for c DeleteBaseObjects) 1 H H0 H1) as (?&?&?);
    [done|apply ops_for_kind|].
  destruct (push_stage_ok _ CreateBaseObjects (ops_for c CreateBaseObjects) 2 H2 H3 H4) as (?&?&?);
    [done|apply ops_for_kind|].
  destruct (push_stage_ok _ UpdateBaseObjects (ops_for c UpdateBaseObjects) 3 H5 H6 H7) as (?&?&?);
    [done|apply ops_for_kind|].
  destruct (push_stage_ok _ BindReferences (ops_for c BindReferences) 4 H8 H9 H10) as (?&?&?);
    [done|apply ops_for_kind|]. done.
Qed.

Lemma rollback_order_reverse l :
  rollback_order_for_stages l = rollback_action_for_op <$> reverse (concat (st_ops <$> l)).
Proof.
  unfold rollback_order_for_stages. induction l as [|s l IH]; [done|].
  rewrite reverse_cons, bind_app, IH. csimpl. rewrite app_nil_r, reverse_app, fmap_app. done.
Qed.

(** A change plan carries out exactly the operations of the change set, in a
    safe order: its stages are a permutation of the operations, each stage holds
    operations of one kind only and no stage is empty, references are unbound
    before objects are deleted, objects deleted before created and updated, and
    references bound last; the rollback order undoes them in reverse. *)
Theorem change_plan_stages c profile evidence declared :
  let p := build_change_plan_with_profile_route_policy_evidence_and_high_risk_features
    c profile evidence declared in
  let planned := concat (st_ops <$> stages p) in
  planned ≡ₚ ops c ∧ Forall stage_ok (stages p) ∧
  StronglySorted (λ s t, (stage_rank (st_kind s) < stage_rank (st_kind t))%nat) (stages p) ∧
  rollback_order p = rollback_action_for_op <$> reverse planned.
Proof.
  simpl. rewrite build_stages_concat at 1. split_and!.
  - apply stages_of_ops.
  - apply build_stages_ok.
  - apply build_stages_ok.
  - apply rollback_order_reverse.
Qed.

Lemma elem_of_push_unique l f g : g ∈ push_unique_feature l f ↔ g ∈ l ∨ g = f.
Proof. unfold push_unique_feature. case_decide; set_solver. Qed.

Lemma elem_of_effective_features c declared f :
  f ∈ effective_high_risk_features c declared ↔ f ∈ declared ∨ f = Bgp ∧ touches_bgp c = true.
Proof.
  assert (∀ l, f ∈ foldl push_unique_feature l declared ↔ f ∈ l ∨ f ∈ declared) as Hf.
  { induction declared as [|g d IH]; intros l; simpl; [set_solver|].
    rewrite IH, elem_of_push_unique. set_solver. }
  unfold effective_high_risk_features. simpl. rewrite Hf. destruct (touches_bgp c); set_solver.
Qed.

Lemma high_risk_blast_radius c features f :
  f ∈ features → routing_or_policy (classify_blast_radius c features) = true.
Proof.
  intros Hf. unfold classify_blast_radius. case_decide; [done|].
  rewrite decide_True; [done|]. by intros ->; apply elem_of_nil in Hf.
Qed.

Lemma existsb_elem_of {A} (f : A → bool) l : existsb f l = true ↔ ∃ x, x ∈ l ∧ f x = true.
Proof. rewrite existsb_exists. by setoid_rewrite list_elem_of_In. Qed.

Lemma unsupported_for_feature_nil p f :
  unsupported_for_feature p f = [] →
  feature_readiness p f = Some WriteSafe ∧
  ∃ x, x ∈ paths p ∧ matches_path f x = true ∧ path_evidence x = true.
Proof.
  unfold unsupported_for_feature. destruct (feature_readiness p f) as [[]|]; try done.
  case_decide as Hf; subst.
  - destruct (has_writable_bgp_path p) eqn:Hp; [|done]. intros _. split; [done|].
    apply existsb_elem_of in Hp as (x & Hx & Hb). exists x.
    rewrite !andb_true_iff in Hb. unfold path_evidence. rewrite !andb_true_iff. naive_solver.
  - destruct (has_verified_writable_path_for_feature p f) eqn:Hp; [|done]. intros _. split; [done|].
    apply existsb_elem_of in Hp as (x & Hx & Hb). exists x.
    rewrite !andb_true_iff in Hb. unfold path_evidence. rewrite !andb_true_iff. naive_solver.
Qed.

Definition write_allowed (d : DryRunWriteDecision) : bool :=
  match d with
  | AllowedStandardModel | AllowedVendorNative | AllowedVendorPrivate => true
  | DryRunReadOnly | Rejected => false
  end.

Lemma write_allowed_supported pf b u c fs :
  write_allowed (classify_write_decision (Some pf) b u c fs) = true →
  routing_or_policy b = true → u = [].
Proof.
  unfold classify_write_decision. intros Ha Hb. destruct u; [done|]. revert Ha.
  rewrite Hb. simpl. by destruct (existsb _ fs).
Qed.

(** A high-risk feature is never written without evidence: when the plan's
    decision allows the write, every high-risk feature of the plan (those declared,
    and BGP as soon as an operation touches it) is write-safe in the device's model
    profile, with a readable, writable path for it verified on the device, and no
    route policy the change refers to lacks evidence. *)
Theorem high_risk_write_needs_evidence c profile evidence declared f :
  let p := build_change_plan_with_profile_route_policy_evidence_and_high_risk_features
    c profile evidence declared in
  write_allowed (cp_write_decision p) = true →
  f ∈ declared ∨ f = Bgp ∧ touches_bgp c = true →
  ∃ pf, profile = Some pf ∧ feature_readiness pf f = Some WriteSafe ∧
    (∃ x, x ∈ paths pf ∧ matches_path f x = true ∧ path_evidence x = true) ∧
    cp_missing_route_policy_refs p = [].
Proof.
  intros p Hallow Hf%elem_of_effective_features. subst p. cbn [cp_write_decision
    build_change_plan_with_profile_route_policy_evidence_and_high_risk_features] in Hallow.
  cbn [cp_missing_route_policy_refs
    build_change_plan_with_profile_route_policy_evidence_and_high_risk_features].
  set (fs := effective_high_risk_features c declared) in *.
  destruct profile as [pf|].
  - exists pf. split; [done|].
    apply write_allowed_supported in Hallow; [|by eapply high_risk_blast_radius].
    unfold collect_unsupported_paths in Hallow. apply app_eq_nil in Hallow as [Hm Hu].
    rewrite bind_nil in Hu. destruct (unsupported_for_feature_nil pf f) as [? ?]; [auto|].
    split_and!; [done..|]. by destruct (missing_route_policy_refs _ _).
  - exfalso. revert Hallow. unfold classify_write_decision.
    destruct fs; [by apply elem_of_nil in Hf|]. done.
Qed.

Module PlanSample.

Definition bgp_path : ModelPathSupport :=
  mkModelPathSupport OpenConfigNetconf "openconfig-bgp" None "/network-instances" true true true [] [].
Definition profile : DeviceModelProfile :=
  mkDeviceModelProfile "h3c-v7" H3c "S6800" "V7" [bgp_path] WriteRejected WriteSafe [] 0.
Definition changes : ChangeSet :=
  mkChangeSet (mkDeviceId "leaf-a")
    [CreateBgpProcess (mkBgpProcess "vpn1" 65001 None);
     CreateBgpNeighbor (mkBgpNeighbor "vpn1" "10.0.0.2" 65002 None (Some " rp-in ") None)].

End PlanSample.

Lemma high_risk_write_needs_evidence_witness :
  feature_readiness PlanSample.profile Bgp = Some WriteSafe.
Proof.
  destruct (high_risk_write_needs_evidence PlanSample.changes (Some PlanSample.profile)
    {["rp-in"]} [] Bgp) as (pf & Hpf & Hr & _).
  - vm_compute. reflexivity.
  - right. split; [reflexivity|vm_compute; reflexivity].
  - injection Hpf as <-. exact Hr.
Defined.

(** The states a dry run compares with: for each desired state the last current
    state of its device. *)
Definition current_of (current : list DeviceShadowState) : gmap DeviceId DeviceShadowState :=
  bt_collect ((λ s, (ss_device_id s, s)) <$> current).

Lemma current_of_Some current d s :
  current_of current !! d = Some s → s ∈ current ∧ ss_device_id s = d.
Proof.
  intros (x & Heq & Hx)%bt_collect_Some%list_elem_of_fmap. by simplify_eq.
Qed.

Lemma current_of_None current d : current_of current !! d = None ↔ d ∉ ss_device_id <$> current.
Proof. unfold current_of. rewrite bt_collect_None, <-list_fmap_compose. done. Qed.

Definition planned_for (profiles : gmap DeviceId DeviceModelProfile) (d : DeviceDesiredState)
    (s : DeviceShadowState) : ChangePlan :=
  build_change_plan_with_profile_and_route_policy_evidence (compute_diff d s)
    (profiles !! ds_device_id d) (ds_route_policy_refs d).

Lemma dry_run_loop desired current profiles : ∀ sets plans,
  match foldM (λ '(sets, plans) d,
      cur ← ok_or (current_of current !! ds_device_id d)
        (InvalidDeviceState ("missing current state for device " +:+ device_id_0 (ds_device_id d)));
      let change_set := compute_diff d cur in
      let plan := build_change_plan_with_profile_and_route_policy_evidence change_set
        (profiles !! ds_device_id d) (ds_route_policy_refs d) in
      Ok (sets ++ [change_set], plans ++ [plan])) (sets, plans) desired with
  | Ok (sets', plans') =>
      ∃ cur, Forall2 (λ d s, s ∈ current ∧ ss_device_id s = ds_device_id d) desired cur ∧
        sets' = sets ++ zip_with compute_diff desired cur ∧
        plans' = plans ++ zip_with (planned_for profiles) desired cur
  | Err e =>
      ∃ d, d ∈ desired ∧ ds_device_id d ∉ ss_device_id <$> current ∧
        e = InvalidDeviceState ("missing current state for device " +:+ device_id_0 (ds_device_id d))
  end.
Proof.
  induction desired as [|d desired IH]; intros sets plans; simpl.
  { exists []. rewrite !app_nil_r. split_and!; [constructor|done..]. }
  destruct (current_of current !! ds_device_id d) as [s|] eqn:Hc; simpl.
  2:{ exists d. apply current_of_None in Hc. set_solver. }
  specialize (IH (sets ++ [compute_diff d s]) (plans ++ [planned_for profiles d s])).
  unfold planned_for at 1 in IH. destruct (foldM _ _ desired) as [[sets' plans']|e].
  - destruct IH as (cur & Hf & -> & ->). exists (s :: cur). simpl. rewrite <-!app_assoc.
    split_and!; [|done..]. constructor; [by apply current_of_Some|done].
  - destruct IH as (x & Hx & ? & ?). exists x. set_solver.
Qed.

(** A dry run reports exactly what an apply would change: it fails only for
    a device without a current state, naming it; otherwise it has one change set and
    one plan per desired state, in order, each the diff against a current state of
    that device, and it is a no-op exactly when every device satisfies what is
    wanted of it. *)
Theorem build_dry_run_plan_correct desired current profiles :
  match build_dry_run_plan_with_profiles desired current profiles with
  | Ok p =>
      ∃ cur, Forall2 (λ d s, s ∈ current ∧ ss_device_id s = ds_device_id d) desired cur ∧
        dp_change_sets p = zip_with compute_diff desired cur ∧
        dp_change_plans p = zip_with (planned_for profiles) desired cur ∧
        (is_noop p = true ↔ Forall2 (λ d s,
           satisfies (normalize_desired_state d) (normalize_shadow_state s)) desired cur)
  | Err e =>
      ∃ d, d ∈ desired ∧ ds_device_id d ∉ ss_device_id <$> current ∧
        e = InvalidDeviceState ("missing current state for device " +:+ device_id_0 (ds_device_id d))
  end.
Proof.
  unfold build_dry_run_plan_with_profiles. cbv zeta. fold (current_of current).
  pose proof (dry_run_loop desired current profiles [] []) as Hl.
  destruct (foldM _ _ desired) as [[sets plans]|e]; simpl in *; [|done].
  destruct Hl as (cur & Hf & -> & ->). exists cur. split_and!; [done..|].
  unfold is_noop; simpl. induction Hf as [|d s desired cur _ _ IH]; simpl; [done|].
  rewrite andb_true_iff, IH, Forall2_cons, <-diff_ops_nil.
  unfold change_set_is_empty, compute_diff at 1. simpl. destruct (diff_ops _ _); naive_solver.
Qed.
