(* ===== verification/Journal.v ===== *)
(** * Transactions and their journal (src/tx/)

    The phases of a transaction and the transitions allowed between them
    (journal.rs, phase_transition.rs), the journal record and its stores
    (journal.rs), what recovery does with a record (recovery.rs) and how a
    strategy is chosen (strategy.rs).  [now_unix_secs()] is an argument [now]. *)
From S2P Require Export ChangePlan.
Local Open Scope N_scope.

(** ** src/tx/strategy.rs *)

Inductive TransactionStrategy :=
  | ConfirmedCommit | CandidateCommit | RunningRollbackOnError | BestEffortCli | Unsupported.
#[export] Instance TransactionStrategy_eq_dec : EqDecision TransactionStrategy.
Proof. solve_decision. Defined.

Definition is_supported (s : TransactionStrategy) : bool :=
  match s with Unsupported => false | _ => true end.
Definition is_degraded (s : TransactionStrategy) : bool :=
  match s with RunningRollbackOnError | BestEffortCli => true | _ => false end.

Inductive TransactionMode :=
  | StrictConfirmedCommit | AllowCandidateCommit | AllowRunningFallback | AllowBestEffortCli.
#[export] Instance TransactionMode_eq_dec : EqDecision TransactionMode.
Proof. solve_decision. Defined.

Record CapabilityFlags := mkCapabilityFlags {
  supports_candidate : bool;
  supports_validate : bool;
  supports_confirmed_commit : bool;
  supports_persist_id : bool;
  supports_rollback_on_error : bool;
  supports_writable_running : bool;
  supports_cli_fallback : bool;
}.

Definition choose_strategy (flags : CapabilityFlags) (mode : TransactionMode) : TransactionStrategy :=
  if supports_candidate flags && supports_validate flags && supports_confirmed_commit flags
     && supports_persist_id flags
  then ConfirmedCommit
  else if supports_candidate flags && supports_validate flags &&
          match mode with
          | AllowCandidateCommit | AllowRunningFallback | AllowBestEffortCli => true
          | StrictConfirmedCommit => false
          end
  then CandidateCommit
  else if supports_writable_running flags && supports_rollback_on_error flags &&
          match mode with AllowRunningFallback | AllowBestEffortCli => true | _ => false end
  then RunningRollbackOnError
  else if supports_cli_fallback flags &&
          match mode with AllowBestEffortCli => true | _ => false end
  then BestEffortCli
  else Unsupported.

(** ** Phases (src/tx/journal.rs, src/tx/phase_transition.rs) *)

Inductive TxPhase :=
  | Started | Preparing | Prepared | Committing | Verifying | FinalConfirming | Recovering
  | Committed | RollingBack | RolledBack | Failed | InDoubt | ForceResolved.
#[export] Instance TxPhase_eq_dec : EqDecision TxPhase.
Proof. solve_decision. Defined.

Definition debug_TxPhase (p : TxPhase) : string :=
  match p with
  | Started => "Started" | Preparing => "Preparing" | Prepared => "Prepared"
  | Committing => "Committing" | Verifying => "Verifying" | FinalConfirming => "FinalConfirming"
  | Recovering => "Recovering" | Committed => "Committed" | RollingBack => "RollingBack"
  | RolledBack => "RolledBack" | Failed => "Failed" | InDoubt => "InDoubt"
  | ForceResolved => "ForceResolved"
  end.

Definition requires_recovery (p : TxPhase) : bool :=
  match p with Committed | RolledBack | Failed | ForceResolved => false | _ => true end.

Definition is_allowed (from to : TxPhase) : bool :=
  if decide (from = to) then true else
  match from, to with
  | Started, Preparing
  | Preparing, Prepared
  | Prepared, Committing
  | Committing, Verifying
  | Verifying, FinalConfirming
  | FinalConfirming, Committed
  | (Preparing | Prepared | Committing | Verifying | FinalConfirming), Failed
  | (Preparing | Prepared | Committing | Verifying | FinalConfirming), RollingBack
  | (Started | Preparing | Prepared | Committing | Verifying | FinalConfirming | RollingBack
     | Recovering), Recovering
  | Recovering, (Committed | RolledBack | InDoubt)
  | RollingBack, (RolledBack | InDoubt)
  | Committed, InDoubt
  | InDoubt, ForceResolved => true
  | _, _ => false
  end.

Definition validate_transition (from to : TxPhase) : UnderlayResult unit :=
  if is_allowed from to then Ok tt
  else Err (InvalidPhaseTransition (debug_TxPhase from) (debug_TxPhase to)).

(** ** The journal record *)

Record TxContext := mkTxContext { ctx_tx_id : string; ctx_request_id : string; ctx_trace_id : string }.

Record TxJournalErrorEvent := mkTxJournalErrorEvent {
  ev_phase : TxPhase;
  ev_code : string;
  ev_message : string;
  ev_created_at : N;
}.
Record TxManualResolution := mkTxManualResolution {
  mr_operator : string;
  mr_reason : string;
  mr_request_id : string;
  mr_trace_id : string;
  mr_resolved_at : N;
}.
Record TxJournalRecord := mkTxJournalRecord {
  tx_id : string;
  request_id : string;
  trace_id : string;
  phase : TxPhase;
  devices : list DeviceId;
  desired_states : list DeviceDesiredState;
  change_sets : list ChangeSet;
  strategy : option TransactionStrategy;
  error_code : option string;
  error_message : option string;
  error_history : list TxJournalErrorEvent;
  manual_resolution : option TxManualResolution;
  created_at : N;
  updated_at : N;
}.
#[export] Instance TxJournalErrorEvent_eq_dec : EqDecision TxJournalErrorEvent.
Proof. solve_decision. Defined.
#[export] Instance TxManualResolution_eq_dec : EqDecision TxManualResolution.
Proof. solve_decision. Defined.
#[export] Instance TxJournalRecord_eq_dec : EqDecision TxJournalRecord.
Proof. solve_decision. Defined.

Definition started (now : N) (context : TxContext) (devices : list DeviceId) : TxJournalRecord :=
  {| tx_id := ctx_tx_id context; request_id := ctx_request_id context;
     trace_id := ctx_trace_id context; phase := Started; devices := devices;
     desired_states := []; change_sets := []; strategy := None; error_code := None;
     error_message := None; error_history := []; manual_resolution := None;
     created_at := now; updated_at := now |}.

Definition with_phase (now : N) (r : TxJournalRecord) (p : TxPhase) : TxJournalRecord :=
  let 'mkTxJournalRecord tx req tr _ dev ds cs st ec em eh mr cr _ := r in
  mkTxJournalRecord tx req tr p dev ds cs st ec em eh mr cr now.

(** [transition_phase(&mut self, ..)]: the record is unchanged on an error. *)
Definition transition_phase (now : N) (r : TxJournalRecord) (p : TxPhase)
    : UnderlayResult TxJournalRecord :=
  _ ← validate_transition (phase r) p;
  Ok (with_phase now r p).

Definition with_strategy (now : N) (r : TxJournalRecord) (s : TransactionStrategy) : TxJournalRecord :=
  let 'mkTxJournalRecord tx req tr p dev ds cs _ ec em eh mr cr _ := r in
  mkTxJournalRecord tx req tr p dev ds cs (Some s) ec em eh mr cr now.

Definition with_desired_states (now : N) (r : TxJournalRecord) (l : list DeviceDesiredState)
    : TxJournalRecord :=
  let 'mkTxJournalRecord tx req tr p dev _ cs st ec em eh mr cr _ := r in
  mkTxJournalRecord tx req tr p dev l cs st ec em eh mr cr now.

Definition with_change_sets (now : N) (r : TxJournalRecord) (l : list ChangeSet) : TxJournalRecord :=
  let 'mkTxJournalRecord tx req tr p dev ds _ st ec em eh mr cr _ := r in
  mkTxJournalRecord tx req tr p dev ds l st ec em eh mr cr now.

Definition with_error (now : N) (r : TxJournalRecord) (code message : string) : TxJournalRecord :=
  let 'mkTxJournalRecord tx req tr p dev ds cs st _ _ eh mr cr _ := r in
  mkTxJournalRecord tx req tr p dev ds cs st (Some code) (Some message)
    (eh ++ [mkTxJournalErrorEvent p code message now]) mr cr now.

Definition with_manual_resolution (now : N) (r : TxJournalRecord) (operator reason req_id tr_id : string)
    : TxJournalRecord :=
  let 'mkTxJournalRecord tx req tr p dev ds cs st ec em eh _ cr _ := r in
  mkTxJournalRecord tx req tr p dev ds cs st ec em eh
    (Some (mkTxManualResolution operator reason req_id tr_id now)) cr now.

(** ** The store trait and its contract *)

Class TxJournalStore (S : Type) := {
  journal_put : TxJournalRecord → ST UnderlayError S unit;
  journal_get : string → ST UnderlayError S (option TxJournalRecord);
  journal_list_recoverable : ST UnderlayError S (list TxJournalRecord);
}.

Definition recoverable_of (m : gmap string TxJournalRecord) : list TxJournalRecord :=
  filter (λ r, requires_recovery (phase r) = true) (bt_values m).

Class TxJournalLaws (S : Type) `{TxJournalStore S}
    (ok : S → Prop) (view : S → gmap string TxJournalRecord) : Prop := {
  journal_put_law rec s r s' : ok s → journal_put rec s = (r, s') →
    ok s' ∧ (view s' = <[tx_id rec := rec]> (view s) ∨ is_ok r = false ∧ view s' = view s);
  journal_get_law t s r s' : ok s → journal_get t s = (r, s') →
    ok s' ∧ view s' = view s ∧ ∀ v, r = Ok v → v = view s !! t;
  journal_list_law s r s' : ok s → journal_list_recoverable s = (r, s') →
    ok s' ∧ view s' = view s ∧ ∀ l, r = Ok l → l = recoverable_of (view s);
}.

(** ** InMemoryTxJournalStore *)
Module InMemoryJournal.

Record Store := mkStore { records : gmap string TxJournalRecord }.

Definition put (r : TxJournalRecord) : ST UnderlayError Store unit := λ s,
  (Ok tt, mkStore (<[tx_id r := r]> (records s))).
Definition get (t : string) : ST UnderlayError Store (option TxJournalRecord) := λ s,
  (Ok (records s !! t), s).
Definition list_recoverable : ST UnderlayError Store (list TxJournalRecord) := λ s,
  (Ok (filter (λ r, requires_recovery (phase r) = true) (bt_values (records s))), s).

#[export] Instance store : TxJournalStore Store :=
  {| journal_put := put; journal_get := get; journal_list_recoverable := list_recoverable |}.

#[export] Instance laws : TxJournalLaws Store (λ _, True) records.
Proof.
  split.
  - intros rec s r s' _ [= <- <-]. auto.
  - intros t s r s' _ [= <- <-]. naive_solver.
  - intros s r s' _ [= <- <-]. naive_solver.
Qed.

End InMemoryJournal.
#[export] Existing Instance InMemoryJournal.store.

(** ** JsonFileTxJournalStore *)
Module JsonFileJournal.

Definition journal_io_error (e : string) : UnderlayError := Internal ("tx journal io error: " +:+ e).
Definition parse_error (path e : string) : UnderlayError :=
  Internal ("parse tx journal " +:+ debug_str path +:+ ": " +:+ e).
Definition serialize_error (e : string) : UnderlayError := Internal ("serialize tx journal: " +:+ e).

Definition validate_journal_tx_id (t : string) : UnderlayResult unit :=
  reject_if (str_is_empty t || negb (forallb identifier_byte (bytes t)))
    (InvalidIntent ("tx_id " +:+ debug_str t +:+ " is invalid for file journal store")).

Section store.
Context (o : FsOracle) (codec : Codec TxJournalRecord).

Definition path_for (t : string) : UnderlayResult string :=
  _ ← validate_journal_tx_id t;
  Ok (json_name t).

Definition read_journal_record (path : string) : ST UnderlayError Fs TxJournalRecord :=
  read_record o codec journal_io_error parse_error path.

Definition put (r : TxJournalRecord) : ST UnderlayError Fs unit :=
  path ← st_lift (path_for (tx_id r));
  write_record o codec journal_io_error path serialize_error r.

Definition get (t : string) : ST UnderlayError Fs (option TxJournalRecord) :=
  path ← st_lift (path_for t);
  read_if_exists o codec journal_io_error parse_error path.

Definition list_recoverable : ST UnderlayError Fs (list TxJournalRecord) :=
  scan_records o codec tx_id journal_io_error parse_error (λ r, requires_recovery (phase r)).

#[export] Instance store : TxJournalStore Fs :=
  {| journal_put := put; journal_get := get; journal_list_recoverable := list_recoverable |}.

(** ** The contract *)
Notation dir_ok := (dir_ok codec tx_id id).
Notation dir_view := (dir_view codec tx_id id).

Lemma journal_path_for_Ok t p : path_for t = Ok p ↔ p = file_of id t ∧ is_canonical_identifier t = true.
Proof.
  unfold path_for, validate_journal_tx_id, is_canonical_identifier. rewrite bind_unit_Ok, reject_if_Ok.
  rewrite orb_false_iff, negb_false_iff, andb_true_iff, negb_true_iff. unfold file_of. naive_solver.
Qed.

Lemma canonical_id_nonempty t : is_canonical_identifier t = true → id t ≠ "".
Proof. intros Hc%is_canonical_identifier_spec. apply Hc. Qed.

(** Whatever system call fails. *)
Lemma put_any rec s r s' :
  codec_round_trip codec → dir_ok s → put rec s = (r, s') →
  dir_ok s' ∧ (dir_view s' = <[tx_id rec := rec]> (dir_view s) ∨
               is_ok r = false ∧ dir_view s' = dir_view s).
Proof.
  intros Hcodec Hok. unfold put, mbind, ST_bind, st_lift.
  destruct (path_for (tx_id rec)) as [p|e] eqn:Hp; [|intros [= <- <-]; auto].
  apply journal_path_for_Ok in Hp as [-> Hc].
  apply (write_record_spec o codec tx_id id); [apply _|done|done|by apply canonical_id_nonempty].
Qed.
Lemma get_any t s r s' :
  dir_ok s → get t s = (r, s') →
  dir_ok s' ∧ dir_view s' = dir_view s ∧
  ∀ v, r = Ok v → v = dir_view s !! t ∨ v = None ∧ stat_fault o (fs_calls s) (json_name t) = true.
Proof.
  intros Hok. unfold get, mbind, ST_bind, st_lift.
  destruct (path_for t) as [p|e] eqn:Hp; [|intros [= <- <-]; naive_solver].
  apply journal_path_for_Ok in Hp as [-> Hc].
  apply (read_if_exists_any o codec tx_id id); [apply _|done|by apply canonical_id_nonempty].
Qed.
Lemma list_recoverable_any s r s' :
  dir_ok s → list_recoverable s = (r, s') →
  dir_ok s' ∧ dir_view s' = dir_view s ∧
  ∀ l, r = Ok l → l = recoverable_of (dir_view s) ∨ l = [] ∧ stat_fault o (fs_calls s) "" = true.
Proof.
  intros Hok Hl. pose proof Hl as Hl'. apply scan_records_reads in Hl' as [Hf Hroot].
  split_and!; [by eapply dir_ok_same|apply (dir_view_ext codec tx_id id); intros; by rewrite Hf|].
  intros l ->. by apply (scan_records_any o codec tx_id id) in Hl; [|apply _|].
Qed.
Lemma journal_laws `{!StatsWork o} :
  codec_round_trip codec → TxJournalLaws Fs dir_ok dir_view.
Proof.
  intros Hcodec. split.
  - intros. by apply put_any.
  - intros t s r s' Hok (? & ? & Hv)%get_any; [|done]. split_and!; [done..|].
    intros v [?|[_ Hs]]%Hv; [done|]. by rewrite stat_works in Hs.
  - intros s r s' Hok (? & ? & Hv)%list_recoverable_any; [|done]. split_and!; [done..|].
    intros v [?|[_ Hs]]%Hv; [done|]. by rewrite stat_works in Hs.
Qed.

End store.
End JsonFileJournal.

(** C12. The JSON file journal keeps the contract of [TxJournalStore]: a directory of
    records written by it stands for a map from transaction ids to records.  As long as no
    [stat] fails, whatever other system calls do: a write stores the record or leaves the
    map as it was (and stores it when it returns [Ok]), a read returns what the map holds,
    and the recovery listing is exactly the records whose phase requires recovery, by id.
    When a [stat] fails too, writes still keep that, and reads never change the map nor
    make anything up, but they may answer that there is nothing: no record, or, when it is
    the directory whose [stat] fails, no record to recover.  It relies on the serializer
    reading back what it wrote. *)
Theorem json_journal_refines_map (o : FsOracle) (codec : Codec TxJournalRecord) :
  codec_round_trip codec →
  let ok := dir_ok codec tx_id id in
  let view := dir_view codec tx_id id in
  (StatsWork o → TxJournalLaws Fs (H := JsonFileJournal.store o codec) ok view) ∧
  (∀ rec s r s', ok s → JsonFileJournal.put o codec rec s = (r, s') →
     ok s' ∧ (view s' = <[tx_id rec := rec]> (view s) ∨ is_ok r = false ∧ view s' = view s)) ∧
  (∀ t s r s', ok s → JsonFileJournal.get o codec t s = (r, s') →
     ok s' ∧ view s' = view s ∧
     ∀ v, r = Ok v → v = view s !! t ∨ v = None ∧ stat_fault o (fs_calls s) (json_name t) = true) ∧
  (∀ s r s', ok s → JsonFileJournal.list_recoverable o codec s = (r, s') →
     ok s' ∧ view s' = view s ∧
     ∀ l, r = Ok l → l = recoverable_of (view s) ∨ l = [] ∧ stat_fault o (fs_calls s) "" = true).
Proof.
  intros Hcodec ok view. split_and!.
  - intros. by apply JsonFileJournal.journal_laws.
  - intros. by eapply JsonFileJournal.put_any.
  - apply JsonFileJournal.get_any.
  - apply JsonFileJournal.list_recoverable_any.
Qed.

Module JournalSample.
Definition record : TxJournalRecord :=
  started 5 (mkTxContext "tx-0" "req-0" "trace-0") [mkDeviceId "leaf-a"].
(** A serializer that knows one record. *)
Definition codec : Codec TxJournalRecord :=
  mkCodec (λ r, if decide (r = record) then Ok "{}" else Err "unsupported")
          (λ t, if decide (t = "{}") then Ok record else Err "parse").
Lemma journal_codec_ok : codec_round_trip codec.
Proof. intros r t. simpl. repeat case_decide; naive_solver. Qed.
End JournalSample.

Lemma json_journal_refines_map_witness :
  ∃ s, JsonFileJournal.put sample_oracle JournalSample.codec JournalSample.record (mkFs false ∅ 0) =
         (Ok tt, s) ∧
    dir_view JournalSample.codec tx_id id s !! "tx-0" = Some JournalSample.record.
Proof.
  destruct (json_journal_refines_map sample_oracle JournalSample.codec JournalSample.journal_codec_ok)
    as [Hlaws _]. destruct (Hlaws _) as [Hput _ _].
  destruct (JsonFileJournal.put _ _ _ _) as [r s] eqn:Hr.
  assert (r = Ok tt) as -> by (change r with (r, s).1; rewrite <-Hr; vm_compute; reflexivity).
  exists s. split; [reflexivity|].
  apply Hput in Hr as (_ & [->|[? _]]); [|done|apply dir_ok_empty]. apply lookup_insert_eq.
Defined.

(** What a failing [stat] of the directory costs: the transaction in it is not listed, so
    neither recovery nor the check before an apply sees it. *)
Definition stat_fails : FsOracle :=
  mkFsOracle (λ _, None) (λ _, 0%nat) (λ l, l) (λ _, Permutation_refl _) (λ _, "u") (λ _ _, true).
Example unread_journal_lists_nothing :
  let s := mkFs true {[ "tx-0.json" := "{}" ]} 0 in
  (JsonFileJournal.list_recoverable sample_oracle JournalSample.codec s).1 =
    Ok [JournalSample.record] ∧
  (JsonFileJournal.list_recoverable stat_fails JournalSample.codec s).1 = Ok [].
Proof. by vm_compute. Qed.

(** ** src/tx/recovery.rs *)

Inductive RecoveryAction := Noop | DiscardPreparedChanges | AdapterRecover | ManualIntervention.
#[export] Instance RecoveryAction_eq_dec : EqDecision RecoveryAction.
Proof. solve_decision. Defined.

Record RecoveryDecision := mkRecoveryDecision {
  rd_tx_id : string;
  rd_phase : TxPhase;
  rd_action : RecoveryAction;
}.
Record RecoveryReport := mkRecoveryReport {
  rr_recovered : nat;
  rr_in_doubt : nat;
  rr_pending : nat;
  rr_tx_ids : list string;
  rr_decisions : list RecoveryDecision;
}.

Definition recovery_action_for_phase (p : TxPhase) : RecoveryAction :=
  match p with
  | Started | Preparing | Prepared => DiscardPreparedChanges
  | Committing | Verifying | FinalConfirming | RollingBack | Recovering => AdapterRecover
  | InDoubt => ManualIntervention
  | Committed | RolledBack | Failed | ForceResolved => Noop
  end.

Definition classify_recovery (r : TxJournalRecord) : RecoveryDecision :=
  mkRecoveryDecision (tx_id r) (phase r) (recovery_action_for_phase (phase r)).

Definition in_doubt_records_for_devices (records : list TxJournalRecord)
    (device_ids : list DeviceId) : list TxJournalRecord :=
  let requested : gset DeviceId := bs_collect device_ids in
  filter (λ r, existsb (λ d, bool_decide (d ∈ requested)) (devices r) = true)
    (filter (λ r, requires_recovery (phase r) = true) records).

(** ** The phase machine *)

(** One proper transition, and histories: the phases a record went through. *)
Definition phase_step (p q : TxPhase) : Prop := p ≠ q ∧ validate_transition p q = Ok tt.

Inductive history : TxPhase → list TxPhase → TxPhase → Prop :=
  | history_here p : history p [p] p
  | history_step p q r l : phase_step p q → history q l r → history p (p :: l) r.

(** How far a transaction has got. *)
Definition phase_rank (p : TxPhase) : nat :=
  match p with
  | Started => 0 | Preparing => 1 | Prepared => 2 | Committing => 3 | Verifying => 4
  | FinalConfirming => 5 | RollingBack => 6 | Recovering => 7 | Committed => 8 | RolledBack => 9
  | Failed => 9 | InDoubt => 10 | ForceResolved => 11
  end.

Lemma validate_transition_Ok p q u : validate_transition p q = Ok u ↔ is_allowed p q = true.
Proof. unfold validate_transition. destruct u, (is_allowed p q); naive_solver. Qed.

Lemma phase_step_rank p q : phase_step p q → (phase_rank p < phase_rank q)%nat.
Proof. intros [Hne Hv%validate_transition_Ok]. destruct p, q; simplify_eq/=; lia. Qed.

Lemma history_rank p l q : history p l q → (phase_rank p + length l ≤ S (phase_rank q))%nat.
Proof.
  induction 1 as [p|p q r l Hs Hh IH]; simpl; [lia|].
  apply phase_step_rank in Hs. lia.
Qed.

Lemma history_head p l q : history p l q → p ∈ l.
Proof. destruct 1; set_solver. Qed.

(** A transaction that got past [Started] and is not being recovered went through
    the phases before it. *)
Lemma history_predecessor p l q :
  history p l q → p ≠ q → ∃ r, phase_step r q ∧ r ∈ l.
Proof.
  induction 1 as [p|p q r l Hs Hh IH]; [done|]. intros Hne.
  destruct (decide (q = r)) as [->|Hqr].
  - exists p. split; [done|]. by left.
  - destruct (IH Hqr) as (x & ? & ?). exists x. split; [done|]. by right.
Qed.

(** C15. Every phase change the journal accepts moves the transaction forward: the
    phases form no cycle, no transaction changes phase more than eleven times,
    and the phases that need no recovery are final, except that a committed
    transaction may still turn out in doubt. *)
Theorem phase_machine_progress p l q :
  history p l q →
  (phase_rank p + length l ≤ 12)%nat ∧ NoDup l ∧
  (requires_recovery p = false → p = q ∨ p = Committed ∧ (q = InDoubt ∨ q = ForceResolved)).
Proof.
  intros Hh. split_and!.
  - apply history_rank in Hh. destruct q; simpl in *; lia.
  - assert (Forall (λ x, (phase_rank p ≤ phase_rank x)%nat) l ∧ NoDup l) as [_ ?]; [|done].
    induction Hh as [p|p q r l Hs Hh [IH1 IH2]].
    + split; [by repeat constructor|]. apply NoDup_singleton.
    + apply phase_step_rank in Hs. split.
      * constructor; [done|]. eapply Forall_impl; [exact IH1|]. simpl. intros; lia.
      * apply NoDup_cons. split; [|done]. rewrite Forall_forall in IH1.
        intros Hin%IH1. lia.
  - intros Hp. destruct Hh as [p|p q r l [Hne Hs%validate_transition_Ok] Hh]; [by left|].
    destruct p, q; simplify_eq/=. right. split; [done|].
    destruct Hh as [p|p q r l [Hne' Hs'%validate_transition_Ok] Hh]; [by left|].
    destruct p, q; simplify_eq/=; try (by left). right.
    destruct Hh as [p|p q r l [Hne'' Hs''%validate_transition_Ok] Hh]; [done|].
    destruct p, q; simplify_eq/=.
Qed.

Lemma phase_machine_progress_witness :
  (phase_rank Started + length [Started; Preparing; RollingBack; RolledBack] ≤ 12)%nat.
Proof.
  apply (phase_machine_progress Started [Started; Preparing; RollingBack; RolledBack] RolledBack).
  apply (history_step _ Preparing); [by split|]. apply (history_step _ RollingBack); [by split|].
  apply (history_step _ RolledBack); [by split|]. constructor.
Defined.

Lemma history_prefix p l q r :
  history p l q → r ∈ l → ∃ l', history p l' r ∧ l' ⊆ l.
Proof.
  induction 1 as [p|p q q' l Hs Hh IH].
  - intros ->%list_elem_of_singleton. exists [p]. split; [constructor|done].
  - intros [->|Hr]%elem_of_cons; [exists [p]; split; [constructor|set_solver]|].
    destruct (IH Hr) as (l' & Hl' & Hsub). exists (p :: l'). split; [by econstructor|set_solver].
Qed.

(** The phase before a phase of a history that began elsewhere is in it too. *)
Lemma history_before p l q r :
  history p l q → r ∈ l → p ≠ r → ∃ x, x ∈ l ∧ phase_step x r.
Proof.
  intros Hh Hr Hne. destruct (history_prefix _ _ _ _ Hh Hr) as (l' & Hl' & Hsub).
  destruct (history_predecessor _ _ _ Hl' Hne) as (x & ? & ?). eauto.
Qed.

Lemma forward_predecessor x r :
  phase_step x r →
  match r with
  | Committed => x = FinalConfirming ∨ x = Recovering
  | FinalConfirming => x = Verifying
  | Verifying => x = Committing
  | Committing => x = Prepared
  | Prepared => x = Preparing
  | Preparing => x = Started
  | _ => True
  end.
Proof. intros [Hne Hs%validate_transition_Ok]. destruct x, r; simplify_eq/=; auto. Qed.

(** A transaction is journalled as committed only after it was prepared,
    committed on the devices, verified and confirmed, or after recovery: no
    history from [Started] skips one of these phases. *)
Theorem committed_was_confirmed l :
  history Started l Committed →
  Recovering ∈ l ∨
  (Preparing ∈ l ∧ Prepared ∈ l ∧ Committing ∈ l ∧ Verifying ∈ l ∧ FinalConfirming ∈ l).
Proof.
  intros Hh. assert (Committed ∈ l) as Hc.
  { clear -Hh. remember Committed as q. induction Hh; set_solver. }
  destruct (history_before _ _ _ _ Hh Hc) as (x & Hx & [->| ->]%forward_predecessor);
    [done| |by left]. right.
  destruct (history_before _ _ _ _ Hh Hx) as (y & Hy & ->%forward_predecessor); [done|].
  destruct (history_before _ _ _ _ Hh Hy) as (z & Hz & ->%forward_predecessor); [done|].
  destruct (history_before _ _ _ _ Hh Hz) as (u & Hu & ->%forward_predecessor); [done|].
  destruct (history_before _ _ _ _ Hh Hu) as (v & Hv & ->%forward_predecessor); [done|].
  done.
Qed.

Lemma committed_was_confirmed_witness :
  Recovering ∈ [Started; Recovering; Committed] ∨ Preparing ∈ [Started; Recovering; Committed].
Proof.
  destruct (committed_was_confirmed [Started; Recovering; Committed]) as [H|[H _]]; auto.
  apply (history_step _ Recovering); [by split|]. apply (history_step _ Committed); [by split|].
  constructor.
Defined.

(** What recovery decides for a phase can be carried out: nothing is done
    exactly for the phases that need no recovery; an automatic action is chosen
    only where the record may enter [Recovering], from which each of its outcomes is
    allowed; and a record left to manual intervention can only be force-resolved. *)
Theorem recovery_action_enabled p :
  match recovery_action_for_phase p with
  | Noop => requires_recovery p = false
  | DiscardPreparedChanges | AdapterRecover =>
      requires_recovery p = true ∧ validate_transition p Recovering = Ok tt ∧
      Forall (λ q, validate_transition Recovering q = Ok tt) [Committed; RolledBack; InDoubt]
  | ManualIntervention => requires_recovery p = true ∧ ∀ q, phase_step p q ↔ q = ForceResolved
  end.
Proof.
  destruct p; simpl; split_and?; try done; try by repeat constructor.
  intros q. unfold phase_step. rewrite validate_transition_Ok. destruct q; naive_solver.
Qed.

(** A strategy the device's capabilities and the caller's mode permit, and the
    order of preference. *)
Definition feasible (f : CapabilityFlags) (m : TransactionMode) (s : TransactionStrategy) : Prop :=
  match s with
  | ConfirmedCommit => supports_candidate f = true ∧ supports_validate f = true ∧
      supports_confirmed_commit f = true ∧ supports_persist_id f = true
  | CandidateCommit =>
      supports_candidate f = true ∧ supports_validate f = true ∧ m ≠ StrictConfirmedCommit
  | RunningRollbackOnError =>
      supports_writable_running f = true ∧ supports_rollback_on_error f = true ∧
      (m = AllowRunningFallback ∨ m = AllowBestEffortCli)
  | BestEffortCli => supports_cli_fallback f = true ∧ m = AllowBestEffortCli
  | Unsupported => True
  end.
Definition preference (s : TransactionStrategy) : nat :=
  match s with
  | ConfirmedCommit => 0 | CandidateCommit => 1 | RunningRollbackOnError => 2 | BestEffortCli => 3
  | Unsupported => 4
  end.

(** The chosen strategy is the best one that the device supports and the mode
    permits: it is feasible and no feasible strategy is preferred to it, so a
    degraded strategy is used only when the mode allows it and no candidate-based
    one is possible, and [Unsupported] only when nothing else is. *)
Theorem choose_strategy_best f m :
  feasible f m (choose_strategy f m) ∧
  ∀ s, feasible f m s → (preference (choose_strategy f m) ≤ preference s)%nat.
Proof.
  destruct f as [[] [] [] [] [] [] []], m; simpl; (split; [naive_solver|]);
    intros []; simpl; naive_solver lia.
Qed.
