(* ===== verification/LockProtocol.v ===== *)
(** * Tasks that share the lock tables

    The mutexes of src/tx/endpoint_lock.rs and src/tx/domain_lock.rs are shared by
    every request the service runs.  A task is the program of lock operations its
    request performs; tasks interleave at every operation.  Mutual exclusion is an
    invariant of the steps, and programs that take their mutexes in increasing order
    can always be run to their end, without any of them giving up on a deadline. *)
From S2P Require Export Locks.

(** ** Programs *)

Section protocol.
Context {K : Type} `{Ord K, Countable K}.
Implicit Types (k : K) (h g ks : list K).

Inductive Code :=
  | Return
  (* [self.lock_for(k).lock_owned().await] *)
  | LockOwned (k : K) (next : Code)
  (* [acquire_many_with_policy]: attempts until one succeeds or the deadline passes *)
  | WithPolicy (ordered : list K) (acquired timed_out : Code)
  (* a guard dropped *)
  | Unlock (k : K) (next : Code).

(** [attempt] is [try_acquire_ordered] under way: the guards it has and the keys to try. *)
Record Task := mkTask { held : list K; attempt : option (list K * list K); code : Code }.

Definition owned (t : Task) : list K :=
  held t ++ match attempt t with Some (guards, _) => guards | None => [] end.

(** One operation of a task, with the locked keys before and after.  A step that is not
    [quiet] gives up on the deadline. *)
Inductive task_step : bool → gset K → Task → gset K → Task → Prop :=
  | step_lock locked h k c :
      k ∉ locked →
      task_step true locked (mkTask h None (LockOwned k c)) ({[k]} ∪ locked) (mkTask (h ++ [k]) None c)
  | step_attempt locked h ks c c' :
      task_step true locked (mkTask h None (WithPolicy ks c c'))
                     locked (mkTask h (Some ([], ks)) (WithPolicy ks c c'))
  | step_try_ok locked h g k ks c :
      k ∉ locked →
      task_step true locked (mkTask h (Some (g, k :: ks)) c)
                     ({[k]} ∪ locked) (mkTask h (Some (g ++ [k], ks)) c)
  | step_try_refused locked h g k ks c :
      k ∈ locked →
      task_step true locked (mkTask h (Some (g, k :: ks)) c)
                     (locked ∖ list_to_set g) (mkTask h None c)
  | step_acquired locked h g ks c c' :
      task_step true locked (mkTask h (Some (g, [])) (WithPolicy ks c c'))
                     locked (mkTask (h ++ g) None c)
  | step_timed_out locked h ks c c' :
      task_step false locked (mkTask h None (WithPolicy ks c c')) locked (mkTask h None c')
  | step_unlock locked h k c :
      task_step true locked (mkTask h None (Unlock k c))
                     (locked ∖ {[k]}) (mkTask (filter (λ x, x ≠ k) h) None c).

Record System := mkSystem { locked : gset K; tasks : list Task }.

Inductive step (quiet : bool) : System → System → Prop :=
  | step_task i t t' l l' ts :
      ts !! i = Some t → task_step quiet l t l' t' →
      step quiet (mkSystem l ts) (mkSystem l' (<[i := t']> ts)).

Definition any_step (σ σ' : System) : Prop := ∃ quiet, step quiet σ σ'.

Definition initial (programs : list Code) : System :=
  mkSystem ∅ (mkTask [] None <$> programs).

Definition reachable (programs : list Code) : System → Prop := rtc any_step (initial programs).

Definition finished (σ : System) : Prop := Forall (λ t, code t = Return) (tasks σ).

(** ** The global order *)

Definition before k k' : Prop := ord_le k k' ∧ k ≠ k'.

(** A program run while [h] is held: what it takes comes after everything held, what it
    drops is held, and it ends with nothing held. *)
Fixpoint ordered h (c : Code) : Prop :=
  match c with
  | Return => h = []
  | LockOwned k c => (∀ k', k' ∈ h → before k' k) ∧ ordered (h ++ [k]) c
  | WithPolicy ks c c' =>
      (∀ k' k, k' ∈ h → k ∈ ks → before k' k) ∧ NoDup ks ∧ ordered (h ++ ks) c ∧ ordered h c'
  | Unlock k c => k ∈ h ∧ ordered (filter (λ x, x ≠ k) h) c
  end.

Definition task_ok (t : Task) : Prop :=
  NoDup (owned t) ∧ ordered (held t) (code t) ∧
  match attempt t with
  | Some (g, ks) => ∃ c c', code t = WithPolicy (g ++ ks) c c'
  | None => True
  end.

Record consistent (σ : System) : Prop := {
  tasks_ok : ∀ i t, tasks σ !! i = Some t → task_ok t;
  locked_owned : ∀ k, k ∈ locked σ ↔ ∃ i t, tasks σ !! i = Some t ∧ k ∈ owned t;
  exclusive : ∀ i j t u k, tasks σ !! i = Some t → tasks σ !! j = Some u →
    k ∈ owned t → k ∈ owned u → i = j;
}.

Lemma before_trans k1 k2 k3 : before k1 k2 → before k2 k3 → before k1 k3.
Proof.
  intros [H1 N1] [H2 N2]. split; [by etrans|]. intros ->. apply N2.
  by apply (anti_symm ord_le).
Qed.
Lemma before_irrefl k : ¬ before k k.
Proof. by intros [_ []]. Qed.

Lemma initial_consistent programs :
  Forall (ordered []) programs → consistent (initial programs).
Proof.
  intros HP. split; simpl.
  - intros i t (c & -> & Hc)%list_lookup_fmap_Some. rewrite Forall_lookup in HP.
    split_and!; [constructor|by eapply HP|done].
  - intros k. split; [set_solver|]. intros (i & t & (c & -> & _)%list_lookup_fmap_Some & Hk).
    by apply elem_of_nil in Hk.
  - intros i j t u k (c & -> & _)%list_lookup_fmap_Some _ Hk. by apply elem_of_nil in Hk.
Qed.

Local Ltac step_parts := refine (conj (conj _ (conj _ _)) (conj _ _)).

(** What a step does to the keys of its task: the table changes by exactly what the task
    gains or loses, and what it gains was free. *)
Lemma task_step_owned quiet l t l' t' :
  task_step quiet l t l' t' → task_ok t → (∀ k, k ∈ owned t → k ∈ l) →
  task_ok t' ∧
  (∀ k, k ∈ owned t' → k ∈ owned t ∨ k ∉ l) ∧
  (∀ k, k ∈ l' ↔ k ∈ owned t' ∨ (k ∈ l ∧ k ∉ owned t)).
Proof.
  destruct 1 as [l h k c Hk|l h ks c c'|l h g k ks c Hk|l h g k ks c Hk|l h g ks c c'
                |l h ks c c'|l h k c];
    unfold task_ok, owned; simpl; rewrite ?app_nil_r; intros (Hn & Ho & Ha) Hl.
  - destruct Ho as [_ Ho]. step_parts; [|done|done|set_solver|].
    + apply NoDup_app. split_and!; [done|set_solver|apply NoDup_singleton].
    + intros x. destruct (decide (x ∈ h)); set_solver.
  - step_parts; [done|done|by eexists _, _|set_solver|].
    intros x. destruct (decide (x ∈ h)); set_solver.
  - step_parts; [|done|by rewrite <-app_assoc|set_solver|].
    + rewrite app_assoc. apply NoDup_app. split_and!; [done| |apply NoDup_singleton].
      intros x Hx ->%list_elem_of_singleton. auto.
    + intros x. rewrite app_assoc. destruct (decide (x ∈ h ++ g)); set_solver.
  - apply NoDup_app in Hn as (Hn & Hd & _). step_parts; [done|done|done|set_solver|].
    intros x. destruct (decide (x ∈ h ++ g)); set_solver.
  - destruct Ha as (d & d' & [= -> -> ->]). destruct Ho as (_ & _ & Ho & _).
    step_parts; [done|done|done|set_solver|].
    intros x. destruct (decide (x ∈ h ++ g)); set_solver.
  - destruct Ho as (_ & _ & _ & Ho). step_parts; [done|done|done|set_solver|].
    intros x. destruct (decide (x ∈ h)); set_solver.
  - destruct Ho as [Hk Ho]. step_parts; [by apply NoDup_filter|done|done| |].
    + intros x. rewrite list_elem_of_filter. tauto.
    + intros x. rewrite list_elem_of_filter, elem_of_difference, elem_of_singleton.
      destruct (decide (x = k)) as [->|]; [tauto|]. destruct (decide (x ∈ h)); naive_solver.
Qed.

Lemma step_consistent quiet σ σ' : step quiet σ σ' → consistent σ → consistent σ'.
Proof.
  destruct 1 as [i t t' l l' ts Hi Hs]. intros [Hok Hlo Hex]; simpl in *.
  destruct (task_step_owned _ _ _ _ _ Hs) as (Hok' & Hgain & Hl'); [by eauto|naive_solver|].
  assert (i < length ts)%nat as Hlt by by eapply lookup_lt_Some.
  split; simpl.
  - intros j u [(-> & <- & _)|[Hne Hj]]%list_lookup_insert_Some; eauto.
  - intros k. rewrite Hl'. split.
    + intros [Hk|[Hk Hnk]]; [exists i, t'; by rewrite list_lookup_insert_eq|].
      apply Hlo in Hk as (j & u & Hj & Hk). exists j, u. split; [|done].
      rewrite list_lookup_insert_ne; [done|]. naive_solver.
    + intros (j & u & [(-> & <- & _)|[Hne Hj]]%list_lookup_insert_Some & Hk); [by left|].
      right. split; [apply Hlo; eauto|]. intros Hk'. apply Hne. eauto.
  - assert (∀ j u k, i ≠ j → ts !! j = Some u → k ∈ owned t' → k ∈ owned u → False) as Hfresh.
    { intros j u k Hne Hj [Hk|Hk]%Hgain Hu; [by eapply Hne, Hex|]. apply Hk, Hlo. eauto. }
    intros j1 j2 u1 u2 k Hj1 Hj2 Hk1 Hk2.
    apply list_lookup_insert_Some in Hj1 as [(-> & <- & _)|[Hne1 Hj1]];
    apply list_lookup_insert_Some in Hj2 as [(-> & <- & _)|[Hne2 Hj2]]; try done.
    + by destruct (Hfresh j2 u2 k).
    + by destruct (Hfresh j1 u1 k).
    + by eapply Hex.
Qed.

Lemma reachable_consistent programs σ :
  Forall (ordered []) programs → reachable programs σ → consistent σ.
Proof.
  intros HP Hr. eapply (rtc_ind_l (λ σ0, consistent σ0 → consistent σ) σ);
    [done| |exact Hr|by apply initial_consistent].
  intros σ1 σ2 [quiet Hs] _ IH Hc. by eapply IH, step_consistent.
Qed.

(** ** Running to the end *)

Fixpoint code_size (c : Code) : nat :=
  match c with
  | Return => 0
  | LockOwned _ c | Unlock _ c => S (code_size c)
  | WithPolicy _ c c' => S (code_size c + code_size c')
  end.
Definition untried (t : Task) : nat :=
  match attempt t with Some (_, ks) => S (length ks) | None => 0 end.

Definition work (σ : System) : nat := sum_list_with (λ t, code_size (code t)) (tasks σ).
Definition pending (σ : System) : nat := sum_list_with untried (tasks σ).
Definition idle (σ : System) : Prop := Forall (λ t, attempt t = None) (tasks σ).

Lemma sum_list_with_insert {A} (f : A → nat) (l : list A) i x y :
  l !! i = Some x → (sum_list_with f (<[i := y]> l) + f x = sum_list_with f l + f y)%nat.
Proof.
  revert i. induction l as [|z l IH]; intros [|i]; simpl; [done..| |].
  - intros [= ->]. lia.
  - intros Hi. specialize (IH i Hi). lia.
Qed.

Local Notation quiet := (step true).

Lemma quiet_consistent σ σ' : rtc quiet σ σ' → consistent σ → consistent σ'.
Proof. induction 1; [done|]. eauto using step_consistent. Qed.

(** Attempts under way come to an end, one way or the other. *)
Lemma settle σ :
  consistent σ →
  ∃ σ', rtc quiet σ σ' ∧ ((work σ' < work σ)%nat ∨ (work σ' = work σ ∧ idle σ')).
Proof.
  induction σ as [σ IH] using (induction_ltof1 _ pending). unfold ltof in IH. intros Hc.
  destruct (decide (idle σ)) as [Hi|Hi]; [exists σ; auto using rtc_refl|].
  apply not_Forall_Exists in Hi; [|apply _]. apply Exists_exists in Hi as (t & Hin & Ht).
  apply list_elem_of_lookup_1 in Hin as [i Hi].
  destruct σ as [l ts]; simpl in *. destruct t as [h [[g ks]|] c]; simpl in Ht; [|done].
  assert (∀ l' t', task_step true l (mkTask h (Some (g, ks)) c) l' t' → code t' = c →
    (untried t' < S (length ks))%nat →
    ∃ σ', rtc quiet (mkSystem l ts) σ' ∧
      ((work σ' < work (mkSystem l ts))%nat ∨ (work σ' = work (mkSystem l ts) ∧ idle σ')))
    as Hgo.
  { intros l' t' Hs Hcode Hu.
    assert (quiet (mkSystem l ts) (mkSystem l' (<[i := t']> ts))) as Hstep by by econstructor.
    pose proof (sum_list_with_insert untried _ _ _ t' Hi) as Hp.
    pose proof (sum_list_with_insert (λ t, code_size (code t)) _ _ _ t' Hi) as Hw.
    simpl in Hp, Hw. rewrite Hcode in Hw. unfold untried at 2 in Hp; simpl in Hp.
    destruct (IH (mkSystem l' (<[i := t']> ts))) as (σ' & Hr & Hw').
    { unfold pending; simpl. lia. }
    { by eapply step_consistent. }
    exists σ'. split; [by eapply rtc_l|]. unfold work in *; simpl in *. lia || naive_solver lia. }
  destruct ks as [|k ks].
  - destruct (tasks_ok _ Hc i _ Hi) as (_ & _ & d & d' & Hd); simpl in Hd. subst c.
    eexists. split; [apply rtc_once; by eapply step_task, step_acquired|].
    left. unfold work; simpl.
    pose proof (sum_list_with_insert (λ t, code_size (code t)) _ _ _ (mkTask (h ++ g) None d) Hi) as Hw.
    simpl in Hw. lia.
  - destruct (decide (k ∈ l)) as [Hk|Hk].
    + eapply Hgo; [by apply step_try_refused|done|simpl; unfold untried; simpl; lia].
    + eapply Hgo; [by apply step_try_ok|done|simpl; unfold untried; simpl; lia].
Qed.

(** A task run alone performs [try_acquire_ordered]. *)
Lemma attempt_alone l ts i h g ks c l' g' :
  ts !! i = Some (mkTask h (Some (g, ks)) c) →
  try_acquire_ordered l ks g = Some (l', g') →
  rtc quiet (mkSystem l ts) (mkSystem l' (<[i := mkTask h (Some (g', [])) c]> ts)).
Proof.
  revert l ts g. induction ks as [|k ks IH]; intros l ts g Hi; simpl.
  { intros [= -> ->]. rewrite list_insert_id by done. apply rtc_refl. }
  case_decide as Hk; [done|]. intros Htry.
  eapply rtc_l; [by eapply step_task, step_try_ok|].
  assert (i < length ts)%nat by by eapply lookup_lt_Some.
  eapply IH in Htry; [|by apply list_lookup_insert_eq]. by rewrite list_insert_insert_eq in Htry.
Qed.

Definition wants (c : Code) : list K :=
  match c with LockOwned k _ => [k] | WithPolicy ks _ _ => ks | _ => [] end.

Lemma run_unblocked l ts i t :
  consistent (mkSystem l ts) → ts !! i = Some t → attempt t = None → code t ≠ Return →
  (∀ k, k ∈ wants (code t) → k ∉ l) →
  ∃ σ', rtc quiet (mkSystem l ts) σ' ∧ (work σ' < work (mkSystem l ts))%nat.
Proof.
  intros Hc Hi. destruct t as [h a c]; simpl. intros -> Hnr Hfree.
  destruct (tasks_ok _ Hc i _ Hi) as (_ & Ho & _); simpl in Ho.
  assert (i < length ts)%nat by by eapply lookup_lt_Some.
  assert (∀ l' t' σ, rtc quiet (mkSystem l ts) (mkSystem l' (<[i := t']> ts)) →
    σ = mkSystem l' (<[i := t']> ts) → (code_size (code t') < code_size c)%nat →
    ∃ σ', rtc quiet (mkSystem l ts) σ' ∧ (work σ' < work (mkSystem l ts))%nat) as Hgo.
  { intros l' t' σ Hr -> Hs. eexists. split; [exact Hr|]. unfold work; simpl.
    pose proof (sum_list_with_insert (λ t, code_size (code t)) _ _ _ t' Hi) as Hw. simpl in Hw. lia. }
  destruct c as [|k c|ks c c'|k c]; simpl in *; [done|..].
  - eapply Hgo; [eapply rtc_once, step_task, step_lock; [done|set_solver]|done|simpl; lia].
  - destruct (try_acquire_ordered l ks []) as [[l' g]|] eqn:Htry.
    + eapply Hgo; [|done|]; [|shelve].
      eapply rtc_l; [by eapply step_task, step_attempt|].
      eapply rtc_r; [eapply attempt_alone; [by apply list_lookup_insert_eq|done]|].
      rewrite list_insert_insert_eq.
      rewrite <-(list_insert_insert_eq ts i (mkTask (h ++ g) None c)
                   (mkTask h (Some (g, [])) (WithPolicy ks c c'))).
      eapply step_task; [by apply list_lookup_insert_eq|apply step_acquired].
      Unshelve. simpl. lia.
    + apply try_acquire_ordered_None in Htry as (k & ? & ?); [naive_solver|naive_solver].
  - eapply Hgo; [eapply rtc_once, step_task, step_unlock; done|done|simpl; lia].
Qed.

(** The locked keys after [k]: the waits-for chain climbs through them. *)
Definition above (l : gset K) k : gset K := filter (λ x, before k x) l.

Lemma wants_after h c k k' : ordered h c → k ∈ h → k' ∈ wants c → before k k'.
Proof.
  destruct c as [|x c|ks c c'|x c]; simpl; intros Ho Hk Hk'; [by apply elem_of_nil in Hk'| | |].
  - apply list_elem_of_singleton in Hk' as ->. by apply Ho.
  - by apply Ho.
  - by apply elem_of_nil in Hk'.
Qed.

Lemma chase l ts k :
  consistent (mkSystem l ts) → idle (mkSystem l ts) → k ∈ l →
  ∃ σ', rtc quiet (mkSystem l ts) σ' ∧ (work σ' < work (mkSystem l ts))%nat.
Proof.
  intros Hc Hidle. induction k as [k IH] using (induction_ltof1 _ (λ k, size (above l k))).
  unfold ltof in IH. intros Hk.
  destruct (proj1 (locked_owned _ Hc k) Hk) as (i & t & Hi & Hown); simpl in Hi.
  assert (attempt t = None) as Ha.
  { unfold idle in Hidle. rewrite Forall_lookup in Hidle. by eapply Hidle. }
  destruct (tasks_ok _ Hc i t Hi) as (_ & Ho & _).
  unfold owned in Hown. rewrite Ha, app_nil_r in Hown.
  assert (code t ≠ Return) as Hnr.
  { intros Hr. rewrite Hr in Ho; simpl in Ho. rewrite Ho in Hown. by apply elem_of_nil in Hown. }
  destruct (decide (Exists (λ x, x ∈ l) (wants (code t)))) as [He|He].
  - apply Exists_exists in He as (k' & Hw & Hk'). apply (IH k'); [|done].
    pose proof (wants_after _ _ _ _ Ho Hown Hw) as Hb.
    apply subset_size. split.
    + intros x [? ?]%elem_of_filter. apply elem_of_filter. eauto using before_trans.
    + intros Hs. apply (before_irrefl k').
      assert (k' ∈ above l k') as Hin by (apply Hs, elem_of_filter; done).
      by apply elem_of_filter in Hin as [? _].
  - eapply run_unblocked; [done..|]. intros x Hx Hl. apply He, Exists_exists. eauto.
Qed.

Lemma work_zero σ : work σ = 0%nat ↔ finished σ.
Proof.
  destruct σ as [l ts]. unfold work, finished; simpl.
  induction ts as [|t ts IH]; simpl; [done|]. rewrite Forall_cons, <-IH.
  destruct (code t); simpl; split; intros; try lia; naive_solver.
Qed.

Lemma unfinished σ : finished σ ∨ ∃ i t, tasks σ !! i = Some t ∧ code t ≠ Return.
Proof.
  destruct σ as [l ts]. unfold finished; simpl.
  induction ts as [|t ts [IH|(i & u & Hi & Hu)]]; [by left| |right; by exists (S i), u].
  destruct (code t) eqn:Hc; [left; by constructor|..];
    right; exists 0%nat, t; split; [done|by rewrite Hc|done|by rewrite Hc|done|by rewrite Hc].
Qed.

Lemma progress σ :
  consistent σ → finished σ ∨ ∃ σ', rtc quiet σ σ' ∧ (work σ' < work σ)%nat.
Proof.
  intros Hc. destruct (settle σ Hc) as (σ1 & Hr & [Hlt|[Hw Hidle]]); [right; eauto|].
  pose proof (quiet_consistent _ _ Hr Hc) as Hc1. rewrite <-Hw.
  destruct (unfinished σ1) as [Hf|(i & t & Hi & Hnr)].
  { left. apply work_zero. rewrite <-Hw. by apply work_zero. }
  right. destruct σ1 as [l ts]; simpl in *.
  assert (∃ σ', rtc quiet (mkSystem l ts) σ' ∧ (work σ' < work (mkSystem l ts))%nat)
    as (σ2 & Hr2 & Hlt); [|exists σ2; split; [by etrans|done]].
  destruct (decide (Exists (λ x, x ∈ l) (wants (code t)))) as [He|He].
  - apply Exists_exists in He as (k & _ & Hk). by eapply chase.
  - unfold idle in Hidle. rewrite Forall_lookup in Hidle.
    eapply run_unblocked; [done..|by eapply Hidle|done|].
    intros x Hx Hl. apply He, Exists_exists. eauto.
Qed.

Lemma can_finish σ : consistent σ → ∃ σ', rtc quiet σ σ' ∧ finished σ' ∧ locked σ' = ∅.
Proof.
  induction σ as [σ IH] using (induction_ltof1 _ work). unfold ltof in IH. intros Hc.
  destruct (progress σ Hc) as [Hf|(σ1 & Hr & Hlt)].
  - exists σ. split_and!; [apply rtc_refl|done|]. apply elem_of_equiv_empty_L.
    intros k (i & t & Hi & Hk)%(locked_owned _ Hc).
    destruct (tasks_ok _ Hc i t Hi) as (_ & Ho & Ha).
    unfold finished in Hf. rewrite Forall_lookup in Hf. rewrite (Hf i t Hi) in Ho, Ha; simpl in Ho.
    unfold owned in Hk. rewrite Ho in Hk. destruct (attempt t) as [[g ks]|]; [naive_solver|].
    by apply elem_of_nil in Hk.
  - destruct (IH σ1 Hlt) as (σ2 & Hr2 & Hf); [by eapply quiet_consistent|].
    exists σ2. split; [by etrans|done].
Qed.
End protocol.

(** ** Programs that are ordered *)

Section programs.
Context {K : Type} `{Ord K, Countable K}.
Implicit Types (h ks : list K).

(** [for key in keys { guards.push(lock_for(key).lock_owned().await) }] *)
Definition take_all ks (c : Code) : Code := foldr LockOwned c ks.
(** A dropped [Vec] of guards releases them in its order. *)
Definition drop_all ks (c : Code) : Code := foldr Unlock c ks.

Lemma sorted_before ks : StronglySorted ord_le ks → NoDup ks → StronglySorted before ks.
Proof.
  induction 1 as [|k ks Hs IH Hk]; intros Hn; [constructor|].
  apply NoDup_cons in Hn as [Hnk Hn]. constructor; [auto|].
  rewrite Forall_forall in *. intros x Hx. split; [auto|]. by intros ->.
Qed.

Lemma take_all_ordered h ks c :
  StronglySorted before ks → (∀ k' k, k' ∈ h → k ∈ ks → before k' k) →
  ordered (h ++ ks) c → ordered h (take_all ks c).
Proof.
  intros Hs. revert h. induction Hs as [|k ks Hs IH Hk]; intros h Hb Ho; simpl.
  { by rewrite app_nil_r in Ho. }
  rewrite Forall_forall in Hk. split; [set_solver|]. apply IH; [|by rewrite <-app_assoc].
  intros k' x [?| ->%list_elem_of_singleton]%elem_of_app ?; [set_solver|auto].
Qed.

Lemma filter_all (P : K → Prop) `{∀ k, Decision (P k)} ks : (∀ k, k ∈ ks → P k) → filter P ks = ks.
Proof.
  induction ks as [|k ks IH]; intros HP; [done|].
  rewrite filter_cons_True by set_solver. f_equal. set_solver.
Qed.

Lemma drop_all_ordered h ks c :
  NoDup ks → (∀ k, k ∈ ks → k ∉ h) → NoDup h → ordered h c → ordered (h ++ ks) (drop_all ks c).
Proof.
  intros Hn. revert h. induction Hn as [|k ks Hk Hn IH]; intros h Hd Hh Ho; simpl.
  { by rewrite app_nil_r. }
  split; [set_solver|].
  replace (filter (λ x, x ≠ k) (h ++ k :: ks)) with (h ++ ks); [apply IH; set_solver|].
  rewrite filter_app, filter_cons_False by tauto.
  by rewrite !filter_all by set_solver.
Qed.
End programs.

Arguments Code : clear implicits.
Arguments Task : clear implicits.
Arguments System K {_ _} : assert.

(** ** The mutexes of the service *)

(** An apply scope of [DomainApplyLockTable], the slot of an idempotency key, an
    endpoint of [EndpointLockTable]. *)
Inductive LockKey :=
  | ScopeKey (key : string)
  | SlotKey (key : string)
  | EndpointKey (d : DeviceId).
#[export] Instance LockKey_eq_dec : EqDecision LockKey.
Proof. solve_decision. Defined.

Definition lock_rank (k : LockKey) : N * string :=
  match k with
  | ScopeKey s => (0%N, s)
  | SlotKey s => (1%N, s)
  | EndpointKey d => (2%N, device_id_0 d)
  end.
Definition lock_of_rank (r : N * string) : LockKey :=
  match r with
  | (0%N, s) => ScopeKey s
  | (1%N, s) => SlotKey s
  | (_, s) => EndpointKey (mkDeviceId s)
  end.
Lemma lock_of_rank_rank k : lock_of_rank (lock_rank k) = k.
Proof. by destruct k as [s|s|[s]]. Qed.
#[export] Instance LockKey_countable : Countable LockKey :=
  inj_countable' lock_rank lock_of_rank lock_of_rank_rank.
#[export] Instance lock_rank_inj : Inj (=) (=) lock_rank.
Proof. intros k k' Heq. by rewrite <-(lock_of_rank_rank k), Heq, lock_of_rank_rank. Qed.

(** Scopes before slots before endpoints, each in the order of its strings. *)
Definition rank_le (r r' : N * string) : Prop :=
  (r.1 < r'.1)%N ∨ (r.1 = r'.1 ∧ ord_le r.2 r'.2).
Definition lock_le (k k' : LockKey) : Prop := rank_le (lock_rank k) (lock_rank k').

#[export] Instance lock_le_dec : RelDecision lock_le.
Proof. intros k k'. unfold lock_le, rank_le. apply _. Defined.
#[export] Instance lock_le_po : PartialOrder lock_le.
Proof.
  unfold lock_le, rank_le. repeat split.
  - intros k. by right.
  - intros k1 k2 k3 [?|[? ?]] [?|[? ?]]; [left; lia..|].
    right. split; [by etrans|by etrans].
  - intros k k' [?|[E1 E2]] [?|[? ?]]; [lia..|]. apply (inj lock_rank).
    apply injective_projections; [done|]. by apply (anti_symm ord_le).
Qed.
#[export] Instance lock_le_total : Total lock_le.
Proof.
  intros k k'. unfold lock_le, rank_le.
  destruct (N.lt_trichotomy (lock_rank k).1 (lock_rank k').1) as [?|[?|?]]; [by left; left| |].
  - destruct (total ord_le (lock_rank k).2 (lock_rank k').2); [left|right]; by right.
  - by right; left.
Qed.
#[export] Instance LockKey_ord : Ord LockKey := {| ord_le := lock_le |}.

(** ** The requests of the service *)

(** [apply_domain_intent] takes its scopes, then the slot of its idempotency key, then
    one endpoint after the other; [apply_intent] only endpoints; a recovery pass takes
    the endpoints of one record at a time, force-resolution those of its record. *)
Inductive ServiceRequest :=
  | ApplyDomainIntent (scopes : list string) (slot : option string) (endpoints : list DeviceId)
  | ApplyIntent (endpoints : list DeviceId)
  | RecoverRecords (records : list (list DeviceId))
  | ForceResolveRecord (endpoints : list DeviceId).

Definition apply_endpoints_program (endpoints : list DeviceId) (rest : Code LockKey) : Code LockKey :=
  foldr (λ d rest, WithPolicy (EndpointKey <$> ordered_device_ids [d])
                     (drop_all (EndpointKey <$> ordered_device_ids [d]) rest) rest)
    rest endpoints.

Definition guarded_record (endpoints : list DeviceId) (rest : Code LockKey) : Code LockKey :=
  let keys := EndpointKey <$> ordered_device_ids endpoints in
  take_all keys (drop_all keys rest).

Definition program (r : ServiceRequest) : Code LockKey :=
  match r with
  | ApplyDomainIntent scopes slot endpoints =>
      match normalize_scope_keys scopes with
      | Err _ => Return
      | Ok scopes =>
          let scopes := ScopeKey <$> scopes in
          let slot := SlotKey <$> option_list slot in
          take_all scopes (take_all slot
            (apply_endpoints_program endpoints (drop_all slot (drop_all scopes Return))))
      end
  | ApplyIntent endpoints => apply_endpoints_program endpoints Return
  | RecoverRecords records => foldr guarded_record Return records
  | ForceResolveRecord endpoints => guarded_record endpoints Return
  end.

Definition below_endpoints (k : LockKey) : Prop :=
  match k with EndpointKey _ => False | _ => True end.

Lemma before_endpoint k d : below_endpoints k → before k (EndpointKey d).
Proof. destruct k; intros; [split; [by left|done]..|done]. Qed.

Lemma fmap_sorted_before {A} `{Ord A, Countable A} (f : A → LockKey) (l : list A) :
  (∀ x y, ord_le x y → ord_le (f x) (f y)) → Inj (=) (=) f →
  StronglySorted ord_le l → NoDup l →
  StronglySorted before (f <$> l) ∧ NoDup (f <$> l).
Proof.
  intros Hmono Hinj Hs Hn. assert (NoDup (f <$> l)) as Hn' by by apply NoDup_fmap.
  split; [|done]. apply sorted_before; [|done].
  clear Hn Hn'. induction Hs as [|x l Hs IH Hx]; simpl; constructor; [done|].
  rewrite Forall_forall in Hx. apply Forall_forall. intros k (y & -> & Hy)%list_elem_of_fmap. by apply Hmono, Hx.
Qed.

Lemma endpoint_keys_sorted ds :
  StronglySorted before (EndpointKey <$> ordered_device_ids ds) ∧
  NoDup (EndpointKey <$> ordered_device_ids ds).
Proof.
  destruct (sort_dedup_spec ds) as (Hs & Hn & _).
  apply fmap_sorted_before; [by right|congruence|done..].
Qed.

Lemma scope_keys_sorted scopes keys :
  normalize_scope_keys scopes = Ok keys →
  StronglySorted before (ScopeKey <$> keys) ∧ NoDup (ScopeKey <$> keys).
Proof.
  unfold normalize_scope_keys. intros Hk. inv_ok. case_match; simplify_eq.
  apply fmap_sorted_before; [by right|congruence|apply (sort_by_key_sorted id)|apply NoDup_bs_elems].
Qed.

Lemma apply_endpoints_ordered h ds c :
  Forall below_endpoints h → NoDup h → ordered h c → ordered h (apply_endpoints_program ds c).
Proof.
  intros Hb Hn Ho. rewrite Forall_forall in Hb.
  induction ds as [|d ds IH]; [done|].
  destruct (endpoint_keys_sorted [d]) as [_ Hnd]. cbn -[ordered_device_ids].
  split_and!; [|done| |done].
  - intros k' k ? (x & -> & _)%list_elem_of_fmap. by apply before_endpoint, Hb.
  - apply drop_all_ordered; [done| |done..].
    intros k (x & -> & _)%list_elem_of_fmap Hk. by apply Hb in Hk.
Qed.

Lemma guarded_record_ordered ds c : ordered [] c → ordered [] (guarded_record ds c).
Proof.
  intros Ho. destruct (endpoint_keys_sorted ds) as [Hs Hn].
  apply take_all_ordered; [done|set_solver|].
  apply (drop_all_ordered []); [done|set_solver|constructor|done].
Qed.

Lemma program_ordered r : ordered [] (program r).
Proof.
  destruct r as [scopes slot ds|ds|records|ds]; simpl.
  - destruct (normalize_scope_keys scopes) as [keys|e] eqn:Hk; [|done].
    destruct (scope_keys_sorted _ _ Hk) as [Hs Hn].
    set (h := ScopeKey <$> keys) in *. set (g := SlotKey <$> option_list slot).
    assert (StronglySorted before g ∧ NoDup g) as [Hgs Hgn].
    { subst g. destruct slot; simpl; repeat constructor; set_solver. }
    assert (∀ k, k ∈ g → k ∉ h) as Hd by (subst g h; set_solver).
    apply take_all_ordered; [done|set_solver|]. simpl.
    apply take_all_ordered; [done| |].
    { subst g h. intros k' k (x & -> & _)%list_elem_of_fmap (y & -> & _)%list_elem_of_fmap.
      split; [by left|done]. }
    apply apply_endpoints_ordered.
    + apply Forall_forall. subst g h. intros k [Hx|Hx]%elem_of_app;
        by apply list_elem_of_fmap in Hx as (x & -> & _).
    + apply NoDup_app. set_solver.
    + apply drop_all_ordered; [done..|]. by apply (drop_all_ordered []); [|set_solver|constructor|].
  - by apply apply_endpoints_ordered; [|constructor|].
  - induction records as [|ds records IH]; simpl; [done|]. by apply guarded_record_ordered.
  - by apply guarded_record_ordered.
Qed.

Lemma programs_ordered requests : Forall (ordered []) (program <$> requests).
Proof. apply Forall_fmap, Forall_true. intros r. apply program_ordered. Qed.

(** Whatever requests the service runs side by side, no two of them ever hold the
    mutex of the same apply scope, idempotency slot or endpoint. *)
Theorem requests_exclude_each_other requests σ i j t u k :
  reachable (program <$> requests) σ →
  tasks σ !! i = Some t → tasks σ !! j = Some u → i ≠ j →
  k ∈ owned t → k ∉ owned u.
Proof.
  intros Hr Hi Hj Hne Hk Hu. pose proof (reachable_consistent _ _ (programs_ordered _) Hr) as Hc.
  exact (Hne (exclusive _ Hc i j t u k Hi Hj Hk Hu)).
Qed.

(** C16. Requests never deadlock: whatever has happened so far, every request can still be
    run to its end, without any of them giving up on its lock deadline, and then no mutex
    is left locked. *)
Theorem requests_never_deadlock requests σ :
  reachable (program <$> requests) σ →
  ∃ σ', rtc (step true) σ σ' ∧ finished σ' ∧ locked σ' = ∅.
Proof. intros Hr. exact (can_finish _ (reachable_consistent _ _ (programs_ordered _) Hr)). Qed.

Module LockSample.
Definition leaf : DeviceId := mkDeviceId "leaf-1".
Definition spine : DeviceId := mkDeviceId "spine-1".
(** An apply that tries [leaf], and a recovery that waits for [leaf] and [spine]. *)
Definition requests : list ServiceRequest :=
  [ApplyIntent [leaf]; RecoverRecords [[spine; leaf]]].
Definition contended : System LockKey :=
  {| locked := {[EndpointKey leaf]} ∪ ∅;
     tasks := [mkTask [] (Some ([EndpointKey leaf], [])) (program (ApplyIntent [leaf]));
               mkTask [] None (program (RecoverRecords [[spine; leaf]]))] |}.

Lemma contended_reachable : reachable (program <$> requests) contended.
Proof.
  eapply rtc_l; [exists true; eapply (step_task true 0); [reflexivity|apply step_attempt]|].
  eapply rtc_l; [exists true; eapply (step_task true 0); [reflexivity|apply step_try_ok; set_solver]|].
  apply rtc_refl.
Qed.
End LockSample.

Lemma requests_exclude_each_other_witness :
  EndpointKey LockSample.leaf ∉
    owned (mkTask [] None (program (RecoverRecords [[LockSample.spine; LockSample.leaf]]))).
Proof.
  refine (requests_exclude_each_other LockSample.requests LockSample.contended 0 1 _ _ _
            LockSample.contended_reachable eq_refl eq_refl _ _); [done|].
  apply list_elem_of_singleton. reflexivity.
Defined.

Lemma requests_never_deadlock_witness :
  ∃ σ', rtc (step true) LockSample.contended σ' ∧ finished σ' ∧ locked σ' = ∅.
Proof.
  exact (requests_never_deadlock LockSample.requests LockSample.contended
           LockSample.contended_reachable).
Defined.
