(* ===== verification/Response.v ===== *)
(** * Devices, adapter outcomes and what an apply answers
      (src/device/, src/api/response.rs, src/api/apply.rs, and the events of
      src/telemetry/events.rs that an apply emits) *)
From S2P Require Export Journal.
Local Open Scope N_scope.

(** ** src/device/info.rs, capability.rs, inventory.rs *)

Inductive HostKeyPolicy :=
  | TrustOnFirstUse | KnownHostsFile (path : string) | PinnedKey (fingerprint : string).
Inductive DeviceLifecycleState :=
  | Pending | Probing | Ready | Degraded | LifecycleUnsupported | Unreachable | AuthFailed | Drifted
  | Maintenance.
#[export] Instance DeviceLifecycleState_eq_dec : EqDecision DeviceLifecycleState.
Proof. solve_decision. Defined.

Record DeviceInfo := mkDeviceInfo {
  info_tenant_id : string;
  info_site_id : string;
  info_id : DeviceId;
  management_ip : string;
  management_port : N;
  info_vendor_hint : option Vendor;
  info_model_hint : option string;
  info_role : DeviceRole;
  info_secret_ref : string;
  host_key_policy : HostKeyPolicy;
  adapter_endpoint : string;
  lifecycle_state : DeviceLifecycleState;
}.

Inductive BackendKind := Netconf | Napalm | Netmiko | Cli.
Record YangModuleSummary := mkYangModuleSummary {
  ym_name : string; ym_revision : string; ym_namespace : string;
  schema_size_bytes : N; schema_downloaded : bool; ym_format : string;
}.
Record DeviceCapabilityProfile := mkDeviceCapabilityProfile {
  cap_vendor : Vendor;
  cap_model : option string;
  cap_os_version : option string;
  raw_capabilities : list string;
  cap_supports_netconf : bool;
  cap_supports_candidate : bool;
  cap_supports_validate : bool;
  cap_supports_confirmed_commit : bool;
  cap_supports_persist_id : bool;
  cap_supports_rollback_on_error : bool;
  cap_supports_writable_running : bool;
  supported_backends : list BackendKind;
  cap_model_profile : option DeviceModelProfile;
  recommended_strategy : TransactionStrategy;
  cap_warnings : list string;
  yang_modules : list YangModuleSummary;
}.

Record ManagedDevice := mkManagedDevice {
  md_info : DeviceInfo;
  md_capability : option DeviceCapabilityProfile;
}.

Module Inventory.

Definition t : Type := gmap DeviceId ManagedDevice.

Definition insert (info : DeviceInfo) (inv : t) : UnderlayResult t :=
  match inv !! info_id info with
  | Some _ => Err (DeviceAlreadyExists (device_id_0 (info_id info)))
  | None => Ok (<[info_id info := mkManagedDevice info None]> inv)
  end.

Definition get (d : DeviceId) (inv : t) : UnderlayResult ManagedDevice :=
  ok_or (inv !! d) (DeviceNotFound (device_id_0 d)).

Definition with_lifecycle (i : DeviceInfo) (st : DeviceLifecycleState) : DeviceInfo :=
  let 'mkDeviceInfo a b c d e f g h i1 i2 i3 _ := i in mkDeviceInfo a b c d e f g h i1 i2 i3 st.

Definition set_state (d : DeviceId) (st : DeviceLifecycleState) (inv : t) : UnderlayResult t :=
  entry ← get d inv;
  Ok (<[d := mkManagedDevice (with_lifecycle (md_info entry) st) (md_capability entry)]> inv).

Definition set_capability (d : DeviceId) (cap : DeviceCapabilityProfile) (inv : t) : UnderlayResult t :=
  entry ← get d inv;
  Ok (<[d := mkManagedDevice (md_info entry) (Some cap)]> inv).

End Inventory.

(** ** Adapter outcomes (src/adapter_client/mapper.rs) *)

Inductive AdapterOperationStatus :=
  | OpUnspecified | OpNoChange | OpPrepared | OpCommitted | OpRolledBack | OpFailed | OpInDoubt
  | OpConfirmedCommitPending.
#[export] Instance AdapterOperationStatus_eq_dec : EqDecision AdapterOperationStatus.
Proof. solve_decision. Defined.
Definition debug_AdapterOperationStatus (s : AdapterOperationStatus) : string :=
  match s with
  | OpUnspecified => "Unspecified" | OpNoChange => "NoChange" | OpPrepared => "Prepared"
  | OpCommitted => "Committed" | OpRolledBack => "RolledBack" | OpFailed => "Failed"
  | OpInDoubt => "InDoubt" | OpConfirmedCommitPending => "ConfirmedCommitPending"
  end.

Record AdapterOutcome := mkAdapterOutcome {
  out_status : AdapterOperationStatus;
  out_changed : bool;
  out_warnings : list string;
  prepared_candidate_checksum : option string;
  normalized_state : option DeviceShadowState;
}.

(** ** src/api/response.rs *)

Inductive ApplyStatus :=
  | NoOpSuccess | Success | SuccessWithWarning | PartialSuccess | ApplyFailed | ApplyRolledBack
  | ApplyInDoubt.
#[export] Instance ApplyStatus_eq_dec : EqDecision ApplyStatus.
Proof. solve_decision. Defined.

Inductive DeviceVerifyStatus := VerifyPassed | VerifyFailed | VerifySkipped | VerifyInDoubt.
#[export] Instance DeviceVerifyStatus_eq_dec : EqDecision DeviceVerifyStatus.
Proof. solve_decision. Defined.
Inductive ApplyVerifyStatus :=
  | ApplyVerifyPassed | ApplyVerifyFailed | ApplyVerifyPartial | ApplyVerifySkipped | ApplyVerifyInDoubt.
#[export] Instance ApplyVerifyStatus_eq_dec : EqDecision ApplyVerifyStatus.
Proof. solve_decision. Defined.

Record VerifyScopeSummary := mkVerifyScopeSummary {
  vlan_count : nat;
  interface_count : nat;
  acl_count : nat;
  acl_binding_count : nat;
  delete_vlan_count : nat;
  delete_interface_count : nat;
  delete_acl_count : nat;
  delete_acl_binding_count : nat;
}.
Definition default_scope : VerifyScopeSummary := mkVerifyScopeSummary 0 0 0 0 0 0 0 0.

(** The keys each of the eight sets of [from_change_set] collects from an
    operation. *)
Definition scope_vlan (op : ChangeOp) : option N :=
  match op with CreateVlan v | UpdateVlan _ v => Some (vlan_id v) | _ => None end.
Definition scope_delete_vlan (op : ChangeOp) : option N :=
  match op with DeleteVlan id => Some id | _ => None end.
Definition scope_interface (op : ChangeOp) : option string :=
  match op with UpdateInterface _ i => Some (if_name i) | _ => None end.
Definition scope_delete_interface (op : ChangeOp) : option string :=
  match op with DeleteInterfaceConfig n => Some n | _ => None end.
Definition scope_acl (op : ChangeOp) : option N :=
  match op with CreateAcl a | UpdateAcl _ a => Some (acl_id a) | _ => None end.
Definition scope_delete_acl (op : ChangeOp) : option N :=
  match op with DeleteAcl id => Some id | _ => None end.
Definition scope_binding (op : ChangeOp) : option string :=
  match op with CreateAclBinding b | UpdateAclBinding _ b => Some (AclBinding_key b) | _ => None end.
Definition scope_delete_binding (op : ChangeOp) : option string :=
  match op with
  | DeleteAclBinding n d id => Some (acl_binding_key n d +:+ "|" +:+ fmt_N id)
  | _ => None
  end.
Definition count_distinct {K} `{Countable K} (f : ChangeOp → option K) (c : ChangeSet) : nat :=
  size (list_to_set (omap f (ops c)) : gset K).

Definition from_change_set (c : ChangeSet) : VerifyScopeSummary :=
  {| vlan_count := count_distinct scope_vlan c;
     interface_count := count_distinct scope_interface c;
     acl_count := count_distinct scope_acl c;
     acl_binding_count := count_distinct scope_binding c;
     delete_vlan_count := count_distinct scope_delete_vlan c;
     delete_interface_count := count_distinct scope_delete_interface c;
     delete_acl_count := count_distinct scope_delete_acl c;
     delete_acl_binding_count := count_distinct scope_delete_binding c |}.

Record DeviceVerifyReport := mkDeviceVerifyReport {
  vr_device_id : DeviceId;
  vr_status : DeviceVerifyStatus;
  vr_source : string;
  vr_scope : VerifyScopeSummary;
  vr_warnings : list string;
  vr_error_code : option string;
  vr_error_message : option string;
}.
Definition verify_source : string := "adapter_scoped_verify".
Definition verify_passed (d : DeviceId) (scope : VerifyScopeSummary) (warnings : list string) :=
  mkDeviceVerifyReport d VerifyPassed verify_source scope warnings None None.
Definition verify_failed (d : DeviceId) (scope : VerifyScopeSummary) (code message : string)
    (warnings : list string) :=
  mkDeviceVerifyReport d VerifyFailed verify_source scope warnings (Some code) (Some message).
Definition verify_skipped (d : DeviceId) :=
  mkDeviceVerifyReport d VerifySkipped verify_source default_scope [] None None.
Definition verify_in_doubt (d : DeviceId) (code message : string) :=
  mkDeviceVerifyReport d VerifyInDoubt verify_source default_scope [] (Some code) (Some message).

Record DeviceApplyResult := mkDeviceApplyResult {
  res_device_id : DeviceId;
  changed : bool;
  res_status : ApplyStatus;
  res_tx_id : option string;
  res_strategy : option TransactionStrategy;
  res_error_code : option string;
  res_error_message : option string;
  res_warnings : list string;
  res_verify_report : option DeviceVerifyReport;
}.

Record ApplyVerifyReport := mkApplyVerifyReport {
  avr_status : ApplyVerifyStatus;
  avr_passed : list DeviceId;
  avr_failed : list DeviceId;
  avr_skipped : list DeviceId;
  avr_in_doubt : list DeviceId;
  attention_required : bool;
  warning_count : nat;
}.
Definition from_device_results (results : list DeviceApplyResult) : ApplyVerifyReport :=
  let reports := omap res_verify_report results in
  let ids st := vr_device_id <$> filter (λ r, vr_status r = st) reports in
  let passed := ids VerifyPassed in
  let failed := ids VerifyFailed in
  let in_doubt := ids VerifyInDoubt in
  {| avr_status :=
       if non_empty in_doubt then ApplyVerifyInDoubt
       else if non_empty failed && non_empty passed then ApplyVerifyPartial
       else if non_empty failed then ApplyVerifyFailed
       else if non_empty passed then ApplyVerifyPassed
       else ApplyVerifySkipped;
     avr_passed := passed; avr_failed := failed; avr_skipped := ids VerifySkipped;
     avr_in_doubt := in_doubt;
     attention_required := non_empty failed || non_empty in_doubt;
     warning_count := foldl (λ n r, (n + length (vr_warnings r))%nat) 0%nat reports |}.

Record ApplyIntentResponse := mkApplyIntentResponse {
  resp_request_id : string;
  resp_trace_id : string;
  resp_idempotency_key : option string;
  reused : bool;
  resp_tx_id : option string;
  resp_status : ApplyStatus;
  resp_strategy : option TransactionStrategy;
  device_results : list DeviceApplyResult;
  resp_warnings : list string;
  resp_verify_report : option ApplyVerifyReport;
}.

(** ** src/api/apply.rs *)

Definition device_results_from_plan (plan : DryRunPlan) : list DeviceApplyResult :=
  (λ c, {| res_device_id := cs_device_id c; changed := negb (change_set_is_empty c);
           res_status := if change_set_is_empty c then NoOpSuccess else Success;
           res_tx_id := None; res_strategy := None; res_error_code := None;
           res_error_message := None; res_warnings := []; res_verify_report := None |})
    <$> dp_change_sets plan.

Definition status_ok (s : ApplyStatus) : bool :=
  match s with Success | SuccessWithWarning | NoOpSuccess => true | _ => false end.
Definition has_status (st : ApplyStatus) (r : DeviceApplyResult) : bool :=
  bool_decide (res_status r = st).

Definition aggregate_apply_status (results : list DeviceApplyResult) : ApplyStatus :=
  match results with
  | [] => ApplyFailed
  | first :: rest =>
      if forallb (has_status NoOpSuccess) results then NoOpSuccess
      else if existsb (has_status ApplyInDoubt) results then ApplyInDoubt
      else if forallb (λ r, status_ok (res_status r)) results then
        if existsb (has_status SuccessWithWarning) results then SuccessWithWarning else Success
      else if forallb (has_status ApplyRolledBack) results then ApplyRolledBack
      else match rest with
           | [] => res_status first
           | _ => if existsb (λ r, status_ok (res_status r)) results then PartialSuccess
                  else ApplyFailed
           end
  end.

Definition adapter_error_message (message : string) (errors : list AdapterErrorDetail) : string :=
  match errors with
  | [] => message
  | _ =>
      let additional :=
        join "; " ((λ e, aed_code e +:+ ": " +:+ aed_message e) <$> take 8 errors) in
      let truncated := (length errors - 8)%nat in
      if decide (truncated = 0%nat)
      then message +:+ "; additional adapter errors: " +:+ additional
      else message +:+ "; additional adapter errors: " +:+ additional +:+ "; " +:+
           fmt_usize truncated +:+ " more"
  end.

Definition journal_error_fields (e : UnderlayError) : string * string :=
  match e with
  | AdapterOperation code message _ errors => (code, adapter_error_message message errors)
  | AdapterTransport m => ("ADAPTER_TRANSPORT", m)
  | InvalidIntent m => ("INVALID_INTENT", m)
  | AuthorizationDenied m => ("AUTHORIZATION_DENIED", m)
  | AuthenticationFailed m => ("AUTHENTICATION_FAILED", m)
  | ProductAuditWriteFailed m => ("PRODUCT_AUDIT_WRITE_FAILED", m)
  | InvalidDeviceState m => ("INVALID_DEVICE_STATE", m)
  | InvalidPhaseTransition from to =>
      ("INVALID_PHASE_TRANSITION", "invalid phase transition: " +:+ from +:+ " -> " +:+ to)
  | UnsupportedTransactionStrategy =>
      ("UNSUPPORTED_TRANSACTION_STRATEGY", "unsupported transaction strategy")
  | DeviceAlreadyExists d => ("DEVICE_ALREADY_EXISTS", d)
  | DeviceNotFound d => ("DEVICE_NOT_FOUND", d)
  | Internal m => ("INTERNAL", m)
  end.

Definition unresolved_code (code : string) : bool :=
  bool_decide (code = "TX_IN_DOUBT") || bool_decide (code = "TX_REQUIRES_RECOVERY").

Definition device_error_result (d : DeviceId) (changed : bool) (tx : option string)
    (strategy : option TransactionStrategy) (e : UnderlayError) : DeviceApplyResult :=
  let '(code, message) := journal_error_fields e in
  {| res_device_id := d; changed := changed;
     res_status := if unresolved_code code then ApplyInDoubt else ApplyFailed;
     res_tx_id := tx; res_strategy := strategy;
     res_error_code := Some code; res_error_message := Some message; res_warnings := [];
     res_verify_report := Some (if unresolved_code code then verify_in_doubt d code message
                                else verify_skipped d) |}.

Definition commit_status_matches_strategy (st : AdapterOperationStatus) (s : TransactionStrategy)
    : bool :=
  match s with
  | ConfirmedCommit => bool_decide (st = OpConfirmedCommitPending)
  | _ => bool_decide (st = OpCommitted)
  end.

Definition failed_apply_phase (current : TxPhase) : TxPhase :=
  match current with RolledBack | InDoubt => current | _ => Failed end.
Definition apply_status_for_failed_phase (p : TxPhase) : ApplyStatus :=
  match p with RolledBack => ApplyRolledBack | InDoubt => ApplyInDoubt | _ => ApplyFailed end.

Definition debug_TransactionStrategy (s : TransactionStrategy) : string :=
  match s with
  | ConfirmedCommit => "ConfirmedCommit" | CandidateCommit => "CandidateCommit"
  | RunningRollbackOnError => "RunningRollbackOnError" | BestEffortCli => "BestEffortCli"
  | Unsupported => "Unsupported"
  end.
Definition degraded_strategy_warnings (s : TransactionStrategy) : list string :=
  if is_degraded s then
    ["degraded transaction strategy " +:+ debug_TransactionStrategy s +:+
     "; atomicity is weaker than confirmed commit"]
  else [].

(** ** The events an apply emits (src/telemetry/events.rs) *)

Inductive UnderlayEventKind :=
  | UnderlayDeviceRegistered | UnderlayDeviceCapabilityDetected | UnderlayDriftDetected
  | UnderlayDeviceLockTimeout | UnderlayForceUnlockRequested | UnderlayDriftAuditCompleted
  | UnderlayJournalGcCompleted | UnderlayApplyIdempotencyGcCompleted | UnderlayRecoveryCompleted
  | UnderlayAuditWriteFailed | UnderlayTransactionStarted | UnderlayTransactionPhaseChanged
  | UnderlayTransactionCompleted | UnderlayTransactionFailed | UnderlayTransactionInDoubt
  | UnderlayTransactionForceResolved.
Record UnderlayEvent := mkUnderlayEvent {
  ue_kind : UnderlayEventKind;
  ue_request_id : string;
  ue_trace_id : string;
  ue_tx_id : option string;
  ue_device_id : option DeviceId;
  ue_phase : option TxPhase;
  ue_strategy : option TransactionStrategy;
  ue_result : option string;
  ue_error_code : option string;
  ue_error_message : option string;
  ue_fields : gmap string string;
}.
Definition tx_phase_for_apply_status (s : ApplyStatus) : option TxPhase :=
  match s with
  | Success | SuccessWithWarning => Some Committed
  | ApplyRolledBack => Some RolledBack
  | ApplyInDoubt => Some InDoubt
  | PartialSuccess | ApplyFailed => Some Failed
  | NoOpSuccess => None
  end.
Definition apply_result_name (s : ApplyStatus) : string :=
  match s with
  | NoOpSuccess => "no_op_success" | Success => "success"
  | SuccessWithWarning => "success_with_warning" | PartialSuccess => "partial_success"
  | ApplyFailed => "failed" | ApplyRolledBack => "rolled_back" | ApplyInDoubt => "in_doubt"
  end.
Definition transaction_result (req tr tx : string) (d : option DeviceId) (p : TxPhase)
    (s : option TransactionStrategy) (result : string) : UnderlayEvent :=
  let kind := match p with
    | InDoubt => UnderlayTransactionInDoubt
    | Committed | RolledBack => UnderlayTransactionCompleted
    | _ => UnderlayTransactionFailed
    end in
  mkUnderlayEvent kind req tr (Some tx) d (Some p) s (Some result) None None ∅.
Definition from_device_apply_result (req tr : string) (r : DeviceApplyResult) : option UnderlayEvent :=
  tx ← res_tx_id r;
  p ← tx_phase_for_apply_status (res_status r);
  let e := transaction_result req tr tx (Some (res_device_id r)) p (res_strategy r)
    (apply_result_name (res_status r)) in
  let fields : gmap string string := match res_warnings r with
    | [] => ∅
    | w => {[ "warning_count" := fmt_usize (length w) ]}
    end in
  Some (match res_error_code r, res_error_message r with
    | Some c, Some m => mkUnderlayEvent (ue_kind e) req tr (Some tx) (ue_device_id e) (ue_phase e)
        (ue_strategy e) (ue_result e) (Some c) (Some m) fields
    | _, _ => mkUnderlayEvent (ue_kind e) req tr (Some tx) (ue_device_id e) (ue_phase e)
        (ue_strategy e) (ue_result e) None None fields
    end).

(** ** The aggregate status *)

Lemma forallb_Forall {A} (f : A → bool) l : forallb f l = true ↔ Forall (λ x, f x = true) l.
Proof. rewrite forallb_forall, Forall_forall. by setoid_rewrite list_elem_of_In. Qed.

Lemma has_status_true st r : has_status st r = true ↔ res_status r = st.
Proof. apply bool_decide_eq_true. Qed.

(** The status of a request never claims more than its devices did: it is
    in doubt exactly when some device is, a success of any kind exactly when there
    are devices and every one succeeded, a no-op exactly when all were no-ops, and
    rolled back exactly when all were rolled back. *)
Theorem aggregate_apply_status_sound l :
  (aggregate_apply_status l = ApplyInDoubt ↔ Exists (λ r, res_status r = ApplyInDoubt) l) ∧
  (status_ok (aggregate_apply_status l) = true ↔
     l ≠ [] ∧ Forall (λ r, status_ok (res_status r) = true) l) ∧
  (aggregate_apply_status l = NoOpSuccess ↔ l ≠ [] ∧ Forall (λ r, res_status r = NoOpSuccess) l) ∧
  (aggregate_apply_status l = ApplyRolledBack ↔
     l ≠ [] ∧ Forall (λ r, res_status r = ApplyRolledBack) l).
Proof.
  destruct l as [|r l]; [split_and!; (split; [done|]); [by intros ?%Exists_nil|naive_solver..]|].
  unfold aggregate_apply_status.
  assert (∀ st, forallb (has_status st) (r :: l) = true ↔
    Forall (λ r, res_status r = st) (r :: l)) as Hall.
  { intros st. rewrite forallb_Forall. by setoid_rewrite has_status_true. }
  assert (∀ st, existsb (has_status st) (r :: l) = true ↔
    Exists (λ r, res_status r = st) (r :: l)) as Hex.
  { intros st. rewrite existsb_elem_of, Exists_exists. by setoid_rewrite has_status_true. }
  rewrite <-forallb_Forall.
  rewrite <-(Hex ApplyInDoubt), <-(Hall NoOpSuccess), <-(Hall ApplyRolledBack).
  assert (∀ s t, s ≠ t → forallb (has_status s) (r :: l) = true →
    existsb (has_status t) (r :: l) = false) as Hne.
  { intros s t Hst Hs. apply not_true_iff_false. rewrite Hex, Exists_exists.
    intros (x & Hx & Ht). apply Hall in Hs. rewrite Forall_forall in Hs.
    rewrite (Hs x Hx) in Ht. done. }
  assert (∀ s, forallb (has_status s) (r :: l) = true →
    forallb (λ r, status_ok (res_status r)) (r :: l) = status_ok s) as Hok.
  { intros s [Hr Hl]%Hall%Forall_cons. simpl. rewrite Hr. destruct (status_ok s) eqn:Hs; [|done].
    simpl. apply forallb_Forall. eapply Forall_impl; [exact Hl|]. by intros x ->. }
  destruct (forallb (has_status NoOpSuccess) (r :: l)) eqn:E1.
  { rewrite (Hne NoOpSuccess ApplyInDoubt ltac:(done) E1). rewrite (Hok _ E1).
    destruct (forallb (has_status ApplyRolledBack) (r :: l)) eqn:E2; [|naive_solver].
    apply Hall, Forall_cons in E1 as [E1 _]. apply Hall, Forall_cons in E2 as [E2 _]. congruence. }
  destruct (existsb (has_status ApplyInDoubt) (r :: l)) eqn:E2.
  { assert (forallb (λ r, status_ok (res_status r)) (r :: l) = false) as ->.
    { apply not_true_iff_false. rewrite forallb_Forall, Forall_forall. intros Hf.
      apply Hex, Exists_exists in E2 as (x & Hx & Hs). specialize (Hf x Hx). by rewrite Hs in Hf. }
    destruct (forallb (has_status ApplyRolledBack) (r :: l)) eqn:E3; [|naive_solver].
    by rewrite (Hne ApplyRolledBack ApplyInDoubt ltac:(done) E3) in E2. }
  destruct (forallb (λ r, status_ok (res_status r)) (r :: l)) eqn:E3.
  { destruct (forallb (has_status ApplyRolledBack) (r :: l)) eqn:E4;
      [apply Hok in E4; discriminate E4|].
    destruct (existsb (has_status SuccessWithWarning) (r :: l)); naive_solver. }
  destruct (forallb (has_status ApplyRolledBack) (r :: l)) eqn:E4; [naive_solver|].
  clear Hall Hex Hne Hok. destruct l as [|r' l].
  - simpl in *. unfold has_status in *. destruct (res_status r); simpl in *; simplify_eq;
      split_and!; (split; [done|]); intros; destruct_and?; done.
  - destruct (existsb (λ r, status_ok (res_status r)) (r :: r' :: l)); split_and!; (split; [done|]); intros; destruct_and?; done.
Qed.
