(* ===== verification/ApplyCoordinator.v ===== *)
(** * The apply coordinator (src/api/apply_coordinator.rs)

    One endpoint at a time, the coordinator compares, prepares, commits, verifies
    and confirms a desired state through the adapter, writing the phase it enters
    to the journal before each call, and rolls back when a call fails.

    The stores are any instances of [TxJournalStore] and [ShadowStateStore].  What
    comes from outside is an oracle of [Env]: the adapter's answers, the outcome of
    taking the endpoint lock, the clock and fresh transaction ids; [w_tick] counts
    the questions asked, so an oracle may answer differently every time.  [w_trace]
    is a ghost: it lists the journal writes and adapter calls in the order they are
    made, and no code reads it. *)
From S2P Require Export Response.
Local Open Scope N_scope.

(** ** The world *)

(** [RequestContext] of the adapter's protocol, as [tx_request_context] fills it. *)
Record RequestContext := mkRequestContext {
  rc_request_id : string;
  rc_tx_id : string;
  rc_trace_id : string;
  rc_tenant_id : string;
  rc_site_id : string;
}.
Definition tx_request_context (device : DeviceInfo) (tx : TxContext) : RequestContext :=
  mkRequestContext (ctx_request_id tx) (ctx_tx_id tx) (ctx_trace_id tx)
    (info_tenant_id device) (info_site_id device).

(** The calls of [AdapterClient] that change or check a device. *)
Inductive AdapterCall :=
  | CallPrepare (device : DeviceInfo) (context : RequestContext) (desired : DeviceDesiredState)
  | CallCommit (device : DeviceInfo) (context : RequestContext) (strategy : TransactionStrategy)
      (confirm_timeout_secs : N) (checksum : option string)
  | CallVerify (device : DeviceInfo) (context : RequestContext) (desired : DeviceDesiredState)
      (change_set : ChangeSet)
  | CallFinalConfirm (device : DeviceInfo) (context : RequestContext)
  | CallRollback (device : DeviceInfo) (context : RequestContext)
      (strategy : option TransactionStrategy)
  | CallRecover (device : DeviceInfo) (context : RequestContext)
      (strategy : option TransactionStrategy) (action : RecoveryAction).

Record Env := mkEnv {
  now_unix_secs : nat → N;
  new_tx_id : nat → string;
  acquire_endpoint : nat → DeviceId → UnderlayResult unit;
  acquire_many : nat → list DeviceId → UnderlayResult unit;
  pool_client : nat → string → UnderlayResult unit;
  get_current_state_for_desired :
    nat → DeviceInfo → DeviceDesiredState → UnderlayResult DeviceShadowState;
  get_capabilities : nat → DeviceInfo → UnderlayResult DeviceCapabilityProfile;
  adapter : nat → AdapterCall → UnderlayResult AdapterOutcome;
}.

Inductive Action :=
  | AJournal (record : TxJournalRecord) (stored : bool)
  | AAdapter (call : AdapterCall) (answer : UnderlayResult AdapterOutcome).

Section coordinator.
Context {J S : Type} `{!TxJournalStore J} `{!ShadowStateStore S}.

Record World := mkWorld {
  w_journal : J;
  w_shadow : S;
  w_observed : S;
  w_events : list UnderlayEvent;
  w_tick : nat;
  w_trace : list Action;
}.

(** The fields of [ApplyCoordinator] that do not change during an apply. *)
Record ApplyCoordinator := mkApplyCoordinator {
  inventory : Inventory.t;
  confirmed_commit_timeout_secs : N;
}.
Definition new (inventory : Inventory.t) (timeout : N) : ApplyCoordinator :=
  mkApplyCoordinator inventory (N.max timeout 1).

Context (env : Env) (self : ApplyCoordinator).

Notation M := (ST UnderlayError World).

Definition tick (w : World) : World :=
  mkWorld (w_journal w) (w_shadow w) (w_observed w) (w_events w) (Datatypes.S (w_tick w)) (w_trace w).
Definition log (a : Action) (w : World) : World :=
  mkWorld (w_journal w) (w_shadow w) (w_observed w) (w_events w) (w_tick w) (w_trace w ++ [a]).

(** Ask an oracle. *)
Definition ask {A} (f : nat → A) : M A := λ w, (Ok (f (w_tick w)), tick w).
Definition ask_result {A} (f : nat → UnderlayResult A) : M A := λ w, (f (w_tick w), tick w).
Definition now : M N := ask (now_unix_secs env).

Definition journal_write (r : TxJournalRecord) : M unit := λ w,
  let '(x, j) := journal_put r (w_journal w) in
  (x, log (AJournal r (is_ok x))
        (mkWorld j (w_shadow w) (w_observed w) (w_events w) (w_tick w) (w_trace w))).
Definition journal_read (t : string) : M (option TxJournalRecord) := λ w,
  let '(x, j) := journal_get t (w_journal w) in
  (x, mkWorld j (w_shadow w) (w_observed w) (w_events w) (w_tick w) (w_trace w)).
Definition journal_scan : M (list TxJournalRecord) := λ w,
  let '(x, j) := journal_list_recoverable (w_journal w) in
  (x, mkWorld j (w_shadow w) (w_observed w) (w_events w) (w_tick w) (w_trace w)).
Definition shadow_read (d : DeviceId) : M (option DeviceShadowState) := λ w,
  let '(x, s) := shadow_get d (w_shadow w) in
  (x, mkWorld (w_journal w) s (w_observed w) (w_events w) (w_tick w) (w_trace w)).
Definition shadow_write (st : DeviceShadowState) : M DeviceShadowState := λ w,
  let '(x, s) := shadow_put st (w_shadow w) in
  (x, mkWorld (w_journal w) s (w_observed w) (w_events w) (w_tick w) (w_trace w)).
Definition observed_write (st : DeviceShadowState) : M DeviceShadowState := λ w,
  let '(x, s) := shadow_put st (w_observed w) in
  (x, mkWorld (w_journal w) (w_shadow w) s (w_events w) (w_tick w) (w_trace w)).
Definition call (c : AdapterCall) : M AdapterOutcome := λ w,
  let r := adapter env (w_tick w) c in (r, log (AAdapter c r) (tick w)).
Definition emit (e : UnderlayEvent) (w : World) : World :=
  mkWorld (w_journal w) (w_shadow w) (w_observed w) (w_events w ++ [e]) (w_tick w) (w_trace w).

(** ** Reading the device *)

Definition fetch_current_states (desired_states : list DeviceDesiredState)
    : M (list DeviceShadowState) :=
  st_foldM (λ states desired,
    managed ← st_lift (Inventory.get (ds_device_id desired) (inventory self));
    _ ← ask_result (λ n, pool_client env n (adapter_endpoint (md_info managed)));
    current ← ask_result (λ n, get_current_state_for_desired env n (md_info managed) desired);
    _ ← observed_write current;
    mret (states ++ [current])) [] desired_states.

Definition dry_run_desired_states (desired_states : list DeviceDesiredState) : M DryRunPlan :=
  current_states ← fetch_current_states desired_states;
  st_lift (build_dry_run_plan desired_states current_states).

(** ** What may stop an apply before it begins *)

Definition ensure_no_in_doubt_for_devices (device_ids : list DeviceId) : M unit :=
  recoverable ← journal_scan;
  match in_doubt_records_for_devices recoverable device_ids with
  | [] => mret tt
  | blocking =>
      let tx_ids := join "," (tx_id <$> blocking) in
      let code := if forallb (λ r, bool_decide (phase r = InDoubt)) blocking
                  then "TX_IN_DOUBT" else "TX_REQUIRES_RECOVERY" in
      st_fail (AdapterOperation code
        ("endpoint has unresolved recoverable transaction(s): " +:+ tx_ids) false [])
  end.

Definition ensure_drift_policy_allows_apply (device_ids : list DeviceId) (policy : DriftPolicy)
    : UnderlayResult unit :=
  if decide (policy = ReportOnly) then Ok tt else
  drifted ← foldM (λ drifted d,
    managed ← Inventory.get d (inventory self);
    Ok (if decide (lifecycle_state (md_info managed) = Drifted)
        then drifted ++ [device_id_0 d] else drifted)) [] device_ids;
  match drifted with
  | [] => Ok tt
  | _ => drift_policy_error policy (join "," drifted)
  end.

(** ** Bodies that hold [&mut journal_record] *)

Notation TxM := (ST UnderlayError (World * TxJournalRecord)).

Definition lift {A} (m : M A) : TxM A := λ '(w, r), let '(x, w') := m w in (x, (w', r)).
Definition get_record : TxM TxJournalRecord := λ '(w, r), (Ok r, (w, r)).
Definition set_record (r : TxJournalRecord) : TxM unit := λ '(w, _), (Ok tt, (w, r)).

(** [journal_record.transition_phase(p)?] *)
Definition enter (p : TxPhase) : TxM unit :=
  r ← get_record;
  t ← lift now;
  r' ← st_lift (transition_phase t r p);
  set_record r'.
(** [self.journal.put(journal_record)?] *)
Definition save : TxM unit := r ← get_record; lift (journal_write r).
(** [*journal_record = journal_record.clone().with_error(code, message)] *)
Definition note_error (code message : string) : TxM unit :=
  r ← get_record; t ← lift now; set_record (with_error t r code message).

Definition unexpected_status (code what : string) (st : AdapterOperationStatus) (retryable : bool)
    : UnderlayError :=
  AdapterOperation code
    ("adapter returned " +:+ what +:+ " status " +:+ debug_AdapterOperationStatus st) retryable [].

Definition rollback_after_endpoint_failure (device : DeviceInfo) (context : RequestContext)
    : TxM unit :=
  r ← get_record;
  t ← lift now;
  rolling_back ← st_lift (transition_phase t r RollingBack);
  _ ← lift (journal_write rolling_back);
  _ ← set_record rolling_back;
  answer ← st_try (lift (call (CallRollback device context (strategy rolling_back))));
  match answer with
  | Ok outcome =>
      match out_status outcome with
      | OpRolledBack | OpNoChange => _ ← enter RolledBack; save
      | st =>
          _ ← enter InDoubt;
          _ ← note_error "UNEXPECTED_ROLLBACK_STATUS"
                ("adapter returned rollback status " +:+ debug_AdapterOperationStatus st);
          _ ← save;
          st_fail (unexpected_status "UNEXPECTED_ROLLBACK_STATUS" "rollback" st true)
      end
  | Err err =>
      let '(code, message) := journal_error_fields err in
      _ ← enter InDoubt;
      _ ← note_error code message;
      _ ← save;
      st_fail err
  end.

Definition with_rollback_failure_context (primary rollback_err : UnderlayError) : UnderlayError :=
  let '(rollback_code, rollback_message) := journal_error_fields rollback_err in
  let secondary := mkAdapterErrorDetail rollback_code
    ("rollback after endpoint failure also failed: " +:+ rollback_message) in
  let context message := message +:+ "; rollback after endpoint failure also failed: " +:+
    rollback_code +:+ ": " +:+ rollback_message in
  match primary with
  | AdapterOperation code message retryable errors =>
      AdapterOperation code (context message) retryable (errors ++ [secondary])
  | other =>
      let '(code, message) := journal_error_fields other in
      AdapterOperation code (context message) false [secondary]
  end.

Definition rollback_after_endpoint_failure_preserving_primary (device : DeviceInfo)
    (context : RequestContext) (primary : UnderlayError) : TxM unit :=
  rolled ← st_try (rollback_after_endpoint_failure device context);
  match rolled with
  | Ok _ => st_fail primary
  | Err rollback_err => st_fail (with_rollback_failure_context primary rollback_err)
  end.

Definition rollback_completed : UnderlayError :=
  Internal "verify rollback unexpectedly completed without returning the primary error".

Definition prepare_endpoint (device : DeviceInfo) (context : RequestContext)
    (desired : DeviceDesiredState) : TxM (option string) :=
  answer ← st_try (lift (call (CallPrepare device context desired)));
  match answer with
  | Err err => _ ← rollback_after_endpoint_failure_preserving_primary device context err; mret None
  | Ok prepare =>
      if decide (out_status prepare ≠ OpPrepared) then
        _ ← rollback_after_endpoint_failure_preserving_primary device context
              (unexpected_status "UNEXPECTED_PREPARE_STATUS" "prepare" (out_status prepare) false);
        mret None
      else
        _ ← enter Prepared;
        _ ← save;
        mret (prepared_candidate_checksum prepare)
  end.

Definition commit_endpoint (device : DeviceInfo) (context : RequestContext)
    (strategy : TransactionStrategy) (checksum : option string) : TxM unit :=
  _ ← enter Committing;
  _ ← save;
  answer ← st_try (lift (call (CallCommit device context strategy
                                 (confirmed_commit_timeout_secs self) checksum)));
  match answer with
  | Ok commit =>
      if commit_status_matches_strategy (out_status commit) strategy then mret tt else
      _ ← rollback_after_endpoint_failure_preserving_primary device context
            (unexpected_status "UNEXPECTED_COMMIT_STATUS" "commit" (out_status commit) false);
      st_fail rollback_completed
  | Err err =>
      _ ← rollback_after_endpoint_failure_preserving_primary device context err;
      st_fail rollback_completed
  end.

Definition passed_verify_report (d : DeviceId) (c : ChangeSet) (outcome : AdapterOutcome)
    : DeviceVerifyReport :=
  verify_passed d (from_change_set c) (out_warnings outcome).

Definition verify_endpoint (device : DeviceInfo) (context : RequestContext)
    (desired : DeviceDesiredState) (change_set : ChangeSet) : TxM DeviceVerifyReport :=
  _ ← enter Verifying;
  _ ← save;
  answer ← st_try (lift (call (CallVerify device context desired change_set)));
  match answer with
  | Ok verify =>
      match out_status verify with
      | OpNoChange | OpCommitted => mret (passed_verify_report (ds_device_id desired) change_set verify)
      | st =>
          _ ← rollback_after_endpoint_failure_preserving_primary device context
                (unexpected_status "UNEXPECTED_VERIFY_STATUS" "verify" st false);
          st_fail rollback_completed
      end
  | Err err =>
      _ ← rollback_after_endpoint_failure_preserving_primary device context err;
      st_fail rollback_completed
  end.

Definition final_confirm_endpoint (device : DeviceInfo) (context : RequestContext) : TxM unit :=
  _ ← enter FinalConfirming;
  _ ← save;
  answer ← st_try (lift (call (CallFinalConfirm device context)));
  match answer with
  | Ok confirm =>
      if decide (out_status confirm = OpCommitted) then mret tt else
      rollback_after_endpoint_failure_preserving_primary device context
        (unexpected_status "UNEXPECTED_FINAL_CONFIRM_STATUS" "final confirm" (out_status confirm) false)
  | Err err => rollback_after_endpoint_failure_preserving_primary device context err
  end.

Definition finalize_non_confirmed_commit : TxM unit := _ ← enter FinalConfirming; save.

Definition find_change_set (plan : DryRunPlan) (d : DeviceId) : option ChangeSet :=
  List.find (λ c, bool_decide (cs_device_id c = d)) (dp_change_sets plan).

(** The body of the loop of [apply_changed_endpoint_states]. *)
Definition apply_changed_endpoint (plan : DryRunPlan) (tx_context : TxContext)
    (allow_degraded_atomicity : bool)
    (acc : option TransactionStrategy * option DeviceVerifyReport) (desired : DeviceDesiredState)
    : TxM (option TransactionStrategy * option DeviceVerifyReport) :=
  match find_change_set plan (ds_device_id desired) with
  | None => st_fail (InvalidDeviceState
      ("missing change set for endpoint " +:+ device_id_0 (ds_device_id desired)))
  | Some change_set =>
      if change_set_is_empty change_set then mret acc else
      managed ← st_lift (Inventory.get (ds_device_id desired) (inventory self));
      let device := md_info managed in
      _ ← lift (ask_result (λ n, pool_client env n (adapter_endpoint device)));
      let context := tx_request_context device tx_context in
      capability ← match md_capability managed with
        | Some capability => mret capability
        | None => lift (ask_result (λ n, get_capabilities env n device))
        end;
      let strategy := recommended_strategy capability in
      if negb (is_supported strategy) then st_fail UnsupportedTransactionStrategy else
      if is_degraded strategy && negb allow_degraded_atomicity then
        st_fail (AdapterOperation "DEGRADED_ATOMICITY_NOT_ALLOWED"
          ("device " +:+ device_id_0 (ds_device_id desired) +:+
           " requires degraded transaction strategy " +:+ debug_TransactionStrategy strategy +:+
           ", but request disallows degraded atomicity") false [])
      else
      let selected := match acc.1 with Some s => Some s | None => Some strategy end in
      r ← get_record;
      t ← lift now;
      _ ← set_record (with_strategy t r strategy);
      _ ← save;
      checksum ← prepare_endpoint device context desired;
      _ ← commit_endpoint device context strategy checksum;
      report ← verify_endpoint device context desired change_set;
      _ ← (if decide (strategy = ConfirmedCommit)
           then final_confirm_endpoint device context
           else finalize_non_confirmed_commit);
      mret (selected, Some report)
  end.

Definition apply_changed_endpoint_states (desired_states : list DeviceDesiredState)
    (plan : DryRunPlan) (tx_context : TxContext) (allow_degraded_atomicity : bool)
    : TxM (TransactionStrategy * option DeviceVerifyReport) :=
  '(selected, report) ← st_foldM
    (apply_changed_endpoint plan tx_context allow_degraded_atomicity) (None, None) desired_states;
  st_lift (ok_or ((λ s, (s, report)) <$> selected) UnsupportedTransactionStrategy).

(** ** What the caller is told *)

Definition is_verify_error_code (code : string) : bool :=
  bool_decide (code = "VERIFY_FAILED") || bool_decide (code = "UNEXPECTED_VERIFY_STATUS").

Definition verify_scope_from_journal (d : DeviceId) (r : TxJournalRecord) : VerifyScopeSummary :=
  match List.find (λ c, bool_decide (cs_device_id c = d)) (change_sets r) with
  | Some c => from_change_set c
  | None => default_scope
  end.

Definition failed_apply_verify_report (d : DeviceId) (r : TxJournalRecord) (status : ApplyStatus)
    (code message : string) : DeviceVerifyReport :=
  if is_verify_error_code code then
    let report := verify_failed d (verify_scope_from_journal d r) code message [] in
    if decide (status = ApplyInDoubt) then
      mkDeviceVerifyReport (vr_device_id report) VerifyInDoubt (vr_source report) (vr_scope report)
        (vr_warnings report) (vr_error_code report) (vr_error_message report)
    else report
  else if decide (status = ApplyInDoubt) then verify_in_doubt d code message
  else verify_skipped d.

Definition mark_verify_report_in_doubt (d : DeviceId) (report : option DeviceVerifyReport)
    (code message : string) : DeviceVerifyReport :=
  match report with
  | Some report => mkDeviceVerifyReport (vr_device_id report) VerifyInDoubt (vr_source report)
      (vr_scope report) (vr_warnings report) (Some code) (Some message)
  | None => verify_in_doubt d code message
  end.

(** [match m { Ok(a) => ok(a), Err(e) => { .. return err(e) } }] in a body that
    returns no [Result]. *)
Definition handle {St A B} (m : ST UnderlayError St A) (err : UnderlayError → St → B * St)
    (ok : A → St → B * St) (s : St) : B * St :=
  match m s with
  | (Ok a, s') => ok a s'
  | (Err e, s') => err e s'
  end.

(** [return DeviceApplyResult { .., changed: true, status: InDoubt, .. }] *)
Definition in_doubt_result (d : DeviceId) (tx : string) (strategy : option TransactionStrategy)
    (code message : string) (warnings : list string) (report : DeviceVerifyReport)
    : DeviceApplyResult :=
  {| res_device_id := d; changed := true; res_status := ApplyInDoubt; res_tx_id := Some tx;
     res_strategy := strategy; res_error_code := Some code; res_error_message := Some message;
     res_warnings := warnings; res_verify_report := Some report |}.

Notation TxRun A := (World * TxJournalRecord → A * (World * TxJournalRecord)).

(** The two error arms around the shadow store have one shape: the committed
    transaction becomes [InDoubt] and the journal is told so. *)
Definition shadow_failed (d : DeviceId) (tx : string) (strategy : TransactionStrategy)
    (warnings : list string) (verify_report : option DeviceVerifyReport)
    (what verify_code warning : string) (err : UnderlayError) : TxRun DeviceApplyResult :=
  let '(code, message) := journal_error_fields err in
  let error_message := what +:+ ": " +:+ message in
  let answer error_message warnings verify_message :=
    in_doubt_result d tx (Some strategy) code error_message warnings
      (mark_verify_report_in_doubt d verify_report verify_code verify_message) in
  handle (enter InDoubt)
    (λ transition_err s, (answer (error_message +:+ "; phase transition also failed: " +:+
       (journal_error_fields transition_err).2) warnings error_message, s)) (λ _,
  handle (_ ← note_error code error_message; save)
    (λ journal_err s, (answer (error_message +:+ "; journal write also failed: " +:+
       (journal_error_fields journal_err).2) warnings error_message, s)) (λ _ s,
  (answer error_message (warnings ++ [warning +:+ ": " +:+ message]) what, s))).

Definition missing_change_set (d : DeviceId) (tx : string) (strategy : TransactionStrategy)
    (warnings : list string) (verify_report : option DeviceVerifyReport) : TxRun DeviceApplyResult :=
  let code := "MISSING_CHANGE_SET" in
  let error_message := "missing change set after successful apply for device " +:+ device_id_0 d in
  let answer error_message verify_message :=
    in_doubt_result d tx (Some strategy) code error_message warnings
      (mark_verify_report_in_doubt d verify_report code verify_message) in
  handle (enter InDoubt)
    (λ transition_err s, (answer (error_message +:+ "; phase transition also failed: " +:+
       (journal_error_fields transition_err).2) error_message, s)) (λ _,
  handle (_ ← note_error code error_message; st_try save)
    (λ _ s, (answer error_message "missing change set after successful apply", s)) (λ _ s,
  (answer error_message "missing change set after successful apply", s))).

Definition finish_successful_apply (desired : DeviceDesiredState) (plan : DryRunPlan)
    (tx_context : TxContext) (strategy : TransactionStrategy)
    (verify_report : option DeviceVerifyReport) : TxRun DeviceApplyResult :=
  let d := ds_device_id desired in
  let tx := ctx_tx_id tx_context in
  let warnings := degraded_strategy_warnings strategy in
  handle (r ← get_record; t ← lift now; _ ← set_record (with_strategy t r strategy); enter Committed)
    (λ err s, let '(code, message) := journal_error_fields err in
       (in_doubt_result d tx (Some strategy) code message warnings
          (mark_verify_report_in_doubt d verify_report "INVALID_PHASE_TRANSITION"
             "failed to transition verified transaction to committed"), s)) (λ _,
  handle save
    (λ err s, let '(code, message) := journal_error_fields err in
       let error_message :=
         "adapter committed, but terminal journal write failed: " +:+ message in
       (in_doubt_result d tx (Some strategy) code error_message warnings
          (mark_verify_report_in_doubt d verify_report "JOURNAL_WRITE_FAILED" error_message), s)) (λ _,
  match find_change_set plan d with
  | None => missing_change_set d tx strategy warnings verify_report
  | Some change_set =>
      handle (lift (shadow_read d))
        (shadow_failed d tx strategy warnings verify_report
           "shadow state unavailable after successful apply" "SHADOW_READ_FAILED"
           "shadow state read failed") (λ existing_shadow,
      handle (lift (shadow_write (apply_to_shadow change_set existing_shadow desired 0)))
        (shadow_failed d tx strategy warnings verify_report
           "shadow state stale after successful apply" "SHADOW_WRITE_FAILED"
           "shadow state update failed") (λ _ s,
      ({| res_device_id := d; changed := true;
          res_status := if is_degraded strategy then SuccessWithWarning else Success;
          res_tx_id := Some tx; res_strategy := Some strategy; res_error_code := None;
          res_error_message := None; res_warnings := warnings;
          res_verify_report := verify_report |}, s)))
  end)).

Definition finish_failed_apply (desired : DeviceDesiredState) (tx_context : TxContext)
    (err : UnderlayError) : TxRun DeviceApplyResult := λ '(w, r),
  let d := ds_device_id desired in
  let tx := ctx_tx_id tx_context in
  let '(code, message) := journal_error_fields err in
  let phase := failed_apply_phase (phase r) in
  let status := apply_status_for_failed_phase phase in
  let verify_report := failed_apply_verify_report d r status code message in
  let answer r error_message :=
    {| res_device_id := d; changed := true; res_status := status; res_tx_id := Some tx;
       res_strategy := strategy r; res_error_code := Some code;
       res_error_message := Some error_message; res_warnings := [];
       res_verify_report := Some verify_report |} in
  handle (enter phase)
    (λ transition_err '(w, r),
       (in_doubt_result d tx (strategy r) code (message +:+ "; phase transition also failed: " +:+
          (journal_error_fields transition_err).2) []
          (mark_verify_report_in_doubt d (Some verify_report) code message), (w, r))) (λ _,
  handle (_ ← note_error code message; save)
    (λ journal_err '(w, r), (answer r (message +:+ "; journal write also failed: " +:+
       (journal_error_fields journal_err).2), (w, r))) (λ _ '(w, r),
  (answer r message, (w, r)))) (w, r).

(** ** One endpoint *)

Definition no_op_result (d : DeviceId) : DeviceApplyResult :=
  {| res_device_id := d; changed := false; res_status := NoOpSuccess; res_tx_id := None;
     res_strategy := None; res_error_code := None; res_error_message := None; res_warnings := [];
     res_verify_report := Some (verify_skipped d) |}.

(** The checks made before the transaction starts, and the plan. *)
Definition plan_endpoint (desired : DeviceDesiredState) (drift_policy : DriftPolicy)
    : M DryRunPlan :=
  _ ← ask_result (λ n, acquire_endpoint env n (ds_device_id desired));
  _ ← ensure_no_in_doubt_for_devices [ds_device_id desired];
  _ ← st_lift (ensure_drift_policy_allows_apply [ds_device_id desired] drift_policy);
  dry_run_desired_states [desired].

(** [TxContext::new] and the record that starts the journal of the transaction. *)
Definition start_transaction (request_id trace_id : string) (desired : DeviceDesiredState)
    (plan : DryRunPlan) : M (TxContext * TxJournalRecord) :=
  tx ← ask (new_tx_id env);
  let tx_context := mkTxContext tx request_id trace_id in
  t1 ← now; t2 ← now; t3 ← now;
  mret (tx_context,
    with_change_sets t3 (with_desired_states t2
      (started t1 tx_context [ds_device_id desired]) [desired]) (dp_change_sets plan)).

(** The transaction: from the first write of its record to the answer. *)
Definition run_transaction (desired : DeviceDesiredState) (plan : DryRunPlan)
    (tx_context : TxContext) (allow_degraded_atomicity : bool) : TxRun DeviceApplyResult :=
  let d := ds_device_id desired in
  handle save
    (λ err s, (device_error_result d true None None err, s)) (λ _,
  handle (_ ← enter Preparing; save)
    (λ err s, (device_error_result d true (Some (ctx_tx_id tx_context)) None err, s)) (λ _,
  handle (apply_changed_endpoint_states [desired] plan tx_context allow_degraded_atomicity)
    (finish_failed_apply desired tx_context)
    (λ '(strategy, verify_report),
       finish_successful_apply desired plan tx_context strategy verify_report))).

Definition apply_single_endpoint_state (request_id trace_id : string)
    (desired : DeviceDesiredState) (allow_degraded_atomicity : bool) (drift_policy : DriftPolicy)
    : World → DeviceApplyResult * World :=
  let d := ds_device_id desired in
  handle (plan_endpoint desired drift_policy)
    (λ err w, (device_error_result d false None None err, w)) (λ plan,
  if is_noop plan then (λ w, (no_op_result d, w)) else
  handle (start_transaction request_id trace_id desired plan)
    (λ err w, (device_error_result d true None None err, w)) (λ '(tx_context, record) w,
  let '(result, (w, _)) :=
    run_transaction desired plan tx_context allow_degraded_atomicity (w, record) in
  (result, w))).

(** ** A request *)

Definition emit_apply_events (request_id trace_id : string) (results : list DeviceApplyResult)
    (w : World) : World :=
  foldl (λ w result,
    match from_device_apply_result request_id trace_id result with
    | Some event => emit event w
    | None => w
    end) w results.

Fixpoint apply_endpoints (request_id trace_id : string) (desired_states : list DeviceDesiredState)
    (allow_degraded_atomicity : bool) (drift_policy : DriftPolicy) (w : World)
    : list DeviceApplyResult * World :=
  match desired_states with
  | [] => ([], w)
  | desired :: rest =>
      let '(result, w1) := apply_single_endpoint_state request_id trace_id desired
                             allow_degraded_atomicity drift_policy w in
      let '(results, w2) := apply_endpoints request_id trace_id rest
                              allow_degraded_atomicity drift_policy w1 in
      (result :: results, w2)
  end.

Definition apply_response (request_id trace_id : string) (results : list DeviceApplyResult)
    : ApplyIntentResponse :=
  {| resp_request_id := request_id; resp_trace_id := trace_id; resp_idempotency_key := None;
     reused := false;
     resp_tx_id := match results with [r] => res_tx_id r | _ => None end;
     resp_status := aggregate_apply_status results;
     resp_strategy := match results with [r] => res_strategy r | _ => None end;
     device_results := results;
     resp_warnings := results ≫= res_warnings;
     resp_verify_report := Some (from_device_results results) |}.

Definition apply_desired_states (request_id trace_id : string)
    (desired_states : list DeviceDesiredState) (allow_degraded_atomicity : bool)
    (drift_policy : DriftPolicy) : M ApplyIntentResponse := λ w,
  let '(results, w) := apply_endpoints request_id trace_id desired_states
                         allow_degraded_atomicity drift_policy w in
  (Ok (apply_response request_id trace_id results),
   emit_apply_events request_id trace_id results w).

End coordinator.
