(* ===== verification/ApplyProtocol.v ===== *)
(** * The protocol an apply follows (specification of src/api/apply_coordinator.rs)

    An abstract machine that sees only the journal writes and adapter calls of one
    transaction and says which may come next: a call is made only when the phase
    it belongs to has just been journalled, and a phase is journalled only when the
    last answer of the device, or the last write, justifies it.  [ApplyCorrect]
    proves that the coordinator refines this machine; here are the machine and what
    follows from it alone. *)
From S2P Require Export ApplyCoordinator.

(** ** The machine *)

(** The last record the journal acknowledged, and the last action. *)
Record ProtoState := mkProtoState {
  saved : option TxJournalRecord;
  last : option Action;
}.

Definition call_phase (c : AdapterCall) : TxPhase :=
  match c with
  | CallPrepare _ _ _ => Preparing
  | CallCommit _ _ _ _ _ => Committing
  | CallVerify _ _ _ _ => Verifying
  | CallFinalConfirm _ _ => FinalConfirming
  | CallRollback _ _ _ => RollingBack
  | CallRecover _ _ _ _ => Recovering
  end.
(** The calls that carry a transaction out, not back. *)
Definition forward (c : AdapterCall) : bool :=
  match c with CallRollback _ _ _ | CallRecover _ _ _ _ => false | _ => true end.
Definition call_context (c : AdapterCall) : RequestContext :=
  match c with
  | CallPrepare _ x _ | CallCommit _ x _ _ _ | CallVerify _ x _ _ | CallFinalConfirm _ x
  | CallRollback _ x _ | CallRecover _ x _ _ => x
  end.

(** The device did what the call asked for. *)
Definition answer_ok (c : AdapterCall) (a : UnderlayResult AdapterOutcome) : bool :=
  match a with
  | Err _ => false
  | Ok o =>
      match c, out_status o with
      | CallPrepare _ _ _, OpPrepared => true
      | CallCommit _ _ s _ _, st => commit_status_matches_strategy st s
      | CallVerify _ _ _ _, (OpNoChange | OpCommitted) => true
      | CallFinalConfirm _ _, OpCommitted => true
      | CallRollback _ _ _, (OpRolledBack | OpNoChange) => true
      | _, _ => false
      end
  end.

(** A request context that names the transaction of a record. *)
Definition identifies (x : RequestContext) (r : TxJournalRecord) : Prop :=
  rc_tx_id x = tx_id r ∧ rc_request_id x = request_id r ∧ rc_trace_id x = trace_id r.

(** What the calls of a transaction carry is what its record says. *)
Definition carries (r : TxJournalRecord) (c : AdapterCall) : Prop :=
  identifies (call_context c) r ∧
  match c with
  | CallPrepare _ _ d => d ∈ desired_states r
  | CallCommit _ _ s _ _ => strategy r = Some s
  | CallVerify _ _ d cs => d ∈ desired_states r ∧ cs ∈ change_sets r
  | CallFinalConfirm _ _ => strategy r = Some ConfirmedCommit
  | CallRollback _ _ s | CallRecover _ _ s _ => strategy r = s
  end.
Definition covers (r : TxJournalRecord) (c : AdapterCall) : Prop :=
  phase r = call_phase c ∧ carries r c.

(** The phases whose failed write makes the transaction fail. *)
Definition interrupted (p : TxPhase) : bool :=
  match p with
  | Preparing | Prepared | Committing | Verifying | FinalConfirming | RollingBack => true
  | _ => false
  end.

(** What the last action must be for phase [p] to be written next. *)
Definition justified (last : option Action) (p : TxPhase) (s : option TransactionStrategy) : Prop :=
  match p, last with
  | Started, None => True
  | Preparing, Some (AJournal r true) => phase r = Started ∨ phase r = Preparing
  | Prepared, Some (AAdapter (CallPrepare _ _ _ as c) a) => answer_ok c a = true
  | Committing, Some (AJournal r true) => phase r = Prepared
  | Verifying, Some (AAdapter (CallCommit _ _ _ _ _ as c) a) => answer_ok c a = true
  | FinalConfirming, Some (AAdapter (CallVerify _ _ _ _ as c) a) => answer_ok c a = true
  | Committed, Some (AAdapter (CallFinalConfirm _ _ as c) a) => answer_ok c a = true
  | Committed, Some (AJournal r true) => phase r = FinalConfirming ∧ s ≠ Some ConfirmedCommit
  | RollingBack, Some (AAdapter c a) => answer_ok c a = false ∧ forward c = true
  | RolledBack, Some (AAdapter (CallRollback _ _ _ as c) a) => answer_ok c a = true
  | RolledBack, Some (AJournal r _) => phase r = RolledBack
  | InDoubt, Some (AAdapter (CallRollback _ _ _ as c) a) => answer_ok c a = false
  | InDoubt, Some (AJournal r ok) => phase r = InDoubt ∨ ok = true ∧ phase r = Committed
  | Failed, Some (AJournal r ok) =>
      if ok then phase r = Preparing
      else interrupted (phase r) = true
  | _, _ => False
  end.

(** What a record never changes after its transaction started. *)
Definition TxKey : Type :=
  string * string * string * list DeviceId * list DeviceDesiredState * list ChangeSet * N.
Definition tx_key (r : TxJournalRecord) : TxKey :=
  (tx_id r, request_id r, trace_id r, devices r, desired_states r, change_sets r, created_at r).

(** [r] may follow [r0] in the journal: same transaction, an allowed phase change,
    and a strategy fixed from [Prepared] on. *)
Definition follows (r0 r : TxJournalRecord) : Prop :=
  tx_key r = tx_key r0 ∧ validate_transition (phase r0) (phase r) = Ok tt ∧
  (phase r0 = Started ∨ phase r0 = Preparing ∨ strategy r = strategy r0).

Definition may_write (st : ProtoState) (r : TxJournalRecord) : Prop :=
  justified (last st) (phase r) (strategy r) ∧
  match saved st with Some r0 => follows r0 r | None => True end.

Inductive proto_step : ProtoState → Action → ProtoState → Prop :=
  | step_written st r :
      may_write st r → proto_step st (AJournal r true) (mkProtoState (Some r) (Some (AJournal r true)))
  | step_unwritten st r :
      may_write st r → proto_step st (AJournal r false) (mkProtoState (saved st) (Some (AJournal r false)))
  | step_call r s c a :
      covers r c →
      proto_step (mkProtoState s (Some (AJournal r true))) (AAdapter c a)
        (mkProtoState s (Some (AAdapter c a))).

Inductive proto_run : list Action → ProtoState → Prop :=
  | run_start : proto_run [] (mkProtoState None None)
  | run_step t st a st' : proto_run t st → proto_step st a st' → proto_run (t ++ [a]) st'.

(** ** What the machine guarantees *)

(** The journal after the acknowledged writes of a trace. *)
Definition replay (t : list Action) (m : gmap string TxJournalRecord) : gmap string TxJournalRecord :=
  foldl (λ m a, match a with AJournal r true => <[tx_id r := r]> m | _ => m end) m t.

Definition all_written (t : list Action) : Prop :=
  ∀ r, AJournal r false ∉ t.

Lemma all_written_forallb t :
  forallb (λ a, match a with AJournal _ false => false | _ => true end) t = true → all_written t.
Proof. rewrite forallb_forall. intros Hf r Hr%list_elem_of_In. by apply Hf in Hr. Qed.

Lemma replay_snoc t a m :
  replay (t ++ [a]) m =
  match a with AJournal r true => <[tx_id r := r]> (replay t m) | _ => replay t m end.
Proof. unfold replay. rewrite foldl_app. by destruct a as [? []|]. Qed.

(** The last write is the saved record when it was acknowledged and may follow it
    when it was not, and the machine has a saved record once it has made a call. *)
Definition coherent (st : ProtoState) : Prop :=
  match last st with
  | None => saved st = None
  | Some (AJournal r true) => saved st = Some r
  | Some (AJournal r false) => match saved st with Some r0 => follows r0 r | None => True end
  | Some (AAdapter c _) => ∃ r, saved st = Some r ∧ covers r c
  end.

Lemma run_coherent t st : proto_run t st → coherent st.
Proof.
  induction 1 as [|t st a st' Hr IH Hs]; [done|].
  destruct Hs as [|st r []|r s c a Hc]; [done..|]. unfold coherent in *. simpl in *. eauto.
Qed.

(** From [Prepared] on, the records of a transaction agree on what its calls carry. *)
Definition agrees (r0 r : TxJournalRecord) : Prop := tx_key r = tx_key r0 ∧ strategy r = strategy r0.

Lemma follows_agrees r0 r :
  follows r0 r → match phase r with Preparing | Prepared | RollingBack | Failed => False | _ => True end →
  phase r ≠ Recovering → phase r ≠ Started → agrees r0 r.
Proof.
  intros (Hk & Hv%validate_transition_Ok & Hs) Hp ? ?. split; [done|].
  destruct Hs as [Hs|[Hs|Hs]]; [..|done]; rewrite Hs in Hv; by destruct (phase r).
Qed.

Lemma carries_agrees r0 r c : agrees r0 r → carries r0 c → carries r c.
Proof.
  intros [Hk Hs] [Hid Hc]. unfold tx_key in Hk. injection Hk as ? ? ? ? ? ? ?. unfold carries, identifies in *.
  destruct c; simpl in *; intuition congruence.
Qed.

Lemma run_saved t st m r :
  proto_run t st → saved st = Some r → replay t m !! tx_id r = Some r.
Proof.
  intros Hr. revert r. induction Hr as [|t st a st' Hr IH Hs]; [done|]. intros r.
  rewrite replay_snoc. destruct Hs as [st r' _|st r' _|r' s c a _]; simpl; [|apply IH..].
  intros [= <-]. by simplify_map_eq.
Qed.

(** The writes of one transaction touch one entry of the journal. *)
Lemma run_replay t st m tx :
  proto_run t st → (∀ r ok, AJournal r ok ∈ t → tx_id r = tx) →
  replay t m = match saved st with Some r => <[tx := r]> m | None => m end.
Proof.
  induction 1 as [|t st a st' Hr IH Hs]; [done|]. intros Hk. rewrite replay_snoc.
  rewrite IH by (intros r ok ?; apply (Hk r ok); set_solver).
  destruct Hs as [st r _|st r _|r s c a _]; simpl; [|done..].
  rewrite (Hk r true) by set_solver. destruct (saved st); [|done]. apply insert_insert_eq.
Qed.

(** The writes a trace acknowledged. *)
Definition written (t : list Action) : list TxJournalRecord :=
  omap (λ a, match a with AJournal r true => Some r | _ => None end) t.

Lemma written_snoc t a :
  written (t ++ [a]) = written t ++ match a with AJournal r true => [r] | _ => [] end.
Proof. unfold written. rewrite omap_app. destruct a as [r []|]; simpl; by rewrite ?app_nil_r. Qed.

(** The device did what the transaction of [r] asked for in phase [p]. *)
Definition device_did (t : list Action) (r : TxJournalRecord) (p : TxPhase) : Prop :=
  ∃ c a, AAdapter c a ∈ t ∧ call_phase c = p ∧ carries r c ∧ answer_ok c a = true.

(** What must have happened before the journal may say [r]. *)
Definition evidence (t : list Action) (r : TxJournalRecord) : Prop :=
  match phase r with
  | Verifying => device_did t r Committing
  | FinalConfirming => device_did t r Committing ∧ device_did t r Verifying
  | Committed => device_did t r Committing ∧ device_did t r Verifying ∧
      (strategy r = Some ConfirmedCommit → device_did t r FinalConfirming)
  | RolledBack => device_did t r RollingBack
  | _ => True
  end.

Lemma device_did_mono t a r p : device_did t r p → device_did (t ++ [a]) r p.
Proof. intros (c & b & ? & ?). exists c, b. set_solver. Qed.
Lemma device_did_agrees t r0 r p : agrees r0 r → device_did t r0 p → device_did t r p.
Proof. intros Ha (c & b & ? & ? & ? & ?). exists c, b. eauto using carries_agrees. Qed.
#[export] Hint Resolve device_did_mono device_did_agrees : rust.

Lemma evidence_mono t a r : evidence t r → evidence (t ++ [a]) r.
Proof. unfold evidence. destruct (phase r); intuition eauto with rust. Qed.

Lemma run_last_snoc t st a : proto_run t st → last st = Some a → ∃ t', t = t' ++ [a].
Proof. destruct 1 as [|t st b st' _ Hs]; [done|]. destruct Hs; simpl; naive_solver. Qed.

Lemma run_last t st a : proto_run t st → last st = Some a → a ∈ t.
Proof. intros Hr [t' ->]%(run_last_snoc t st a Hr). set_solver. Qed.

Lemma run_saved_in t st r : proto_run t st → saved st = Some r → AJournal r true ∈ t.
Proof.
  intros Hr. revert r. induction Hr as [|t st a st' Hr IH Hs]; [done|]. intros r.
  destruct Hs as [st r' _|st r' _|r' s c a _]; simpl; [|set_solver..]. intros [= ->]. set_solver.
Qed.

(** Until a write is acknowledged, the only thing attempted is the first write. *)
Definition unsaved (st : ProtoState) : Prop :=
  last st = None ∨ ∃ r, last st = Some (AJournal r false) ∧ phase r = Started.

Lemma unsaved_justified st p s : unsaved st → justified (last st) p s → p = Started.
Proof. intros [->|(r & -> & Hr)]; destruct p; simpl; rewrite ?Hr; naive_solver. Qed.

Lemma run_unsaved t st : proto_run t st → saved st = None → unsaved st.
Proof.
  induction 1 as [|t st a st' Hr IH Hs]; [by left|]. pose proof (run_coherent _ _ Hr) as Hco.
  destruct Hs as [|st r [Hj _]|r s c a _]; simpl in *; [done| |by intros ->].
  intros Hsv. right. exists r. split; [done|]. eapply unsaved_justified; [by apply IH|done].
Qed.

(** A write is justified by what the device answered. *)
Lemma answer_evidence t st r0 r c a :
  saved st = Some r0 → covers r0 c → follows r0 r → evidence t r0 → AAdapter c a ∈ t →
  justified (Some (AAdapter c a)) (phase r) (strategy r) → evidence t r.
Proof.
  intros Hsv [Hp0 Hc] Hf He Hin Hj. unfold evidence in *.
  assert (answer_ok c a = true → agrees r0 r → device_did t r (call_phase c)) as Hdid.
  { intros. exists c, a. eauto using carries_agrees. }
  pose proof (follows_agrees _ _ Hf) as Hag. rewrite Hp0 in He.
  destruct (phase r) eqn:Hp; try done; destruct c; try done; simpl in *; specialize (Hag I);
    (assert (agrees r0 r) by auto); intuition eauto with rust.
Qed.

Lemma may_write_evidence t st r :
  proto_run t st → (∀ r' b, AJournal r' b ∈ t → evidence t r') → may_write st r → evidence t r.
Proof.
  intros Hrun IH [Hj Hf]. pose proof (run_coherent _ _ Hrun) as Hco. unfold coherent in Hco.
  pose proof (λ a, run_last t st a Hrun) as Hlast.
  pose proof (run_unsaved _ _ Hrun) as Hun.
  destruct (last st) as [[r0 ok | c a]|] eqn:Hl; [| |by unfold evidence; destruct (phase r)].
  - specialize (IH _ _ (Hlast _ eq_refl)).
    assert (phase r = Committed ∨ phase r = RolledBack → agrees r0 r) as Hag.
    { intros Hp. destruct (saved st) as [r1|] eqn:Hsv.
      - assert (agrees r1 r) as Ha by (apply follows_agrees; [done|by destruct Hp as [->| ->]..]).
        destruct ok; [congruence|].
        assert (phase r0 = RolledBack) as Hp0 by (destruct Hp as [Hp|Hp]; by rewrite Hp in Hj).
        assert (agrees r1 r0) as Ha0 by (apply follows_agrees; [done|by rewrite Hp0..]).
        unfold agrees in *. intuition congruence.
      - destruct (Hun eq_refl) as [Hl'|(r' & Hl' & Hr')]; rewrite Hl in Hl'; [done|].
        injection Hl' as -> ->.
        destruct Hp as [Hp|Hp]; rewrite Hp in Hj; simpl in Hj; [done|congruence]. }
    unfold evidence in *. destruct (phase r) eqn:Hp; try done; destruct ok; try done; simpl in Hj;
      [destruct Hj as [Hj Hne]| |]; rewrite Hj in IH; intuition eauto with rust.
  - destruct Hco as (r0 & Hsv & Hcov). rewrite Hsv in Hf.
    eapply answer_evidence; [done..| |by apply Hlast|done]. eapply IH, run_saved_in; done.
Qed.

Lemma run_evidence t st r b : proto_run t st → AJournal r b ∈ t → evidence t r.
Proof.
  intros Hr. revert r b. induction Hr as [|t st a st' Hr IH Hs]; [set_solver|].
  intros r b [Hin|Ha]%elem_of_app; [by eapply evidence_mono, IH|].
  apply list_elem_of_singleton in Ha. subst a.
  apply evidence_mono. inv Hs; by eapply may_write_evidence.
Qed.

(** A call is made right after its phase was written. *)
Lemma run_write_ahead t st i c a :
  proto_run t st → t !! i = Some (AAdapter c a) →
  ∃ j r, i = S j ∧ t !! j = Some (AJournal r true) ∧ covers r c.
Proof.
  induction 1 as [|t st b st' Hr IH Hs]; [done|].
  intros [Hi|[Hi Hb]]%lookup_app_Some.
  { destruct (IH Hi) as (j & r & -> & Hj & ?). exists j, r. split_and!; [done| |done].
    by apply lookup_app_l_Some. }
  apply list_lookup_singleton_Some in Hb as [Hi0 ->]. inv Hs.
  destruct (run_last_snoc _ _ _ Hr eq_refl) as [t' ->]. rewrite length_app in *. simpl in *.
  exists (length t'), r. split_and!; [lia| |done].
  rewrite <-app_assoc. by apply list_lookup_middle.
Qed.

(** The acknowledged records form a history of the phase machine. *)
Lemma run_phases t st :
  proto_run t st →
  match saved st with
  | None => written t = []
  | Some r => ∃ r0 l, written t = r0 :: l ∧ phase r0 = Started ∧
      list.last (r0 :: l) = Some r ∧
      ∀ i x y, (r0 :: l) !! i = Some x → (r0 :: l) !! S i = Some y → follows x y
  end.
Proof.
  induction 1 as [|t st a st' Hr IH Hs]; [done|]. rewrite written_snoc.
  destruct Hs as [st r [Hj Hf]|st r _|r s c a _]; simpl; rewrite ?app_nil_r; [|done..].
  destruct (saved st) as [r0|] eqn:Hsv.
  - destruct IH as (r1 & l & -> & H1 & Hl & Hc). exists r1, (l ++ [r]). split_and!; [done..| |].
    { by rewrite app_comm_cons, last_snoc. }
    rewrite app_comm_cons. intros i x y [Hx|[Hi Hx]]%lookup_app_Some Hy.
    + apply lookup_app_Some in Hy as [Hy|[Hi Hy]]; [by eapply Hc|].
      apply list_lookup_singleton_Some in Hy as [Hi0 ->].
      rewrite last_lookup in Hl. replace i with (pred (length (r1 :: l))) in Hx; [congruence|].
      simpl. lia.
    + apply list_lookup_singleton_Some in Hx as [Hi0 ->].
      apply lookup_lt_Some in Hy. rewrite length_app in Hy. simpl in *. lia.
  - rewrite IH. exists r, []. split_and!; [done| |done|by intros [|?] x y].
    eapply unsaved_justified; [by eapply run_unsaved|exact Hj].
Qed.

Lemma run_snoc_inv t a st :
  proto_run (t ++ [a]) st → ∃ st0, proto_run t st0 ∧ proto_step st0 a st.
Proof.
  remember (t ++ [a]) as t' eqn:Ht. destruct 1 as [|t' st0 b st Hr Hs]; [by destruct t|].
  apply app_inj_tail in Ht as [-> ->]. eauto.
Qed.

Lemma run_prefix t1 t2 st : proto_run (t1 ++ t2) st → ∃ st1, proto_run t1 st1.
Proof.
  induction t2 as [|a t2 IH] using rev_ind in st |- *; [rewrite app_nil_r; eauto|].
  rewrite app_assoc. intros (st0 & Hr & _)%run_snoc_inv. eauto.
Qed.

Lemma run_idle t st : proto_run t st → last st = None → t = [].
Proof. destruct 1 as [|t st a st' _ Hs]; [done|]. by destruct Hs. Qed.

(** Whenever a call has been made, the journal holds a record of the transaction
    that recovery picks up. *)
Lemma run_recoverable t c a st m :
  proto_run (t ++ [AAdapter c a]) st →
  ∃ r, AJournal r true ∈ t ∧ replay t m !! tx_id r = Some r ∧ covers r c ∧
    requires_recovery (phase r) = true.
Proof.
  intros (st0 & Hr & Hs)%run_snoc_inv. inv Hs as [| |r s ? ? Hc].
  pose proof (run_coherent _ _ Hr) as Hco. unfold coherent in Hco. simpl in Hco. subst s.
  exists r. split_and!; [by eapply run_last|by eapply run_saved|done|].
  destruct Hc as [-> _]. by destruct c.
Qed.

(** After a write that failed, the transaction can only be closed. *)
Definition closing (st : ProtoState) : Prop :=
  match last st with
  | Some (AJournal r ok) =>
      ok = false ∨ match phase r with RolledBack | InDoubt | Failed => True | _ => False end
  | _ => False
  end.

Lemma closing_step st a st' : closing st → proto_step st a st' → closing st'.
Proof.
  unfold closing. intros Hc Hs. destruct Hs as [st r [Hj _]|st r _|r s c a [Hp _]]; simpl in *; [|by left|].
  - right. destruct (last st) as [[r0 ok|]|]; [|done..].
    destruct (phase r); simpl in Hj; try done; destruct ok; try done; destruct Hc as [?|Hc]; try done;
      destruct (phase r0); naive_solver.
  - destruct Hc as [?|Hc]; [done|]. rewrite Hp in Hc. by destruct c.
Qed.

Lemma run_closing t st r : proto_run t st → AJournal r false ∈ t → closing st.
Proof.
  induction 1 as [|t st a st' Hr IH Hs]; [set_solver|].
  intros [Hin|Ha]%elem_of_app; [by eapply closing_step; [apply IH|]|].
  apply list_elem_of_singleton in Ha. subst a. inv Hs. by left.
Qed.

(** When a call is made, every write before it was acknowledged. *)
Lemma run_call_written t c a st : proto_run (t ++ [AAdapter c a]) st → all_written (t ++ [AAdapter c a]).
Proof.
  intros Hr r Hin. pose proof (run_closing _ _ _ Hr Hin) as Hc.
  apply run_snoc_inv in Hr as (st0 & _ & Hs). by inv Hs.
Qed.

(** Before the first [Prepare] nothing has been asked of the device. *)
Lemma run_early t st r :
  proto_run t st → last st = Some (AJournal r true) → phase r = Started ∨ phase r = Preparing →
  ∀ c a, AAdapter c a ∉ t.
Proof.
  induction 1 as [|t st a st' Hr IH Hs] in r |- *; [done|].
  destruct Hs as [st r' [Hj _]| |]; simpl; [|done..]. intros [= ->] Hp c b.
  rewrite elem_of_app, list_elem_of_singleton. intros [Hin|?]; [|done]. revert Hin.
  destruct Hp as [Hp|Hp]; rewrite Hp in Hj; simpl in Hj;
    destruct (last st) as [[r0 []|]|] eqn:Hl; try done; [|by eapply IH].
  apply run_idle in Hr as ->; [set_solver|done].
Qed.

Lemma run_failed t st r :
  proto_run t st → last st = Some (AJournal r true) → phase r = Failed → all_written t →
  ∀ c a, AAdapter c a ∉ t.
Proof.
  destruct 1 as [|t st a st' Hr Hs]; [done|].
  destruct Hs as [st r' [Hj _]| |]; simpl; [|done..]. intros [= ->] Hp Hall c b.
  rewrite elem_of_app, list_elem_of_singleton. intros [Hin|?]; [|done]. revert Hin.
  rewrite Hp in Hj. simpl in Hj. destruct (last st) as [[r0 []|]|] eqn:Hl; try done.
  - eapply run_early; eauto.
  - destruct (Hall r0). apply elem_of_app. left. by eapply run_last.
Qed.
