(* ===== verification/ApplyCorrect.v ===== *)
(** * The apply coordinator refines its protocol

    Every run of [apply_desired_states], with any stores that satisfy their
    contracts and whatever the adapter, the lock table and the journal answer, is a
    sequence of runs of the machine of [ApplyProtocol]; from this follow the
    write-ahead discipline, the meaning of each status, and what happens to the
    journal and to the shadow store. *)
From S2P Require Export ApplyProtocol.
Local Open Scope N_scope.

(** ** Records *)

Lemma with_phase_fields t r p :
  phase (with_phase t r p) = p ∧ tx_key (with_phase t r p) = tx_key r ∧
  strategy (with_phase t r p) = strategy r.
Proof. by destruct r. Qed.
Lemma with_error_fields t r c m :
  phase (with_error t r c m) = phase r ∧ tx_key (with_error t r c m) = tx_key r ∧
  strategy (with_error t r c m) = strategy r.
Proof. by destruct r. Qed.
Lemma with_strategy_fields t r s :
  phase (with_strategy t r s) = phase r ∧ tx_key (with_strategy t r s) = tx_key r ∧
  strategy (with_strategy t r s) = Some s.
Proof. by destruct r. Qed.

(** [r'] is [r] moved to phase [p]. *)
Definition moved (p : TxPhase) (r r' : TxJournalRecord) : Prop :=
  phase r' = p ∧ tx_key r' = tx_key r ∧ strategy r' = strategy r.

Lemma moved_with_phase t r p : moved p r (with_phase t r p).
Proof. apply with_phase_fields. Qed.
Lemma moved_with_error t r p c m : phase r = p → moved p r (with_error t r c m).
Proof. intros <-. apply with_error_fields. Qed.
Lemma moved_trans p q r1 r2 r3 : moved p r1 r2 → moved q r2 r3 → moved q r1 r3.
Proof. unfold moved. intuition congruence. Qed.
Lemma moved_follows p r r' :
  moved p r r' → validate_transition (phase r) p = Ok tt → follows r r'.
Proof. intros (Hp & Hk & Hs) Hv. unfold follows. rewrite Hp. auto. Qed.

Lemma tx_key_identifies x r r' : tx_key r' = tx_key r → identifies x r → identifies x r'.
Proof. unfold tx_key, identifies. intros [=]. intuition congruence. Qed.

#[export] Hint Resolve moved_with_phase moved_with_error moved_trans : rust.

(** ** Reasoning about bodies that hold the journal record *)
Section logic.
Context {J S : Type} `{!TxJournalStore J} `{!ShadowStateStore S}.
Context (jok : J → Prop) (jview : J → gmap string TxJournalRecord).
Context (Hlaws : TxJournalLaws J jok jview).
Context (sok : S → Prop) (sview : S → gmap DeviceId DeviceShadowState).
Context (Hshadow : ShadowStoreLaws S sok sview).
Context (env : Env) (self : ApplyCoordinator) (w0 : World (J:=J) (S:=S)).
Context (key : TxKey).

Notation W := (World (J:=J) (S:=S)).
Notation TxM := (ST UnderlayError (W * TxJournalRecord)).
Notation TxRun A := (W * TxJournalRecord → A * (W * TxJournalRecord)).

(** [w] is reached from [w0] by a run of the machine on the transaction [key] that
    ends in [st], with [sh] in the shadow store. *)
Definition Proto (sh : S) (w : W) (st : ProtoState) : Prop :=
  ∃ t, w_trace w = w_trace w0 ++ t ∧ proto_run t st ∧ w_shadow w = sh ∧
       w_events w = w_events w0 ∧ jok (w_journal w) ∧
       (∀ r ok, AJournal r ok ∈ t → tx_key r = key) ∧
       (all_written t → jview (w_journal w) = replay t (jview (w_journal w0))).

Definition wp {A} (sh : S) (m : TxM A)
    (Q : UnderlayResult A → ProtoState → TxJournalRecord → Prop)
    (st : ProtoState) (r : TxJournalRecord) : Prop :=
  ∀ w, Proto sh w st →
    let '(x, (w', r')) := m (w, r) in ∃ st', Proto sh w' st' ∧ Q x st' r'.

Lemma wp_mono {A} sh (m : TxM A) Q Q' st r :
  wp sh m Q st r → (∀ x st r, Q x st r → Q' x st r) → wp sh m Q' st r.
Proof.
  intros Hm HQ w Hw. specialize (Hm w Hw). destruct (m (w, r)) as [x [w' r']]. naive_solver.
Qed.

Lemma wp_bind {A B} sh (m : TxM A) (f : A → TxM B) Q st r :
  wp sh m (λ x st r, match x with Ok a => wp sh (f a) Q st r | Err e => Q (Err e) st r end) st r →
  wp sh (m ≫= f) Q st r.
Proof.
  intros Hm w Hw. specialize (Hm w Hw). unfold mbind, ST_bind.
  destruct (m (w, r)) as [[a|e] [w' r']].
  - destruct Hm as (st' & Hw' & Hf). by apply Hf.
  - naive_solver.
Qed.

Lemma wp_try {A} sh (m : TxM A) Q st r :
  wp sh m (λ x, Q (Ok x)) st r → wp sh (st_try m) Q st r.
Proof.
  intros Hm w Hw. specialize (Hm w Hw). unfold st_try.
  by destruct (m (w, r)) as [x [w' r']].
Qed.

Lemma wp_st_lift {A} sh (x : UnderlayResult A) (Q : _ → _ → _ → Prop) st r :
  Q x st r → wp sh (st_lift x) Q st r.
Proof. intros HQ w Hw. simpl. eauto. Qed.
Lemma wp_ret {A} sh (a : A) (Q : _ → _ → _ → Prop) st r : Q (Ok a) st r → wp sh (mret a) Q st r.
Proof. intros HQ w Hw. simpl. eauto. Qed.
Lemma wp_fail {A} sh e (Q : _ → _ → _ → Prop) st r : Q (Err e) st r → wp (A:=A) sh (st_fail e) Q st r.
Proof. intros HQ w Hw. simpl. eauto. Qed.
Lemma wp_get sh (Q : _ → _ → _ → Prop) st r : Q (Ok r) st r → wp sh get_record Q st r.
Proof. intros HQ w Hw. simpl. eauto. Qed.
Lemma wp_set sh r' (Q : _ → _ → _ → Prop) st r : Q (Ok tt) st r' → wp sh (set_record r') Q st r.
Proof. intros HQ w Hw. simpl. eauto. Qed.

Lemma wp_ask {A} sh (f : nat → UnderlayResult A) (Q : _ → _ → _ → Prop) st r :
  (∀ x, Q x st r) → wp sh (lift (ask_result f)) Q st r.
Proof. intros HQ w Hw. simpl. exists st. split; [exact Hw|apply HQ]. Qed.
Lemma wp_now sh (Q : _ → _ → _ → Prop) st r :
  (∀ t, Q (Ok t) st r) → wp sh (lift (now env)) Q st r.
Proof. intros HQ w Hw. simpl. exists st. split; [exact Hw|apply HQ]. Qed.

Lemma wp_enter sh p (Q : _ → _ → _ → Prop) st r :
  validate_transition (phase r) p = Ok tt →
  (∀ r', moved p r r' → Q (Ok tt) st r') → wp sh (enter env p) Q st r.
Proof.
  intros Hv HQ. apply wp_bind, wp_get, wp_bind, wp_now. intros t. apply wp_bind, wp_st_lift.
  unfold transition_phase. rewrite Hv. simpl. apply wp_set, HQ, moved_with_phase.
Qed.

Lemma wp_note_error sh c m (Q : _ → _ → _ → Prop) st r :
  (∀ r', moved (phase r) r r' → Q (Ok tt) st r') → wp sh (note_error env c m) Q st r.
Proof.
  intros HQ. apply wp_bind, wp_get, wp_bind, wp_now. intros t.
  apply wp_set, HQ. by apply moved_with_error.
Qed.

(** A write makes the machine step, acknowledged or not. *)
Lemma wp_write sh r0 (Q : _ → _ → _ → Prop) st r :
  may_write st r0 → (saved st = None → tx_key r0 = key) →
  Q (Ok tt) (mkProtoState (Some r0) (Some (AJournal r0 true))) r →
  (∀ e, Q (Err e) (mkProtoState (saved st) (Some (AJournal r0 false))) r) →
  wp sh (lift (journal_write r0)) Q st r.
Proof.
  intros Hm Hk0 HQ HE w (t & Ht & Hrun & Hsh & Hev & Hj & Hk & Hview). unfold lift, journal_write.
  assert (tx_key r0 = key) as Hkey.
  { destruct Hm as [_ Hm]. destruct (saved st) as [r1|] eqn:Hsv; [|auto].
    destruct Hm as [-> _]. by eapply Hk, run_saved_in. }
  assert (∀ ok r' ok', AJournal r' ok' ∈ t ++ [AJournal r0 ok] → tx_key r' = key) as Hk'.
  { intros ok r' ok' [?|[= -> ->]%list_elem_of_singleton]%elem_of_app; by eauto. }
  destruct (journal_put r0 (w_journal w)) as [x j] eqn:Hput.
  destruct (journal_put_law _ _ _ _ Hj Hput) as [Hj' Hv].
  destruct x as [[]|e]; simpl.
  - exists (mkProtoState (Some r0) (Some (AJournal r0 true))). split; [|done].
    exists (t ++ [AJournal r0 true]). split_and!; [|by econstructor; [|constructor]|done..|apply Hk'|].
    + simpl. by rewrite Ht, app_assoc.
    + simpl. intros Hall. rewrite replay_snoc, <-Hview by (intros r' ?; apply (Hall r'); set_solver).
      by destruct Hv as [?|[? _]].
  - exists (mkProtoState (saved st) (Some (AJournal r0 false))). split; [|done].
    exists (t ++ [AJournal r0 false]). split_and!; [|by econstructor; [|constructor]|done..|apply Hk'|].
    + simpl. by rewrite Ht, app_assoc.
    + intros Hall. destruct (Hall r0). set_solver.
Qed.

Lemma wp_save_any sh (Q : _ → _ → _ → Prop) st r :
  may_write st r → (saved st = None → tx_key r = key) →
  Q (Ok tt) (mkProtoState (Some r) (Some (AJournal r true))) r →
  (∀ e, Q (Err e) (mkProtoState (saved st) (Some (AJournal r false))) r) →
  wp sh save Q st r.
Proof. intros. apply wp_bind, wp_get. by apply wp_write. Qed.

Lemma wp_save sh (Q : _ → _ → _ → Prop) st r r0 :
  saved st = Some r0 → may_write st r →
  Q (Ok tt) (mkProtoState (Some r) (Some (AJournal r true))) r →
  (∀ e, Q (Err e) (mkProtoState (Some r0) (Some (AJournal r false))) r) →
  wp sh save Q st r.
Proof. intros Hs ? ? ?. apply wp_save_any; rewrite ?Hs; by auto. Qed.

Lemma wp_call sh c (Q : _ → _ → _ → Prop) s r0 r :
  covers r0 c →
  (∀ a, Q a (mkProtoState s (Some (AAdapter c a))) r) →
  wp sh (lift (call env c)) Q (mkProtoState s (Some (AJournal r0 true))) r.
Proof.
  intros Hc HQ w (t & Ht & Hrun & Hsh & Hev & Hj & Hk & Hview). simpl.
  set (a := adapter env (w_tick w) c). exists (mkProtoState s (Some (AAdapter c a))).
  split; [|apply HQ]. exists (t ++ [AAdapter c a]).
  split_and!; [|by econstructor; [|constructor]|done..| |].
  - simpl. by rewrite Ht, app_assoc.
  - intros r' ok [?|?%list_elem_of_singleton]%elem_of_app; by eauto.
  - intros Hall. rewrite replay_snoc. apply Hview. intros r' ?. apply (Hall r'). set_solver.
Qed.

(** ** The steps of a transaction *)

(** The machine's states between two steps. *)
Notation acked r := (mkProtoState (Some r) (Some (AJournal r true))).
Notation unacked r0 r := (mkProtoState (Some r0) (Some (AJournal r false))).
Notation answered r c a := (mkProtoState (Some r) (Some (AAdapter c a))).

(** After an error, [finish_failed_apply] can write the record it holds. *)
Definition fail_ready (st : ProtoState) (r : TxJournalRecord) : Prop :=
  let p := failed_apply_phase (phase r) in
  validate_transition (phase r) p = Ok tt ∧ justified (last st) p (strategy r) ∧
  ∃ r0, saved st = Some r0 ∧ tx_key r = tx_key r0 ∧ validate_transition (phase r0) p = Ok tt ∧
        (phase r0 = Started ∨ phase r0 = Preparing ∨ strategy r = strategy r0).

Lemma acked_fail_ready r :
  phase r = Preparing ∨ phase r = RolledBack ∨ phase r = InDoubt → fail_ready (acked r) r.
Proof.
  intros Hp. split_and!.
  1,2: by destruct Hp as [Hp|[Hp|Hp]]; rewrite Hp; simpl; auto.
  exists r. split_and!; [done..| |auto]. by destruct Hp as [Hp|[Hp|Hp]]; rewrite Hp.
Qed.

(** A write that fails on the way to [p]. *)
Lemma unacked_fail_ready p r0 r :
  moved p r0 r → validate_transition (phase r0) p = Ok tt → phase r0 ≠ p →
  match p with
  | Prepared | Committing | Verifying | FinalConfirming | RolledBack | InDoubt => True
  | _ => False
  end →
  phase r0 ≠ Committed →
  fail_ready (unacked r0 r) r.
Proof.
  intros (Hp & Hk & Hs) Hv Hne Hin Hnc. unfold fail_ready. rewrite Hp. simpl.
  apply validate_transition_Ok in Hv. split_and!.
  - by destruct p.
  - destruct p; try done; simpl; rewrite Hp; auto.
  - exists r0. split_and!; [done..| |auto]. apply validate_transition_Ok.
    by destruct p; try done; destruct (phase r0).
Qed.

(** The step from [r0], acknowledged, to [r] in phase [p]. *)
Lemma may_write_moved st p r0 r :
  saved st = Some r0 → moved p r0 r → validate_transition (phase r0) p = Ok tt →
  justified (last st) p (strategy r) → may_write st r.
Proof.
  intros Hs Hm Hv Hj. unfold may_write. rewrite Hs. pose proof Hm as (-> & _ & _).
  split; [done|]. by eapply moved_follows.
Qed.

Lemma moved_follows_phase p r0 r : moved p r0 r → phase r = p.
Proof. by intros (? & _). Qed.

(** The last write of a rollback: [p] is where the rollback ended. *)
Lemma rollback_end p r0 r c a :
  phase r0 = RollingBack → moved p r0 r → covers r0 c →
  (p = RolledBack ∧ answer_ok c a = true ∨ p = InDoubt ∧ answer_ok c a = false) →
  ∀ sh, wp sh save (λ _, fail_ready) (answered r0 c a) r.
Proof.
  intros Hp Hm [Hc _] Hcase sh. rewrite Hp in Hc.
  eapply wp_save; [done|..].
  - eapply may_write_moved; [done..| |]; rewrite ?Hp; destruct c; try done; naive_solver.
  - apply acked_fail_ready. rewrite (moved_follows_phase _ _ _ Hm). naive_solver.
  - intros e. eapply unacked_fail_ready; [done|..]; rewrite ?Hp; destruct Hcase as [[-> _]|[-> _]]; done.
Qed.

Lemma rollback_in_doubt sh code message (err : UnderlayError) r c a :
  phase r = RollingBack → covers r c → answer_ok c a = false →
  wp (A:=unit) sh (_ ← enter env InDoubt; _ ← note_error env code message; _ ← save; st_fail err)
    (λ _, fail_ready) (answered r c a) r.
Proof.
  intros Hp Hc Ha. apply wp_bind, wp_enter; [by rewrite Hp|]. intros r1 Hr1.
  apply wp_bind, wp_note_error. rewrite (moved_follows_phase _ _ _ Hr1). intros r2 Hr2.
  apply wp_bind. eapply wp_mono; [eapply rollback_end; eauto using moved_trans|].
  intros [[]|e] st r3 Hf; [by apply wp_fail|done].
Qed.

Lemma rollback_spec sh device context r c a :
  covers r c → identifies context r → answer_ok c a = false → forward c = true →
  wp sh (rollback_after_endpoint_failure env device context) (λ _, fail_ready) (answered r c a) r.
Proof.
  intros Hc Hctx Ha Hne.
  assert (validate_transition (phase r) RollingBack = Ok tt) as Hv.
  { destruct Hc as [-> _]. by destruct c. }
  apply wp_bind, wp_get, wp_bind, wp_now. intros t. apply wp_bind, wp_st_lift.
  unfold transition_phase. rewrite Hv. simpl. set (rb := with_phase t r RollingBack).
  assert (moved RollingBack r rb) as Hrb by apply moved_with_phase.
  apply wp_bind, wp_write; [|done|..].
  { eapply may_write_moved; [done..|]. by simpl. }
  2: { intros e. destruct Hc as [Hc _], Hrb as (Hp & _ & _). unfold fail_ready. rewrite Hc.
       destruct c; try done; simpl; rewrite Hp;
         (split_and!; [done..|]; exists r; rewrite Hc; by split_and!; auto). }
  simpl. apply wp_bind, wp_set, wp_bind, wp_try.
  set (rc := CallRollback device context (strategy rb)).
  assert (covers rb rc) as Hcov.
  { destruct Hrb as (? & Hk & ?). split; [done|]. split; [by eapply tx_key_identifies|done]. }
  destruct Hrb as (Hp & _ & _). apply wp_call; [done|]. intros [o|e]; cbv beta iota.
  - destruct (out_status o) eqn:Ho;
      try (apply rollback_in_doubt; [done..|]; simpl; by rewrite Ho);
      (apply wp_bind, wp_enter; [by rewrite Hp|]; intros r' Hr'; eapply rollback_end; [done..|];
       left; simpl; by rewrite Ho).
  - destruct (journal_error_fields e). by apply rollback_in_doubt.
Qed.

Lemma preserving_spec sh device context primary r c a :
  covers r c → identifies context r → answer_ok c a = false → forward c = true →
  wp sh (rollback_after_endpoint_failure_preserving_primary env device context primary)
    (λ x st r, is_ok x = false ∧ fail_ready st r) (answered r c a) r.
Proof.
  intros. apply wp_bind, wp_try. eapply wp_mono; [by apply rollback_spec|].
  intros [[]|e] st r' Hf; by apply wp_fail.
Qed.

(** A postcondition that asks only [fail_ready] of errors. *)
Definition or_fail_ready {A} (Q : A → ProtoState → TxJournalRecord → Prop)
    (x : UnderlayResult A) (st : ProtoState) (r : TxJournalRecord) : Prop :=
  match x with Ok a => Q a st r | Err _ => fail_ready st r end.

Lemma preserving_fails {A} sh device context primary r c a (k : unit → TxM A) Q :
  covers r c → identifies context r → answer_ok c a = false → forward c = true →
  wp sh (rollback_after_endpoint_failure_preserving_primary env device context primary ≫= k)
    (or_fail_ready Q) (answered r c a) r.
Proof.
  intros. apply wp_bind. eapply wp_mono; [by apply preserving_spec|].
  by intros [[]|e] st r' [? Hf].
Qed.

(** [journal_record.transition_phase(p)?; self.journal.put(journal_record)?; ..] *)
Lemma step_spec {A} sh p (k : TxM A) Q st r :
  saved st = Some r → validate_transition (phase r) p = Ok tt → phase r ≠ p →
  match p with Prepared | Committing | Verifying | FinalConfirming => True | _ => False end →
  justified (last st) p (strategy r) →
  (∀ r', moved p r r' → wp sh k (or_fail_ready Q) (acked r') r') →
  wp sh (_ ← enter env p; _ ← save; k) (or_fail_ready Q) st r.
Proof.
  intros Hs Hv Hne Hp Hj Hk. apply wp_bind, wp_enter; [done|]. intros r' Hr'.
  apply wp_bind. eapply wp_save; [done|..].
  - eapply may_write_moved; [done..|]. by destruct Hr' as (_ & _ & ->).
  - by apply Hk.
  - intros e. simpl. eapply unacked_fail_ready; [done..| |]; [by destruct p|].
    intros Hc. rewrite Hc in Hv. by destruct p.
Qed.

Lemma prepare_spec sh device context desired r :
  phase r = Preparing → identifies context r → desired ∈ desired_states r →
  wp sh (prepare_endpoint env device context desired)
    (or_fail_ready (λ _ st r', st = acked r' ∧ moved Prepared r r')) (acked r) r.
Proof.
  intros Hp Hctx Hd. apply wp_bind, wp_try. set (c := CallPrepare device context desired).
  assert (covers r c) as Hc by done.
  apply wp_call; [done|]. intros [o|e]; cbv beta iota.
  - case_decide as Ho.
    + apply preserving_fails; [done..| |done]. simpl. by destruct (out_status o).
    + eapply step_spec; [done|by rewrite Hp..|done| |].
      * simpl. by rewrite Ho.
      * intros r' Hr'. by apply wp_ret.
  - by apply preserving_fails.
Qed.

(** The state after a call of phase [p] that the device answered as asked. *)
Definition did (p : TxPhase) (r : TxJournalRecord) (st : ProtoState) (r' : TxJournalRecord) : Prop :=
  moved p r r' ∧ ∃ c a, st = answered r' c a ∧ call_phase c = p ∧ answer_ok c a = true.

Lemma commit_spec sh device context s k r :
  phase r = Prepared → identifies context r → strategy r = Some s →
  wp sh (commit_endpoint env self device context s k)
    (or_fail_ready (λ _, did Committing r)) (acked r) r.
Proof.
  intros Hp Hctx Hs. eapply step_spec; [done|by rewrite Hp..|done|done|].
  intros r' Hr'. apply wp_bind, wp_try.
  set (c := CallCommit device context s (confirmed_commit_timeout_secs self) k).
  assert (identifies context r') by (eapply tx_key_identifies; [apply Hr'|done]).
  assert (covers r' c) as Hc.
  { destruct Hr' as (? & ? & Hs'). do 2 (split; [done|]). simpl. by rewrite Hs'. }
  apply wp_call; [done|]. intros [o|e]; cbv beta iota.
  - destruct (commit_status_matches_strategy _ _) eqn:Ho.
    + apply wp_ret. split; [done|]. by eexists c, _.
    + by apply preserving_fails.
  - by apply preserving_fails.
Qed.

Lemma did_identifies p context r st r' : did p r st r' → identifies context r → identifies context r'.
Proof. intros [(_ & Hk & _) _]. by apply tx_key_identifies. Qed.

Lemma verify_spec sh device context desired cs r0 r c a :
  phase r = Committing → call_phase c = Committing → answer_ok c a = true →
  identifies context r → desired ∈ desired_states r → cs ∈ change_sets r → r0 = r →
  wp sh (verify_endpoint env device context desired cs)
    (or_fail_ready (λ _, did Verifying r)) (answered r0 c a) r.
Proof.
  intros Hp Hc Ha Hctx Hd Hcs ->. eapply step_spec; [done|by rewrite Hp..|done|by destruct c|].
  intros r' Hr'. apply wp_bind, wp_try.
  set (c' := CallVerify device context desired cs).
  assert (identifies context r') by (eapply tx_key_identifies; [apply Hr'|done]).
  assert (covers r' c') as Hc'.
  { destruct Hr' as (? & Hk & Hs'). unfold tx_key in Hk. injection Hk as ?????.
    do 2 (split; [done|]). simpl. split; congruence. }
  apply wp_call; [done|]. intros [o|e]; cbv beta iota; [|by apply preserving_fails].
  destruct (out_status o) eqn:Ho;
    try (apply preserving_fails; [done..| |done]; simpl; by rewrite Ho);
    (apply wp_ret; split; [done|]; eexists c', _; split_and!; [done..|]; simpl; by rewrite Ho).
Qed.

(** The state from which the transaction is committed. *)
Definition confirmed (s : TransactionStrategy) (r : TxJournalRecord) (st : ProtoState)
    (r' : TxJournalRecord) : Prop :=
  moved FinalConfirming r r' ∧ saved st = Some r' ∧ justified (last st) Committed (Some s).

Lemma final_confirm_spec sh device context r c a :
  phase r = Verifying → call_phase c = Verifying → answer_ok c a = true →
  identifies context r → strategy r = Some ConfirmedCommit →
  wp sh (final_confirm_endpoint env device context)
    (or_fail_ready (λ _, confirmed ConfirmedCommit r)) (answered r c a) r.
Proof.
  intros Hp Hc Ha Hctx Hs. eapply step_spec; [done|by rewrite Hp..|done|by destruct c|].
  intros r' Hr'. apply wp_bind, wp_try. set (c' := CallFinalConfirm device context).
  assert (identifies context r') by (eapply tx_key_identifies; [apply Hr'|done]).
  assert (covers r' c') as Hc'.
  { destruct Hr' as (? & Hk & Hs'). do 2 (split; [done|]). simpl. by rewrite Hs'. }
  apply wp_call; [done|]. intros [o|e]; cbv beta iota.
  - case_decide as Ho.
    + apply wp_ret. split_and!; [done..|]. simpl. by rewrite Ho.
    + eapply wp_mono; [apply (preserving_spec _ _ _ _ _ c'); [done..| |done]|].
      * simpl. by destruct (out_status o).
      * by intros [[]|e] st r1 [? ?].
  - eapply wp_mono; [by apply (preserving_spec _ _ _ _ _ c')|]. by intros [[]|?] st r1 [? ?].
Qed.

Lemma finalize_spec sh s r c a :
  phase r = Verifying → call_phase c = Verifying → answer_ok c a = true → s ≠ ConfirmedCommit →
  wp sh (finalize_non_confirmed_commit env)
    (or_fail_ready (λ _, confirmed s r)) (answered r c a) r.
Proof.
  intros Hp Hc Ha Hs. apply wp_bind, wp_enter; [by rewrite Hp|]. intros r' Hr'. eapply wp_save; [done|..].
  - eapply may_write_moved; [done..|by rewrite Hp|]. by destruct c.
  - split_and!; [done..|]. split; [by eapply moved_follows_phase|congruence].
  - intros e. eapply unacked_fail_ready; [done|by rewrite Hp..|done|by rewrite Hp].
Qed.

(** ** The transaction of an endpoint *)

(** [r] is the record of the transaction that brings [desired] about. *)
Definition records (desired : DeviceDesiredState) (plan : DryRunPlan) (tx_context : TxContext)
    (r : TxJournalRecord) : Prop :=
  tx_id r = ctx_tx_id tx_context ∧ request_id r = ctx_request_id tx_context ∧
  trace_id r = ctx_trace_id tx_context ∧ desired_states r = [desired] ∧
  change_sets r = dp_change_sets plan.

Lemma records_key desired plan tx r r' :
  tx_key r' = tx_key r → records desired plan tx r → records desired plan tx r'.
Proof. unfold tx_key, records. intros [=]. intuition congruence. Qed.
Lemma records_identifies desired plan tx r device :
  records desired plan tx r → identifies (tx_request_context device tx) r.
Proof. intros (? & ? & ? & _). by repeat split. Qed.

Lemma find_change_set_in plan d cs : find_change_set plan d = Some cs → cs ∈ dp_change_sets plan.
Proof. intros [? _]%find_some. by apply list_elem_of_In. Qed.

(** The state from which [finish_successful_apply] starts. *)
Definition ready (s : TransactionStrategy) (r : TxJournalRecord) (st : ProtoState)
    (r' : TxJournalRecord) : Prop :=
  phase r' = FinalConfirming ∧ tx_key r' = tx_key r ∧ strategy r' = Some s ∧
  saved st = Some r' ∧ justified (last st) Committed (Some s).

(** Prepare, commit, verify and confirm, after the strategy was journalled. *)
Lemma pipeline_spec sh device tx_context plan desired cs s r0 r :
  phase r = Preparing → records desired plan tx_context r → strategy r = Some s →
  cs ∈ dp_change_sets plan → tx_key r = tx_key r0 →
  let context := tx_request_context device tx_context in
  wp sh (checksum ← prepare_endpoint env device context desired;
         _ ← commit_endpoint env self device context s checksum;
         report ← verify_endpoint env device context desired cs;
         _ ← (if decide (s = ConfirmedCommit) then final_confirm_endpoint env device context
              else finalize_non_confirmed_commit env);
         mret (Some s, Some report))
    (or_fail_ready (λ '(sel, _) st r', sel = Some s ∧ ready s r0 st r')) (acked r) r.
Proof.
  intros Hp Hr Hs Hcs Hk context.
  assert (∀ r', tx_key r' = tx_key r → records desired plan tx_context r') as Hrec
    by (intros; by eapply records_key).
  assert (∀ r', tx_key r' = tx_key r → identifies context r') as Hid
    by (intros; by eapply records_identifies, Hrec).
  apply wp_bind. eapply wp_mono; [apply prepare_spec; [done|by apply Hid|]|].
  { destruct Hr as (_ & _ & _ & -> & _). by apply list_elem_of_singleton. }
  intros [k|e] st r1; [intros [-> (Hp1 & Hk1 & Hs1)]|done].
  apply wp_bind. eapply wp_mono; [apply commit_spec; [done|by apply Hid|congruence]|].
  intros [[]|e] st r2; [intros [(Hp2 & Hk2 & Hs2) (c & a & -> & Hc & Ha)]|done].
  destruct (Hrec r2) as (_ & _ & _ & Hd2 & Hc2); [congruence|].
  apply wp_bind. eapply wp_mono;
    [apply verify_spec; [done..|apply Hid; congruence|by rewrite Hd2, list_elem_of_singleton|by rewrite Hc2|done]|].
  clear c a Hc Ha.
  intros [report|e] st r3; [intros [(Hp3 & Hk3 & Hs3) (c & a & -> & Hc & Ha)]|done].
  apply wp_bind.
  apply wp_mono with (Q := or_fail_ready (λ _, confirmed s r3)).
  - case_decide as Hcc; [subst s; apply final_confirm_spec|apply finalize_spec]; try done.
    + apply Hid. congruence.
    + congruence.
  - intros [[]|e] st r4; [|done]. intros [(Hp4 & Hk4 & Hs4) [Hsv Hj]]. apply wp_ret.
    split; [done|]. split_and!; [done| | |done..]; congruence.
Qed.

Lemma apply_changed_spec sh desired plan tx_context allow r :
  phase r = Preparing → records desired plan tx_context r → strategy r = None →
  wp sh (apply_changed_endpoint_states env self [desired] plan tx_context allow)
    (or_fail_ready (λ '(s, _), ready s r)) (acked r) r.
Proof.
  intros Hp Hr Hs. apply wp_bind.
  apply wp_mono with (Q := or_fail_ready (λ '(sel, _) st r',
    match sel with Some s => ready s r st r' | None => st = acked r ∧ r' = r end)).
  2: { intros [[[s|] rep]|e] st r'; [by intros; apply wp_st_lift| |done].
       intros [-> ->]. apply wp_st_lift, acked_fail_ready. auto. }
  apply wp_bind. unfold apply_changed_endpoint.
  apply wp_mono with (Q := or_fail_ready (λ '(sel, _) st r',
    match sel with Some s => ready s r st r' | None => st = acked r ∧ r' = r end)).
  2: { intros [[sel rep]|e] st r' H; [by apply wp_ret|done]. }
  assert (fail_ready (acked r) r) as Hfr by (apply acked_fail_ready; auto).
  destruct (find_change_set plan _) as [cs|] eqn:Hcs; [|by apply wp_fail].
  destruct (change_set_is_empty cs); [by apply wp_ret|].
  apply wp_bind, wp_st_lift. destruct (Inventory.get _ _) as [managed|e]; [|done].
  cbv zeta. apply wp_bind, wp_ask. intros [[]|e]; [|done].
  apply wp_bind. apply wp_mono with (Q := λ x st r', st = acked r ∧ r' = r).
  { destruct (md_capability managed); [by apply wp_ret|]. apply wp_ask. auto. }
  intros [cap|e] st r' [-> ->]; [|done].
  set (s := recommended_strategy cap).
  destruct (negb (is_supported s)); [by apply wp_fail|].
  destruct (is_degraded s && negb allow); [by apply wp_fail|].
  apply wp_bind, wp_get, wp_bind, wp_now. intros t. apply wp_bind, wp_set.
  set (r1 := with_strategy t r s).
  destruct (with_strategy_fields t r s) as (Hp1 & Hk1 & Hs1). fold r1 in Hp1, Hk1, Hs1.
  apply wp_bind. eapply wp_save; [done|..].
  - unfold may_write, follows. simpl. rewrite Hp1, Hp. split_and!; simpl; auto.
  - eapply wp_mono; [eapply pipeline_spec; [by rewrite Hp1|by eapply records_key|done| |done]|].
    + by eapply find_change_set_in.
    + by intros [[sel rep]|e] st r'; [intros [-> ?]|].
  - intros e. simpl. unfold fail_ready. rewrite Hp1, Hp. simpl. rewrite Hp1, Hp.
    split_and!; [done..|]. exists r. rewrite Hp. split_and!; auto.
Qed.

(** ** Bodies that always return a result *)

Definition wpr {A} (sh : S) (f : TxRun A) (Q : A → S → ProtoState → Prop)
    (st : ProtoState) (r : TxJournalRecord) : Prop :=
  ∀ w, Proto sh w st →
    let '(x, (w', _)) := f (w, r) in ∃ sh' st', Proto sh' w' st' ∧ Q x sh' st'.

Lemma wpr_handle {A B} sh (m : TxM A) err (ok : A → TxRun B) Q st r :
  wp sh m (λ x, match x with Ok a => wpr sh (ok a) Q | Err e => wpr sh (err e) Q end) st r →
  wpr sh (handle m err ok) Q st r.
Proof.
  intros Hm w Hw. specialize (Hm w Hw). unfold handle.
  destruct (m (w, r)) as [[a|e] [w' r']]; destruct Hm as (st' & Hw' & Hf); by apply Hf.
Qed.

Lemma wpr_ret {A} sh (f : TxRun A) a (Q : _ → _ → _ → Prop) st r :
  (∀ w, f (w, r) = (a, (w, r))) → Q a sh st → wpr sh f Q st r.
Proof. intros Hf HQ w Hw. rewrite Hf. eauto. Qed.

Lemma wpr_shadow_read {B} sh d err (ok : _ → TxRun B) Q st r :
  sok sh →
  (∀ x sh', sok sh' → sview sh' = sview sh → (∀ v, x = Ok v → v = sview sh !! d) →
     match x with Ok v => wpr sh' (ok v) Q st r | Err e => wpr sh' (err e) Q st r end) →
  wpr sh (handle (lift (shadow_read d)) err ok) Q st r.
Proof.
  intros Hok HQ w (t & Ht & Hrun & Hsh & Hw). unfold handle, lift, shadow_read. subst sh.
  destruct (shadow_get d (w_shadow w)) as [x sh'] eqn:Hget.
  destruct (shadow_get_law _ _ _ _ Hok Hget) as (Hok' & Hv & Hx).
  specialize (HQ x sh' Hok' Hv Hx). destruct x as [v|e]; apply HQ; by exists t.
Qed.

Lemma wpr_shadow_write {B} sh new err (ok : _ → TxRun B) Q st r :
  sok sh →
  (∀ x sh', sok sh' →
     (sview sh' = <[ss_device_id new := stored (sview sh) new]> (sview sh) ∨
      is_ok x = false ∧ sview sh' = sview sh) →
     match x with Ok v => wpr sh' (ok v) Q st r | Err e => wpr sh' (err e) Q st r end) →
  wpr sh (handle (lift (shadow_write new)) err ok) Q st r.
Proof.
  intros Hok HQ w (t & Ht & Hrun & Hsh & Hw). unfold handle, lift, shadow_write. subst sh.
  destruct (shadow_put new (w_shadow w)) as [x sh'] eqn:Hput.
  destruct (shadow_put_law _ _ _ _ Hok Hput) as (Hok' & _ & Hx).
  specialize (HQ x sh' Hok' Hx). destruct x as [v|e]; apply HQ; by exists t.
Qed.

(** ** The answer about an endpoint *)

Section endpoint.
Context (desired : DeviceDesiredState) (v : gmap DeviceId DeviceShadowState).
Let d := ds_device_id desired.

(** The shadow state that records the change sets [css]. *)
Definition shadow_after (css : list ChangeSet) (v' : gmap DeviceId DeviceShadowState) : Prop :=
  ∃ cs, cs ∈ css ∧ v' = <[d := stored v (apply_to_shadow cs (v !! d) desired 0)]> v.

(** How the answer relates to the last thing the transaction did ([v] is what
    the shadow store held before). *)
Definition outcome (res : DeviceApplyResult) (sh : S) (st : ProtoState) : Prop :=
  sok sh ∧ res_device_id res = d ∧
  match last st with
  | None => res_tx_id res = None ∧ sview sh = v ∧
      match res_status res with NoOpSuccess | ApplyFailed | ApplyInDoubt => True | _ => False end
  | Some (AJournal r ok) =>
      (ok = true → res_tx_id res = Some (tx_id r)) ∧
      match res_status res with
      | Success | SuccessWithWarning =>
          ok = true ∧ phase r = Committed ∧ shadow_after (change_sets r) (sview sh) ∧
          res_strategy res = strategy r
      | ApplyRolledBack => phase r = RolledBack ∧ sview sh = v
      | ApplyFailed => (phase r = Failed ∨ ok = false) ∧ sview sh = v
      | ApplyInDoubt => (phase r = InDoubt ∨ ok = false) ∧
          (sview sh = v ∨ shadow_after (change_sets r) (sview sh))
      | NoOpSuccess | PartialSuccess => False
      end
  | Some (AAdapter _ _) => False
  end.

Lemma finish_failed_spec sh tx_context err st r :
  sok sh → sview sh = v → (∀ r, tx_key r = key → tx_id r = ctx_tx_id tx_context) → fail_ready st r →
  wpr sh (finish_failed_apply env desired tx_context err) outcome st r.
Proof.
  intros Hok Hv Hkey (Hvt & Hj & r0 & Hsv & Hk & Hv0 & Hs) w Hw. unfold finish_failed_apply.
  assert (tx_key r0 = key) as Hk0.
  { destruct Hw as (t & _ & Hrun & _ & _ & _ & Hk0 & _). by eapply Hk0, run_saved_in. }
  destruct (journal_error_fields err) as [code message]. revert w Hw. apply wpr_handle.
  apply wp_enter; [done|]. intros r1 (Hp1 & Hk1 & Hs1).
  apply wpr_handle, wp_bind, wp_note_error. intros r2 (Hp2 & Hk2 & Hs2). rewrite Hp1 in Hp2.
  assert (tx_id r2 = ctx_tx_id tx_context) as Htx2.
  { apply Hkey. congruence. }
  assert (∀ res (ok : bool), res_device_id res = d → res_tx_id res = Some (ctx_tx_id tx_context) →
    res_status res = apply_status_for_failed_phase (failed_apply_phase (phase r)) →
    outcome res sh (mkProtoState (if ok then Some r2 else saved st) (Some (AJournal r2 ok)))) as Ho.
  { intros res ok Hd Ht Hst. split_and!; [done..|]. simpl. split; [by intros; rewrite Htx2|].
    rewrite Hst, Hp2. destruct (phase r); simpl; auto. }
  eapply wp_save; [done|..].
  - split; [by rewrite Hp2, Hs2, Hs1|]. rewrite Hsv. split_and!; [congruence|by rewrite Hp2|].
    destruct Hs as [?|[?|?]]; [auto..|]. right; right. congruence.
  - eapply wpr_ret; [done|]. by apply (Ho _ true).
  - intros e. eapply wpr_ret; [done|]. by apply (Ho _ false).
Qed.

(** The committed transaction becomes in doubt. *)
Lemma in_doubt_outcome sh tx_context s code message warnings report r r' st ok :
  sok sh → (sview sh = v ∨ shadow_after (change_sets r) (sview sh)) →
  tx_id r = ctx_tx_id tx_context → moved InDoubt r r' →
  last st = Some (AJournal r' ok) →
  outcome (in_doubt_result d (ctx_tx_id tx_context) s code message warnings report) sh st.
Proof.
  intros Hok Hv Htx (Hp & Hk & _) Hl. split_and!; [done..|]. rewrite Hl. simpl.
  unfold tx_key in Hk. injection Hk as ????? Hcs _. rewrite Hcs. split; [congruence|auto].
Qed.

Lemma in_doubt_write r r' :
  phase r = Committed → moved InDoubt r r' → may_write (acked r) r'.
Proof. intros Hp Hm. eapply may_write_moved; [done..|by rewrite Hp|]. simpl. auto. Qed.

Lemma shadow_failed_spec sh tx_context s warnings report what vcode warning err r :
  sok sh → (sview sh = v ∨ shadow_after (change_sets r) (sview sh)) →
  tx_id r = ctx_tx_id tx_context → phase r = Committed →
  wpr sh (shadow_failed env d (ctx_tx_id tx_context) s warnings report what vcode warning err)
    outcome (acked r) r.
Proof.
  intros Hok Hv Htx Hp. unfold shadow_failed. destruct (journal_error_fields err) as [code message].
  apply wpr_handle, wp_enter; [by rewrite Hp|]. intros r1 Hr1.
  apply wpr_handle, wp_bind, wp_note_error.
  rewrite (moved_follows_phase _ _ _ Hr1). intros r2 Hr2.
  assert (moved InDoubt r r2) by eauto using moved_trans.
  eapply wp_save; [done|by apply in_doubt_write| |intros e];
    (eapply wpr_ret; [done|]; by eapply in_doubt_outcome).
Qed.

Lemma missing_change_set_spec sh tx_context s warnings report r :
  sok sh → sview sh = v → tx_id r = ctx_tx_id tx_context → phase r = Committed →
  wpr sh (missing_change_set env d (ctx_tx_id tx_context) s warnings report) outcome (acked r) r.
Proof.
  intros Hok Hv Htx Hp. apply wpr_handle, wp_enter; [by rewrite Hp|]. intros r1 Hr1.
  apply wpr_handle, wp_bind, wp_note_error.
  rewrite (moved_follows_phase _ _ _ Hr1). intros r2 Hr2.
  assert (moved InDoubt r r2) by eauto using moved_trans.
  apply wp_try. eapply wp_save; [done|by apply in_doubt_write| |intros e];
    (eapply wpr_ret; [done|]; eapply in_doubt_outcome; eauto).
Qed.

Lemma finish_successful_spec sh tx_context plan s report r0 r st :
  sok sh → sview sh = v → records desired plan tx_context r0 → ready s r0 st r →
  wpr sh (finish_successful_apply env desired plan tx_context s report) outcome st r.
Proof.
  intros Hok Hv Hrec (Hp & Hk & Hs & Hsv & Hj).
  unfold finish_successful_apply. apply wpr_handle, wp_bind, wp_get, wp_bind, wp_now. intros t.
  destruct (with_strategy_fields t r s) as (Hp1 & Hk1 & Hs1).
  apply wp_bind, wp_set, wp_enter; [by rewrite Hp1, Hp|].
  intros r2 (Hp2 & Hk2 & Hs2). rewrite Hs1 in Hs2. rewrite Hk1, Hk in Hk2.
  destruct (records_key _ _ _ _ _ Hk2 Hrec) as (Htx & _ & _ & _ & Hcs).
  apply wpr_handle. eapply wp_save; [done|..].
  { split; [by rewrite Hp2, Hs2|]. rewrite Hsv. split_and!; [congruence|by rewrite Hp2, Hp|].
    right; right. congruence. }
  2: { intros e. destruct (journal_error_fields e) as [code message]. eapply wpr_ret; [done|].
       split_and!; [done..|]. simpl. split_and!; auto. congruence. }
  destruct (find_change_set plan _) as [cs|] eqn:Hfind; [|by apply missing_change_set_spec].
  apply find_change_set_in in Hfind. rewrite <-Hcs in Hfind.
  apply wpr_shadow_read; [done|]. intros [old|e] sh1 Hok1 Hv1 Hold.
  2: { apply shadow_failed_spec; auto. left. congruence. }
  rewrite (Hold old eq_refl).
  apply wpr_shadow_write; [done|]. intros x sh2 Hok2 Hv2. rewrite apply_to_shadow_device, Hv1, Hv in Hv2.
  assert (sview sh2 = v ∨ shadow_after (change_sets r2) (sview sh2)) as Hv3.
  { destruct Hv2 as [Hv2|[_ Hv2]]; [|by left]. right. by exists cs. }
  destruct x as [new|e]; [|by apply shadow_failed_spec].
  destruct Hv2 as [Hv2|[? _]]; [|done]. eapply wpr_ret; [done|]. split_and!; [done..|].
  simpl. split; [congruence|]. rewrite Hs2.
  destruct (is_degraded s); (split_and!; [done..| |done]; by exists cs).
Qed.

Lemma device_error_outcome sh changed tx err st r :
  sok sh → sview sh = v → last st = Some (AJournal r false) →
  outcome (device_error_result d changed tx None err) sh st.
Proof.
  intros Hok Hv Hl. unfold device_error_result. destruct (journal_error_fields err) as [code message].
  split_and!; [done..|]. rewrite Hl. simpl. split; [done|]. destruct (unresolved_code code); auto.
Qed.

Lemma run_transaction_spec sh tx_context plan allow r :
  sok sh → sview sh = v → records desired plan tx_context r → tx_key r = key →
  phase r = Started → strategy r = None →
  wpr sh (run_transaction env self desired plan tx_context allow) outcome (mkProtoState None None) r.
Proof.
  intros Hok Hv Hrec Hkey Hp Hs. apply wpr_handle, wp_save_any; [by unfold may_write; rewrite Hp|done|..].
  2: { intros e. eapply wpr_ret; [done|]. by eapply device_error_outcome. }
  apply wpr_handle, wp_bind, wp_enter; [by rewrite Hp|]. intros r1 Hr1.
  eapply wp_save; [done|..].
  { eapply may_write_moved; [done..|by rewrite Hp|]. simpl. auto. }
  2: { intros e. eapply wpr_ret; [done|]. by eapply device_error_outcome. }
  destruct Hr1 as (Hp1 & Hk1 & Hs1).
  assert (records desired plan tx_context r1) as Hrec1 by by eapply records_key.
  apply wpr_handle. eapply wp_mono; [apply apply_changed_spec; [done..|congruence]|].
  intros [[s report]|e] st r' H; [by eapply finish_successful_spec|].
  eapply finish_failed_spec; [done..| |done].
  intros r2 Hk2. apply (records_key desired plan tx_context r); [congruence|done].
Qed.

End endpoint.

(** ** Before the transaction *)

(** What is untouched until the first write. *)
Definition untouched (w w' : W) : Prop :=
  w_trace w' = w_trace w ∧ w_shadow w' = w_shadow w ∧ w_events w' = w_events w ∧
  jok (w_journal w') ∧ jview (w_journal w') = jview (w_journal w).

Definition quiet {A} (m : ST UnderlayError W A) : Prop :=
  ∀ w, jok (w_journal w) → untouched w (m w).2.

Lemma untouched_trans w1 w2 w3 : untouched w1 w2 → untouched w2 w3 → untouched w1 w3.
Proof. unfold untouched. intuition congruence. Qed.
Lemma quiet_bind {A B} (m : ST UnderlayError W A) (f : A → ST UnderlayError W B) :
  quiet m → (∀ a, quiet (f a)) → quiet (m ≫= f).
Proof.
  intros Hm Hf w Hw. unfold mbind, ST_bind. specialize (Hm w Hw).
  destruct (m w) as [[a|e] w1]; [|done]. eapply untouched_trans; [done|]. apply Hf, Hm.
Qed.
Lemma quiet_const {A} (f : W → UnderlayResult A) : quiet (λ w, (f w, w)).
Proof. by intros w Hw. Qed.
Lemma quiet_ask {A} (f : nat → UnderlayResult A) : quiet (ask_result f).
Proof. by intros w Hw. Qed.
Lemma quiet_observed s : quiet (observed_write s).
Proof. intros w Hw. unfold observed_write. by destruct (shadow_put s (w_observed w)). Qed.
Lemma quiet_scan : quiet journal_scan.
Proof.
  intros w Hw. unfold journal_scan.
  destruct (journal_list_recoverable (w_journal w)) as [x j] eqn:Hl.
  by destruct (journal_list_law _ _ _ Hw Hl) as (? & ? & _).
Qed.
Lemma quiet_foldM {A B} (f : B → A → ST UnderlayError W B) b l :
  (∀ b x, quiet (f b x)) → quiet (st_foldM f b l).
Proof.
  intros Hf. induction l as [|x l IH] in b |- *; [apply quiet_const|]. by apply quiet_bind.
Qed.

Lemma ensure_no_in_doubt_quiet ds : quiet (ensure_no_in_doubt_for_devices ds).
Proof.
  apply quiet_bind; [apply quiet_scan|]. intros l.
  destruct (in_doubt_records_for_devices l ds); apply quiet_const.
Qed.

Lemma plan_endpoint_quiet desired policy : quiet (plan_endpoint env self desired policy).
Proof.
  apply quiet_bind; [apply quiet_ask|]. intros _.
  apply quiet_bind; [apply ensure_no_in_doubt_quiet|]. intros _.
  apply quiet_bind; [apply quiet_const|]. intros _.
  apply quiet_bind; [|intros; apply quiet_const].
  apply quiet_foldM. intros states des.
  apply quiet_bind; [apply quiet_const|]. intros managed.
  apply quiet_bind; [apply quiet_ask|]. intros _.
  apply quiet_bind; [apply quiet_ask|]. intros current.
  apply quiet_bind; [apply quiet_observed|]. intros _. apply quiet_const.
Qed.

End logic.

(** ** One endpoint and a whole request *)
Section refinement.
Context {J S : Type} `{!TxJournalStore J} `{!ShadowStateStore S}.
Context (jok : J → Prop) (jview : J → gmap string TxJournalRecord).
Context (Hlaws : TxJournalLaws J jok jview).
Context (sok : S → Prop) (sview : S → gmap DeviceId DeviceShadowState).
Context (Hshadow : ShadowStoreLaws S sok sview).
Context (env : Env) (self : ApplyCoordinator).
Context (request_id trace_id : string) (allow_degraded_atomicity : bool) (policy : DriftPolicy).

Notation W := (World (J:=J) (S:=S)).

(** The keys of the transactions that serve this request for [desired]. *)
Definition serves (desired : DeviceDesiredState) (key : TxKey) : Prop :=
  ∃ tx css now, key =
    (tx, request_id, trace_id, [ds_device_id desired], [desired], css, now).

Lemma apply_single_spec desired w :
  jok (w_journal w) → sok (w_shadow w) →
  let '(res, w') := apply_single_endpoint_state env self request_id trace_id desired
                      allow_degraded_atomicity policy w in
  ∃ key st, serves desired key ∧ Proto jok jview w key (w_shadow w') w' st ∧
    outcome sok sview desired (sview (w_shadow w)) res (w_shadow w') st.
Proof.
  intros Hj Hs. unfold apply_single_endpoint_state, handle.
  pose proof (plan_endpoint_quiet jok jview Hlaws env self desired policy w Hj) as Hq.
  destruct (plan_endpoint env self desired policy w) as [x w1].
  destruct Hq as (Ht & Hsh & Hev & Hj1 & Hv1). simpl in *.
  assert (∀ key, Proto jok jview w key (w_shadow w1) w1 (mkProtoState None None)) as Hp.
  { intros key. exists []. rewrite app_nil_r. split_and!; try done; [constructor|]. by intros r ok ?%elem_of_nil. }
  set (key0 := ("", request_id, trace_id, [ds_device_id desired], [desired], [], 0) : TxKey).
  assert (∀ res, res_device_id res = ds_device_id desired → res_tx_id res = None →
    match res_status res with NoOpSuccess | ApplyFailed | ApplyInDoubt => True | _ => False end →
    ∃ key st, serves desired key ∧ Proto jok jview w key (w_shadow w1) w1 st ∧
      outcome sok sview desired (sview (w_shadow w)) res (w_shadow w1) st) as Hno.
  { intros res ? ? ?. exists key0, (mkProtoState None None). split; [by eexists _, _, _|].
    rewrite Hsh in *. by split_and!. }
  destruct x as [plan|e].
  2: { unfold device_error_result. destruct (journal_error_fields e) as [code message].
       apply Hno; simpl; [done..|]. by destruct (unresolved_code code). }
  destruct (is_noop plan); [by apply Hno|]. simpl.
  match goal with |- context [run_transaction _ _ _ _ ?c _ (?w2, ?r2)] =>
    set (tx_context := c); set (w2' := w2); set (r := r2) end.
  pose proof (run_transaction_spec jok jview Hlaws sok sview Hshadow env self w (tx_key r)
    desired (sview (w_shadow w)) (w_shadow w1) tx_context plan allow_degraded_atomicity r) as Hrun.
  rewrite Hsh in Hrun, Hp.
  specialize (Hrun Hs eq_refl ltac:(by split_and!) eq_refl eq_refl eq_refl w2' (Hp (tx_key r))).
  destruct (run_transaction _ _ _ _ _ _ _) as [res [w3 r3]].
  destruct Hrun as (sh' & st' & Hw3 & Ho). exists (tx_key r), st'.
  assert (w_shadow w3 = sh') as -> by by destruct Hw3 as (t & _ & _ & ? & _).
  split_and!; [by eexists _, _, _|done..].
Qed.

(** What an answer says about the transaction that led to it. *)
Definition reported (desired : DeviceDesiredState) (res : DeviceApplyResult) (st : ProtoState) : Prop :=
  res_device_id res = ds_device_id desired ∧
  match last st with
  | None => res_tx_id res = None ∧
      match res_status res with NoOpSuccess | ApplyFailed | ApplyInDoubt => True | _ => False end
  | Some (AJournal r ok) =>
      (ok = true → res_tx_id res = Some (tx_id r)) ∧
      match res_status res with
      | Success | SuccessWithWarning =>
          ok = true ∧ phase r = Committed ∧ res_strategy res = strategy r
      | ApplyRolledBack => phase r = RolledBack
      | ApplyFailed => phase r = Failed ∨ ok = false
      | ApplyInDoubt => phase r = InDoubt ∨ ok = false
      | NoOpSuccess | PartialSuccess => False
      end
  | Some (AAdapter _ _) => False
  end.

Lemma outcome_reported desired v res sh st :
  outcome sok sview desired v res sh st → reported desired res st.
Proof.
  intros (_ & Hd & Ho). split; [done|]. destruct (last st) as [[r ok|]|]; [|done|naive_solver].
  destruct Ho as [? Ho]. split; [done|]. destruct (res_status res); naive_solver.
Qed.

(** [t] is what the endpoint [desired] of this request did before it answered [res]. *)
Definition endpoint_run (desired : DeviceDesiredState) (res : DeviceApplyResult) (t : list Action) : Prop :=
  (∀ r ok, AJournal r ok ∈ t → serves desired (tx_key r)) ∧
  ∃ st, proto_run t st ∧ reported desired res st.

Lemma apply_endpoints_spec ds w :
  jok (w_journal w) → sok (w_shadow w) →
  let '(results, w') := apply_endpoints env self request_id trace_id ds
                          allow_degraded_atomicity policy w in
  jok (w_journal w') ∧ sok (w_shadow w') ∧ w_events w' = w_events w ∧
  ∃ ts, w_trace w' = w_trace w ++ concat ts ∧
        Forall3 endpoint_run ds results ts.
Proof.
  induction ds as [|desired ds IH] in w |- *; intros Hj Hs; simpl.
  { split_and!; [done..|]. exists []. rewrite app_nil_r. split; [done|constructor]. }
  pose proof (apply_single_spec desired w Hj Hs) as Hone.
  destruct (apply_single_endpoint_state _ _ _ _ _ _ _ _) as [res w1].
  destruct Hone as (key & st & Hkey & (t & Ht & Hrun & _ & Hev & Hj1 & Hk & _) & Ho).
  specialize (IH w1 Hj1 ltac:(apply Ho)).
  destruct (apply_endpoints _ _ _ _ _ _ _ _) as [results w2].
  destruct IH as (? & ? & Hev2 & ts & Hts & Hall). split_and!; [done..|congruence|].
  exists (t :: ts). split; [by rewrite Hts, Ht, <-app_assoc|]. constructor; [|done].
  split; [intros r ok Hin; by rewrite (Hk _ _ Hin)|]. eauto using outcome_reported.
Qed.

Lemma emit_apply_events_frame req tr results (w : W) :
  let w' := emit_apply_events req tr results w in
  w_trace w' = w_trace w ∧ w_journal w' = w_journal w ∧ w_shadow w' = w_shadow w ∧
  w_events w' = w_events w ++ omap (from_device_apply_result req tr) results.
Proof.
  induction results as [|res results IH] in w |- *; simpl; [by rewrite app_nil_r|].
  destruct (from_device_apply_result req tr res) as [e|] eqn:He.
  - destruct (IH (emit e w)) as (-> & -> & -> & ->). simpl. by rewrite <-app_assoc.
  - apply IH.
Qed.

(** ** What an apply guarantees *)

(** C1. Whatever the devices, the lock table and the journal answer, a request is
    handled one endpoint after the other, each by a run of the abstract protocol on
    a transaction of its own that names the request, the device and the desired
    state; each answer says how that run ended, and the events emitted are those of
    the answers. *)
Theorem apply_refines_protocol ds w :
  jok (w_journal w) → sok (w_shadow w) →
  match apply_desired_states env self request_id trace_id ds allow_degraded_atomicity policy w with
  | (Ok resp, w') => ∃ results ts,
      resp = apply_response request_id trace_id results ∧
      w_trace w' = w_trace w ++ concat ts ∧
      Forall3 endpoint_run ds results ts ∧
      w_events w' = w_events w ++ omap (from_device_apply_result request_id trace_id) results
  | (Err _, _) => False
  end.
Proof.
  intros Hj Hs. unfold apply_desired_states. pose proof (apply_endpoints_spec ds w Hj Hs) as Ha.
  destruct (apply_endpoints _ _ _ _ _ _ _ _) as [results w1].
  destruct Ha as (_ & _ & Hev & ts & Hts & Hall).
  destruct (emit_apply_events_frame request_id trace_id results w1) as (Ht & _ & _ & He).
  exists results, ts. split_and!; congruence.
Qed.

Lemma concat_write_ahead ts :
  Forall (λ t, ∃ st, proto_run t st) ts → ∀ i c a, concat ts !! i = Some (AAdapter c a) →
  ∃ j r, i = Datatypes.S j ∧ concat ts !! j = Some (AJournal r true) ∧ covers r c.
Proof.
  induction 1 as [|t ts [st Hr] _ IH]; simpl; [done|].
  intros i c a [Hi|[Hle Hi]]%lookup_app_Some.
  - destruct (run_write_ahead _ _ _ _ _ Hr Hi) as (j & r & -> & Hj & Hc). exists j, r.
    split_and!; [done|by apply lookup_app_l_Some|done].
  - destruct (IH _ _ _ Hi) as (j & r & Hij & Hj & Hc). exists (length t + j)%nat, r.
    split_and!; [lia| |done]. by rewrite lookup_app_r, Nat.add_sub' by lia.
Qed.

Lemma Forall3_runs ds results ts :
  Forall3 endpoint_run ds results ts → Forall (λ t, ∃ st, proto_run t st) ts.
Proof. induction 1 as [|?????? (_ & st & ? & _)]; constructor; eauto. Qed.

(** C2. Write-ahead: every prepare, commit, verify, confirm and rollback call made during
    a request (the reads of a device's state and capabilities are not traced) comes right
    after an acknowledged journal write of the phase the call belongs to, in the same
    transaction, and carries what that record says (the desired state, the change
    set, the strategy). *)
Theorem apply_write_ahead ds w :
  jok (w_journal w) → sok (w_shadow w) →
  let '(_, w') := apply_desired_states env self request_id trace_id ds
                    allow_degraded_atomicity policy w in
  ∃ t, w_trace w' = w_trace w ++ t ∧
  ∀ i c a, t !! i = Some (AAdapter c a) →
    ∃ j r, i = Datatypes.S j ∧ t !! j = Some (AJournal r true) ∧ covers r c.
Proof.
  intros Hj Hs. unfold apply_desired_states. pose proof (apply_endpoints_spec ds w Hj Hs) as Ha.
  destruct (apply_endpoints _ _ _ _ _ _ _ _) as [results w1].
  destruct Ha as (_ & _ & _ & ts & Hts & Hall). exists (concat ts). simpl.
  destruct (emit_apply_events_frame request_id trace_id results w1) as (-> & _).
  split; [done|]. by eapply concat_write_ahead, Forall3_runs.
Qed.

(** C5. Should the process stop right after a device call (prepare, commit, verify,
    confirm or rollback), the journal it leaves behind (all writes so far were acknowledged) holds a record of that transaction,
    in the phase of the call, that recovery picks up. *)
Theorem apply_crash_recoverable desired w :
  jok (w_journal w) → sok (w_shadow w) →
  let '(_, w') := apply_single_endpoint_state env self request_id trace_id desired
                    allow_degraded_atomicity policy w in
  ∃ t, w_trace w' = w_trace w ++ t ∧
  ∀ t1 c a t2, t = (t1 ++ [AAdapter c a]) ++ t2 →
    all_written t1 ∧
    ∃ r, replay t1 (jview (w_journal w)) !! tx_id r = Some r ∧ covers r c ∧
         serves desired (tx_key r) ∧ r ∈ recoverable_of (replay t1 (jview (w_journal w))).
Proof.
  intros Hj Hs. pose proof (apply_single_spec desired w Hj Hs) as Hone.
  destruct (apply_single_endpoint_state _ _ _ _ _ _ _ _) as [res w1].
  destruct Hone as (key & st & Hkey & (t & Ht & Hrun & _ & _ & _ & Hk & _) & _).
  exists t. split; [done|]. intros t1 c a t2 ->.
  destruct (run_prefix _ _ _ Hrun) as [st1 Hr1].
  pose proof (run_call_written _ _ _ _ Hr1) as Hall.
  split; [intros r Hr; apply (Hall r); set_solver|].
  destruct (run_recoverable _ _ _ _ (jview (w_journal w)) Hr1) as (r & Hin & Hr & Hc & Hrec).
  exists r. split_and!; [done..| |].
  - rewrite (Hk r true); [done|]. set_solver.
  - apply list_elem_of_filter. rewrite elem_of_bt_values. eauto.
Qed.

(** C3. What the status of an endpoint promises.  A success means that the device
    answered the commit as the strategy requires, verified the desired state and,
    under confirmed commit, confirmed it, that the journal acknowledged [Committed],
    and that the shadow store now holds the change set applied to what it held.
    A rollback was answered by the device, and neither it nor a failure changes the
    shadow store; a no-op prepares, commits, verifies, confirms and rolls back nothing, and
    leaves the journal and the shadow store as they were.  (Before that, every apply reads
    the device and records what it read in the observed store.) *)
Theorem apply_status_meaning desired w :
  jok (w_journal w) → sok (w_shadow w) →
  let '(res, w') := apply_single_endpoint_state env self request_id trace_id desired
                      allow_degraded_atomicity policy w in
  let v := sview (w_shadow w) in
  let v' := sview (w_shadow w') in
  ∃ t, w_trace w' = w_trace w ++ t ∧
  match res_status res with
  | Success | SuccessWithWarning => ∃ r,
      AJournal r true ∈ t ∧ serves desired (tx_key r) ∧ res_tx_id res = Some (tx_id r) ∧
      phase r = Committed ∧ device_did t r Committing ∧ device_did t r Verifying ∧
      (strategy r = Some ConfirmedCommit → device_did t r FinalConfirming) ∧
      shadow_after desired v (change_sets r) v'
  | ApplyRolledBack => v' = v ∧ ∃ r, serves desired (tx_key r) ∧ device_did t r RollingBack
  | NoOpSuccess => t = [] ∧ v' = v ∧ jview (w_journal w') = jview (w_journal w)
  | ApplyFailed => v' = v
  | ApplyInDoubt => v' = v ∨ ∃ r, serves desired (tx_key r) ∧ shadow_after desired v (change_sets r) v'
  | PartialSuccess => False
  end.
Proof.
  intros Hj Hs. pose proof (apply_single_spec desired w Hj Hs) as Hone.
  destruct (apply_single_endpoint_state _ _ _ _ _ _ _ _) as [res w'].
  destruct Hone as (key & st & Hkey & (t & Ht & Hrun & _ & _ & _ & Hk & Hview) & (_ & _ & Ho)).
  exists t. split; [done|].
  destruct (last st) as [[r ok|]|] eqn:Hl; [|done|].
  - pose proof (run_last _ _ _ Hrun Hl) as Hin. pose proof (run_evidence _ _ _ _ Hrun Hin) as He.
    unfold evidence in He. rewrite <-(Hk _ _ Hin) in Hkey. destruct Ho as [Htx Ho].
    destruct (res_status res); try done.
    + destruct Ho as (-> & Hp & Hsh & Hst). rewrite Hp in He. exists r. naive_solver.
    + destruct Ho as (-> & Hp & Hsh & Hst). rewrite Hp in He. exists r. naive_solver.
    + naive_solver.
    + destruct Ho as [Hp ?]. rewrite Hp in He. eauto.
    + destruct Ho as [_ [?|?]]; eauto.
  - apply run_idle in Hrun as ->; [|done]. destruct Ho as (_ & ? & Ho).
    destruct (res_status res); try done; [|by left]. split_and!; [done..|].
    apply Hview. by intros r ?%elem_of_nil.
Qed.

(** C4. The answer agrees with the journal: when every journal write of the
    transaction was acknowledged, the journal holds under the answered transaction
    id a record in the phase that the answer's event announces (and in no other
    entry anything changed); without a transaction id the journal is unchanged; and
    an endpoint answered as failed got none of the prepare, commit, verify, confirm and
    rollback calls. *)
Theorem apply_answer_agrees_with_journal desired w :
  jok (w_journal w) → sok (w_shadow w) →
  let '(res, w') := apply_single_endpoint_state env self request_id trace_id desired
                      allow_degraded_atomicity policy w in
  ∃ t, w_trace w' = w_trace w ++ t ∧
  (all_written t →
   match res_tx_id res with
   | Some tx => ∃ r, tx_id r = tx ∧ serves desired (tx_key r) ∧
       jview (w_journal w') = <[tx := r]> (jview (w_journal w)) ∧
       tx_phase_for_apply_status (res_status res) = Some (phase r) ∧
       (phase r = Failed → ∀ c a, AAdapter c a ∉ t)
   | None => jview (w_journal w') = jview (w_journal w) ∧ t = []
   end).
Proof.
  intros Hj Hs. pose proof (apply_single_spec desired w Hj Hs) as Hone.
  destruct (apply_single_endpoint_state _ _ _ _ _ _ _ _) as [res w'].
  destruct Hone as (key & st & Hkey & (t & Ht & Hrun & _ & _ & _ & Hk & Hview) & (_ & _ & Ho)).
  exists t. split; [done|]. intros Hall. rewrite (Hview Hall).
  destruct (last st) as [[r ok|]|] eqn:Hl; [|done|].
  - pose proof (run_last _ _ _ Hrun Hl) as Hin.
    destruct ok; [|by destruct (Hall r)]. destruct Ho as [Htx Ho].
    rewrite Htx by done. exists r. split_and!; [done|by rewrite (Hk _ _ Hin)| | |].
    + rewrite (run_replay _ _ _ (tx_id r) Hrun).
      * pose proof (run_coherent _ _ Hrun) as Hco. unfold coherent in Hco. rewrite Hl in Hco.
        by rewrite Hco.
      * intros r' ok' Hin'. pose proof (Hk _ _ Hin) as H1. rewrite <-(Hk _ _ Hin') in H1.
        unfold tx_key in H1. congruence.
    + destruct (res_status res); naive_solver congruence.
    + intros Hp. by eapply run_failed.
  - destruct Ho as (-> & _ & _). by apply run_idle in Hrun as ->.
Qed.

(** A recoverable record of the device stops the plan. *)
Lemma blocked_plan desired w r k :
  jok (w_journal w) → jview (w_journal w) !! k = Some r → requires_recovery (phase r) = true →
  ds_device_id desired ∈ devices r →
  ∃ e, (plan_endpoint env self desired policy w).1 = Err e ∧
    match acquire_endpoint env (w_tick w) (ds_device_id desired),
          (journal_list_recoverable (w_journal w)).1 with
    | Ok _, Ok _ => unresolved_code (journal_error_fields e).1 = true
    | _, _ => True
    end.
Proof.
  intros Hj Hr Hrec Hd. unfold plan_endpoint, ask_result, mbind, ST_bind.
  destruct (acquire_endpoint _ _ _) as [[]|e]; [|by exists e].
  unfold ensure_no_in_doubt_for_devices, journal_scan, mbind, ST_bind. simpl.
  destruct (journal_list_recoverable (w_journal w)) as [x j] eqn:Hl.
  destruct (journal_list_law _ _ _ Hj Hl) as (_ & _ & Hx). destruct x as [l|e]; [|by exists e].
  specialize (Hx l eq_refl) as ->.
  assert (r ∈ in_doubt_records_for_devices (recoverable_of (jview (w_journal w)))
                [ds_device_id desired]) as Hin.
  { unfold in_doubt_records_for_devices, recoverable_of.
    rewrite !list_elem_of_filter, elem_of_bt_values, existsb_elem_of. split_and!; [|done|done|eauto].
    exists (ds_device_id desired). split; [done|]. apply bool_decide_eq_true, elem_of_bs_collect.
    by apply list_elem_of_singleton. }
  destruct (in_doubt_records_for_devices _ _) as [|r0 l]; [by apply elem_of_nil in Hin|].
  eexists. split; [done|]. simpl.
  by destruct (bool_decide (phase r0 = InDoubt) && _).
Qed.


End refinement.

(** ** A concrete apply: in-memory stores, one device that does what it is told,
    or, for [stubborn], refuses the commit and then cannot be reached. *)
Module ApplySample.

Definition desired : DeviceDesiredState := DiffSample.desired.
Definition device : DeviceId := ds_device_id desired.
Definition profile : DeviceCapabilityProfile :=
  mkDeviceCapabilityProfile H3c None None [] true true true true true false false [Netconf] None
    ConfirmedCommit [] [].
Definition info : DeviceInfo :=
  mkDeviceInfo "t1" "s1" device "10.0.0.1" 830 None None LeafA "vault:stack" TrustOnFirstUse
    "http://adapter" Ready.
Definition coordinator : ApplyCoordinator :=
  new {[ device := mkManagedDevice info (Some profile) ]} 120.

Definition obey (c : AdapterCall) : UnderlayResult AdapterOutcome :=
  let answer st := Ok (mkAdapterOutcome st true [] None None) in
  match c with
  | CallPrepare _ _ _ => answer OpPrepared
  | CallCommit _ _ _ _ _ => answer OpConfirmedCommitPending
  | CallVerify _ _ _ _ => answer OpNoChange
  | CallFinalConfirm _ _ => answer OpCommitted
  | CallRollback _ _ _ | CallRecover _ _ _ _ => answer OpRolledBack
  end.
Definition refuse (c : AdapterCall) : UnderlayResult AdapterOutcome :=
  match c with
  | CallCommit _ _ _ _ _ => Ok (mkAdapterOutcome OpFailed false [] None None)
  | CallRollback _ _ _ => Err (AdapterTransport "connection refused")
  | _ => obey c
  end.
Definition env_of (adapter : AdapterCall → UnderlayResult AdapterOutcome) : Env :=
  {| now_unix_secs n := N.of_nat n; new_tx_id n := "tx-1"; acquire_endpoint _ _ := Ok tt;
     acquire_many _ _ := Ok tt;
     pool_client _ _ := Ok tt; get_current_state_for_desired _ _ _ := Ok DiffSample.current;
     get_capabilities _ _ := Ok profile; adapter _ := adapter |}.

Definition journal_of (records : list TxJournalRecord) : InMemoryJournal.Store :=
  InMemoryJournal.mkStore (list_to_map ((λ r, (tx_id r, r)) <$> records)).
Definition world (records : list TxJournalRecord) :
    World (J:=InMemoryJournal.Store) (S:=InMemoryShadow.Store) :=
  mkWorld (journal_of records) (InMemoryShadow.mkStore ∅) (InMemoryShadow.mkStore ∅) [] 0 [].

Definition run (env : Env) (records : list TxJournalRecord) :=
  apply_single_endpoint_state env coordinator "req-1" "trace-1" desired false ReportOnly (world records).

(** A transaction of the device that was interrupted while committing. *)
Definition interrupted : TxJournalRecord :=
  with_phase 7 (started 5 (mkTxContext "tx-0" "req-0" "trace-0") [device]) Committing.

Lemma shadow_ok records : InMemoryShadow.ok (w_shadow (world records)).
Proof. intros k v Hv. simpl in Hv. by rewrite lookup_empty in Hv. Qed.

End ApplySample.

Example apply_sample_success :
  let '(res, w') := ApplySample.run (ApplySample.env_of ApplySample.obey) [] in
  res_status res = Success ∧
  (phase <$> InMemoryJournal.records (w_journal w') !! "tx-1") = Some Committed ∧
  length (w_trace w') = 12%nat.
Proof. vm_compute. auto. Qed.

Example apply_sample_in_doubt :
  let '(res, w') := ApplySample.run (ApplySample.env_of ApplySample.refuse) [] in
  res_status res = ApplyInDoubt ∧
  (phase <$> InMemoryJournal.records (w_journal w') !! "tx-1") = Some InDoubt.
Proof. vm_compute. auto. Qed.

Lemma apply_refines_protocol_witness :
  ∃ ts, w_trace (apply_desired_states (ApplySample.env_of ApplySample.obey) ApplySample.coordinator
                   "req-1" "trace-1" [ApplySample.desired] false ReportOnly (ApplySample.world [])).2 =
        concat ts.
Proof.
  pose proof (apply_refines_protocol _ _ InMemoryJournal.laws _ _ InMemoryShadow.laws
    (ApplySample.env_of ApplySample.obey) ApplySample.coordinator "req-1" "trace-1" false ReportOnly
    [ApplySample.desired] (ApplySample.world []) I (ApplySample.shadow_ok [])) as H.
  destruct (apply_desired_states _ _ _ _ _ _ _ _) as [[resp|e] w']; [|destruct H].
  destruct H as (results & ts & _ & Ht & _). exists ts. exact Ht.
Defined.

Lemma apply_write_ahead_witness :
  ∃ t, w_trace (apply_desired_states (ApplySample.env_of ApplySample.refuse) ApplySample.coordinator
                  "req-1" "trace-1" [ApplySample.desired] false ReportOnly (ApplySample.world [])).2 = t ∧
  ∀ i c a, t !! i = Some (AAdapter c a) → ∃ j r, i = S j ∧ t !! j = Some (AJournal r true).
Proof.
  pose proof (apply_write_ahead _ _ InMemoryJournal.laws _ _ InMemoryShadow.laws
    (ApplySample.env_of ApplySample.refuse) ApplySample.coordinator "req-1" "trace-1" false ReportOnly
    [ApplySample.desired] (ApplySample.world []) I (ApplySample.shadow_ok [])) as H.
  destruct (apply_desired_states _ _ _ _ _ _ _ _) as [x w']. destruct H as (t & Ht & Hw).
  exists t. split; [exact Ht|]. intros i c a Hi. destruct (Hw i c a Hi) as (j & r & Hj & Hr & _). eauto.
Defined.

Lemma apply_crash_recoverable_witness :
  ∃ t, w_trace (ApplySample.run (ApplySample.env_of ApplySample.refuse) []).2 = t ∧
  ∀ t1 c a t2, t = (t1 ++ [AAdapter c a]) ++ t2 → all_written t1.
Proof.
  pose proof (apply_crash_recoverable _ _ InMemoryJournal.laws _ _ InMemoryShadow.laws
    (ApplySample.env_of ApplySample.refuse) ApplySample.coordinator "req-1" "trace-1" false ReportOnly
    ApplySample.desired (ApplySample.world []) I (ApplySample.shadow_ok [])) as H.
  unfold ApplySample.run. destruct (apply_single_endpoint_state _ _ _ _ _ _ _ _) as [x w'].
  destruct H as (t & Ht & Hw).
  exists t. split; [exact Ht|]. intros t1 c a t2 H. apply (Hw t1 c a t2 H).
Defined.

Lemma apply_status_meaning_witness :
  ∃ t r, w_trace (ApplySample.run (ApplySample.env_of ApplySample.obey) []).2 = t ∧
    phase r = Committed ∧ device_did t r Committing ∧ device_did t r Verifying.
Proof.
  pose proof (apply_status_meaning _ _ InMemoryJournal.laws _ _ InMemoryShadow.laws
    (ApplySample.env_of ApplySample.obey) ApplySample.coordinator "req-1" "trace-1" false ReportOnly
    ApplySample.desired (ApplySample.world []) I (ApplySample.shadow_ok [])) as H.
  assert (res_status (ApplySample.run (ApplySample.env_of ApplySample.obey) []).1 = Success) as Hs
    by (vm_compute; reflexivity).
  unfold ApplySample.run in *. destruct (apply_single_endpoint_state _ _ _ _ _ _ _ _) as [res w'].
  destruct H as (t & Ht & H). simpl in Hs. rewrite Hs in H. destruct H as (r & _ & _ & _ & Hp & Hc & Hv & _).
  exists t, r. auto.
Defined.

Lemma apply_answer_agrees_with_journal_witness :
  ∃ r, phase r = InDoubt ∧
    InMemoryJournal.records (w_journal (ApplySample.run (ApplySample.env_of ApplySample.refuse) []).2)
      = {[ "tx-1" := r ]}.
Proof.
  pose proof (apply_answer_agrees_with_journal _ _ InMemoryJournal.laws _ _ InMemoryShadow.laws
    (ApplySample.env_of ApplySample.refuse) ApplySample.coordinator "req-1" "trace-1" false ReportOnly
    ApplySample.desired (ApplySample.world []) I (ApplySample.shadow_ok [])) as H.
  assert (res_status (ApplySample.run (ApplySample.env_of ApplySample.refuse) []).1 = ApplyInDoubt ∧
    res_tx_id (ApplySample.run (ApplySample.env_of ApplySample.refuse) []).1 = Some "tx-1") as [Hs Htx]
    by (vm_compute; auto).
  assert (all_written (w_trace (ApplySample.run (ApplySample.env_of ApplySample.refuse) []).2)) as Hall
    by (apply all_written_forallb; vm_compute; reflexivity).
  unfold ApplySample.run in *. destruct (apply_single_endpoint_state _ _ _ _ _ _ _ _) as [res w'].
  destruct H as (t & Ht & H). simpl in *. rewrite Hs, Htx in H. rewrite Ht in Hall.
  destruct (H Hall) as (r & _ & _ & Hj & Hp & _). exists r. split; [simpl in Hp; congruence|exact Hj].
Defined.

