(* ===== verification/RecoveryCoordinator.v ===== *)
(** * Recovery of journalled transactions (src/api/recovery_coordinator.rs,
      src/api/recovery_ops.rs)

    After a restart, or when a confirmed commit was not confirmed in time, the
    recovery coordinator settles the transactions the journal lists: it asks the
    devices what became of them and records the answer, or leaves them to an
    operator.  It works on the world of [ApplyCoordinator]; a cached client that is
    invalidated shows only in the answers of [pool_client]. *)
From S2P Require Export ApplyCorrect.
Local Open Scope N_scope.

(** ** src/api/recovery_ops.rs *)

Definition recover_phase_from_adapter_status (action : RecoveryAction)
    (status : AdapterOperationStatus) : TxPhase :=
  match action, status with
  | _, OpRolledBack => RolledBack
  | AdapterRecover, OpCommitted => Committed
  | DiscardPreparedChanges, OpNoChange => RolledBack
  | _, _ => InDoubt
  end.

Definition merge_recovery_phase (current : option TxPhase) (next : TxPhase) : TxPhase :=
  match current with
  | None => next
  | Some phase => if decide (phase = next) then phase else InDoubt
  end.

Definition desired_state_for_record (r : TxJournalRecord) (d : DeviceId) : option DeviceDesiredState :=
  List.find (λ x, bool_decide (ds_device_id x = d)) (desired_states r).
Definition change_set_for_record (r : TxJournalRecord) (d : DeviceId) : option ChangeSet :=
  List.find (λ c, bool_decide (cs_device_id c = d)) (change_sets r).

Definition error_summary (operation : string) (e : UnderlayError) : string :=
  let '(code, message) := journal_error_fields e in
  operation +:+ " failed with " +:+ code +:+ ": " +:+ message.

Definition final_confirm_recovery_in_doubt_error (r : TxJournalRecord) (d : DeviceId)
    (final_confirm_summary verify_summary recover_summary : string) : UnderlayError :=
  AdapterOperation "FINAL_CONFIRM_RECOVERY_IN_DOUBT"
    ("could not prove final-confirming transaction " +:+ tx_id r +:+ " for device " +:+
     device_id_0 d +:+ ": " +:+ final_confirm_summary +:+ "; " +:+ verify_summary +:+ "; " +:+
     recover_summary) true [].

(** ** Failures, gates and scopes (src/api/recovery_coordinator.rs) *)

Definition RECOVERY_TRANSPORT_RETRY_ATTEMPTS : nat := 3.

Record RecoveryFailure := mkRecoveryFailure {
  rf_device_id : string;
  rf_error : UnderlayError;
}.
Definition recovery_failure_summary (f : RecoveryFailure) : string :=
  let '(code, message) := journal_error_fields (rf_error f) in
  "device " +:+ rf_device_id f +:+ ": " +:+ code +:+ ": " +:+ message.

(** What the loops over the devices of a record accumulate. *)
Definition Merged : Type := option TxPhase * list RecoveryFailure.
Definition merge (acc : Merged) (p : TxPhase) : Merged :=
  (Some (merge_recovery_phase acc.1 p), acc.2).
Definition record_recovery_failure (acc : Merged) (d : DeviceId) (e : UnderlayError) : Merged :=
  (Some (merge_recovery_phase acc.1 InDoubt), acc.2 ++ [mkRecoveryFailure (device_id_0 d) e]).

Definition recovery_attempts_in_doubt_error (r : TxJournalRecord) (code prefix : string)
    (failures : list RecoveryFailure) : UnderlayError :=
  match devices r, failures with
  | [_], [f] => rf_error f
  | _, _ =>
      AdapterOperation code
        (prefix +:+ " transaction " +:+ tx_id r +:+ " for one or more devices: " +:+
         join "; " (recovery_failure_summary <$> failures)) true []
  end.

Definition is_timed_out_confirmed_commit (r : TxJournalRecord) (now timeout : N) : bool :=
  bool_decide (strategy r = Some ConfirmedCommit) &&
  match phase r with Committing | Verifying | FinalConfirming | Recovering => true | _ => false end &&
  (N.max timeout 1 <=? u64_saturating_sub now (updated_at r)).

Inductive RecoveryRecordGate :=
  | AnyRecoverable
  | TimedOutConfirmedCommit (now_unix_secs timeout_secs : N).
Definition gate_matches (g : RecoveryRecordGate) (r : TxJournalRecord) : bool :=
  match g with
  | AnyRecoverable => true
  | TimedOutConfirmedCommit now timeout => is_timed_out_confirmed_commit r now timeout
  end.
Inductive RecoveryReportScope := AllRecoverable | AttemptedTxIds.

Definition recovery_completed (req tr : string) (report : RecoveryReport) : UnderlayEvent :=
  let fields : gmap string string :=
    <["recovered" := fmt_usize (rr_recovered report)]> (
    <["in_doubt" := fmt_usize (rr_in_doubt report)]> (
    <["pending" := fmt_usize (rr_pending report)]> (
    <["tx_count" := fmt_usize (length (rr_tx_ids report))]> ∅))) in
  mkUnderlayEvent UnderlayRecoveryCompleted req tr None None None None
    (Some (if (0 <? rr_in_doubt report)%nat then "in_doubt"
           else if (0 <? rr_pending report)%nat then "pending" else "completed")) None None
    (match rr_tx_ids report with
     | [] => fields
     | ids => <["tx_ids" := join "," ids]> fields
     end).

Section recovery.
Context {J S : Type} `{!TxJournalStore J} `{!ShadowStateStore S}.
Context (env : Env) (inv : Inventory.t).

Notation M := (ST UnderlayError (World (J:=J) (S:=S))).

Definition emit_event (e : UnderlayEvent) : M unit := λ w, (Ok tt, emit e w).

(** ** Asking the devices *)

Fixpoint recover_attempts (attempts : nat) (last_transport_error : option string) (device : DeviceInfo)
    (context : RequestContext) (strategy : option TransactionStrategy) (action : RecoveryAction)
    : M AdapterOutcome :=
  match attempts with
  | O => st_fail (AdapterTransport (default "adapter recover transport failed" last_transport_error))
  | Datatypes.S attempts =>
      _ ← ask_result (λ n, pool_client env n (adapter_endpoint device));
      answer ← st_try (call env (CallRecover device context strategy action));
      match answer with
      | Ok outcome => mret outcome
      | Err (AdapterTransport message) =>
          if decide (0 < attempts)%nat
          then recover_attempts attempts (Some message) device context strategy action
          else st_fail (AdapterTransport message)
      | Err err => st_fail err
      end
  end.
Definition recover_with_transport_retry := recover_attempts RECOVERY_TRANSPORT_RETRY_ATTEMPTS None.

Definition record_context (r : TxJournalRecord) : TxContext :=
  mkTxContext (tx_id r) (request_id r) (trace_id r).

(** The body of the loop of [recover_record]. *)
Definition recover_device (r : TxJournalRecord) (action : RecoveryAction) (acc : Merged)
    (d : DeviceId) : M Merged :=
  match Inventory.get d inv with
  | Err err => mret (record_recovery_failure acc d err)
  | Ok managed =>
      let context := tx_request_context (md_info managed) (record_context r) in
      answer ← st_try (recover_with_transport_retry (md_info managed) context (strategy r) action);
      match answer with
      | Err err => mret (record_recovery_failure acc d err)
      | Ok outcome => mret (merge acc (recover_phase_from_adapter_status action (out_status outcome)))
      end
  end.

(** See whether the device verifies; else what it said. *)
Definition verify_again (r : TxJournalRecord) (device : DeviceInfo) (context : RequestContext)
    (d : DeviceId) (final_confirm_summary : string) : M (option (string * string)) :=
  match desired_state_for_record r d, change_set_for_record r d with
  | Some desired, Some change_set =>
      verify ← st_try (call env (CallVerify device context desired change_set));
      mret (match verify with
            | Ok outcome =>
                match out_status outcome with
                | OpNoChange | OpCommitted => None
                | st => Some (final_confirm_summary,
                          "verify returned status " +:+ debug_AdapterOperationStatus st)
                end
            | Err err => Some (final_confirm_summary, error_summary "verify" err)
            end)
  | _, _ => mret (Some (final_confirm_summary,
      "journal record " +:+ tx_id r +:+ " has no desired state or change set for device " +:+
      device_id_0 d))
  end.

(** Confirm once more, then verify; [None] when either proves the commit. *)
Definition final_confirm_again (r : TxJournalRecord) (device : DeviceInfo) (context : RequestContext)
    (d : DeviceId) : M (option (string * string)) :=
  confirm ← st_try (call env (CallFinalConfirm device context));
  match confirm with
  | Ok outcome =>
      if decide (out_status outcome = OpCommitted) then mret None
      else verify_again r device context d ("final confirm returned status " +:+
             debug_AdapterOperationStatus (out_status outcome))
  | Err err => verify_again r device context d (error_summary "final confirm" err)
  end.

(** The body of the loop of [recover_final_confirming_record]. *)
Definition recover_final_confirming_device (r : TxJournalRecord) (acc : Merged) (d : DeviceId)
    : M Merged :=
  match Inventory.get d inv with
  | Err err => mret (record_recovery_failure acc d err)
  | Ok managed =>
      let device := md_info managed in
      client ← st_try (ask_result (λ n, pool_client env n (adapter_endpoint device)));
      match client with
      | Err err => mret (record_recovery_failure acc d err)
      | Ok _ =>
          let context := tx_request_context device (record_context r) in
          summaries ← final_confirm_again r device context d;
          match summaries with
          | None => mret (merge acc Committed)
          | Some (final_confirm_summary, verify_summary) =>
              let in_doubt summary := final_confirm_recovery_in_doubt_error r d
                final_confirm_summary verify_summary summary in
              answer ← st_try (recover_with_transport_retry device context (strategy r) AdapterRecover);
              match answer with
              | Ok outcome =>
                  match recover_phase_from_adapter_status AdapterRecover (out_status outcome) with
                  | (Committed | RolledBack) as p => mret (merge acc p)
                  | _ => mret (record_recovery_failure acc d (in_doubt
                      ("adapter recover returned status " +:+
                       debug_AdapterOperationStatus (out_status outcome))))
                  end
              | Err err =>
                  mret (record_recovery_failure acc d (in_doubt (error_summary "adapter recover" err)))
              end
          end
      end
  end.

(** What both loops end with. *)
Definition merged_phase (r : TxJournalRecord) (code prefix : string) (acc : Merged)
    : UnderlayResult TxPhase :=
  match acc.2 with
  | [] => Ok (default InDoubt acc.1)
  | failures => Err (recovery_attempts_in_doubt_error r code prefix failures)
  end.

Definition recover_final_confirming_record (r : TxJournalRecord) : M TxPhase :=
  match devices r with
  | [] => mret InDoubt
  | ds =>
      acc ← st_foldM (recover_final_confirming_device r) (None, []) ds;
      st_lift (merged_phase r "FINAL_CONFIRM_RECOVERY_IN_DOUBT" "could not prove final-confirming" acc)
  end.

Definition recover_record (r : TxJournalRecord) (action : RecoveryAction) : M TxPhase :=
  if bool_decide (phase r = FinalConfirming) && bool_decide (strategy r = Some ConfirmedCommit)
  then recover_final_confirming_record r else
  match devices r with
  | [] => mret (match action with DiscardPreparedChanges => RolledBack | _ => InDoubt end)
  | ds =>
      acc ← st_foldM (recover_device r action) (None, []) ds;
      st_lift (merged_phase r "RECOVERY_ATTEMPT_IN_DOUBT" "could not recover" acc)
  end.

(** ** Settling a transaction *)

Definition persist_recovered_device (r : TxJournalRecord) (_ : unit) (d : DeviceId) : M unit :=
  desired ← st_lift (ok_or (desired_state_for_record r d) (InvalidDeviceState
    ("journal record " +:+ tx_id r +:+ " has no desired state for recovered device " +:+
     device_id_0 d)));
  existing ← shadow_read d;
  let recovered_shadow := match change_set_for_record r d with
    | Some change_set => apply_to_shadow change_set existing desired 0
    | None => from_desired desired 0
    end in
  _ ← shadow_write recovered_shadow;
  mret tt.
Definition persist_recovered_shadow (r : TxJournalRecord) : M unit :=
  st_foldM (persist_recovered_device r) tt (devices r).

(** [updated.transition_phase(InDoubt)?; updated.with_error(..); self.journal.put(..)?] *)
Definition leave_in_doubt (recovering : TxJournalRecord) (err : UnderlayError) : M unit :=
  let '(code, message) := journal_error_fields err in
  t1 ← now env;
  updated ← st_lift (transition_phase t1 recovering InDoubt);
  t2 ← now env;
  journal_write (with_error t2 updated code message).

(** The arm of [recover_records] for the automatic actions; [true] when the
    transaction counts as recovered. *)
Definition settle (r : TxJournalRecord) (action : RecoveryAction) : M bool :=
  t ← now env;
  recovering ← st_lift (transition_phase t r Recovering);
  _ ← journal_write recovering;
  outcome ← st_try (recover_record r action);
  match outcome with
  | Ok p =>
      persisted ← (if decide (p = Committed) then st_try (persist_recovered_shadow r) else mret (Ok tt));
      match persisted with
      | Err err => _ ← leave_in_doubt recovering err; mret false
      | Ok _ =>
          t ← now env;
          recovered_record ← st_lift (transition_phase t recovering p);
          _ ← journal_write recovered_record;
          mret (match p with Committed | RolledBack => true | _ => false end)
      end
  | Err err => _ ← leave_in_doubt recovering err; mret false
  end.

Definition Progress : Type := list RecoveryDecision * gset string * nat.

(** The body of the loop of [recover_records]. *)
Definition recover_candidate (gate : RecoveryRecordGate) (acc : Progress) (candidate : TxJournalRecord)
    : M Progress :=
  let '(decisions, attempted, recovered) := acc in
  _ ← ask_result (λ n, acquire_many env n (devices candidate));
  found ← journal_read (tx_id candidate);
  match found with
  | None => mret acc
  | Some record =>
      let decision := classify_recovery record in
      let decisions := decisions ++ [decision] in
      if negb (requires_recovery (phase record)) then mret (decisions, attempted, recovered) else
      if negb (gate_matches gate record) then mret (decisions, attempted, recovered) else
      let attempted := {[tx_id record]} ∪ attempted in
      match rd_action decision with
      | Noop => mret (decisions, attempted, recovered)
      | ManualIntervention =>
          if decide (phase record ≠ InDoubt) then
            t ← now env;
            updated ← st_lift (transition_phase t record InDoubt);
            _ ← journal_write updated;
            mret (decisions, attempted, recovered)
          else mret (decisions, attempted, recovered)
      | action =>
          settled ← settle record action;
          mret (decisions, attempted, if (settled : bool) then Datatypes.S recovered else recovered)
      end
  end.

Definition recover_records (candidates : list TxJournalRecord) (scope : RecoveryReportScope)
    (gate : RecoveryRecordGate) (request_id trace_id : string) : M RecoveryReport :=
  '(decisions, attempted, recovered) ← st_foldM (recover_candidate gate) (([], ∅, 0%nat) : Progress) candidates;
  listed ← journal_scan;
  let pending := match scope with
    | AllRecoverable => listed
    | AttemptedTxIds => filter (λ r, tx_id r ∈ (attempted : gset string)) listed
    end in
  let report := {|
    rr_recovered := recovered;
    rr_in_doubt := length (filter (λ r, phase r = InDoubt) pending);
    rr_pending := length pending;
    rr_tx_ids := tx_id <$> pending;
    rr_decisions := decisions |} in
  _ ← emit_event (recovery_completed request_id trace_id report);
  mret report.

Definition recover_pending_transactions : M RecoveryReport :=
  recoverable ← journal_scan;
  recover_records recoverable AllRecoverable AnyRecoverable "recovery" "recovery".

Definition recover_timed_out_confirmed_commits (now_unix_secs timeout_secs : N) : M RecoveryReport :=
  recoverable ← journal_scan;
  recover_records
    (filter (λ r, is_timed_out_confirmed_commit r now_unix_secs timeout_secs = true) recoverable)
    AttemptedTxIds (TimedOutConfirmedCommit now_unix_secs timeout_secs)
    "confirmed-commit-timeout-watcher" "confirmed-commit-timeout-watcher".

End recovery.
