(* ===== verification/RecoveryCorrect.v ===== *)
(** * What recovery guarantees

    Proofs about [RecoveryCoordinator]: what the devices said justifies what the
    journal says, the journal changes only along the phase machine, the shadow store
    follows, and after a pass without journal faults nothing is left half done. *)
From S2P Require Export RecoveryCoordinator.
Local Open Scope N_scope.

(** ** What a device's answer settles *)

Definition call_device (c : AdapterCall) : DeviceInfo :=
  match c with
  | CallPrepare d _ _ | CallCommit d _ _ _ _ | CallVerify d _ _ _ | CallFinalConfirm d _
  | CallRollback d _ _ | CallRecover d _ _ _ => d
  end.

(** The answers that say how a transaction ended on a device: it recovered to committed or
    rolled back, or had nothing prepared to discard; it confirmed the commit; or it verified
    that the desired state is there. *)
Definition answer_settles (c : AdapterCall) (st : AdapterOperationStatus) : option TxPhase :=
  match c, st with
  | CallRecover _ _ _ _, OpRolledBack => Some RolledBack
  | CallRecover _ _ _ AdapterRecover, OpCommitted => Some Committed
  | CallRecover _ _ _ DiscardPreparedChanges, OpNoChange => Some RolledBack
  | CallFinalConfirm _ _, OpCommitted => Some Committed
  | CallVerify _ _ _ _, (OpNoChange | OpCommitted) => Some Committed
  | _, _ => None
  end.

Section settled.
Context (inv : Inventory.t).

(** A call made for the transaction of [r] on device [d]. *)
Definition concerns (r : TxJournalRecord) (d : DeviceId) (c : AdapterCall) : Prop :=
  ∃ managed, Inventory.get d inv = Ok managed ∧ call_device c = md_info managed ∧
    call_context c = tx_request_context (md_info managed) (record_context r).

(** Device [d] answered that the transaction of [r] ended in [p]. *)
Definition device_settled (t : list Action) (r : TxJournalRecord) (d : DeviceId) (p : TxPhase) : Prop :=
  ∃ c o, AAdapter c (Ok o) ∈ t ∧ concerns r d c ∧ answer_settles c (out_status o) = Some p.

Lemma device_settled_mono t t' r d p : t ⊆ t' → device_settled t r d p → device_settled t' r d p.
Proof. intros Ht (c & o & ? & ?). exists c, o. auto. Qed.

(** What the journal may say of [r] after recovery. *)
Definition proved (t : list Action) (r : TxJournalRecord) (p : TxPhase) : Prop :=
  match p with
  | Committed => devices r ≠ [] ∧ ∀ d, d ∈ devices r → device_settled t r d Committed
  | RolledBack => ∀ d, d ∈ devices r → device_settled t r d RolledBack
  | InDoubt => True
  | _ => False
  end.
Lemma proved_mono t t' r p : t ⊆ t' → proved t r p → proved t' r p.
Proof. intros Ht. destruct p; simpl; naive_solver eauto using device_settled_mono. Qed.
End settled.

(** ** Asking *)
Section asking.
Context {J S : Type} `{!TxJournalStore J} `{!ShadowStateStore S}.
Context (env : Env) (inv : Inventory.t).
Notation W := (World (J:=J) (S:=S)).

(** Only questions were asked: the calls [t] were made and nothing else changed. *)
Definition asked (t : list Action) (w w' : W) : Prop :=
  w_trace w' = w_trace w ++ t ∧ w_journal w' = w_journal w ∧ w_shadow w' = w_shadow w ∧
  w_events w' = w_events w ∧ Forall (λ a, ∃ c x, a = AAdapter c x) t.

Lemma asked_nil w w' :
  w_trace w' = w_trace w → w_journal w' = w_journal w → w_shadow w' = w_shadow w →
  w_events w' = w_events w → asked [] w w'.
Proof. intros. split_and!; [by rewrite app_nil_r|done..]. Qed.
Lemma asked_trans t1 t2 w1 w2 w3 : asked t1 w1 w2 → asked t2 w2 w3 → asked (t1 ++ t2) w1 w3.
Proof.
  intros (Ht1 & ? & ? & ? & ?) (Ht2 & ? & ? & ? & ?). split_and!; [|congruence..|by apply Forall_app].
  by rewrite Ht2, Ht1, app_assoc.
Qed.

(** [m] only asks; its result and the calls it made satisfy [Q]. *)
Definition asks {A} (m : ST UnderlayError W A) (Q : UnderlayResult A → list Action → Prop) : Prop :=
  ∀ w, let '(x, w') := m w in ∃ t, asked t w w' ∧ Q x t.

Lemma asks_mono {A} (m : ST UnderlayError W A) (Q Q' : _ → _ → Prop) :
  asks m Q → (∀ x t, Q x t → Q' x t) → asks m Q'.
Proof. intros Hm HQ w. specialize (Hm w). destruct (m w). naive_solver. Qed.
Lemma asks_bind {A B} (m : ST UnderlayError W A) (f : A → ST UnderlayError W B) Q :
  asks m (λ x t, match x with
                 | Ok a => asks (f a) (λ y t', Q y (t ++ t'))
                 | Err e => Q (Err e) t
                 end) →
  asks (m ≫= f) Q.
Proof.
  intros Hm w. specialize (Hm w). unfold mbind, ST_bind. destruct (m w) as [[a|e] w1]; [|done].
  destruct Hm as (t & Ht & Hf). specialize (Hf w1). destruct (f a w1) as [y w2].
  destruct Hf as (t' & Ht' & HQ). eauto using asked_trans.
Qed.
Lemma asks_try {A} (m : ST UnderlayError W A) (Q : _ → _ → Prop) :
  asks m (λ x, Q (Ok x)) → asks (st_try m) Q.
Proof. intros Hm w. specialize (Hm w). unfold st_try. by destruct (m w). Qed.
Lemma asks_const {A} (x : UnderlayResult A) (Q : _ → _ → Prop) : Q x [] → asks (λ w, (x, w)) Q.
Proof. intros HQ w. exists []. split; [by apply asked_nil|done]. Qed.
Lemma asks_ask {A} (f : nat → UnderlayResult A) (Q : _ → _ → Prop) :
  (∀ x, Q x []) → asks (ask_result f) Q.
Proof. intros HQ w. exists []. split; [by apply asked_nil|apply HQ]. Qed.
Lemma asks_call c (Q : _ → _ → Prop) : (∀ a, Q a [AAdapter c a]) → asks (call env c) Q.
Proof.
  intros HQ w. eexists. split; [|apply HQ]. split_and!; [done..|]. apply Forall_singleton. eauto.
Qed.

(** The retries: at most as many calls as attempts, each but the last one lost in
    transport, and a result is the answer of the last one. *)
Definition retried (c : AdapterCall) (n : nat) (x : UnderlayResult AdapterOutcome) (t : list Action)
    : Prop :=
  (length t ≤ n)%nat ∧
  (∀ i a, t !! i = Some a → (Datatypes.S i < length t)%nat →
     ∃ m, a = AAdapter c (Err (AdapterTransport m))) ∧
  ∀ o, x = Ok o → list.last t = Some (AAdapter c (Ok o)).

Lemma retried_in c n o t : retried c n (Ok o) t → AAdapter c (Ok o) ∈ t.
Proof. intros (_ & _ & Ho). apply last_Some_elem_of. by apply Ho. Qed.

Lemma retried_single c n x e : x = Err e → retried c (Datatypes.S n) x [AAdapter c (Err e)].
Proof. intros ->. split_and!; [simpl; lia|intros i a ?; simpl; lia|done]. Qed.

Lemma retried_cons c n x m t :
  retried c n x t → retried c (Datatypes.S n) x (AAdapter c (Err (AdapterTransport m)) :: t).
Proof.
  intros (Hl & Ht & Ho). split_and!; [simpl; lia| |].
  - intros [|i] a Ha Hi; simplify_eq/=; [by eauto|]. apply (Ht i); [done|lia].
  - intros o Hx. by rewrite last_cons, (Ho o Hx).
Qed.

Lemma recover_attempts_spec n err device context strategy action :
  asks (recover_attempts env n err device context strategy action)
    (retried (CallRecover device context strategy action) n).
Proof.
  set (c := CallRecover device context strategy action).
  induction n as [|n IH] in err |- *; simpl.
  { apply asks_const. split_and!; [done..|]. by intros. }
  apply asks_bind, asks_ask. intros [[]|e].
  2: { split_and!; [simpl; lia|done..]. }
  apply asks_bind, asks_try, asks_call. intros [o|e]; simpl.
  { apply asks_const. split_and!; [simpl; lia|intros i a ?; simpl; lia|]. by intros o' [= <-]. }
  assert (∀ e', e' = e → asks (A:=AdapterOutcome) (st_fail e')
    (λ x t, retried c (Datatypes.S n) x (AAdapter c (Err e) :: t))) as Hfail.
  { intros e' ->. apply asks_const. by apply retried_single. }
  destruct e; try (by apply Hfail).
  case_decide; [|by apply Hfail]. eapply asks_mono; [apply IH|]. intros x t. apply retried_cons.
Qed.

(** ** The devices of a record *)

(** What a loop over devices has established: the phase all of them agree on. *)
Definition agreed (r : TxJournalRecord) (ds : list DeviceId) (acc : Merged) (t : list Action) : Prop :=
  match acc with
  | (None, []) => ds = []
  | (Some p, []) => ds ≠ [] ∧
      match p with
      | Committed | RolledBack => ∀ d, d ∈ ds → device_settled inv t r d p
      | InDoubt => True
      | _ => False
      end
  | (_, _ :: _) => True
  end.

Definition settled_phase (p : TxPhase) : Prop := p = Committed ∨ p = RolledBack ∨ p = InDoubt.

Lemma recover_phase_settled action st : settled_phase (recover_phase_from_adapter_status action st).
Proof. unfold settled_phase. destruct action, st; simpl; auto. Qed.

Lemma recover_phase_answers d ctx strategy action st p :
  recover_phase_from_adapter_status action st = p → p ≠ InDoubt →
  answer_settles (CallRecover d ctx strategy action) st = Some p.
Proof. intros <-. by destruct action, st. Qed.

Lemma agreed_failure r ds acc t d e : agreed r ds (record_recovery_failure acc d e) t.
Proof. unfold agreed, record_recovery_failure. by destruct (acc.2). Qed.

Lemma agreed_merge r ds acc t t' d p :
  agreed r ds acc t → settled_phase p → (p ≠ InDoubt → device_settled inv t' r d p) →
  agreed r (ds ++ [d]) (merge acc p) (t ++ t').
Proof.
  intros Ha Hp Hd. destruct acc as [m fs]. unfold merge. simpl. destruct fs; [|done].
  assert (ds ++ [d] ≠ []) as Hne by (by destruct ds).
  assert (t' ⊆ t ++ t' ∧ t ⊆ t ++ t') as [Ht' Ht] by set_solver.
  destruct m as [q|]; simpl in *.
  - destruct Ha as [_ Ha]. split; [done|]. case_decide as Hq; [|done]. subst q.
    destruct Hp as [->|[->| ->]]; [..|done];
      (intros d' [Hin|Hin]%elem_of_app;
       [apply (device_settled_mono inv t); by auto
       |apply list_elem_of_singleton in Hin as ->; apply (device_settled_mono inv t'); by auto]).
  - split; [done|]. rewrite Ha. destruct Hp as [->|[->| ->]]; [..|done];
      (intros d' ->%list_elem_of_singleton; apply (device_settled_mono inv t'); by auto).
Qed.

Lemma recover_device_spec r action acc d t ds :
  agreed r ds acc t →
  asks (recover_device env inv r action acc d) (λ x t',
    ∃ acc', x = Ok acc' ∧ agreed r (ds ++ [d]) acc' (t ++ t')).
Proof.
  intros Ha. unfold recover_device. destruct (Inventory.get d inv) as [managed|e] eqn:Hget.
  2: { apply asks_const. eexists. split; [done|]. apply agreed_failure. }
  apply asks_bind, asks_try. eapply asks_mono; [apply recover_attempts_spec|].
  intros [o|e] t1 Ho; apply asks_const; (eexists; split; [done|]).
  - rewrite app_nil_r. apply agreed_merge; [done|apply recover_phase_settled|].
    intros Hp. do 2 eexists.
    split_and!; [by eapply retried_in|by exists managed|by apply recover_phase_answers].
  - apply agreed_failure.
Qed.

Lemma final_confirm_again_spec r managed d :
  Inventory.get d inv = Ok managed →
  asks (final_confirm_again env r (md_info managed)
          (tx_request_context (md_info managed) (record_context r)) d)
    (λ x t, ∃ s, x = Ok s ∧ (s = None → device_settled inv t r d Committed)).
Proof.
  intros Hget. set (context := tx_request_context _ _).
  assert (∀ s t, asks (verify_again env r (md_info managed) context d s) (λ x t',
    ∃ s, x = Ok s ∧ (s = None → device_settled inv (t ++ t') r d Committed))) as Hv.
  { intros s t. unfold verify_again.
    destruct (desired_state_for_record r d) as [des|]; [|by apply asks_const; eexists].
    destruct (change_set_for_record r d) as [cs|]; [|by apply asks_const; eexists].
    apply asks_bind, asks_try, asks_call. intros [o|e]; apply asks_const; (eexists; split; [done|]);
      [|done].
    destruct (out_status o) eqn:Ho; try done; intros _;
      (exists (CallVerify (md_info managed) context des cs), o; rewrite Ho;
       split_and!; [set_solver|by exists managed|done]). }
  apply asks_bind, asks_try, asks_call. intros a.
  destruct a as [o|e]; [|apply Hv]. case_decide as Ho; [|apply Hv].
  apply asks_const. eexists. split; [done|]. intros _.
  exists (CallFinalConfirm (md_info managed) context), o. rewrite Ho.
  split_and!; [set_solver|by exists managed|done].
Qed.

Lemma recover_final_confirming_device_spec r acc d t ds :
  agreed r ds acc t →
  asks (recover_final_confirming_device env inv r acc d) (λ x t',
    ∃ acc', x = Ok acc' ∧ agreed r (ds ++ [d]) acc' (t ++ t')).
Proof.
  intros Ha. unfold recover_final_confirming_device.
  assert (∀ e t', ∃ acc', Ok (E:=UnderlayError) (record_recovery_failure acc d e) = Ok acc' ∧
    agreed r (ds ++ [d]) acc' (t ++ t')) as Hfail.
  { intros. eexists. split; [done|]. apply agreed_failure. }
  destruct (Inventory.get d inv) as [managed|e] eqn:Hget; [|by apply asks_const].
  apply asks_bind, asks_try, asks_ask. intros [[]|e]; [|by apply asks_const].
  apply asks_bind. eapply asks_mono; [by apply final_confirm_again_spec|].
  intros x t1 (s & -> & Hs). destruct s as [[s1 s2]|].
  2: { apply asks_const. eexists. split; [done|]. rewrite app_nil_r.
       apply agreed_merge; [done|by left|auto]. }
  apply asks_bind, asks_try. eapply asks_mono; [apply recover_attempts_spec|].
  intros [o|e] t2 Ho; [|by apply asks_const].
  assert (∀ p, recover_phase_from_adapter_status AdapterRecover (out_status o) = p → p ≠ InDoubt →
    device_settled inv (t1 ++ t2) r d p) as Hd.
  { intros p Hp Hne. do 2 eexists. split_and!;
      [apply elem_of_app; right; by eapply retried_in|by exists managed|by apply recover_phase_answers]. }
  pose proof (recover_phase_settled AdapterRecover (out_status o)) as Hp.
  destruct (recover_phase_from_adapter_status _ _); try (by apply asks_const);
    (apply asks_const; eexists; split; [done|]; simpl; rewrite !app_nil_r;
     apply agreed_merge; [done..|]; by apply Hd).
Qed.

Lemma fold_devices_spec (f : Merged → DeviceId → ST UnderlayError W Merged) r ds0 ds acc t :
  (∀ ds acc d t, agreed r ds acc t → asks (f acc d) (λ x t',
     ∃ acc', x = Ok acc' ∧ agreed r (ds ++ [d]) acc' (t ++ t'))) →
  agreed r ds0 acc t →
  asks (st_foldM f acc ds) (λ x t', ∃ acc', x = Ok acc' ∧ agreed r (ds0 ++ ds) acc' (t ++ t')).
Proof.
  intros Hf. induction ds as [|d ds IH] in ds0, acc, t |- *; intros Ha; simpl.
  { apply asks_const. exists acc. by rewrite !app_nil_r. }
  apply asks_bind. eapply asks_mono; [by apply Hf|].
  intros x t1 (acc1 & -> & Ha1). eapply asks_mono; [by apply IH|].
  intros y t2 (acc2 & -> & Ha2). exists acc2. split; [done|]. by rewrite <-!app_assoc in Ha2.
Qed.

Lemma merged_phase_spec r code prefix acc t p :
  devices r ≠ [] → agreed r (devices r) acc t → merged_phase r code prefix acc = Ok p →
  proved inv t r p.
Proof.
  intros Hne Ha. unfold merged_phase. destruct acc as [m [|f fs]]; [|done]. simpl in *.
  intros [= <-]. destruct m as [q|]; [|done]. destruct Ha as [_ Ha]. by destruct q.
Qed.

(** What recovery says of a record was said by its devices. *)
Lemma recover_record_spec r action :
  asks (recover_record env inv r action) (λ x t, ∀ p, x = Ok p → proved inv t r p).
Proof.
  unfold recover_record, recover_final_confirming_record.
  destruct (bool_decide _ && bool_decide _); destruct (devices r) as [|d ds] eqn:Hds.
  - apply asks_const. by intros p [= <-].
  - apply asks_bind. eapply asks_mono.
    { apply (fold_devices_spec _ r [] _ _ []); [|done].
      intros. by apply recover_final_confirming_device_spec. }
    intros x t (acc & -> & Ha). apply asks_const. intros p Hp. rewrite app_nil_r.
    eapply merged_phase_spec; [by rewrite Hds|by rewrite Hds|done].
  - apply asks_const. intros p [= <-]. destruct action; try done. simpl. rewrite Hds. set_solver.
  - apply asks_bind. eapply asks_mono.
    { apply (fold_devices_spec _ r [] _ _ []); [|done]. intros. by apply recover_device_spec. }
    intros x t (acc & -> & Ha). apply asks_const. intros p Hp. rewrite app_nil_r.
    eapply merged_phase_spec; [by rewrite Hds|by rewrite Hds|done].
Qed.

End asking.

(** ** Settling *)

#[local] Arguments with_phase : simpl never.
#[local] Arguments with_error : simpl never.

(** The phases go on along the phase machine; what the transaction is stays. *)
Definition evolves (r r' : TxJournalRecord) : Prop :=
  tx_key r' = tx_key r ∧ strategy r' = strategy r ∧
  rtc (λ p q, validate_transition p q = Ok tt) (phase r) (phase r').

Lemma evolves_refl r : evolves r r.
Proof. by split_and!. Qed.
Lemma evolves_trans r1 r2 r3 : evolves r1 r2 → evolves r2 r3 → evolves r1 r3.
Proof. intros (? & ? & ?) (? & ? & ?). split_and!; [congruence..|by etrans]. Qed.
Lemma moved_evolves p r r' :
  moved p r r' → validate_transition (phase r) p = Ok tt → evolves r r'.
Proof. intros (Hp & ? & ?) Hv. split_and!; [done..|]. rewrite Hp. by apply rtc_once. Qed.
Lemma evolves_id r r' : evolves r r' → tx_id r' = tx_id r.
Proof. intros (Hk & _). unfold tx_key in Hk. congruence. Qed.

Section settling.
Context {J S : Type} `{!TxJournalStore J} `{!ShadowStateStore S}.
Context (jok : J → Prop) (jview : J → gmap string TxJournalRecord).
Context (Hlaws : TxJournalLaws J jok jview).
Context (sok : S → Prop) (sview : S → gmap DeviceId DeviceShadowState).
Context (Hshadow : ShadowStoreLaws S sok sview).
Context (env : Env) (inv : Inventory.t).
Notation W := (World (J:=J) (S:=S)).

(** From [w0] to [w] only the journal entry of [r] changed, to [r']; [t] are the
    actions in between. *)
Definition at_record (w0 : W) (r r' : TxJournalRecord) (t : list Action) (w : W) : Prop :=
  jok (w_journal w) ∧ w_events w = w_events w0 ∧ w_trace w = w_trace w0 ++ t ∧
  jview (w_journal w) = <[tx_id r := r']> (jview (w_journal w0)).

Lemma at_record_asked w0 r r' t t1 w w' :
  at_record w0 r r' t w → asked t1 w w' → at_record w0 r r' (t ++ t1) w'.
Proof.
  intros (? & ? & Ht & ?) (Ht' & Hj & ? & ? & _). unfold at_record. rewrite Hj.
  split_and!; [done|congruence| |done]. by rewrite Ht', Ht, app_assoc.
Qed.

Lemma at_record_write w0 r r' r1 t w :
  at_record w0 r r' t w → tx_id r1 = tx_id r →
  let '(x, w') := journal_write r1 w in
  w_shadow w' = w_shadow w ∧ ∃ r2,
    at_record w0 r r2 (t ++ [AJournal r1 (is_ok x)]) w' ∧ (r2 = r1 ∨ is_ok x = false ∧ r2 = r').
Proof.
  intros (Hj & He & Ht & Hv) Hid. unfold journal_write.
  destruct (journal_put r1 (w_journal w)) as [x j] eqn:Hput.
  destruct (journal_put_law _ _ _ _ Hj Hput) as [Hj' Hv']. split; [done|].
  assert (∀ r2, jview j = <[tx_id r := r2]> (jview (w_journal w0)) →
    at_record w0 r r2 (t ++ [AJournal r1 (is_ok x)]) (log (AJournal r1 (is_ok x))
      (mkWorld j (w_shadow w) (w_observed w) (w_events w) (w_tick w) (w_trace w)))) as Hat.
  { intros r2 Hr2. split_and!; [done..| |done]. simpl. by rewrite Ht, app_assoc. }
  destruct Hv' as [Hv'|[Hx Hv']].
  - exists r1. split; [apply Hat|by left]. by rewrite Hv', Hv, Hid, insert_insert_eq.
  - exists r'. split; [apply Hat|by right]. by rewrite Hv', Hv.
Qed.

(** [leave_in_doubt] writes [InDoubt], or fails. *)
Lemma leave_in_doubt_spec w0 r recovering t err w :
  at_record w0 r recovering t w → tx_id recovering = tx_id r → phase recovering = Recovering →
  let '(x, w') := leave_in_doubt env recovering err w in
  w_shadow w' = w_shadow w ∧ ∃ r2 t2, at_record w0 r r2 (t ++ t2) w' ∧ evolves recovering r2 ∧
    (phase r2 = InDoubt ∨ is_ok x = false ∧ r2 = recovering).
Proof.
  intros Hat Hid Hp. unfold leave_in_doubt. destruct (journal_error_fields err) as [code message].
  unfold now, ask, st_lift, transition_phase. rewrite Hp. unfold mbind, ST_bind. simpl.
  set (w1 := tick w).
  set (r1 := with_phase _ recovering InDoubt).
  assert (moved InDoubt recovering r1) as Hm by apply moved_with_phase.
  set (r2 := with_error _ r1 code message).
  assert (moved InDoubt recovering r2) as Hm2.
  { eapply moved_trans; [exact Hm|]. apply moved_with_error, Hm. }
  assert (evolves recovering r2) as Hev by (eapply moved_evolves; [done|by rewrite Hp]).
  pose proof (at_record_write w0 r recovering r2 t (tick w1) Hat) as Hw.
  destruct (journal_write r2 (tick w1)) as [x w'].
  destruct Hw as (Hsh & r3 & Hat3 & Hr3); [rewrite (evolves_id _ _ Hev); done|].
  split; [done|]. exists r3. eexists. split; [exact Hat3|].
  destruct Hr3 as [->|[Hx ->]].
  - split; [done|]. left. apply Hm2.
  - split; [apply evolves_refl|]. by right.
Qed.

(** *** The shadow store *)

Definition recovered_view (r : TxJournalRecord) (v : gmap DeviceId DeviceShadowState) :=
  foldl (λ v d, match desired_state_for_record r d with
    | Some desired => <[d := stored v match change_set_for_record r d with
        | Some cs => apply_to_shadow cs (v !! d) desired 0
        | None => from_desired desired 0
        end]> v
    | None => v
    end) v (devices r).

Lemma desired_state_device r d desired :
  desired_state_for_record r d = Some desired → ds_device_id desired = d.
Proof. by intros [_ ?%bool_decide_eq_true]%find_some. Qed.

(** What persisting may change. *)
Definition only_shadow (w w' : W) : Prop :=
  w_trace w' = w_trace w ∧ w_journal w' = w_journal w ∧ w_events w' = w_events w ∧
  sok (w_shadow w').

Lemma persist_device_spec r d w :
  sok (w_shadow w) →
  let '(x, w') := persist_recovered_device r tt d w in
  only_shadow w w' ∧ (is_ok x = true → ∃ desired, desired_state_for_record r d = Some desired ∧
    sview (w_shadow w') = <[d := stored (sview (w_shadow w)) match change_set_for_record r d with
        | Some cs => apply_to_shadow cs (sview (w_shadow w) !! d) desired 0
        | None => from_desired desired 0
        end]> (sview (w_shadow w))).
Proof.
  intros Hok. unfold persist_recovered_device, mbind, ST_bind, st_lift.
  destruct (desired_state_for_record r d) as [desired|] eqn:Hdes; simpl; [|by split].
  apply desired_state_device in Hdes as Hd. unfold shadow_read.
  destruct (shadow_get d (w_shadow w)) as [x s] eqn:Hget.
  destruct (shadow_get_law _ _ _ _ Hok Hget) as (Hok' & Hv & Hx). destruct x as [old|e]; [|by split].
  specialize (Hx old eq_refl). unfold shadow_write. simpl.
  set (new := match change_set_for_record r d with
              | Some cs => apply_to_shadow cs old desired 0
              | None => from_desired desired 0
              end).
  assert (ss_device_id new = d) as Hnew.
  { unfold new. destruct (change_set_for_record r d); [by rewrite apply_to_shadow_device|done]. }
  destruct (shadow_put new s) as [y s'] eqn:Hput.
  destruct (shadow_put_law _ _ _ _ Hok' Hput) as (Hok'' & _ & Hv').
  destruct y as [z|e]; simpl; (split; [by split_and!|]); [|done].
  intros _. exists desired. split; [done|]. destruct Hv' as [Hv'|[? _]]; [|done].
  rewrite Hv', Hnew, Hv. unfold new. by rewrite Hx.
Qed.

Lemma persist_spec r w :
  sok (w_shadow w) →
  let '(x, w') := persist_recovered_shadow r w in
  only_shadow w w' ∧
  (is_ok x = true → sview (w_shadow w') = recovered_view r (sview (w_shadow w))).
Proof.
  unfold persist_recovered_shadow, recovered_view.
  induction (devices r) as [|d ds IH] in w |- *; intros Hok; simpl; [by split|].
  pose proof (persist_device_spec r d w Hok) as Hd. unfold mbind, ST_bind.
  destruct (persist_recovered_device r tt d w) as [[[]|e] w1]; [|by destruct Hd].
  destruct Hd as [(Ht & Hj & He & Hok1) Hv]. specialize (IH w1 Hok1).
  destruct (st_foldM _ tt ds w1) as [y w2]. destruct IH as [(Ht2 & Hj2 & He2 & Hok2) Hv2].
  split; [split_and!; [congruence..|done]|]. intros Hy. rewrite (Hv2 Hy).
  by destruct (Hv eq_refl) as (desired & -> & ->).
Qed.

Lemma transition_Ok t r p :
  validate_transition (phase r) p = Ok tt → transition_phase t r p = Ok (with_phase t r p).
Proof. intros Hv. unfold transition_phase. by rewrite Hv. Qed.

(** What [settle] makes of the record [r] of [w]: [r'], after the actions [t]. *)
Definition settled_as (w : W) (r : TxJournalRecord) (x : UnderlayResult bool) (w' : W)
    (r' : TxJournalRecord) (t : list Action) : Prop :=
  at_record w r r' t w' ∧ evolves r r' ∧
  (phase r' = phase r ∨ phase r' = Recovering ∨ proved inv t r (phase r')) ∧
  (phase r' = Committed → sview (w_shadow w') = recovered_view r (sview (w_shadow w))) ∧
  (phase r' = RolledBack → sview (w_shadow w') = sview (w_shadow w)) ∧
  match x with
  | Ok b => settled_phase (phase r') ∧ (b = true ↔ phase r' ≠ InDoubt)
  | Err _ => True
  end.

(** The last write of [settle], when the devices agreed on [p]. *)
Lemma settle_end w0 r recovering t p w :
  at_record w0 r recovering t w → evolves r recovering → phase recovering = Recovering →
  requires_recovery (phase r) = true →
  proved inv t r p →
  (p = Committed → sview (w_shadow w) = recovered_view r (sview (w_shadow w0))) →
  (p ≠ Committed → w_shadow w = w_shadow w0) →
  sok (w_shadow w) →
  let '(x, w') := (t ← now env;
    recovered_record ← st_lift (transition_phase t recovering p);
    _ ← journal_write recovered_record;
    mret (match p with Committed | RolledBack => true | _ => false end)) w in
  sok (w_shadow w') ∧ ∃ r' t', settled_as w0 r x w' r' t'.
Proof.
  intros Hat Hev Hp Hrec Hproved Hc Hnc Hok.
  assert (settled_phase p) as Hset by (unfold settled_phase; destruct p; naive_solver).
  assert (validate_transition (phase recovering) p = Ok tt) as Hv.
  { rewrite Hp. by destruct Hset as [->|[->| ->]]. }
  unfold now, ask, st_lift. unfold mbind, ST_bind. simpl. rewrite transition_Ok by done. simpl.
  set (r1 := with_phase _ recovering p).
  assert (moved p recovering r1) as Hm by apply moved_with_phase.
  assert (evolves r r1) as Hev1 by (eapply evolves_trans; [done|]; by eapply moved_evolves).
  pose proof (at_record_write w0 r recovering r1 t (tick w) Hat (evolves_id _ _ Hev1)) as Hw.
  destruct (journal_write r1 (tick w)) as [x w']. destruct Hw as (Hsh & r2 & Hat2 & Hr2).
  simpl in Hsh. destruct x as [[]|e]; simpl.
  - rewrite Hsh. split; [done|]. destruct Hr2 as [->|[? _]]; [|done].
    destruct Hm as (Hp1 & _ & _). eexists r1, _. split; [exact Hat2|]. rewrite Hp1, Hsh.
    split_and!; [done| |done| |done|].
    + right; right. eapply proved_mono; [|done]. set_solver.
    + intros ->. by rewrite Hnc.
    + destruct Hset as [->|[->| ->]]; naive_solver.
  - rewrite Hsh. split; [done|]. eexists r2, _. split; [exact Hat2|]. rewrite Hsh.
    destruct Hr2 as [->|[_ ->]].
    + destruct Hm as (Hp1 & _ & _). rewrite Hp1. split_and!; [done| |done| |done].
      * right; right. eapply proved_mono; [|done]. set_solver.
      * intros ->. by rewrite Hnc.
    + rewrite Hp. split_and!; [done|by auto|done..].
Qed.

Lemma settle_in_doubt w0 r recovering t err w :
  at_record w0 r recovering t w → evolves r recovering → phase recovering = Recovering →
  sok (w_shadow w) →
  let '(x, w') := (_ ← leave_in_doubt env recovering err; mret false) w in
  sok (w_shadow w') ∧ ∃ r' t', settled_as w0 r x w' r' t'.
Proof.
  intros Hat Hev Hp Hok. unfold mbind, ST_bind.
  pose proof (leave_in_doubt_spec w0 r recovering t err w Hat (evolves_id _ _ Hev) Hp) as Hl.
  destruct (leave_in_doubt env recovering err w) as [x w']. destruct Hl as (Hsh & r2 & t2 & Hat2 & Hev2 & Hr2).
  assert (evolves r r2) by by eapply evolves_trans.
  destruct x as [[]|e]; simpl; rewrite Hsh; (split; [done|]); eexists r2, _; (split; [exact Hat2|]).
  - destruct Hr2 as [Hr2|[? _]]; [|done]. rewrite Hr2. unfold settled_phase. split_and!; auto; naive_solver.
  - destruct Hr2 as [Hr2|[_ ->]]; [rewrite Hr2|rewrite Hp]; split_and!; simpl; auto; done.
Qed.

Lemma settle_spec r action w :
  jok (w_journal w) → sok (w_shadow w) → jview (w_journal w) !! tx_id r = Some r →
  requires_recovery (phase r) = true → validate_transition (phase r) Recovering = Ok tt →
  let '(x, w') := settle env inv r action w in
  sok (w_shadow w') ∧ ∃ r' t, settled_as w r x w' r' t.
Proof.
  intros Hj Hok Hr Hrec Hv. unfold settle. unfold mbind at 1, ST_bind at 1, now at 1, ask at 1.
  unfold mbind at 1, ST_bind at 1, st_lift at 1. simpl. rewrite transition_Ok by done. simpl.
  set (r1 := with_phase _ r Recovering).
  assert (moved Recovering r r1) as Hm by apply moved_with_phase.
  assert (evolves r r1) as Hev by by eapply moved_evolves.
  assert (at_record w r r [] (tick w)) as Hat.
  { split_and!; [done..|by rewrite app_nil_r|]. simpl. by rewrite insert_id. }
  pose proof (at_record_write w r r r1 [] (tick w) Hat (evolves_id _ _ Hev)) as Hw.
  unfold mbind at 1, ST_bind at 1.
  destruct (journal_write r1 (tick w)) as [x w1]. destruct Hw as (Hsh & r2 & Hat2 & Hr2). simpl in Hsh.
  destruct x as [[]|e].
  2: { rewrite Hsh. split; [done|]. eexists r2, _. split; [exact Hat2|].
       assert (phase r ≠ Committed ∧ phase r ≠ RolledBack) as [Hn1 Hn2] by (by destruct (phase r)).
       destruct Hr2 as [->|[_ ->]]; [destruct Hm as (Hp1 & _); rewrite Hp1|]; split_and!; auto; done. }
  destruct Hr2 as [->|[? _]]; [|done]. clear Hat. destruct Hm as (Hp1 & _ & _).
  unfold mbind at 1, ST_bind at 1, st_try at 1.
  pose proof (recover_record_spec env inv r action w1) as Hask.
  destruct (recover_record env inv r action w1) as [outcome w2].
  destruct Hask as (t & Hask & Hproved). pose proof (at_record_asked _ _ _ _ _ _ _ Hat2 Hask) as Hat3.
  destruct Hask as (_ & _ & Hsh2 & _). rewrite Hsh in Hsh2.
  destruct outcome as [p|e]; [|apply (settle_in_doubt _ _ _ _ _ _ Hat3); congruence || done].
  specialize (Hproved p eq_refl).
  assert (proved inv ([] ++ [AJournal r1 (is_ok (Ok (E:=UnderlayError) ()))] ++ t) r p) as Hproved'.
  { eapply proved_mono; [|done]. set_solver. }
  unfold mbind at 1, ST_bind at 1. case_decide as Hpc.
  - unfold st_try. pose proof (persist_spec r w2) as Hpersist.
    destruct (persist_recovered_shadow r w2) as [y w3]. rewrite Hsh2 in Hpersist.
    destruct (Hpersist Hok) as [(Ht3 & Hj3 & He3 & Hok3) Hv3].
    assert (at_record w r r1 (([] ++ [AJournal r1 (is_ok (Ok (E:=UnderlayError) ()))]) ++ t) w3) as Hat4.
    { destruct Hat3 as (? & ? & ? & ?). unfold at_record. rewrite Hj3, Ht3, He3. done. }
    destruct y as [[]|e]; [|by apply (settle_in_doubt _ _ _ _ _ _ Hat4)].
    apply (settle_end _ _ _ _ _ _ Hat4); try done. intros _. by apply Hv3.
  - apply (settle_end _ _ _ _ _ _ Hat3); try done. by rewrite Hsh2.
Qed.

(** ** A pass over the journal *)

(** How recovery may change a journal: a record that requires recovery goes on along
    the phase machine, and what it then says its devices said. *)
Definition progress (t : list Action) (v v' : gmap string TxJournalRecord) : Prop :=
  ∀ k, match v !! k, v' !! k with
  | None, None => True
  | Some r, Some r' =>
      r' = r ∨ requires_recovery (phase r) = true ∧ evolves r r' ∧
               (phase r' = phase r ∨ phase r' = Recovering ∨ proved inv t r (phase r'))
  | _, _ => False
  end.

Lemma progress_refl t v : progress t v v.
Proof. intros k. destruct (v !! k); auto. Qed.

Lemma proved_evolves t r r' p : evolves r r' → proved inv t r' p → proved inv t r p.
Proof.
  intros (Hk & _ & _). unfold tx_key in Hk. injection Hk as H1 H2 H3 H4 _ _ _.
  assert (record_context r' = record_context r) as Hc.
  { unfold record_context. congruence. }
  unfold proved, device_settled, concerns. by rewrite Hc, H4.
Qed.

Lemma progress_trans t1 t2 v1 v2 v3 :
  progress t1 v1 v2 → progress t2 v2 v3 → progress (t1 ++ t2) v1 v3.
Proof.
  intros H1 H2 k. specialize (H1 k). specialize (H2 k).
  destruct (v1 !! k) as [r1|], (v2 !! k) as [r2|], (v3 !! k) as [r3|]; try done.
  assert (t1 ⊆ t1 ++ t2 ∧ t2 ⊆ t1 ++ t2) as [Ht1 Ht2] by set_solver.
  destruct H1 as [->|(Hr & He & Hp)], H2 as [->|(Hr' & He' & Hp')]; [by left|right..].
  - split_and!; [done..|]. destruct Hp' as [?|[?|?]]; eauto using proved_mono.
  - split_and!; [done..|]. destruct Hp as [?|[?|?]]; eauto using proved_mono.
  - split_and!; [done|by eapply evolves_trans|].
    destruct Hp' as [Hp'|[Hp'|Hp']]; [rewrite Hp'; destruct Hp as [?|[?|?]]|..];
      eauto using proved_mono, proved_evolves.
Qed.

(** The journal is keyed by transaction ids. *)
Notation jkeyed w := (keyed tx_id (jview (w_journal w))).

(** Nothing is left to do for transaction [k] but by an operator. *)
Definition calm (v : gmap string TxJournalRecord) (k : string) : Prop :=
  ∀ r, v !! k = Some r → requires_recovery (phase r) = true → phase r = InDoubt.

(** The frame of a step of the pass on transaction [k]. *)
Definition pass_step (k : string) (w w' : W) (t : list Action) : Prop :=
  jok (w_journal w') ∧ sok (w_shadow w') ∧ jkeyed w' ∧ w_events w' = w_events w ∧
  w_trace w' = w_trace w ++ t ∧ progress t (jview (w_journal w)) (jview (w_journal w')) ∧
  (∀ k', k' ≠ k → jview (w_journal w') !! k' = jview (w_journal w) !! k').

Lemma pass_step_idle k w w' :
  jok (w_journal w') → sok (w_shadow w) → jkeyed w →
  jview (w_journal w') = jview (w_journal w) → w_shadow w' = w_shadow w →
  w_events w' = w_events w → w_trace w' = w_trace w → pass_step k w w' [].
Proof.
  intros Hj Hs Hk Hv Hsh He Ht. unfold pass_step. rewrite Hv, Hsh, Ht, app_nil_r.
  split_and!; try done. apply progress_refl.
Qed.

Lemma settle_pass r action w :
  jok (w_journal w) → sok (w_shadow w) → jkeyed w → jview (w_journal w) !! tx_id r = Some r →
  requires_recovery (phase r) = true → validate_transition (phase r) Recovering = Ok tt →
  let '(x, w') := settle env inv r action w in
  ∃ t, pass_step (tx_id r) w w' t ∧
    (is_ok x = true → calm (jview (w_journal w')) (tx_id r)).
Proof.
  intros Hj Hok Hk Hr Hrec Hv. pose proof (settle_spec r action w Hj Hok Hr Hrec Hv) as Hs.
  destruct (settle env inv r action w) as [x w'].
  destruct Hs as (Hok' & r' & t & (Hj' & He & Ht & Hview) & Hev & Hp & _ & _ & Hx).
  exists t. split.
  - unfold pass_step. rewrite Hview. split_and!; try done.
    + rewrite <-(evolves_id _ _ Hev). by apply keyed_insert.
    + intros k. destruct (decide (k = tx_id r)) as [->|Hne].
      * rewrite Hr, lookup_insert_eq. auto.
      * rewrite lookup_insert_ne by done. apply progress_refl.
    + intros k Hne. by rewrite lookup_insert_ne.
  - destruct x as [b|e]; [|done]. intros _ r1. rewrite Hview, lookup_insert_eq. intros [= <-] Hr1.
    destruct Hx as [[Hx|[Hx|Hx]] _]; [by rewrite Hx in Hr1..|done].
Qed.

Lemma recover_candidate_spec gate acc c w :
  jok (w_journal w) → sok (w_shadow w) → jkeyed w →
  let '(x, w') := recover_candidate env inv gate acc c w in
  ∃ t, pass_step (tx_id c) w w' t ∧
    (is_ok x = true → gate = AnyRecoverable → calm (jview (w_journal w')) (tx_id c)).
Proof.
  intros Hj Hs Hk. unfold recover_candidate. destruct acc as [[decisions attempted] recovered].
  unfold mbind at 1, ST_bind at 1, ask_result.
  destruct (acquire_many _ _ _) as [[]|e]; [|exists []; split; [by apply pass_step_idle|done]].
  unfold mbind at 1, ST_bind at 1, journal_read. simpl.
  destruct (journal_get (tx_id c) (w_journal w)) as [x j] eqn:Hget.
  destruct (journal_get_law _ _ _ _ Hj Hget) as (Hj' & Hv & Hx).
  set (w1 := mkWorld j _ _ _ _ _).
  assert (pass_step (tx_id c) w w1 []) as Hidle by by apply pass_step_idle.
  destruct x as [found|e]; [|exists []; by split]. specialize (Hx found eq_refl).
  destruct found as [record|].
  2: { exists []. split; [done|]. intros _ _ r. simpl. rewrite Hv, <-Hx. done. }
  symmetry in Hx. pose proof (Hk _ _ Hx) as Hid.
  destruct (requires_recovery (phase record)) eqn:Hrec; simpl.
  2: { exists []. split; [done|]. intros _ _ r. simpl. rewrite Hv, Hx. intros [= <-]. congruence. }
  destruct (gate_matches gate record) eqn:Hgate; simpl.
  2: { exists []. split; [done|]. intros _ ->. done. }
  assert (∀ action, recovery_action_for_phase (phase record) = action →
    action = DiscardPreparedChanges ∨ action = AdapterRecover →
    let '(x, w') := (settled ← settle env inv record action;
      mret (decisions ++ [classify_recovery record], {[tx_id record]} ∪ attempted,
            if (settled : bool) then Datatypes.S recovered else recovered)) w1 in
    ∃ t, pass_step (tx_id c) w w' t ∧
      (is_ok x = true → gate = AnyRecoverable → calm (jview (w_journal w')) (tx_id c))) as Hsettle.
  { intros action Hact Hcase. unfold mbind, ST_bind.
    pose proof (settle_pass record action w1) as Hset. simpl in Hset. rewrite Hv, Hid in Hset.
    destruct (settle env inv record action w1) as [y w2]. destruct Hset as (t & Hp & Hcalm); try done.
    { destruct (phase record); naive_solver. }
    unfold pass_step in Hp. simpl in Hp. rewrite Hv in Hp.
    destruct y; exists t; (split; [exact Hp|auto]). }
  destruct (recovery_action_for_phase (phase record)) eqn:Hact.
  - by destruct (phase record).
  - apply Hsettle; auto.
  - apply Hsettle; auto.
  - assert (phase record = InDoubt) as Hin by (by destruct (phase record)).
    case_decide; [done|]. exists []. split; [done|].
    intros _ _ r. simpl. rewrite Hv, Hx. by intros [= <-].
Qed.

(** The loop of a pass. *)
Lemma recover_loop_spec gate acc cs w :
  jok (w_journal w) → sok (w_shadow w) → jkeyed w →
  let '(x, w') := st_foldM (recover_candidate env inv gate) acc cs w in
  ∃ t, jok (w_journal w') ∧ sok (w_shadow w') ∧ jkeyed w' ∧ w_events w' = w_events w ∧
    w_trace w' = w_trace w ++ t ∧ progress t (jview (w_journal w)) (jview (w_journal w')) ∧
    (∀ k, k ∉ tx_id <$> cs → jview (w_journal w') !! k = jview (w_journal w) !! k) ∧
    (is_ok x = true → gate = AnyRecoverable →
     ∀ k, k ∈ tx_id <$> cs → calm (jview (w_journal w')) k).
Proof.
  induction cs as [|c cs IH] in acc, w |- *; intros Hj Hs Hk; simpl.
  { exists []. rewrite app_nil_r. split_and!; try done; [apply progress_refl|set_solver]. }
  pose proof (recover_candidate_spec gate acc c w Hj Hs Hk) as Hc. unfold mbind, ST_bind.
  destruct (recover_candidate env inv gate acc c w) as [x w1].
  destruct Hc as (t1 & (Hj1 & Hs1 & Hk1 & He1 & Ht1 & Hp1 & Ho1) & Hcalm1).
  destruct x as [acc1|e].
  2: { exists t1. split_and!; try done. intros k [Hne _]%not_elem_of_cons. by apply Ho1. }
  specialize (IH acc1 w1 Hj1 Hs1 Hk1). destruct (st_foldM _ acc1 cs w1) as [y w2].
  destruct IH as (t2 & Hj2 & Hs2 & Hk2 & He2 & Ht2 & Hp2 & Ho2 & Hcalm2).
  exists (t1 ++ t2). split_and!; try done.
  - congruence.
  - by rewrite Ht2, Ht1, app_assoc.
  - by eapply progress_trans.
  - intros k [Hne Hk']%not_elem_of_cons. rewrite Ho2 by done. by apply Ho1.
  - intros Hy Hg k Hin. destruct (decide (k ∈ tx_id <$> cs)) as [Hin'|Hni]; [by apply Hcalm2|].
    apply elem_of_cons in Hin as [->|?]; [|done]. intros r. rewrite Ho2 by done.
    by apply Hcalm1.
Qed.

Lemma recoverable_elem v r k : v !! k = Some r → requires_recovery (phase r) = true → r ∈ recoverable_of v.
Proof.
  intros Hr Hrec. apply list_elem_of_filter. rewrite elem_of_bt_values. eauto.
Qed.

(** What a pass over all unfinished transactions does and reports. *)
Lemma recover_pending_spec w :
  jok (w_journal w) → sok (w_shadow w) → jkeyed w →
  let '(x, w') := recover_pending_transactions env inv w in
  let v' := jview (w_journal w') in
  ∃ t, w_trace w' = w_trace w ++ t ∧ progress t (jview (w_journal w)) v' ∧
    match x with
    | Ok report => (∀ k, calm v' k) ∧ rr_tx_ids report = tx_id <$> recoverable_of v' ∧
        rr_pending report = length (recoverable_of v') ∧
        rr_in_doubt report = length (filter (λ r, phase r = InDoubt) (recoverable_of v'))
    | Err _ => True
    end.
Proof.
  intros Hj Hs Hk. unfold recover_pending_transactions. unfold mbind at 1, ST_bind at 1, journal_scan at 1.
  destruct (journal_list_recoverable (w_journal w)) as [x j] eqn:Hl.
  destruct (journal_list_law _ _ _ Hj Hl) as (Hj1 & Hv1 & Hx).
  destruct x as [l|e].
  2: { exists []. rewrite app_nil_r. simpl. rewrite Hv1. split_and!; [done|apply progress_refl|done]. }
  specialize (Hx l eq_refl).
  set (w1 := mkWorld j _ _ _ _ _). unfold recover_records. unfold mbind at 1, ST_bind at 1.
  pose proof (recover_loop_spec AnyRecoverable ([], ∅, 0%nat) l w1 Hj1 Hs) as Hloop.
  simpl in Hloop. rewrite Hv1 in Hloop. specialize (Hloop Hk).
  destruct (st_foldM _ _ l w1) as [y w2].
  destruct Hloop as (t & Hj2 & _ & _ & _ & Ht & Hp & Hother & Hcalm).
  destruct y as [[[decisions attempted] recovered]|e]; [|by exists t].
  unfold mbind at 1, ST_bind at 1, journal_scan.
  destruct (journal_list_recoverable (w_journal w2)) as [z j2] eqn:Hl2.
  destruct (journal_list_law _ _ _ Hj2 Hl2) as (_ & Hv2 & Hz).
  destruct z as [listed|e]; simpl; exists t; rewrite Hv2; [|done].
  rewrite (Hz listed eq_refl). split_and!; try done.
  intros k. destruct (decide (k ∈ tx_id <$> l)) as [Hin|Hni]; [by apply Hcalm|].
  intros r Hr Hrec. rewrite Hother in Hr by done. destruct Hni.
  rewrite Hx, <-(Hk _ _ Hr). by eapply list_elem_of_fmap_2, recoverable_elem.
Qed.

(** C7. Recovery only ever moves unfinished transactions forward, and only says what
    the devices said: whatever fails on the way, no journal entry appears or
    disappears, an entry that needs no recovery is unchanged, any other keeps what
    the transaction is and follows allowed phase changes, and it reads [Committed]
    ([RolledBack]) afterwards only if every one of its devices answered so in a call for
    that transaction: recovered as committed, confirmed, or verified as in place (rolled
    back, or nothing to discard). *)
Theorem recovery_says_what_devices_said w :
  jok (w_journal w) → sok (w_shadow w) → jkeyed w →
  let '(x, w') := recover_pending_transactions env inv w in
  ∃ t, w_trace w' = w_trace w ++ t ∧ progress t (jview (w_journal w)) (jview (w_journal w')).
Proof.
  intros Hj Hs Hk. pose proof (recover_pending_spec w Hj Hs Hk) as Hp.
  destruct (recover_pending_transactions env inv w). naive_solver.
Qed.


(** Settling a transaction keeps the shadow store in step with the journal:
    afterwards its entry is committed with every device's shadow state replaced by
    the journalled change set applied to it (or the desired state where the journal
    has no change set), or rolled back with the shadow store as it was, or in doubt;
    it counts as recovered exactly when it is not in doubt. *)
Theorem settle_updates_shadow r action w :
  jok (w_journal w) → sok (w_shadow w) → jview (w_journal w) !! tx_id r = Some r →
  requires_recovery (phase r) = true → validate_transition (phase r) Recovering = Ok tt →
  match settle env inv r action w with
  | (Ok recovered, w') => ∃ r', jview (w_journal w') = <[tx_id r := r']> (jview (w_journal w)) ∧
      (recovered = true ↔ phase r' ≠ InDoubt) ∧
      match phase r' with
      | Committed => sview (w_shadow w') = recovered_view r (sview (w_shadow w))
      | RolledBack => sview (w_shadow w') = sview (w_shadow w)
      | InDoubt => True
      | _ => False
      end
  | (Err _, _) => True
  end.
Proof.
  intros Hj Hs Hr Hrec Hv. pose proof (settle_spec r action w Hj Hs Hr Hrec Hv) as Hp.
  destruct (settle env inv r action w) as [[b|e] w']; [|done].
  destruct Hp as (_ & r' & t & (_ & _ & _ & Hview) & _ & _ & Hc & Hrb & Hset & Hb).
  exists r'. split_and!; [done|apply Hb..|]. destruct Hset as [H|[H|H]]; rewrite H in *; auto.
Qed.

End settling.

(** A device that cannot be reached is asked to recover at most three times:
    every call but the last was lost in transport, only the last one's answer is
    returned, and nothing but the calls happens. *)
Theorem recover_retry_bounded {J S} `{!TxJournalStore J} `{!ShadowStateStore S} env device context
    strategy action (w : World (J:=J) (S:=S)) :
  let '(x, w') := recover_with_transport_retry env device context strategy action w in
  ∃ t, w_trace w' = w_trace w ++ t ∧ w_journal w' = w_journal w ∧ w_shadow w' = w_shadow w ∧
    retried (CallRecover device context strategy action) 3 x t.
Proof.
  pose proof (recover_attempts_spec env RECOVERY_TRANSPORT_RETRY_ATTEMPTS None device context
    strategy action w) as H. unfold recover_with_transport_retry.
  destruct (recover_attempts _ _ _ _ _ _ _ w) as [x w'].
  destruct H as (t & (? & ? & ? & _) & H). by exists t.
Qed.

(** ** A concrete recovery: the device of [ApplySample] was interrupted while
    committing and answers that it did commit. *)
Module RecoverySample.

Definition answer (c : AdapterCall) : UnderlayResult AdapterOutcome :=
  match c with
  | CallRecover _ _ _ _ => Ok (mkAdapterOutcome OpCommitted true [] None None)
  | _ => Err (AdapterTransport "unexpected call")
  end.
Definition env : Env := ApplySample.env_of answer.
Definition interrupted : TxJournalRecord :=
  with_change_sets 6 (with_desired_states 6 ApplySample.interrupted [ApplySample.desired])
    [compute_diff ApplySample.desired DiffSample.current].
Definition world := ApplySample.world [interrupted].
Definition inv : Inventory.t := inventory ApplySample.coordinator.

Lemma world_keyed : keyed tx_id (InMemoryJournal.records (w_journal world)).
Proof.
  intros k r. simpl. rewrite insert_empty. intros [<- <-]%lookup_singleton_Some. reflexivity.
Qed.

End RecoverySample.

Lemma recovery_says_what_devices_said_witness :
  ∃ t, w_trace (recover_pending_transactions RecoverySample.env RecoverySample.inv
                  RecoverySample.world).2 = t ∧
    ∃ r', phase r' = Committed ∧ evolves RecoverySample.interrupted r' ∧
      device_settled RecoverySample.inv t RecoverySample.interrupted ApplySample.device Committed.
Proof.
  pose proof (recovery_says_what_devices_said _ _ InMemoryJournal.laws _ _ InMemoryShadow.laws
    RecoverySample.env RecoverySample.inv RecoverySample.world I (ApplySample.shadow_ok _)
    RecoverySample.world_keyed) as H.
  assert ((phase <$> InMemoryJournal.records (w_journal (recover_pending_transactions
    RecoverySample.env RecoverySample.inv RecoverySample.world).2) !! "tx-0") = Some Committed) as Hp
    by (vm_compute; reflexivity).
  destruct (recover_pending_transactions _ _ _) as [x w']. destruct H as (t & Ht & Hpr).
  exists t. split; [exact Ht|]. specialize (Hpr "tx-0"). simpl in Hp.
  destruct (InMemoryJournal.records (w_journal w') !! "tx-0") as [r'|]; [|discriminate Hp].
  simpl in Hp. injection Hp as Hp. exists r'. split; [exact Hp|].
  destruct Hpr as [->|(_ & He & Hpr)]; [discriminate Hp|]. split; [exact He|].
  rewrite Hp in Hpr. destruct Hpr as [?|[?|[_ Hpr]]]; [discriminate..|].
  apply Hpr. apply list_elem_of_singleton. reflexivity.
Defined.


Lemma settle_updates_shadow_witness :
  ∃ w', settle RecoverySample.env RecoverySample.inv RecoverySample.interrupted AdapterRecover
    RecoverySample.world = (Ok true, w') ∧
  ∃ r', InMemoryJournal.records (w_journal w') = <["tx-0" := r']>
          (InMemoryJournal.records (w_journal RecoverySample.world)) ∧ phase r' ≠ InDoubt.
Proof.
  pose proof (settle_updates_shadow _ _ InMemoryJournal.laws _ _ InMemoryShadow.laws
    RecoverySample.env RecoverySample.inv RecoverySample.interrupted AdapterRecover
    RecoverySample.world I (ApplySample.shadow_ok _) eq_refl eq_refl eq_refl) as H.
  assert ((settle RecoverySample.env RecoverySample.inv RecoverySample.interrupted AdapterRecover
    RecoverySample.world).1 = Ok true) as Hok by (vm_compute; reflexivity).
  destruct (settle _ _ _ _ _) as [x w']. simpl in Hok. subst x.
  exists w'. split; [reflexivity|]. destruct H as (r' & Hv & Hb & _). exists r'.
  split; [exact Hv|]. apply Hb. reflexivity.
Defined.
