(* ===== verification/Idempotency.v ===== *)
(** * Requests, idempotency keys and apply records

    The requests of src/api/request.rs, the idempotency keys and stores of
    src/api/idempotency.rs, and the record stores of src/api/apply_compensation.rs.
    Both file stores name their files by the hexadecimal text of a key, which is
    injective, so a directory stands for a map from keys to records. *)
From S2P Require Export Response.
Local Open Scope N_scope.

(** ** src/api/request.rs *)

Inductive ApplyLockScope := ScopeDomain | ScopeRegion | ScopeSwitchPair.
#[export] Instance ApplyLockScope_eq_dec : EqDecision ApplyLockScope.
Proof. solve_decision. Defined.

Record ApplyOptions := mkApplyOptions {
  opt_dry_run : bool;
  opt_allow_degraded_atomicity : bool;
  opt_drift_policy : DriftPolicy;
  opt_lock_scope : ApplyLockScope;
  opt_region_id : option string;
}.
Definition default_apply_options : ApplyOptions :=
  mkApplyOptions false false default_drift_policy ScopeDomain None.

Record ApplyIntentRequest := mkApplyIntentRequest {
  ai_request_id : string;
  ai_trace_id : option string;
  ai_intent : SwitchPairIntent;
  ai_options : ApplyOptions;
}.
Record ApplyDomainIntentRequest := mkApplyDomainIntentRequest {
  adr_request_id : string;
  adr_trace_id : option string;
  adr_idempotency_key : option string;
  adr_intent : UnderlayDomainIntent;
  adr_options : ApplyOptions;
}.
Record RetryFailedDomainEndpointsRequest := mkRetryFailedDomainEndpointsRequest {
  rfr_request_id : string;
  rfr_trace_id : option string;
  rfr_original_request_id : string;
  rfr_endpoint_ids : list DeviceId;
  rfr_idempotency_key : option string;
}.

(** ** Keys as file names *)

Definition hex_byte (c : ascii) : list ascii :=
  [hex_digit (N_of_ascii c / 16); hex_digit (N_of_ascii c mod 16)].
Definition hex_encode (value : string) : string := of_bytes (bytes value ≫= hex_byte).

#[export] Instance hex_byte_inj : Inj (=) (=) hex_byte.
Proof.
  assert (∀ c, match hex_byte c with
               | [a; b] =>
                   let v x := let n := N_of_ascii x in if n <? 58 then n - 48 else n - 87 in
                   ascii_of_N (v a * 16 + v b)
               | _ => c end = c) as Hdec.
  { intros [[] [] [] [] [] [] [] []]; vm_compute; reflexivity. }
  intros c1 c2 Heq. rewrite <-(Hdec c1), <-(Hdec c2), Heq. done.
Qed.

#[export] Instance hex_encode_inj : Inj (=) (=) hex_encode.
Proof.
  intros s1 s2 Heq%(f_equal bytes). unfold hex_encode in Heq. rewrite !bytes_of_bytes in Heq.
  apply (inj bytes). revert Heq. generalize (bytes s2). generalize (bytes s1). clear.
  intros l1. induction l1 as [|c1 l1 IH]; intros [|c2 l2]; csimpl; [done..|].
  intros Heq. apply (app_inj_1 (hex_byte c1) (hex_byte c2)) in Heq as [Hc Hl]; [|done].
  by rewrite (inj hex_byte _ _ Hc), (IH _ Hl).
Qed.

Section hex_dir.
Context (o : FsOracle) {A : Type} (codec : Codec A).
Context (io_error : string → UnderlayError) (parse_error : string → string → UnderlayError).

Definition hex_file (key : string) : string := json_name (hex_encode key).

(** The record a directory holds under a key: the one that can be read there. *)
Definition hex_view (s : Fs) (key : string) : option A :=
  text ← fs_files s !! hex_file key;
  match decode codec text with Ok a => Some a | Err _ => None end.

Lemma hex_file_inj k k' : hex_file k = hex_file k' → k = k'.
Proof. intros Heq. by apply (inj hex_encode), (inj json_name). Qed.

Lemma hex_read_spec `{!StatsWork o} key s r s' :
  read_if_exists o codec io_error parse_error (hex_file key) s = (r, s') →
  (∀ k, hex_view s' k = hex_view s k) ∧ ∀ v, r = Ok v → v = hex_view s key.
Proof.
  intros Hr. destruct (read_if_exists_reads _ _ _ _ _ _ _ _ Hr) as [Hf _].
  split; [intros k; unfold hex_view; by rewrite Hf|].
  intros v ->. revert Hr. unfold read_if_exists, mbind, ST_bind, st_get, mret, ST_ret.
  rewrite (exists_file_works o). unfold hex_view. case_bool_decide as He.
  - destruct (read_record _ _ _ _ _ s) as [[a|e] s1] eqn:Hrr; intros [= <- <-].
    apply read_record_Ok in Hrr as (text & -> & Hd). simpl. by rewrite Hd.
  - intros [= <- <-]. apply eq_None_not_Some in He. by rewrite He.
Qed.

Lemma hex_write_spec key serialize_error a s r s' :
  codec_round_trip codec →
  write_record o codec io_error (hex_file key) serialize_error a s = (r, s') →
  (∀ k, k ≠ key → hex_view s' k = hex_view s k) ∧
  (hex_view s' key = Some a ∨ is_ok r = false ∧ hex_view s' key = hex_view s key).
Proof.
  clear parse_error. intros Hcodec. unfold write_record, mbind, ST_bind, st_lift.
  destruct (encode codec a) as [text|e] eqn:He; simpl.
  2:{ intros [= <- <-]. auto. }
  apply Hcodec in He. intros ((tmp & Hu) & _ & Hm)%atomic_write_spec. unfold hex_view. split.
  - intros k Hk. rewrite (Hu (hex_file k)); [done|]. rewrite !not_elem_of_cons.
    split_and!; [by intros ?%hex_file_inj|apply not_eq_sym, tmp_not_json|apply not_elem_of_nil].
  - assert (fs_files s' !! hex_file key = Some text ∨
      is_ok r = false ∧ fs_files s' !! hex_file key = fs_files s !! hex_file key)
      as [Hn|[Hr Hn]] by (destruct r as [[]|e]; naive_solver); rewrite Hn; simpl;
      [left; by rewrite He|by right].
Qed.
End hex_dir.

(** ** src/api/idempotency.rs *)

Definition MAX_IDEMPOTENCY_KEY_BYTES : nat := 125.

Record ApplyIdempotencyRecord := mkApplyIdempotencyRecord {
  stored_at_unix_secs : N;
  fingerprint : string;
  response : ApplyIntentResponse;
}.

Definition normalize_idempotency_key (key : string) : UnderlayResult string :=
  let key := trim key in
  if str_is_empty key then Err (InvalidIntent "idempotency_key must not be empty")
  else
    let key_len := length (bytes key) in
    if (MAX_IDEMPOTENCY_KEY_BYTES <? key_len)%nat
    then Err (InvalidIntent
           ("idempotency_key must be at most " +:+ fmt_usize MAX_IDEMPOTENCY_KEY_BYTES +:+
            " bytes after trimming; got " +:+ fmt_usize key_len +:+ " bytes"))
    else Ok key.

Definition idempotency_payload_mismatch_error (key : string) : UnderlayError :=
  InvalidIntent ("idempotency_key " +:+ debug_str key +:+
                 " was already used with a different apply payload").

(** [serde_json::to_string] of the payload is the argument [to_string]. *)
Definition apply_domain_fingerprint
    (to_string : string → UnderlayDomainIntent → ApplyOptions → result string string)
    (intent : UnderlayDomainIntent) (options : ApplyOptions) : UnderlayResult string :=
  map_err (λ e, Internal ("serialize apply domain idempotency fingerprint: " +:+ e))
    (to_string "apply_domain_intent" intent options).

(** The trait, and what the registry relies on: a read returns what is stored, a write
    stores the record or, when it fails, may have left things as they were. *)
Class ApplyIdempotencyStore (I : Type) := {
  idem_get : string → ST UnderlayError I (option ApplyIdempotencyRecord);
  idem_put : string → ApplyIdempotencyRecord → ST UnderlayError I unit;
}.
Class IdempotencyStoreLaws (I : Type) `{!ApplyIdempotencyStore I}
    (view : I → string → option ApplyIdempotencyRecord) := {
  idem_get_law key s r s' :
    idem_get key s = (r, s') → (∀ k, view s' k = view s k) ∧ ∀ v, r = Ok v → v = view s key;
  idem_put_law key a s r s' :
    idem_put key a s = (r, s') →
    (∀ k, k ≠ key → view s' k = view s k) ∧
    (view s' key = Some a ∨ is_ok r = false ∧ view s' key = view s key);
}.

Module InMemoryIdempotency.
Record Store := mkStore { entries : gmap string ApplyIdempotencyRecord }.
Definition get (key : string) : ST UnderlayError Store (option ApplyIdempotencyRecord) := λ s,
  (Ok (entries s !! key), s).
Definition put (key : string) (record : ApplyIdempotencyRecord) : ST UnderlayError Store unit := λ s,
  (Ok tt, mkStore (<[key := record]> (entries s))).
#[export] Instance store : ApplyIdempotencyStore Store := {| idem_get := get; idem_put := put |}.
#[export] Instance laws : IdempotencyStoreLaws Store (λ s k, entries s !! k).
Proof.
  split.
  - intros key s r s' [= <- <-]. naive_solver.
  - intros key a s r s' [= <- <-]. simpl. split; [|left; by rewrite lookup_insert_eq].
    intros k Hk. by rewrite lookup_insert_ne.
Qed.
End InMemoryIdempotency.
#[export] Existing Instance InMemoryIdempotency.store.

Module JsonFileIdempotency.
Definition idempotency_io_error (e : string) : UnderlayError :=
  Internal ("apply idempotency io error: " +:+ e).
Definition parse_error (path e : string) : UnderlayError :=
  Internal ("parse apply idempotency record " +:+ debug_str path +:+ ": " +:+ e).
Definition serialize_error (e : string) : UnderlayError :=
  Internal ("serialize apply idempotency record: " +:+ e).

Section store.
Context (o : FsOracle) (codec : Codec ApplyIdempotencyRecord).
Definition path_for (key : string) : string := json_name (hex_encode key).
Definition get (key : string) : ST UnderlayError Fs (option ApplyIdempotencyRecord) :=
  read_if_exists o codec idempotency_io_error parse_error (path_for key).
Definition put (key : string) (record : ApplyIdempotencyRecord) : ST UnderlayError Fs unit :=
  write_record o codec idempotency_io_error (path_for key) serialize_error record.
#[export] Instance store : ApplyIdempotencyStore Fs := {| idem_get := get; idem_put := put |}.
End store.
End JsonFileIdempotency.

(** The registry: slots shared by the requests of a process, over the store.  A slot is
    behind an async mutex, so requests with one key follow one another. *)
Section registry.
Context {I : Type} `{!ApplyIdempotencyStore I}.

Record ApplyIdempotencyRegistry := mkApplyIdempotencyRegistry {
  entries : gmap string (option ApplyIdempotencyRecord);
  idem_store : I;
}.

(** [slot] and the read of what the slot holds. *)
Definition slot (key : string)
    : ST UnderlayError ApplyIdempotencyRegistry (option ApplyIdempotencyRecord) := λ s,
  match entries s !! key with
  | Some held => (Ok held, s)
  | None =>
      let '(r, store) := idem_get key (idem_store s) in
      match r with
      | Err e => (Err e, mkApplyIdempotencyRegistry (entries s) store)
      | Ok stored => (Ok stored, mkApplyIdempotencyRegistry (<[key := stored]> (entries s)) store)
      end
  end.

Definition registry_put (key : string) (record : ApplyIdempotencyRecord)
    : ST UnderlayError ApplyIdempotencyRegistry unit := λ s,
  let '(r, store) := idem_put key record (idem_store s) in
  (r, mkApplyIdempotencyRegistry (entries s) store).

(** [*record = Some(stored_record)], through the slot's guard. *)
Definition fill_slot (key : string) (record : ApplyIdempotencyRecord)
    (s : ApplyIdempotencyRegistry) : ApplyIdempotencyRegistry :=
  mkApplyIdempotencyRegistry (<[key := Some record]> (entries s)) (idem_store s).
End registry.
Arguments ApplyIdempotencyRegistry : clear implicits.

(** ** src/api/apply_compensation.rs: the records of applies *)

Record DomainApplyRecord := mkDomainApplyRecord {
  dar_request : ApplyDomainIntentRequest;
  dar_response : ApplyIntentResponse;
  dar_domain_id : string;
  dar_created_at_unix_secs : N;
  dar_updated_at_unix_secs : N;
}.
Definition new_domain_apply_record (now : N) (request : ApplyDomainIntentRequest)
    (response : ApplyIntentResponse) : DomainApplyRecord :=
  mkDomainApplyRecord request response (Intent.domain_id (adr_intent request)) now now.

Definition record_key (r : DomainApplyRecord) : string := adr_request_id (dar_request r).

Class DomainApplyRecordStore (D : Type) := {
  record_put : DomainApplyRecord → ST UnderlayError D unit;
  record_get : string → ST UnderlayError D (option DomainApplyRecord);
}.
Class DomainApplyRecordLaws (D : Type) `{!DomainApplyRecordStore D}
    (view : D → string → option DomainApplyRecord) := {
  record_get_law key s r s' :
    record_get key s = (r, s') → (∀ k, view s' k = view s k) ∧ ∀ v, r = Ok v → v = view s key;
  record_put_law a s r s' :
    record_put a s = (r, s') →
    (∀ k, k ≠ record_key a → view s' k = view s k) ∧
    (view s' (record_key a) = Some a ∨
     is_ok r = false ∧ view s' (record_key a) = view s (record_key a));
}.

Module InMemoryDomainRecords.
Record Store := mkStore { records : gmap string DomainApplyRecord }.
Definition put (record : DomainApplyRecord) : ST UnderlayError Store unit := λ s,
  (Ok tt, mkStore (<[record_key record := record]> (records s))).
Definition get (request_id : string) : ST UnderlayError Store (option DomainApplyRecord) := λ s,
  (Ok (records s !! request_id), s).
#[export] Instance store : DomainApplyRecordStore Store := {| record_put := put; record_get := get |}.
#[export] Instance laws : DomainApplyRecordLaws Store (λ s k, records s !! k).
Proof.
  split.
  - intros key s r s' [= <- <-]. naive_solver.
  - intros a s r s' [= <- <-]. simpl. split; [|left; by rewrite lookup_insert_eq].
    intros k Hk. by rewrite lookup_insert_ne.
Qed.
End InMemoryDomainRecords.
#[export] Existing Instance InMemoryDomainRecords.store.

Module JsonFileDomainRecords.
Definition domain_apply_record_io_error (e : string) : UnderlayError :=
  Internal ("domain apply record io error: " +:+ e).
Definition parse_error (path e : string) : UnderlayError :=
  Internal ("parse domain apply record " +:+ debug_str path +:+ ": " +:+ e).
Definition serialize_error (e : string) : UnderlayError :=
  Internal ("serialize domain apply record: " +:+ e).

Definition validate_domain_apply_request_id (request_id : string) : UnderlayResult unit :=
  reject_if (str_is_empty (trim request_id))
    (InvalidIntent ("domain apply request_id " +:+ debug_str request_id +:+
                    " is invalid for file store")).

Section store.
Context (o : FsOracle) (codec : Codec DomainApplyRecord).
Definition path_for (request_id : string) : UnderlayResult string :=
  _ ← validate_domain_apply_request_id request_id;
  Ok (json_name (hex_encode request_id)).
Definition put (record : DomainApplyRecord) : ST UnderlayError Fs unit :=
  path ← st_lift (path_for (record_key record));
  _ ← map_io domain_apply_record_io_error (create_dir_all o);
  write_record o codec domain_apply_record_io_error path serialize_error record.
Definition get (request_id : string) : ST UnderlayError Fs (option DomainApplyRecord) :=
  path ← st_lift (path_for request_id);
  read_if_exists o codec domain_apply_record_io_error parse_error path.
#[export] Instance store : DomainApplyRecordStore Fs := {| record_put := put; record_get := get |}.
End store.
End JsonFileDomainRecords.

(** ** The file stores keep their contracts *)

Lemma hex_view_files {A} (codec : Codec A) s s' :
  fs_files s' = fs_files s → ∀ k, hex_view codec s' k = hex_view codec s k.
Proof. intros Hf k. unfold hex_view. by rewrite Hf. Qed.

Lemma json_idempotency_laws (o : FsOracle) `{!StatsWork o} (codec : Codec ApplyIdempotencyRecord) :
  codec_round_trip codec →
  IdempotencyStoreLaws Fs (ApplyIdempotencyStore0 := JsonFileIdempotency.store o codec) (hex_view codec).
Proof.
  intros Hc. split.
  - intros key s r s'. apply (hex_read_spec o); apply _.
  - intros key a s r s'. exact (hex_write_spec o codec _ key _ a s r s' Hc).
Qed.

Lemma json_domain_record_laws (o : FsOracle) `{!StatsWork o} (codec : Codec DomainApplyRecord) :
  codec_round_trip codec →
  DomainApplyRecordLaws Fs (DomainApplyRecordStore0 := JsonFileDomainRecords.store o codec)
    (hex_view codec).
Proof.
  intros Hc. split; simpl.
  - intros key s r s'. unfold JsonFileDomainRecords.get, JsonFileDomainRecords.path_for.
    unfold mbind, ST_bind, result_bind, st_lift.
    destruct (JsonFileDomainRecords.validate_domain_apply_request_id key); [apply (hex_read_spec o); apply _|].
    intros [= <- <-]. naive_solver.
  - intros a s r s'. unfold JsonFileDomainRecords.put, JsonFileDomainRecords.path_for.
    unfold mbind, ST_bind, result_bind, st_lift.
    destruct (JsonFileDomainRecords.validate_domain_apply_request_id _); [|intros [= <- <-]; auto].
    destruct (map_io _ (create_dir_all o) s) as [r1 s1] eqn:Hd.
    assert (fs_files s1 = fs_files s) as Hf.
    { revert Hd. unfold create_dir_all, map_io, syscall.
      destruct (io_fault o (fs_calls s)); intros; by simplify_eq/=. }
    pose proof (hex_view_files codec _ _ Hf) as Hv. destruct r1 as [[]|e].
    + intros Hw. destruct (hex_write_spec o codec _ _ _ a s1 r s' Hc Hw) as [H1 H2]. rewrite <-(Hv (record_key a)).
      split; [|done]. intros k Hk. rewrite <-Hv. by apply H1.
    + intros [= <- <-]. auto.
Qed.

(** The file stores of idempotency records and of apply records implement their
    traits: although a file is named only by the hexadecimal text of its key, a directory
    stands for a map from keys to records; whatever system calls fail, [stat] apart, a read returns what
    the map holds and a write stores its record under its key (always when it returns
    [Ok]) or leaves the map as it was. *)
Theorem json_apply_stores_refine_maps (o : FsOracle) (ic : Codec ApplyIdempotencyRecord)
    (dc : Codec DomainApplyRecord) :
  codec_round_trip ic → codec_round_trip dc → StatsWork o →
  IdempotencyStoreLaws Fs (ApplyIdempotencyStore0 := JsonFileIdempotency.store o ic) (hex_view ic) ∧
  DomainApplyRecordLaws Fs (DomainApplyRecordStore0 := JsonFileDomainRecords.store o dc) (hex_view dc).
Proof.
  intros Hi Hd Hs. split; [by apply json_idempotency_laws|by apply json_domain_record_laws].
Qed.

#[export] Instance VerifyScopeSummary_eq_dec : EqDecision VerifyScopeSummary.
Proof. solve_decision. Defined.
#[export] Instance DeviceVerifyReport_eq_dec : EqDecision DeviceVerifyReport.
Proof. solve_decision. Defined.
#[export] Instance DeviceApplyResult_eq_dec : EqDecision DeviceApplyResult.
Proof. solve_decision. Defined.
#[export] Instance ApplyVerifyReport_eq_dec : EqDecision ApplyVerifyReport.
Proof. solve_decision. Defined.
#[export] Instance ApplyIntentResponse_eq_dec : EqDecision ApplyIntentResponse.
Proof. solve_decision. Defined.
#[export] Instance ApplyIdempotencyRecord_eq_dec : EqDecision ApplyIdempotencyRecord.
Proof. solve_decision. Defined.

Module IdempotencySample.
Definition response : ApplyIntentResponse :=
  {| resp_request_id := "req-1"; resp_trace_id := "trace-1"; resp_idempotency_key := Some "k";
     reused := false; resp_tx_id := None; resp_status := NoOpSuccess; resp_strategy := None;
     device_results := []; resp_warnings := []; resp_verify_report := None |}.
Definition record : ApplyIdempotencyRecord := mkApplyIdempotencyRecord 7 "{}" response.
(** A serializer that knows [record], and one that knows no record. *)
Definition codec : Codec ApplyIdempotencyRecord :=
  mkCodec (λ r, if decide (r = record) then Ok "{}" else Err "unsupported")
          (λ t, if decide (t = "{}") then Ok record else Err "parse").
Definition no_codec : Codec DomainApplyRecord := mkCodec (λ _, Err "unsupported") (λ _, Err "parse").
End IdempotencySample.

Lemma json_apply_stores_refine_maps_witness :
  ∃ s, JsonFileIdempotency.put sample_oracle IdempotencySample.codec "k" IdempotencySample.record
         (mkFs false ∅ 0) = (Ok tt, s) ∧
    hex_view IdempotencySample.codec s "k" = Some IdempotencySample.record.
Proof.
  destruct (json_apply_stores_refine_maps sample_oracle IdempotencySample.codec
    IdempotencySample.no_codec) as [[_ Hput] _].
  { intros r t. simpl. repeat case_decide; naive_solver. }
  { intros r t. discriminate. }
  { apply _. }
  destruct (JsonFileIdempotency.put _ _ _ _ _) as [r s] eqn:Hr.
  assert (r = Ok tt) as -> by (change r with (r, s).1; rewrite <-Hr; vm_compute; reflexivity).
  exists s. split; [reflexivity|]. apply Hput in Hr as [_ [Hv|[? _]]]; [exact Hv|discriminate].
Defined.

(** ** Keys and file names *)

Lemma length_hex_encode s : length (bytes (hex_encode s)) = (2 * length (bytes s))%nat.
Proof.
  unfold hex_encode. rewrite bytes_of_bytes. induction (bytes s) as [|c l IH]; csimpl; lia.
Qed.

(** C18. The limit on idempotency keys keeps the name of a record's file within the 255
    bytes a file name may have, but not the name of the temporary file that every write
    goes through: that one fits exactly for keys of at most 104 bytes, so a key that is
    accepted and has 105 to 125 bytes can never be stored.  A uuid prints as 36 bytes. *)
Theorem idempotency_key_file_names (o : FsOracle) key k s :
  normalize_idempotency_key key = Ok k → (∀ n, length (bytes (new_v4 o n)) = 36%nat) →
  (length (bytes (JsonFileIdempotency.path_for k)) ≤ 255)%nat ∧
  ((length (bytes (unique_tmp_path o (JsonFileIdempotency.path_for k) s)) ≤ 255)%nat ↔
   (length (bytes k) ≤ 104)%nat).
Proof.
  unfold normalize_idempotency_key. intros Hk Hu. repeat case_match; simplify_eq.
  assert (length (bytes (trim key)) ≤ 125)%nat as Hle.
  { match goal with H : (_ <? _)%nat = false |- _ => apply Nat.ltb_ge in H; exact H end. }
  unfold JsonFileIdempotency.path_for, unique_tmp_path, json_name.
  rewrite !bytes_app, !length_app, Hu, length_hex_encode. simpl. lia.
Qed.

(** 105 letters are an accepted key. *)
Definition long_key : string := of_bytes (replicate 105 "k"%char).
Definition uuid_oracle : FsOracle :=
  mkFsOracle (λ _, None) (λ _, 0%nat) (λ l, l) (λ _, Permutation_refl _)
    (λ _, "00000000-0000-4000-8000-000000000000") (λ _ _, false).

Lemma idempotency_key_file_names_witness :
  normalize_idempotency_key long_key = Ok long_key ∧
  ¬ (length (bytes (unique_tmp_path uuid_oracle (JsonFileIdempotency.path_for long_key)
                      (mkFs true ∅ 0))) ≤ 255)%nat.
Proof.
  assert (normalize_idempotency_key long_key = Ok long_key) as Hk by (vm_compute; reflexivity).
  split; [exact Hk|].
  destruct (idempotency_key_file_names uuid_oracle long_key long_key (mkFs true ∅ 0) Hk)
    as [_ Hiff]; [intros n; reflexivity|].
  rewrite Hiff. vm_compute. lia.
Defined.
