(* ===== verification/Compensation.v ===== *)
(** * Compensation of partly failed applies (src/api/apply_compensation.rs)

    What is left to do after an apply of several endpoints, which endpoints a retry may
    name, and the intent a retry applies: the original one restricted to the endpoints
    selected.  Restriction commutes with planning. *)
From S2P Require Export Idempotency.

(** ** The compensation plan *)

Record DomainApplyCompensationPlan := mkDomainApplyCompensationPlan {
  original_request_id : string;
  original_trace_id : string;
  cp_domain_id : string;
  cp_status : ApplyStatus;
  retryable_failed : list DeviceId;
  cp_requires_recovery : list DeviceId;
  completed : list DeviceId;
}.

Definition from_record (record : DomainApplyRecord) : DomainApplyCompensationPlan :=
  let '(retryable_failed, requires_recovery, completed) :=
    foldl (λ '(failed, doubt, completed) result,
      match res_status result with
      | ApplyFailed | ApplyRolledBack => (failed ++ [res_device_id result], doubt, completed)
      | ApplyInDoubt => (failed, doubt ++ [res_device_id result], completed)
      | Success | SuccessWithWarning | NoOpSuccess =>
          (failed, doubt, completed ++ [res_device_id result])
      | PartialSuccess => (failed, doubt, completed)
      end) ([], [], []) (device_results (dar_response record)) in
  {| original_request_id := adr_request_id (dar_request record);
     original_trace_id := match adr_trace_id (dar_request record) with
                          | Some t => t | None => adr_request_id (dar_request record) end;
     cp_domain_id := dar_domain_id record;
     cp_status := resp_status (dar_response record);
     retryable_failed := retryable_failed;
     cp_requires_recovery := requires_recovery;
     completed := completed |}.

Definition select_retryable_failed_endpoints (record : DomainApplyRecord)
    (explicit_endpoint_ids : list DeviceId) : UnderlayResult (list DeviceId) :=
  let plan := from_record record in
  let retryable := bs_collect (retryable_failed plan) in
  selected ←
    match explicit_endpoint_ids with
    | [] => Ok (retryable_failed plan)
    | _ =>
        _ ← forM_ (λ d, reject_if (negb (bool_decide (d ∈ retryable)))
              (InvalidIntent ("endpoint " +:+ device_id_0 d +:+
                 " is not a terminal failed endpoint for original request " +:+
                 adr_request_id (dar_request record)))) explicit_endpoint_ids;
        Ok (sort_dedup explicit_endpoint_ids)
    end;
  match selected with
  | [] => Err (InvalidIntent ("original request " +:+ adr_request_id (dar_request record) +:+
                              " has no terminal failed endpoints to retry"))
  | _ => Ok selected
  end.

(** ** Restricting an intent *)

Section restrict.
Context (intent : UnderlayDomainIntent) (selected : gset string).

Definition selected_endpoint (e : ManagementEndpointIntent) : Prop := me_endpoint_id e ∈ selected.
Definition selected_member (m : SwitchMemberIntent) : Prop :=
  sm_management_endpoint_id m ∈ selected.
#[export] Instance selected_endpoint_dec e : Decision (selected_endpoint e).
Proof. unfold selected_endpoint. apply _. Defined.
#[export] Instance selected_member_dec m : Decision (selected_member m).
Proof. unfold selected_member. apply _. Defined.

Definition selected_members : gset DeviceId :=
  bs_collect ((λ m, mkDeviceId (sm_member_id m)) <$> filter selected_member (members intent)).

Definition restrict_topology (endpoints : list ManagementEndpointIntent) : UnderlayTopology :=
  if (length endpoints =? 1)%nat then StackSingleManagementIp else topology intent.

Definition restricted_intent : UnderlayDomainIntent :=
  let endpoints := filter selected_endpoint (endpoints intent) in
  {| domain_id := domain_id intent;
     topology := restrict_topology endpoints;
     endpoints := endpoints;
     members := filter selected_member (members intent);
     di_vlans := di_vlans intent;
     di_interfaces := filter (λ x, ii_device_id x ∈ selected_members) (di_interfaces intent);
     di_acls := di_acls intent;
     di_acl_bindings := filter (λ x, abi_device_id x ∈ selected_members) (di_acl_bindings intent);
     di_delete_vlan_ids := di_delete_vlan_ids intent;
     di_delete_interfaces :=
       filter (λ x, idi_device_id x ∈ selected_members) (di_delete_interfaces intent);
     di_delete_acl_ids := di_delete_acl_ids intent;
     di_delete_acl_bindings :=
       filter (λ x, abi_device_id x ∈ selected_members) (di_delete_acl_bindings intent);
     di_bgp_processes := filter (λ x, bpi_device_id x ∈ selected_members) (di_bgp_processes intent);
     di_bgp_neighbors := filter (λ x, bni_device_id x ∈ selected_members) (di_bgp_neighbors intent);
     di_delete_bgp_processes :=
       filter (λ x, bpd_device_id x ∈ selected_members) (di_delete_bgp_processes intent);
     di_delete_bgp_neighbors :=
       filter (λ x, bnd_device_id x ∈ selected_members) (di_delete_bgp_neighbors intent) |}.
End restrict.

Definition filter_domain_intent_to_endpoints (intent : UnderlayDomainIntent)
    (endpoint_ids : list DeviceId) : UnderlayResult UnderlayDomainIntent :=
  match endpoint_ids with
  | [] => Err (InvalidIntent "retry endpoint list must not be empty")
  | _ =>
      let selected_endpoints := bs_collect (device_id_0 <$> endpoint_ids) in
      let existing_endpoints := bs_collect (me_endpoint_id <$> endpoints intent) in
      _ ← forM_ (λ e, reject_if (negb (bool_decide (e ∈ existing_endpoints)))
            (InvalidIntent ("endpoint " +:+ e +:+ " does not exist in original domain intent")))
            (bs_elems selected_endpoints);
      Ok (restricted_intent intent selected_endpoints)
  end.

(** ** The plan sorts the endpoints by what became of them *)

Definition ids_with (p : ApplyStatus → bool) (results : list DeviceApplyResult) : list DeviceId :=
  res_device_id <$> filter (λ r, p (res_status r) = true) results.
Definition terminal_failed (s : ApplyStatus) : bool :=
  match s with ApplyFailed | ApplyRolledBack => true | _ => false end.
Definition in_doubt (s : ApplyStatus) : bool := bool_decide (s = ApplyInDoubt).
Definition done_status (s : ApplyStatus) : bool :=
  match s with Success | SuccessWithWarning | NoOpSuccess => true | _ => false end.

Lemma from_record_spec record :
  let results := device_results (dar_response record) in
  retryable_failed (from_record record) = ids_with terminal_failed results ∧
  cp_requires_recovery (from_record record) = ids_with in_doubt results ∧
  completed (from_record record) = ids_with done_status results.
Proof.
  cbv zeta. unfold from_record.
  set (results := device_results _). clearbody results.
  assert (∀ a b c, foldl (λ '(failed, doubt, completed) result,
      match res_status result with
      | ApplyFailed | ApplyRolledBack => (failed ++ [res_device_id result], doubt, completed)
      | ApplyInDoubt => (failed, doubt ++ [res_device_id result], completed)
      | Success | SuccessWithWarning | NoOpSuccess =>
          (failed, doubt, completed ++ [res_device_id result])
      | PartialSuccess => (failed, doubt, completed)
      end) (a, b, c) results =
    (a ++ ids_with terminal_failed results, b ++ ids_with in_doubt results,
     c ++ ids_with done_status results)) as ->; [|done].
  induction results as [|r results IH]; intros a b c; unfold ids_with; csimpl.
  { by rewrite !app_nil_r. }
  rewrite !filter_cons.
  destruct (res_status r); simpl; rewrite IH; unfold ids_with; by rewrite <-?app_assoc.
Qed.

Lemma select_spec record explicit selected :
  select_retryable_failed_endpoints record explicit = Ok selected →
  selected ≠ [] ∧
  ∀ d, d ∈ selected → d ∈ ids_with terminal_failed (device_results (dar_response record)) ∧
                      (explicit ≠ [] → d ∈ explicit).
Proof.
  unfold select_retryable_failed_endpoints.
  destruct (from_record_spec record) as (-> & _ & _). intros Hs.
  apply bind_Ok in Hs as (sel & Hsel & Hs).
  assert (sel ≠ [] ∧ selected = sel) as [Hne ->] by (destruct sel; naive_solver).
  split; [done|]. intros d Hd. destruct explicit as [|x xs]; [by simplify_eq|].
  apply bind_Ok in Hsel as (u & Hall & [= <-]). rewrite forM_Ok in Hall.
  destruct (sort_dedup_spec (x :: xs)) as (_ & _ & Hiff). apply Hiff in Hd.
  split; [|by intros _].
  rewrite Forall_forall in Hall. specialize (Hall d Hd).
  rewrite reject_if_Ok, negb_false_iff, bool_decide_eq_true in Hall.
  by rewrite elem_of_bs_collect in Hall.
Qed.

(** ** Restriction keeps validity and commutes with planning *)

Lemma NoDup_fmap_filter {A B} (f : A → B) (P : A → Prop) `{∀ x, Decision (P x)} l :
  NoDup (f <$> l) → NoDup (f <$> filter P l).
Proof.
  induction l as [|x l IH]; csimpl; [done|]. intros [Hx Hl]%NoDup_cons.
  rewrite filter_cons. case_decide; csimpl; [|by auto]. apply NoDup_cons. split; [|by auto].
  intros (y & Hy & [_ Hin]%list_elem_of_filter)%list_elem_of_fmap. apply Hx.
  apply list_elem_of_fmap. eauto.
Qed.

Lemma Forall_filter_weaken {A} (P P' Q : A → Prop) `{∀ x, Decision (Q x)} l :
  Forall P l → (∀ x, Q x → P x → P' x) → Forall P' (filter Q l).
Proof.
  rewrite !Forall_forall. intros HP Hw x [HQ Hx]%list_elem_of_filter. auto.
Qed.

Lemma fmap_filter_subset {A B} (f : A → B) (P : A → Prop) `{∀ x, Decision (P x)} (l : list A) (b : B) :
  b ∈ f <$> filter P l → b ∈ f <$> l.
Proof.
  intros (x & -> & [_ Hx]%list_elem_of_filter)%list_elem_of_fmap. apply list_elem_of_fmap. eauto.
Qed.

Lemma member_endpoints_Some i d e :
  NoDup (member_ids_of i) →
  member_endpoints i !! d = Some e ↔
  ∃ m, m ∈ members i ∧ d = mkDeviceId (sm_member_id m) ∧ e = mkDeviceId (sm_management_endpoint_id m).
Proof.
  intros Hn. split.
  - intros Hd%bt_collect_Some. apply list_elem_of_fmap in Hd as (m & ? & Hm). simplify_eq. eauto.
  - intros (m & Hm & -> & ->). by apply member_endpoints_lookup.
Qed.

Section restriction.
Context (i : UnderlayDomainIntent) (selected : gset string).
Context (Hv : valid_domain_intent i).
Notation i' := (restricted_intent i selected).

Lemma elem_of_selected_members d : d ∈ selected_members i selected ↔ d ∈ member_ids_of i'.
Proof using Type. apply elem_of_bs_collect. Qed.

Lemma restricted_members_NoDup : NoDup (member_ids_of i').
Proof. apply NoDup_fmap_filter, (vd_members _ Hv). Qed.

Lemma restricted_valid :
  (∃ e, e ∈ endpoints i ∧ me_endpoint_id e ∈ selected) → members i' ≠ [] →
  valid_domain_intent i'.
Proof.
  intros (e0 & He0 & Hs0) Hm0. pose proof elem_of_selected_members as Hsel.
  destruct Hv as [V1 V2 V3 V4 [V5 V5'] [V6 V6'] V7 V8 [V9 V9'] [V10 V10'] V11 V12 [V13 V13']
    [V14 V14'] [V15 V15'] [V16 V16'] [V17 V17'] [V18 V18']].
  assert (endpoints i' ≠ []) as Hne.
  { intros Hnil. assert (e0 ∈ endpoints i') as Hin by by apply list_elem_of_filter.
    rewrite Hnil in Hin. by apply elem_of_nil in Hin. }
  split; try done.
  - simpl. unfold restrict_topology. case_match eqn:Hlen; [by apply Nat.eqb_eq in Hlen|].
    apply Nat.eqb_neq in Hlen. simpl in Hne.
    pose proof (length_filter (selected_endpoint selected) (endpoints i)) as Hle.
    assert (length (filter (selected_endpoint selected) (endpoints i)) ≠ 0%nat)
      by by intros ?%nil_length_inv.
    destruct (topology i); simpl in *; lia.
  - split; [|by apply NoDup_fmap_filter]. by eapply Forall_filter_weaken.
  - split; [|by apply NoDup_fmap_filter]. eapply Forall_filter_weaken; [exact V6|].
    intros m Hm (? & ? & Hin). split_and!; [done..|].
    apply list_elem_of_fmap in Hin as (e & Heq & He). apply list_elem_of_fmap. exists e.
    split; [done|]. apply list_elem_of_filter. split; [|done].
    unfold selected_endpoint. by rewrite <-Heq.
  - split; [|by apply NoDup_fmap_filter]. unfold interfaces_of in *. rewrite Forall_fmap in V9 |- *.
    eapply Forall_filter_weaken; [exact V9|]. intros x Hx (? & ? & ?).
    split_and!; [done|by apply Hsel|done].
  - split; [|by apply NoDup_fmap_filter]. unfold interface_delete_keys_of in *.
    rewrite Forall_fmap in V10 |- *. eapply Forall_filter_weaken; [exact V10|].
    intros x Hx (? & ? & Hn). split_and!; [done|by apply Hsel|].
    intros ?%fmap_filter_subset. done.
  - split; [|by apply NoDup_fmap_filter]. eapply Forall_filter_weaken; [exact V13|].
    intros x Hx (? & ? & ?). split_and!; [done|by apply Hsel|done].
  - split; [|by apply NoDup_fmap_filter]. eapply Forall_filter_weaken; [exact V14|].
    intros x Hx (? & ? & ? & ?). split_and!; [done|by apply Hsel|done|].
    by intros ?%fmap_filter_subset.
  - split; [|by apply NoDup_fmap_filter]. eapply Forall_filter_weaken; [exact V15|].
    intros x Hx ([? ?] & ?). split; [split; [done|by apply Hsel]|done].
  - split; [|by apply NoDup_fmap_filter]. eapply Forall_filter_weaken; [exact V16|].
    intros x Hx ([? ?] & ? & ?). split; [split; [done|by apply Hsel]|split; [done|]].
    by intros ?%fmap_filter_subset.
  - split; [|by apply NoDup_fmap_filter]. eapply Forall_filter_weaken; [exact V17|].
    intros x Hx ([? ?] & ? & ? & ? & ? & ?). split; [split; [done|by apply Hsel]|].
    split_and!; [done..| |done]. by intros ?%fmap_filter_subset.
  - split; [|by apply NoDup_fmap_filter]. eapply Forall_filter_weaken; [exact V18|].
    intros x Hx ([? ?] & ? & ? & ? & ?). split; [split; [done|by apply Hsel]|].
    split_and!; [done..|]. by intros ?%fmap_filter_subset.
Qed.

(** An endpoint that is kept keeps its members, and so its items. *)
Lemma restricted_items {A} (dev : A → DeviceId) e l :
  device_id_0 e ∈ selected →
  items_of (member_endpoints i') dev e (filter (λ x, dev x ∈ selected_members i selected) l) =
  items_of (member_endpoints i) dev e l.
Proof.
  intros He. unfold items_of. rewrite list_filter_filter. apply list_filter_iff. intros x.
  rewrite elem_of_selected_members, !member_endpoints_Some
    by first [apply restricted_members_NoDup|apply (vd_members _ Hv)]. split.
  - intros [(m & [_ Hm]%list_elem_of_filter & -> & ->) _]. eauto.
  - intros (m & Hm & Hd & ->). assert (m ∈ members i') as Hm' by by apply list_elem_of_filter.
    split; [eauto|]. rewrite Hd. apply list_elem_of_fmap. eauto.
Qed.

Lemma restricted_state e :
  device_id_0 e ∈ selected → endpoint_fold i' e = endpoint_fold i e.
Proof.
  intros He. unfold endpoint_fold. cbv zeta.
  change (di_delete_bgp_neighbors i') with
    (filter (λ x, bnd_device_id x ∈ selected_members i selected) (di_delete_bgp_neighbors i)).
  change (di_delete_bgp_processes i') with
    (filter (λ x, bpd_device_id x ∈ selected_members i selected) (di_delete_bgp_processes i)).
  change (di_bgp_neighbors i') with
    (filter (λ x, bni_device_id x ∈ selected_members i selected) (di_bgp_neighbors i)).
  change (di_bgp_processes i') with
    (filter (λ x, bpi_device_id x ∈ selected_members i selected) (di_bgp_processes i)).
  change (di_delete_acl_bindings i') with
    (filter (λ x, abi_device_id x ∈ selected_members i selected) (di_delete_acl_bindings i)).
  change (di_acl_bindings i') with
    (filter (λ x, abi_device_id x ∈ selected_members i selected) (di_acl_bindings i)).
  change (di_delete_interfaces i') with
    (filter (λ x, idi_device_id x ∈ selected_members i selected) (di_delete_interfaces i)).
  change (di_interfaces i') with
    (filter (λ x, ii_device_id x ∈ selected_members i selected) (di_interfaces i)).
  by rewrite !restricted_items.
Qed.

Lemma restricted_planned_endpoints :
  planned_endpoints i' = filter (λ e, device_id_0 e ∈ selected) (planned_endpoints i).
Proof using Type.
  unfold planned_endpoints. symmetry.
  apply (StronglySorted_unique ord_le);
    [apply StronglySorted_filter, (sort_by_key_sorted id)|apply (sort_by_key_sorted id)|].
  unfold sort. rewrite !(sort_by_key_perm id). simpl.
  induction (endpoints i) as [|e l IH]; csimpl; [done|].
  rewrite !filter_cons. unfold selected_endpoint. simpl.
  destruct (decide (me_endpoint_id e ∈ selected)); csimpl; by rewrite IH.
Qed.
End restriction.

Lemma plan_Ok_valid i states : plan_underlay_domain i = Ok states → valid_domain_intent i.
Proof. intros Hp. apply validate_domain_Ok. unfold plan_underlay_domain in Hp. by inv_ok. Qed.

Lemma planned_state_ids i :
  ds_device_id <$> (endpoint_fold i <$> planned_endpoints i) = planned_endpoints i.
Proof.
  rewrite <-list_fmap_compose. rewrite <-(list_fmap_id (planned_endpoints i)) at 2.
  apply list_fmap_ext. intros. apply endpoint_fold_device_id.
Qed.

Lemma filter_planned_states i (ids : list DeviceId) :
  filter (λ s, ds_device_id s ∈ ids) (endpoint_fold i <$> planned_endpoints i) =
  endpoint_fold i <$> filter (λ d, d ∈ ids) (planned_endpoints i).
Proof.
  induction (planned_endpoints i) as [|e l IH]; csimpl; [done|].
  rewrite !filter_cons, endpoint_fold_device_id, IH. by case_decide.
Qed.

Lemma planned_endpoint_declared i d : d ∈ planned_endpoints i → device_id_0 d ∈ endpoint_ids_of i.
Proof.
  intros (e & -> & He)%(elem_of_sort_by_key id)%list_elem_of_fmap. apply list_elem_of_fmap. eauto.
Qed.

Lemma filter_domain_Ok i endpoint_ids :
  endpoint_ids ≠ [] → (∀ d, d ∈ endpoint_ids → device_id_0 d ∈ endpoint_ids_of i) →
  filter_domain_intent_to_endpoints i endpoint_ids =
  Ok (restricted_intent i (bs_collect (device_id_0 <$> endpoint_ids))).
Proof.
  intros Hne Hin. unfold filter_domain_intent_to_endpoints.
  rewrite (proj2 (forM_Ok _ _ tt)).
  - by destruct endpoint_ids.
  - apply Forall_forall. intros x Hx. apply reject_if_Ok, negb_false_iff, bool_decide_eq_true.
    rewrite elem_of_bs_elems, elem_of_bs_collect in Hx.
    apply list_elem_of_fmap in Hx as (d & -> & Hd). apply elem_of_bs_collect. by apply Hin.
Qed.

Lemma existsb_false_forall {A} (f : A → bool) l : existsb f l = false → ∀ x, x ∈ l → f x = false.
Proof.
  intros Hf x Hx. apply not_true_is_false. intros Ht.
  assert (existsb f l = true) by (apply existsb_elem_of; eauto). congruence.
Qed.

(** Without a member the validator stops at its third check. *)
Lemma restricted_memberless i (selected : gset string) :
  valid_domain_intent i → (∃ e, e ∈ selected ∧ e ∈ endpoint_ids_of i) →
  (∀ m, m ∈ members i → sm_management_endpoint_id m ∉ selected) →
  validate_underlay_domain_intent (restricted_intent i selected) =
  Err (InvalidIntent "underlay domain has no switch members").
Proof.
  intros Hv (e & He & (x & -> & Hx)%list_elem_of_fmap) Hm.
  unfold validate_underlay_domain_intent.
  rewrite (proj2 (validate_non_empty_Ok _ _ tt) (vd_domain_id _ Hv)). simpl.
  assert (x ∈ filter (selected_endpoint selected) (endpoints i)) as Hin by by apply list_elem_of_filter.
  destruct (filter (selected_endpoint selected) (endpoints i)); [by apply elem_of_nil in Hin|]. simpl.
  assert (filter (selected_member selected) (members i) = []) as ->; [|done].
  destruct (filter _ (members i)) as [|m0 l0] eqn:Hf; [done|].
  assert (m0 ∈ filter (selected_member selected) (members i)) as [Hs Hmi]%list_elem_of_filter
    by (rewrite Hf; by left).
  by destruct (Hm m0 Hmi).
Qed.

(** C17. A retry does what the original apply meant to do, for the endpoints it names and
    for no other: restricting an intent the planner accepts to some of its endpoints and
    planning it gives exactly the desired states the original plan has for these endpoints,
    in the same order.  The one exception is a selection of endpoints without any switch
    member, which the original intent may have but the validator then refuses. *)
Theorem retry_plan_is_restriction i states endpoint_ids :
  plan_underlay_domain i = Ok states → endpoint_ids ≠ [] →
  (∀ d, d ∈ endpoint_ids → d ∈ ds_device_id <$> states) →
  ∃ i', filter_domain_intent_to_endpoints i endpoint_ids = Ok i' ∧
  plan_underlay_domain i' =
    if existsb (λ m, bool_decide (mkDeviceId (sm_management_endpoint_id m) ∈ endpoint_ids)) (members i)
    then Ok (filter (λ s, ds_device_id s ∈ endpoint_ids) states)
    else Err (InvalidIntent "underlay domain has no switch members").
Proof.
  intros Hplan Hne Hsub.
  assert (valid_domain_intent i) as Hv by by apply plan_Ok_valid in Hplan.
  rewrite (plan_valid i Hv) in Hplan. injection Hplan as <-.
  rewrite planned_state_ids in Hsub.
  rewrite filter_domain_Ok; [|done|].
  2:{ intros d Hd%Hsub. by apply planned_endpoint_declared. }
  set (selected := bs_collect _). eexists. split; [done|].
  assert (∀ d, device_id_0 d ∈ selected ↔ d ∈ endpoint_ids) as Hsel.
  { intros d. unfold selected. rewrite elem_of_bs_collect, list_elem_of_fmap. split; [|eauto].
    intros ([x] & Hx & Hin). destruct d. simpl in Hx. by rewrite Hx. }
  case_match eqn:Hm.
  - apply existsb_elem_of in Hm as (m & Hm & Hin%bool_decide_eq_true).
    rewrite plan_valid.
    + f_equal. rewrite restricted_planned_endpoints.
      rewrite filter_planned_states.
      rewrite (list_filter_iff (λ d, d ∈ endpoint_ids) (λ d, device_id_0 d ∈ selected))
        by (by intros; rewrite Hsel).
      apply list_fmap_ext. intros n d [Hd _]%list_elem_of_lookup_2%list_elem_of_filter.
      by apply restricted_state.
    + apply restricted_valid; [done| |].
      * destruct endpoint_ids as [|d l]; [done|]. specialize (Hsub d ltac:(by left)).
        apply planned_endpoint_declared, list_elem_of_fmap in Hsub as (e & He & Hin').
        exists e. split; [done|]. rewrite <-He. apply Hsel. by left.
      * intros Hnil. assert (m ∈ members (restricted_intent i selected)) as Hm'.
        { apply list_elem_of_filter. split; [|done]. by apply (Hsel (mkDeviceId _)). }
        rewrite Hnil in Hm'. by apply elem_of_nil in Hm'.
  - pose proof (existsb_false_forall _ _ Hm) as Hno.
    unfold plan_underlay_domain. rewrite restricted_memberless; [done|done| |].
    + destruct endpoint_ids as [|d l]; [done|]. exists (device_id_0 d).
      split; [apply Hsel; by left|]. by apply planned_endpoint_declared, Hsub; left.
    + intros m Hin Hs. apply (Hsel (mkDeviceId _)) in Hs.
      specialize (Hno m Hin). by apply bool_decide_eq_false in Hno.
Qed.

(** A fabric of two leaves with one member each, and a spine endpoint without members. *)
Module RetrySample.
Definition endpoint (id : string) : ManagementEndpointIntent :=
  mkManagementEndpointIntent id "10.0.0.1" 830 "vault:leaf" None None.
Definition fabric : UnderlayDomainIntent :=
  {| domain_id := "pod-1"; topology := SmallFabric;
     endpoints := [endpoint "leaf-b"; endpoint "leaf-a"; endpoint "spine"];
     members := [mkSwitchMemberIntent "m-a" None "leaf-a"; mkSwitchMemberIntent "m-b" None "leaf-b"];
     di_vlans := [mkVlanIntent 10 (Some "prod") None];
     di_interfaces := [mkInterfaceIntent (mkDeviceId "m-a") "GE1/0/1" Up None (Access 10);
                       mkInterfaceIntent (mkDeviceId "m-b") "GE1/0/2" Up None (Access 10)];
     di_acls := []; di_acl_bindings := []; di_delete_vlan_ids := []; di_delete_interfaces := [];
     di_delete_acl_ids := []; di_delete_acl_bindings := []; di_bgp_processes := [];
     di_bgp_neighbors := []; di_delete_bgp_processes := []; di_delete_bgp_neighbors := [] |}.
Definition leaf_a : DeviceId := mkDeviceId "leaf-a".
End RetrySample.

Lemma retry_plan_is_restriction_witness :
  ∃ i', filter_domain_intent_to_endpoints RetrySample.fabric [RetrySample.leaf_a] = Ok i' ∧
        plan_underlay_domain i' = Ok [endpoint_fold RetrySample.fabric RetrySample.leaf_a].
Proof.
  destruct (retry_plan_is_restriction RetrySample.fabric
    (endpoint_fold RetrySample.fabric <$> planned_endpoints RetrySample.fabric)
    [RetrySample.leaf_a]) as (i' & Hf & Hp).
  - vm_compute. reflexivity.
  - discriminate.
  - intros d Hd. apply list_elem_of_singleton in Hd as ->. apply (bool_decide_unpack _). vm_compute. exact I.
  - exists i'. split; [exact Hf|]. rewrite Hp. vm_compute. reflexivity.
Defined.
