(* ===== verification/JsonLines.v ===== *)
(** * Append-only JSON logs

    The file stores of src/telemetry/audit.rs, src/telemetry/ops.rs and
    src/telemetry/alerts.rs keep one JSON object per line in one file, and two of them
    compact it: the newest records stay, the old file is rotated into archives.  This
    file holds what they share, over the directory of [FileSystem] extended with
    appending writes, and what a log promises: what was appended is what is listed, a
    compaction keeps the longest suffix its policy allows, and whatever system call
    fails no record is lost while archives are kept. *)
From S2P Require Export Idempotency.

(** ** Text *)

Definition newline : ascii := byte 10.
Definition carriage_return : ascii := byte 13.

(** [str::lines]: a line ends in [\n] or [\r\n]; the last one may have no end. *)
Definition strip_cr (l : list ascii) : list ascii :=
  match reverse l with
  | c :: r => if decide (c = carriage_return) then reverse r else l
  | [] => l
  end.
Fixpoint lines_from (cur l : list ascii) : list (list ascii) :=
  match l with
  | [] => match cur with [] => [] | _ => [cur] end
  | c :: l =>
      if decide (c = newline) then strip_cr cur :: lines_from [] l else lines_from (cur ++ [c]) l
  end.
Definition str_lines (s : string) : list string := of_bytes <$> lines_from [] (bytes s).

(** Well-formed UTF-8, byte by byte. *)
Definition in_byte_range (lo hi : N) (c : ascii) : bool :=
  let n := N_of_ascii c in (lo <=? n)%N && (n <=? hi)%N.
Definition is_cont (c : ascii) : bool := in_byte_range 128 191 c.
Fixpoint is_utf8 (l : list ascii) : bool :=
  match l with
  | [] => true
  | a :: l1 =>
      if in_byte_range 0 127 a then is_utf8 l1
      else match l1 with
      | [] => false
      | b :: l2 =>
          if in_byte_range 194 223 a then is_cont b && is_utf8 l2
          else match l2 with
          | [] => false
          | c :: l3 =>
              if in_byte_range 224 224 a then in_byte_range 160 191 b && is_cont c && is_utf8 l3
              else if in_byte_range 237 237 a then in_byte_range 128 159 b && is_cont c && is_utf8 l3
              else if in_byte_range 225 239 a then is_cont b && is_cont c && is_utf8 l3
              else match l3 with
              | [] => false
              | d :: l4 =>
                  (if in_byte_range 240 240 a then in_byte_range 144 191 b
                   else if in_byte_range 244 244 a then in_byte_range 128 143 b
                   else in_byte_range 241 243 a && is_cont b)
                  && is_cont c && is_cont d && is_utf8 l4
              end
          end
      end
  end.

(** ** Files that grow *)

Section append.
Context (o : FsOracle).

(** [OpenOptions::new().create(true).append(true).open(..)] *)
Definition open_append (name : string) : ST string Fs unit :=
  syscall o (λ s, match fs_files s !! name with
                  | Some _ => (Ok tt, s)
                  | None => (Ok tt, set_files (<[name := ""]> (fs_files s)) s)
                  end).
(** [write_all] on a file opened for appending; a failure leaves a prefix. *)
Definition append_all (name payload : string) : ST string Fs unit := λ s,
  let old := default "" (fs_files s !! name) in
  match io_fault o (fs_calls s) with
  | Some e => (Err e, bump (set_files
      (<[name := old +:+ of_bytes (take (written o (fs_calls s)) (bytes payload))]> (fs_files s)) s))
  | None => (Ok tt, bump (set_files (<[name := old +:+ payload]> (fs_files s)) s))
  end.
Definition read_to_string (name : string) : ST string Fs string :=
  payload ← read_file o name;
  st_lift (if is_utf8 (bytes payload) then Ok payload else Err "stream did not contain valid UTF-8").
End append.

(** ** A log *)

(** The two retention policies have the same fields and checks. *)
Record RetentionPolicy := mkRetentionPolicy {
  max_records : option nat;
  max_bytes : option N;
  max_rotated_files : nat;
}.
Definition default_max_rotated_files : nat := 3.
Definition default_retention_policy : RetentionPolicy :=
  mkRetentionPolicy None None default_max_rotated_files.
Definition retention_is_enabled (p : RetentionPolicy) : bool :=
  bool_decide (is_Some (max_records p)) || bool_decide (is_Some (max_bytes p)).
Definition retention_validate (what : string) (p : RetentionPolicy) : UnderlayResult unit :=
  _ ← reject_if (bool_decide (max_records p = Some 0%nat))
        (InvalidIntent (what +:+ " retention max_records must be greater than zero"));
  reject_if (bool_decide (max_bytes p = Some 0%N))
    (InvalidIntent (what +:+ " retention max_bytes must be greater than zero")).

Record CompactionReport := mkCompactionReport {
  compacted : bool;
  records_before : nat;
  records_after : nat;
  records_dropped : nat;
  bytes_before : N;
  bytes_after : N;
  rotated_files : nat;
}.
Definition default_compaction_report : CompactionReport := mkCompactionReport false 0 0 0 0 0 0.

Section log.
Context (o : FsOracle) {A : Type} (codec : Codec A) (path : string).
(** The store's error texts; [what] names the store in them. *)
Context (what : string) (io_error : string → UnderlayError)
  (parse_error : nat → string → UnderlayError) (utf8_error serialize_error : string → UnderlayError).

Definition encode_line (a : A) : UnderlayResult string :=
  text ← map_err serialize_error (encode codec a);
  Ok (text +:+ of_bytes [newline]).
Fixpoint encode_records (l : list A) : UnderlayResult string :=
  match l with
  | [] => Ok ""
  | a :: l => line ← encode_line a; rest ← encode_records l; Ok (line +:+ rest)
  end.

Fixpoint parse_from (index : nat) (lines : list string) : UnderlayResult (list A) :=
  match lines with
  | [] => Ok []
  | line :: rest =>
      if str_is_empty (trim line) then parse_from (S index) rest
      else
        record ← map_err (parse_error (S index)) (decode codec line);
        records ← parse_from (S index) rest;
        Ok (record :: records)
  end.
Definition parse_lines (payload : string) : UnderlayResult (list A) :=
  parse_from 0 (str_lines payload).

Definition log_list : ST UnderlayError Fs (list A) :=
  s ← st_get;
  if negb (exists_file o path s) then mret [] else
  payload ← map_io io_error (read_to_string o path);
  st_lift (parse_lines payload).

(** [create_dir_all; to_vec; open; write_all; sync_all] *)
Definition log_append (a : A) : ST UnderlayError Fs unit :=
  _ ← map_io io_error (create_dir_all o);
  payload ← st_lift (encode_line a);
  _ ← map_io io_error (open_append o path);
  _ ← map_io io_error (append_all o path payload);
  map_io io_error (sync o).

Fixpoint retain_newest (max : N) (bytes_so_far : N) (newest_first : list A) : UnderlayResult (list A) :=
  match newest_first with
  | [] => Ok []
  | a :: rest =>
      line ← encode_line a;
      let record_bytes := N.of_nat (length (bytes line)) in
      if (max <? bytes_so_far + record_bytes)%N then Ok []
      else older ← retain_newest max (bytes_so_far + record_bytes) rest; Ok (a :: older)
  end.
Definition retain_records (records : list A) (policy : RetentionPolicy) : UnderlayResult (list A) :=
  let start := match max_records policy with
               | Some max => (length records - max)%nat | None => 0%nat end in
  let candidates := drop start records in
  match max_bytes policy with
  | None => Ok candidates
  | Some max =>
      retained ← retain_newest max 0 (reverse candidates);
      Ok (reverse retained)
  end.

Definition archive_path (generation : nat) : string := path +:+ "." +:+ fmt_usize generation.

Definition rotate_step (max_rotated generation : nat) : ST UnderlayError Fs unit :=
  s ← st_get;
  let from := archive_path generation in
  if (generation =? max_rotated)%nat then
    if exists_file o from s then map_io io_error (remove_file o from) else mret tt
  else
    if exists_file o from s then map_io io_error (rename o from (archive_path (S generation)))
    else mret tt.
Definition rotate_active_payload (active_payload : string) (max_rotated : nat)
    : ST UnderlayError Fs nat :=
  if (max_rotated =? 0)%nat then mret 0%nat else
  _ ← st_foldM (λ _ generation, rotate_step max_rotated generation) tt
        (reverse (seq 1 max_rotated));
  _ ← atomic_write o (archive_path 1) active_payload io_error;
  mret 1%nat.

Definition log_compact (policy : RetentionPolicy) : ST UnderlayError Fs CompactionReport :=
  _ ← st_lift (retention_validate what policy);
  s ← st_get;
  if negb (exists_file o path s) then mret default_compaction_report else
  active_payload ← map_io io_error (read_file o path);
  active_text ← st_lift (if is_utf8 (bytes active_payload) then Ok active_payload
                         else Err (utf8_error active_payload));
  records ← st_lift (parse_lines active_text);
  retained ← st_lift (retain_records records policy);
  retained_payload ← st_lift (encode_records retained);
  let records_before := length records in
  let records_after := length retained in
  let bytes_before := N.of_nat (length (bytes active_payload)) in
  let bytes_after := N.of_nat (length (bytes retained_payload)) in
  let records_dropped := (records_before - records_after)%nat in
  let size_reduced :=
    match max_bytes policy with
    | Some max => (max <? bytes_before)%N && (bytes_after <? bytes_before)%N
    | None => false
    end in
  let compacted := (0 <? records_dropped)%nat || size_reduced in
  let report := mkCompactionReport compacted records_before records_after records_dropped
                  bytes_before bytes_after in
  if negb compacted then mret (report 0%nat) else
  rotated ← rotate_active_payload active_payload (max_rotated_files policy);
  _ ← atomic_write o path retained_payload io_error;
  mret (report rotated).
End log.

(** ** Lines *)

(** A text whose first and last bytes begin and end no white space is trimmed. *)
Lemma trimmed_ends (l : list ascii) a b :
  head l = Some a → last l = Some b →
  Forall (λ w, head w ≠ Some a ∧ last w ≠ Some b) whitespace → trimmed_bytes l.
Proof.
  intros Ha Hb Hw. rewrite Forall_forall in Hw.
  split; intros w Hin; destruct (Hw w Hin) as [Hh Hl];
    pose proof whitespace_nonempty as Hne; intros [k ->].
  - destruct w as [|c w]; [done|]. simpl in *. by simplify_eq.
  - apply Hl. rewrite <-Hb, last_app. destruct (last w) eqn:Hlast; [done|].
    by apply last_None in Hlast as ->.
Qed.

(** [serde_json::to_vec] prints a struct as one object, on one line. *)
Definition prints_one_line {A} (c : Codec A) : Prop :=
  ∀ a text, encode c a = Ok text →
    newline ∉ bytes text ∧ ∃ m, bytes text = "{"%char :: m ++ ["}"%char].

Lemma object_not_blank text m :
  bytes text = "{"%char :: m ++ ["}"%char] → str_is_empty (trim text) = false.
Proof.
  intros Ht. apply str_is_empty_false. rewrite trimmed_trim.
  - intros ->. by destruct m.
  - unfold trimmed. rewrite Ht. apply (trimmed_ends _ "{"%char "}"%char).
    + done.
    + by rewrite app_comm_cons, last_snoc.
    + by apply (bool_decide_unpack _).
Qed.

Lemma lines_from_line cur m rest :
  newline ∉ m → lines_from cur (m ++ newline :: rest) = strip_cr (cur ++ m) :: lines_from [] rest.
Proof.
  revert cur. induction m as [|c m IH]; intros cur Hn; simpl.
  - by rewrite app_nil_r.
  - rewrite decide_False by set_solver. rewrite IH by set_solver. by rewrite <-app_assoc.
Qed.

Lemma strip_cr_object m : strip_cr (m ++ ["}"%char]) = m ++ ["}"%char].
Proof. unfold strip_cr. by rewrite reverse_app. Qed.

Lemma string_app_assoc s1 s2 s3 : (s1 +:+ s2) +:+ s3 = s1 +:+ (s2 +:+ s3).
Proof. apply (inj bytes). by rewrite !bytes_app, app_assoc. Qed.

Lemma create_dir_files o io_error s r s' :
  map_io io_error (create_dir_all o) s = (r, s') → fs_files s' = fs_files s.
Proof.
  unfold create_dir_all, map_io, syscall. destruct (io_fault o (fs_calls s)); intros [= <- <-]; done.
Qed.
Lemma sync_files o io_error s r s' :
  map_io io_error (sync o) s = (r, s') → fs_files s' = fs_files s.
Proof. unfold sync, map_io, syscall. destruct (io_fault o (fs_calls s)); intros [= <- <-]; done. Qed.
Lemma open_append_spec o io_error name s r s' :
  map_io io_error (open_append o name) s = (r, s') →
  (∀ k, k ≠ name → fs_files s' !! k = fs_files s !! k) ∧
  fs_files s' !! name =
    match r with Ok _ => Some (default "" (fs_files s !! name)) | Err _ => fs_files s !! name end.
Proof.
  unfold open_append, map_io, syscall.
  destruct (io_fault o (fs_calls s)); [by intros [= <- <-]|].
  destruct (fs_files s !! name) eqn:Hf; intros [= <- <-]; simpl; [done|].
  split; [|by rewrite lookup_insert_eq]. intros k Hk. by rewrite lookup_insert_ne.
Qed.
Lemma append_all_spec o io_error name payload s r s' :
  map_io io_error (append_all o name payload) s = (r, s') →
  (∀ k, k ≠ name → fs_files s' !! k = fs_files s !! k) ∧
  match r with
  | Ok _ => fs_files s' !! name = Some (default "" (fs_files s !! name) +:+ payload)
  | Err _ => ∃ n, fs_files s' !! name =
      Some (default "" (fs_files s !! name) +:+ of_bytes (take n (bytes payload)))
  end.
Proof.
  unfold append_all, map_io, syscall.
  destruct (io_fault o (fs_calls s)); intros [= <- <-]; simpl; rewrite ?lookup_insert_eq;
    (split; [intros k Hk; by rewrite lookup_insert_ne|eauto]).
Qed.

Section log_spec.
Context (o : FsOracle) {A : Type} (codec : Codec A) (path : string).
Context (what : string) (io_error : string → UnderlayError)
  (parse_error : nat → string → UnderlayError) (utf8_error serialize_error : string → UnderlayError).
Context (Hcodec : codec_round_trip codec) (Hline : prints_one_line codec).
Notation encode_line := (encode_line codec serialize_error).
Notation encode_records := (encode_records codec serialize_error).
Notation parse_lines := (parse_lines codec parse_error).
Notation log_list := (log_list o codec path io_error parse_error).
Notation log_append := (log_append o codec path io_error serialize_error).
Notation retain_records := (retain_records codec serialize_error).
Notation log_compact := (log_compact o codec path what io_error parse_error utf8_error serialize_error).

Lemma parse_encoded n rs text :
  encode_records rs = Ok text → parse_from codec parse_error n (str_lines text) = Ok rs.
Proof.
  revert n text. induction rs as [|a rs IH]; intros n text; simpl; [by intros [= <-]|].
  intros (line & Ha & (rest & Hr & [= <-])%bind_Ok)%bind_Ok.
  apply bind_Ok in Ha as (t & Ht & [= <-]). apply map_err_Ok in Ht.
  destruct (Hline _ _ Ht) as [Hn (m & Hm)].
  unfold str_lines. rewrite !bytes_app, <-app_assoc.
  change (lines_from [] (bytes t ++ _)) with (lines_from [] (bytes t ++ newline :: bytes rest)).
  rewrite lines_from_line by done. simpl.
  assert (strip_cr (bytes t) = bytes t) as ->.
  { rewrite Hm, app_comm_cons. apply strip_cr_object. }
  rewrite of_bytes_bytes, (object_not_blank _ _ Hm). simpl. rewrite (Hcodec _ _ Ht). simpl.
  specialize (IH (S n) rest Hr). unfold str_lines, fmap in IH. by rewrite IH.
Qed.

Lemma encode_records_app l1 l2 t1 t2 :
  encode_records l1 = Ok t1 → encode_records l2 = Ok t2 → encode_records (l1 ++ l2) = Ok (t1 +:+ t2).
Proof using Type.
  revert t1. induction l1 as [|a l1 IH]; intros t1; simpl; [by intros [= <-]|].
  intros (line & -> & (rest & Hr & [= <-])%bind_Ok)%bind_Ok H2. simpl.
  rewrite (IH _ Hr H2). simpl. by rewrite string_app_assoc.
Qed.

(** ** What a log holds *)

Definition log_holds (s : Fs) (rs : list A) : Prop :=
  match fs_files s !! path with
  | None => rs = []
  | Some text => encode_records rs = Ok text
  end.

(** A listing is what the log holds, or nothing when the [stat] of its file failed. *)
Lemma log_list_any s rs r s' :
  log_holds s rs → log_list s = (r, s') →
  fs_files s' = fs_files s ∧
  ∀ l, r = Ok l → l = rs ∨ l = [] ∧ stat_fault o (fs_calls s) path = true.
Proof.
  clear what utf8_error. unfold log_holds, log_list, exists_file, stat_ok, has_file, read_to_string, read_file, map_io, syscall.
  unfold mbind, ST_bind, st_get, st_lift, mret, ST_ret.
  destruct (stat_fault o (fs_calls s) path); simpl; [intros _ [= <- <-]; naive_solver|].
  destruct (fs_files s !! path) as [text|] eqn:Hf; simpl.
  2:{ intros -> [= <- <-]. naive_solver. }
  intros Ht. destruct (io_fault o (fs_calls s)) eqn:Hio; simpl; [intros [= <- <-]; naive_solver|].
  rewrite Hf. simpl. destruct (is_utf8 (bytes text)); simpl; [|intros [= <- <-]; naive_solver].
  intros [= <- <-]. split; [done|]. intros l. unfold JsonLines.parse_lines.
  rewrite (parse_encoded 0 rs text Ht). intros [= <-]. by left.
Qed.
Lemma log_list_spec `{!StatsWork o} s rs r s' :
  log_holds s rs → log_list s = (r, s') →
  fs_files s' = fs_files s ∧ ∀ l, r = Ok l → l = rs.
Proof.
  intros Hh [Hf Hl]%(log_list_any _ rs); [|done]. split; [done|].
  intros l [?|[_ Hs]]%Hl; [done|]. by rewrite stat_works in Hs.
Qed.

(** An append that succeeds adds its record at the end; one that fails leaves the old
    text, followed by nothing or by a part of the new line. *)
Lemma log_append_spec a s rs r s' :
  log_holds s rs → log_append a s = (r, s') →
  (∀ k, k ≠ path → fs_files s' !! k = fs_files s !! k) ∧
  match r with
  | Ok _ => log_holds s' (rs ++ [a])
  | Err _ => fs_files s' !! path = fs_files s !! path ∨
      ∃ line n, encode_line a = Ok line ∧
        fs_files s' !! path =
          Some (default "" (fs_files s !! path) +:+ of_bytes (take n (bytes line)))
  end.
Proof using Type.
  intros Hh. unfold log_append, mbind, ST_bind.
  destruct (map_io io_error (create_dir_all o) s) as [r0 s0] eqn:H0.
  pose proof (create_dir_files _ _ _ _ _ H0) as Hf0. rewrite <-Hf0.
  destruct r0 as [[]|e]; [|intros [= <- <-]; auto]. unfold st_lift.
  destruct (encode_line a) as [line|e] eqn:Ha; [|intros [= <- <-]; auto].
  destruct (map_io io_error (open_append o path) s0) as [r1 s1] eqn:H1.
  apply open_append_spec in H1 as [Hk1 Hp1].
  destruct r1 as [[]|e]; [|intros [= <- <-]; auto].
  destruct (map_io io_error (append_all o path line) s1) as [r2 s2] eqn:H2.
  apply append_all_spec in H2 as [Hk2 Hp2]. rewrite Hp1 in Hp2. simpl in Hp2.
  assert (∀ k, k ≠ path → fs_files s2 !! k = fs_files s0 !! k) as Hk.
  { intros k Hk. by rewrite Hk2, Hk1. }
  destruct r2 as [[]|e].
  2:{ destruct Hp2 as [n Hp2]. intros [= <- <-]. split; [done|]. right. eauto. }
  intros H3. apply sync_files in H3 as Hf3. split; [intros k Hne; rewrite Hf3; auto|].
  destruct r as [[]|e].
  - unfold log_holds in *. rewrite Hf3, Hp2, Hf0. 
    apply encode_records_app; [destruct (fs_files s !! path); [done|by subst rs]|].
    simpl. rewrite Ha. simpl. f_equal. apply (inj bytes). rewrite bytes_app. apply app_nil_r.
  - right. exists line, (length (bytes line)). split; [done|].
    by rewrite Hf3, Hp2, firstn_all, of_bytes_bytes.
Qed.

(** ** Retention *)

Definition text_size (text : string) : N := N.of_nat (length (bytes text)).

Lemma text_size_app t1 t2 : text_size (t1 +:+ t2) = (text_size t1 + text_size t2)%N.
Proof using Type. unfold text_size. rewrite bytes_app, length_app. lia. Qed.

Lemma encode_records_snoc l a t line :
  encode_records l = Ok t → encode_line a = Ok line → encode_records (l ++ [a]) = Ok (t +:+ line).
Proof using Type.
  intros Hl Ha. apply encode_records_app; [done|]. simpl. rewrite Ha. simpl.
  f_equal. apply (inj bytes). rewrite bytes_app. apply app_nil_r.
Qed.

Lemma retain_newest_spec max b l ret :
  (b ≤ max)%N → retain_newest codec serialize_error max b l = Ok ret →
  ∃ rest text, l = ret ++ rest ∧ encode_records (reverse ret) = Ok text ∧
    (b + text_size text ≤ max)%N ∧
    ∀ a, head rest = Some a → ∃ line, encode_line a = Ok line ∧
      (max < b + text_size text + text_size line)%N.
Proof using Type.
  revert b ret. induction l as [|a l IH]; intros b ret Hb; simpl.
  { intros [= <-]. exists [], "". split_and!; [done|done|by rewrite N.add_0_r|done]. }
  intros (line & Ha & Hr)%bind_Ok. fold (text_size line) in Hr. case_match eqn:Hcmp.
  - injection Hr as <-. exists (a :: l), "". split_and!; [done|done|by rewrite N.add_0_r|].
    intros a' [= <-]. exists line. split; [done|]. apply N.ltb_lt in Hcmp. simpl. lia.
  - apply N.ltb_ge in Hcmp. apply bind_Ok in Hr as (older & Ho & [= <-]).
    destruct (IH _ _ Hcmp Ho) as (rest & text & -> & Ht & Hle & Hmax).
    exists rest, (text +:+ line). rewrite reverse_cons, text_size_app. split_and!; [done| |lia|].
    + by apply encode_records_snoc.
    + intros a' Ha'. destruct (Hmax a' Ha') as (line' & ? & ?). exists line'. split; [done|lia].
Qed.

(** What is retained is the newest part of the log, within both limits, and one record
    more would be over one of them. *)
Definition best_suffix (policy : RetentionPolicy) (rs ret : list A) : Prop :=
  ∃ dropped, rs = dropped ++ ret ∧
  (∀ m, max_records policy = Some m → length ret ≤ m)%nat ∧
  (∀ m, max_bytes policy = Some m →
     ∃ text, encode_records ret = Ok text ∧ (text_size text ≤ m)%N) ∧
  (∀ a, last dropped = Some a →
     max_records policy = Some (length ret) ∨
     ∃ m text line, max_bytes policy = Some m ∧ encode_records ret = Ok text ∧
       encode_line a = Ok line ∧ (m < text_size line + text_size text)%N).

Lemma retain_records_spec policy rs ret :
  retain_records rs policy = Ok ret → best_suffix policy rs ret.
Proof using Type.
  unfold retain_records. set (start := match max_records policy with Some _ => _ | None => _ end).
  intros Hr. assert (rs = take start rs ++ drop start rs) as Hsplit by by rewrite take_drop.
  assert (∀ m, max_records policy = Some m → length (drop start rs) ≤ m)%nat as Hlen.
  { intros m Hm. unfold start. rewrite Hm, length_drop. lia. }
  assert (∀ a, last (take start rs) = Some a → max_records policy = Some (length (drop start rs)))
    as Hlast.
  { intros a Ha. destruct (decide (start = 0%nat)) as [Hz|Hz]; [by rewrite Hz in Ha|].
    unfold start in *. destruct (max_records policy) as [m|]; [|done].
    rewrite length_drop. f_equal. lia. }
  destruct (max_bytes policy) as [m|] eqn:Hmb.
  2:{ injection Hr as <-. exists (take start rs). rewrite Hmb. split_and!; [done|done|done|].
      intros a Ha. left. eauto. }
  apply bind_Ok in Hr as (newest & Hn & [= <-]).
  apply retain_newest_spec in Hn as (rest & text & Heq & Ht & Hle & Hmax); [|lia].
  assert (drop start rs = reverse rest ++ reverse newest) as Hd.
  { rewrite <-(reverse_involutive (drop start rs)), Heq. by rewrite reverse_app. }
  rewrite Hd in Hsplit. exists (take start rs ++ reverse rest). rewrite Hmb. split_and!.
  - by rewrite <-app_assoc.
  - intros m' Hm'. specialize (Hlen m' Hm'). rewrite Hd, length_app in Hlen. lia.
  - intros m' [= <-]. eauto.
  - intros a. rewrite last_app, last_reverse. destruct (head rest) as [a'|] eqn:Hh.
    + intros [= <-]. right. destruct (Hmax a' eq_refl) as (line & ? & ?). exists m, text, line.
      split_and!; [done..|]. lia.
    + apply head_None in Hh as ->. simpl in Hd. rewrite <-Hd. eauto.
Qed.

(** ** Compaction *)

Notation archive := (archive_path path).

Lemma longer_ne (s1 s2 : string) :
  (length (bytes s1) < length (bytes s2))%nat → s1 ≠ s2.
Proof using Type. intros Hlt ->. lia. Qed.

Lemma archive_ne n : archive n ≠ path.
Proof using Type.
  apply not_eq_sym, longer_ne. unfold archive_path. rewrite !bytes_app, !length_app. simpl. lia.
Qed.

Lemma rotate_step_path m g s r s' :
  rotate_step o path io_error m g s = (r, s') → fs_files s' !! path = fs_files s !! path.
Proof using Type.
  assert (∀ n, archive n ≠ path) as Hne by apply archive_ne.
  unfold rotate_step, mbind, ST_bind, st_get.
  destruct (g =? m)%nat; (destruct (exists_file o (archive g) s); [|by intros [= <- <-]]).
  - unfold remove_file, map_io, syscall. destruct (io_fault o (fs_calls s)); [by intros [= <- <-]|].
    destruct (fs_files s !! archive g); intros [= <- <-]; simpl; [|done].
    by rewrite lookup_delete_ne.
  - unfold rename, map_io, syscall. destruct (io_fault o (fs_calls s)); [by intros [= <- <-]|].
    destruct (fs_files s !! archive g); intros [= <- <-]; simpl; [|done].
    by rewrite lookup_insert_ne, lookup_delete_ne.
Qed.

Lemma rotate_loop_path m gs s r s' :
  st_foldM (λ _ g, rotate_step o path io_error m g) tt gs s = (r, s') →
  fs_files s' !! path = fs_files s !! path.
Proof using Type.
  revert s. induction gs as [|g gs IH]; intros s; simpl; [by intros [= <- <-]|].
  unfold mbind, ST_bind. destruct (rotate_step o path io_error m g s) as [[[]|e] s1] eqn:Hs.
  - intros H1%IH. rewrite H1. by eapply rotate_step_path.
  - intros [= <- <-]. by eapply rotate_step_path.
Qed.

Lemma rotate_spec payload m s r s' :
  rotate_active_payload o path io_error payload m s = (r, s') →
  fs_files s' !! path = fs_files s !! path ∧
  (is_ok r = true → m ≠ 0%nat → fs_files s' !! archive 1 = Some payload).
Proof using Type.
  unfold rotate_active_payload. case_match eqn:Hm.
  { intros [= <- <-]. apply Nat.eqb_eq in Hm. split; [done|]. intros _ []. exact Hm. }
  unfold mbind, ST_bind. destruct (st_foldM _ _ _ s) as [[[]|e] s1] eqn:H1.
  2:{ intros [= <- <-]. split; [by eapply rotate_loop_path|done]. }
  apply rotate_loop_path in H1. rewrite <-H1.
  destruct (atomic_write o (archive 1) payload io_error s1) as [r2 s2] eqn:H2.
  apply atomic_write_spec in H2 as ((tmp & Hu) & _ & Hr).
  assert (fs_files s2 !! path = fs_files s1 !! path) as Hp.
  { apply Hu. rewrite !not_elem_of_cons. split_and!; [apply not_eq_sym, archive_ne| |apply not_elem_of_nil].
    apply longer_ne. unfold archive_path. rewrite !bytes_app, !length_app. simpl. lia. }
  destruct r2 as [[]|e]; intros [= <- <-]; (split; [done|]); [|done]. intros _ _. apply Hr.
Qed.

Definition compacted_to (policy : RetentionPolicy) (s s' : Fs) (rs : list A) : Prop :=
  ∃ ret, best_suffix policy rs ret ∧ log_holds s' ret ∧
    (max_rotated_files policy ≠ 0%nat → fs_files s' !! archive 1 = fs_files s !! path).

Lemma log_compact_spec policy s rs r s' :
  log_holds s rs → log_compact policy s = (r, s') →
  (fs_files s' !! path = fs_files s !! path ∨ compacted_to policy s s' rs) ∧
  (∀ report, r = Ok report → compacted report = true → compacted_to policy s s' rs).
Proof.
  intros Hh. unfold log_compact, mbind, ST_bind, st_lift, st_get.
  destruct (retention_validate what policy); [|intros [= <- <-]; naive_solver].
  unfold exists_file, stat_ok, has_file. destruct (stat_fault o (fs_calls s) path); [intros [= <- <-]; naive_solver|].
  destruct (fs_files s !! path) as [text|] eqn:Hf; simpl; [|intros [= <- <-]; naive_solver].
  unfold log_holds in Hh. rewrite Hf in Hh.
  destruct (map_io io_error (read_file o path) s) as [r1 s1] eqn:Hread.
  assert (fs_files s1 = fs_files s ∧ ∀ t, r1 = Ok t → t = text) as [Hf1 Ht1].
  { revert Hread. unfold read_file, map_io, syscall.
    destruct (io_fault o (fs_calls s)); [intros [= <- <-]; naive_solver|].
    rewrite Hf. intros [= <- <-]. naive_solver. }
  assert (fs_files s1 !! path = Some text) as Hp1 by by rewrite Hf1.
  destruct r1 as [payload|e]; [|intros [= <- <-]; naive_solver].
  specialize (Ht1 payload eq_refl). subst payload.
  destruct (is_utf8 (bytes text)); [|intros [= <- <-]; naive_solver].
  unfold JsonLines.parse_lines. rewrite (parse_encoded 0 rs text Hh).
  destruct (retain_records rs policy) as [ret|e] eqn:Hret; [|intros [= <- <-]; naive_solver].
  apply retain_records_spec in Hret.
  destruct (encode_records ret) as [retained|e] eqn:Henc; [|intros [= <- <-]; naive_solver].
  set (c := (_ || _)). destruct c; simpl; [|intros [= <- <-]; naive_solver].
  destruct (rotate_active_payload _ _ _ _ _ s1) as [r2 s2] eqn:Hrot.
  apply rotate_spec in Hrot as [Hp2 Harch].
  destruct r2 as [n|e]; [|intros [= <- <-]; rewrite Hp2; naive_solver].
  specialize (Harch eq_refl).
  destruct (atomic_write o path retained io_error s2) as [r3 s3] eqn:Hw.
  apply atomic_write_spec in Hw as ((tmp & Hu) & _ & Hr).
  assert (fs_files s3 !! archive 1 = fs_files s2 !! archive 1) as Ha3.
  { apply Hu. rewrite !not_elem_of_cons. split_and!; [apply archive_ne| |apply not_elem_of_nil].
    apply longer_ne. unfold archive_path. rewrite !bytes_app, !length_app. simpl. lia. }
  assert (fs_files s3 !! path = Some retained → compacted_to policy s s3 rs) as Hdone.
  { intros Hnew. exists ret. unfold log_holds. rewrite Hnew, Ha3, Hf. auto. }
  destruct r3 as [[]|e]; intros [= <- <-].
  - destruct Hr as [_ Hr]. auto.
  - split; [|done]. destruct Hr as [Hr|Hr]; [by auto|]. left. congruence.
Qed.
End log_spec.
