(* ===== verification/Telemetry.v ===== *)
(** * Telemetry (src/telemetry/events.rs, audit.rs, ops.rs, sink.rs, metrics.rs)

    The events the components emit, the audit record and the operation summary made of
    an event, the stores that keep them (in memory and as JSON logs), the sink that
    records what it forwards, and the counters.  [now_unix_secs()] is an argument. *)
From S2P Require Export JsonLines RecoveryCoordinator.

(** ** [Display] of errors (src/error.rs) *)
Definition error_text (e : UnderlayError) : string :=
  match e with
  | DeviceAlreadyExists d => "device already exists: " +:+ d
  | DeviceNotFound d => "device not found: " +:+ d
  | InvalidDeviceState m => "invalid device state: " +:+ m
  | AdapterTransport m => "adapter transport error: " +:+ m
  | AdapterOperation code m _ _ => "adapter operation error: " +:+ code +:+ ": " +:+ m
  | InvalidIntent m => "invalid intent: " +:+ m
  | AuthorizationDenied m => "authorization denied: " +:+ m
  | AuthenticationFailed m => "authentication failed: " +:+ m
  | ProductAuditWriteFailed m => "product audit write failed: " +:+ m
  | InvalidPhaseTransition from to => "invalid phase transition: " +:+ from +:+ " -> " +:+ to
  | UnsupportedTransactionStrategy => "unsupported transaction strategy"
  | Internal m => "internal error: " +:+ m
  end.

(** [value.parse::<u64>().ok()] *)
Definition parsed_u64 (s : string) : option N :=
  match parse_u64 s with Ok n => Some n | Err _ => None end.

(** ** src/telemetry/events.rs *)

Definition debug_DriftType (t : DriftType) : string :=
  match t with
  | MissingVlan => "MissingVlan" | ExtraVlan => "ExtraVlan"
  | VlanAttributeMismatch => "VlanAttributeMismatch"
  | MissingInterface => "MissingInterface" | ExtraInterface => "ExtraInterface"
  | InterfaceAttributeMismatch => "InterfaceAttributeMismatch"
  | MissingAcl => "MissingAcl" | ExtraAcl => "ExtraAcl"
  | AclAttributeMismatch => "AclAttributeMismatch"
  | MissingAclBinding => "MissingAclBinding" | ExtraAclBinding => "ExtraAclBinding"
  | AclBindingAttributeMismatch => "AclBindingAttributeMismatch"
  | AdapterWarning => "AdapterWarning"
  end.

Definition event_drift_detected (req tr : string) (report : DriftReport) : UnderlayEvent :=
  let fields : gmap string string :=
    <["warning_count" := fmt_usize (length (dr_warnings report))]> (
    <["finding_count" := fmt_usize (length (findings report))]> ∅) in
  let fields := match findings report with
    | [] => fields
    | first :: _ =>
        <["first_path" := drift_path first]> (
        <["first_drift_type" := debug_DriftType (drift_type first)]> fields)
    end in
  mkUnderlayEvent UnderlayDriftDetected req tr None (Some (dr_device_id report)) None None
    (Some (if drift_detected report then "drift_detected" else "clean")) None None fields.

Definition drift_audit_completed_with_failures (req tr : string) (audited_device_count : nat)
    (drifted_devices failed_devices : list DeviceId) (listing_error : option string)
    : UnderlayEvent :=
  let fields : gmap string string :=
    <["failed_device_count" := fmt_usize (length failed_devices)]> (
    <["drifted_device_count" := fmt_usize (length drifted_devices)]> (
    <["audited_device_count" := fmt_usize audited_device_count]> ∅)) in
  let fields := match drifted_devices with
    | [] => fields
    | l => <["drifted_devices" := join "," (device_id_0 <$> l)]> fields
    end in
  let fields := match failed_devices with
    | [] => fields
    | l => <["failed_devices" := join "," (device_id_0 <$> l)]> fields
    end in
  let fields := match listing_error with
    | Some error =>
        <["expected_store_listing_error" := error]> (
        <["expected_store_listing_failed" := "true"]> fields)
    | None => fields
    end in
  let has_failures := non_empty failed_devices || bool_decide (is_Some listing_error) in
  mkUnderlayEvent UnderlayDriftAuditCompleted req tr None None None None
    (Some (if has_failures then "partial_failure"
           else if non_empty drifted_devices then "drift_detected" else "clean"))
    (const "DRIFT_EXPECTED_STORE_LIST_FAILED" <$> listing_error) listing_error fields.
Definition drift_audit_completed (req tr : string) (audited_device_count : nat)
    (drifted_devices : list DeviceId) : UnderlayEvent :=
  drift_audit_completed_with_failures req tr audited_device_count drifted_devices [] None.

Definition audit_write_failed_with_code (req tr failed_action code message : string)
    : UnderlayEvent :=
  mkUnderlayEvent UnderlayAuditWriteFailed req tr None None None None (Some "failed")
    (Some code) (Some message) {[ "failed_action" := failed_action ]}.
Definition audit_write_failed (req tr failed_action message : string) : UnderlayEvent :=
  audit_write_failed_with_code req tr failed_action "OPERATION_SUMMARY_WRITE_FAILED" message.
Definition operation_audit_write_failed (req tr failed_action message : string) : UnderlayEvent :=
  audit_write_failed_with_code req tr failed_action "OPERATION_AUDIT_WRITE_FAILED" message.

Definition transaction_force_resolved (req tr tx : string) (previous_phase : TxPhase)
    (devices : list DeviceId) (operator reason : string) : UnderlayEvent :=
  mkUnderlayEvent UnderlayTransactionForceResolved req tr (Some tx) None (Some ForceResolved) None
    (Some "force_resolved") None None
    (<["reason" := reason]> (<["operator" := operator]> (
     <["device_count" := fmt_usize (length devices)]> (
     <["previous_phase" := debug_TxPhase previous_phase]> ∅)))).

(** ** src/telemetry/audit.rs: records *)

Record AuditRecord := mkAuditRecord {
  au_request_id : string;
  au_trace_id : string;
  au_tx_id : option string;
  au_device_id : option DeviceId;
  au_action : string;
  au_result : string;
  au_error_code : option string;
  au_error_message : option string;
}.

Definition action_name (k : UnderlayEventKind) : string :=
  match k with
  | UnderlayDeviceRegistered => "device.registered"
  | UnderlayDeviceCapabilityDetected => "device.capability_detected"
  | UnderlayDriftDetected => "drift.detected"
  | UnderlayDriftAuditCompleted => "drift.audit_completed"
  | UnderlayDeviceLockTimeout => "device.lock_timeout"
  | UnderlayForceUnlockRequested => "device.force_unlock_requested"
  | UnderlayJournalGcCompleted => "journal.gc_completed"
  | UnderlayApplyIdempotencyGcCompleted => "apply_idempotency.gc_completed"
  | UnderlayRecoveryCompleted => "recovery.completed"
  | UnderlayAuditWriteFailed => "audit.write_failed"
  | UnderlayTransactionStarted => "transaction.started"
  | UnderlayTransactionPhaseChanged => "transaction.phase_changed"
  | UnderlayTransactionCompleted => "transaction.completed"
  | UnderlayTransactionFailed => "transaction.failed"
  | UnderlayTransactionInDoubt => "transaction.in_doubt"
  | UnderlayTransactionForceResolved => "transaction.force_resolved"
  end.

Definition AuditRecord_from_event (e : UnderlayEvent) : AuditRecord :=
  {| au_request_id := ue_request_id e; au_trace_id := ue_trace_id e; au_tx_id := ue_tx_id e;
     au_device_id := ue_device_id e; au_action := action_name (ue_kind e);
     au_result := default "observed" (ue_result e);
     au_error_code := ue_error_code e; au_error_message := ue_error_message e |}.

Record OperationAuditRecord := mkOperationAuditRecord {
  oa_appended_at_unix_secs : N;
  oa_request_id : string;
  oa_trace_id : string;
  oa_tx_id : option string;
  oa_device_id : option DeviceId;
  oa_action : string;
  oa_result : string;
  oa_operator_id : option string;
  oa_reason : option string;
  oa_error_code : option string;
  oa_error_message : option string;
  oa_fields : gmap string string;
}.
Definition OperationAuditRecord_from_event (now : N) (e : UnderlayEvent) : OperationAuditRecord :=
  let audit := AuditRecord_from_event e in
  {| oa_appended_at_unix_secs := now; oa_request_id := au_request_id audit;
     oa_trace_id := au_trace_id audit; oa_tx_id := au_tx_id audit;
     oa_device_id := au_device_id audit; oa_action := au_action audit;
     oa_result := au_result audit;
     oa_operator_id := match ue_fields e !! "operator" with
                       | Some o => Some o
                       | None => ue_fields e !! "operator_id"
                       end;
     oa_reason := ue_fields e !! "reason"; oa_error_code := au_error_code audit;
     oa_error_message := au_error_message audit; oa_fields := ue_fields e |}.

(** The life cycle status of an alert (src/telemetry/alerts.rs). *)
Inductive OperationAlertLifecycleStatus := Open | Acknowledged | Resolved | Suppressed | Expired.
#[export] Instance OperationAlertLifecycleStatus_eq_dec : EqDecision OperationAlertLifecycleStatus.
Proof. solve_decision. Defined.
Definition debug_lifecycle_status (s : OperationAlertLifecycleStatus) : string :=
  match s with
  | Open => "Open" | Acknowledged => "Acknowledged" | Resolved => "Resolved"
  | Suppressed => "Suppressed" | Expired => "Expired"
  end.
Definition alert_lifecycle_action (s : OperationAlertLifecycleStatus) : string :=
  match s with
  | Open => "alert.opened" | Acknowledged => "alert.acknowledged" | Resolved => "alert.resolved"
  | Suppressed => "alert.suppressed" | Expired => "alert.expired"
  end.

Record ProductAuditRecord := mkProductAuditRecord {
  pa_request_id : string;
  pa_trace_id : string;
  pa_action : string;
  pa_result : string;
  pa_tx_id : option string;
  pa_device_id : option DeviceId;
  pa_operator_id : option string;
  pa_reason : option string;
  pa_attention_required : bool;
  pa_error_code : option string;
  pa_error_message : option string;
  pa_fields : gmap string string;
  pa_appended_at_unix_secs : N;
}.
#[export] Instance ProductAuditRecord_eq_dec : EqDecision ProductAuditRecord.
Proof. solve_decision. Defined.
Definition authorized_record (now : N) (req tr action : string) (tx : option string)
    (operator reason : string) (fields : gmap string string) : ProductAuditRecord :=
  {| pa_request_id := req; pa_trace_id := tr; pa_action := action; pa_result := "authorized";
     pa_tx_id := tx; pa_device_id := None; pa_operator_id := Some operator;
     pa_reason := Some reason; pa_attention_required := false; pa_error_code := None;
     pa_error_message := None; pa_fields := fields; pa_appended_at_unix_secs := now |}.
Definition force_resolve_requested (now : N) (req tr tx operator reason : string)
    : ProductAuditRecord :=
  authorized_record now req tr "transaction.force_resolve_requested" (Some tx) operator reason ∅.
Definition alert_lifecycle_transition (now : N) (req tr dedupe_key : string)
    (status : OperationAlertLifecycleStatus) (operator reason : string) : ProductAuditRecord :=
  authorized_record now req tr (alert_lifecycle_action status) None operator reason
    (<["status" := debug_lifecycle_status status]> {[ "dedupe_key" := dedupe_key ]}).
Definition worker_config_change_requested (now : N) (req tr action target operator reason : string)
    (fields : gmap string string) : ProductAuditRecord :=
  authorized_record now req tr action None operator reason (<["target" := target]> fields).
Definition product_audit_export_requested (now : N) (req tr operator reason : string)
    (fields : gmap string string) : ProductAuditRecord :=
  authorized_record now req tr "product_audit.export_requested" None operator reason
    (<["export_type" := "product_audit"]> fields).

(** ** src/telemetry/audit.rs: stores *)

Class ProductAuditStore (P : Type) := {
  product_append : ProductAuditRecord → ST UnderlayError P unit;
  product_list : ST UnderlayError P (list ProductAuditRecord);
}.
(** What a client relies on: an acknowledged record is at the end of the log. *)
Class ProductAuditLaws (P : Type) `{!ProductAuditStore P}
    (holds : P → list ProductAuditRecord → Prop) := {
  product_append_law a s rs s' :
    holds s rs → product_append a s = (Ok tt, s') → holds s' (rs ++ [a]);
  product_list_law s rs l s' :
    holds s rs → product_list s = (Ok l, s') → l = rs;
}.

Module NoopProductAudit.
Record Store := mkStore {}.
#[export] Instance store : ProductAuditStore Store :=
  {| product_append _ := mret tt; product_list := mret [] |}.
End NoopProductAudit.
#[export] Existing Instance NoopProductAudit.store.

Module InMemoryProductAudit.
Record Store := mkStore { records : list ProductAuditRecord }.
Definition append (r : ProductAuditRecord) : ST UnderlayError Store unit := λ s,
  (Ok tt, mkStore (records s ++ [r])).
Definition list : ST UnderlayError Store (list ProductAuditRecord) := λ s, (Ok (records s), s).
#[export] Instance store : ProductAuditStore Store :=
  {| product_append := append; product_list := list |}.
#[export] Instance laws : ProductAuditLaws Store (λ s rs, records s = rs).
Proof.
  split.
  - intros a s rs s' <- [= <-]. done.
  - intros s rs l s' <- [= <- _]. done.
Qed.
End InMemoryProductAudit.
#[export] Existing Instances InMemoryProductAudit.store InMemoryProductAudit.laws.

Module JsonFileProductAudit.
Definition product_audit_io_error (e : string) : UnderlayError :=
  ProductAuditWriteFailed ("product audit io error: " +:+ e).
Definition serialize_error (e : string) : UnderlayError :=
  Internal ("serialize product audit: " +:+ e).
Definition parse_error (path : string) (line : nat) (e : string) : UnderlayError :=
  ProductAuditWriteFailed ("parse product audit " +:+ debug_str path +:+ " line " +:+
    fmt_usize line +:+ ": " +:+ e).
Section store.
Context (o : FsOracle) (codec : Codec ProductAuditRecord) (path : string).
(** The file is opened before the record is serialized. *)
Definition append (r : ProductAuditRecord) : ST UnderlayError Fs unit :=
  _ ← map_io product_audit_io_error (create_dir_all o);
  _ ← map_io product_audit_io_error (open_append o path);
  payload ← st_lift (encode_line codec serialize_error r);
  _ ← map_io product_audit_io_error (append_all o path payload);
  map_io product_audit_io_error (sync o).
Definition list : ST UnderlayError Fs (list ProductAuditRecord) :=
  log_list o codec path product_audit_io_error (parse_error path).
#[export] Instance store : ProductAuditStore Fs := {| product_append := append; product_list := list |}.

Lemma product_laws `{!StatsWork o} :
  codec_round_trip codec → prints_one_line codec →
  ProductAuditLaws Fs (log_holds codec path serialize_error).
Proof.
  intros Hc Hl. split.
  - intros a s rs s' Hh. simpl. unfold append, mbind, ST_bind, st_lift.
    destruct (map_io _ (create_dir_all o) s) as [[[]|e] s0] eqn:H0; [|done].
    apply create_dir_files in H0 as Hf0.
    destruct (map_io _ (open_append o path) s0) as [[[]|e] s1] eqn:H1; [|done].
    apply open_append_spec in H1 as [_ Hp1].
    destruct (encode_line codec serialize_error a) as [line|e] eqn:Ha; [|done].
    destruct (map_io _ (append_all o path line) s1) as [[[]|e] s2] eqn:H2; [|done].
    apply append_all_spec in H2 as [_ Hp2].
    intros H3%sync_files. unfold log_holds in *. rewrite H3, Hp2, Hp1, Hf0. simpl.
    apply encode_records_snoc; [|done]. by destruct (fs_files s !! path); [|subst rs].
  - intros s rs l s' Hh Hlist.
    destruct (log_list_spec o codec path _ _ serialize_error Hc Hl _ _ _ _ Hh Hlist) as [_ Heq].
    by apply Heq.
Qed.
End store.
End JsonFileProductAudit.

Class OperationAuditStore (S : Type) := {
  audit_record_event : UnderlayEvent → ST UnderlayError S unit;
  audit_list : ST UnderlayError S (list OperationAuditRecord);
}.

Module NoopOperationAudit.
Record Store := mkStore {}.
#[export] Instance store : OperationAuditStore Store :=
  {| audit_record_event _ := mret tt; audit_list := mret [] |}.
End NoopOperationAudit.
#[export] Existing Instance NoopOperationAudit.store.

Module JsonFileOperationAudit.
Definition operation_audit_io_error (e : string) : UnderlayError :=
  Internal ("operation audit io error: " +:+ e).
Definition serialize_error (e : string) : UnderlayError :=
  Internal ("serialize operation audit: " +:+ e).
Definition parse_error (path : string) (line : nat) (e : string) : UnderlayError :=
  Internal ("parse operation audit " +:+ debug_str path +:+ " line " +:+ fmt_usize line +:+ ": " +:+ e).
Section store.
Context (o : FsOracle) (codec : Codec OperationAuditRecord) (path : string).
(** The clock, and the text of [FromUtf8Error] for a payload. *)
Context (now : nat → N) (utf8_text : string → string).
Definition record_event (e : UnderlayEvent) : ST UnderlayError Fs unit := λ s,
  log_append o codec path operation_audit_io_error serialize_error
    (OperationAuditRecord_from_event (now (fs_calls s)) e) s.
Definition list : ST UnderlayError Fs (list OperationAuditRecord) :=
  log_list o codec path operation_audit_io_error (parse_error path).
Definition compact (policy : RetentionPolicy) : ST UnderlayError Fs CompactionReport :=
  log_compact o codec path "operation audit" operation_audit_io_error (parse_error path)
    (λ payload, Internal ("parse operation audit " +:+ debug_str path +:+ ": invalid utf-8: " +:+
                          utf8_text payload)) serialize_error policy.
#[export] Instance store : OperationAuditStore Fs :=
  {| audit_record_event := record_event; audit_list := list |}.
End store.
End JsonFileOperationAudit.

(** ** src/telemetry/ops.rs *)

Record OperationSummary := mkOperationSummary {
  os_request_id : string;
  os_trace_id : string;
  os_action : string;
  os_result : string;
  os_tx_id : option string;
  os_device_id : option DeviceId;
  os_attention_required : bool;
  os_fields : gmap string string;
}.
#[export] Instance OperationSummary_eq_dec : EqDecision OperationSummary.
Proof. solve_decision. Defined.

Definition is_operator_event (k : UnderlayEventKind) : bool :=
  match k with
  | UnderlayDriftDetected | UnderlayDriftAuditCompleted | UnderlayJournalGcCompleted
  | UnderlayApplyIdempotencyGcCompleted | UnderlayRecoveryCompleted | UnderlayAuditWriteFailed
  | UnderlayTransactionForceResolved | UnderlayTransactionInDoubt => true
  | _ => false
  end.
Definition field_value (e : UnderlayEvent) (name : string) : N :=
  default 0%N (ue_fields e !! name ≫= parsed_u64).
Definition event_attention_required (e : UnderlayEvent) : bool :=
  match ue_kind e with
  | UnderlayDriftDetected => true
  | UnderlayDriftAuditCompleted =>
      bool_decide (ue_result e = Some "drift_detected") ||
      bool_decide (ue_result e = Some "partial_failure")
  | UnderlayRecoveryCompleted =>
      (0 <? field_value e "in_doubt")%N || (0 <? field_value e "pending")%N
  | UnderlayAuditWriteFailed => true
  | UnderlayTransactionInDoubt => true
  | _ => false
  end.
Definition OperationSummary_from_event (e : UnderlayEvent) : option OperationSummary :=
  if negb (is_operator_event (ue_kind e)) then None else
  let audit := AuditRecord_from_event e in
  Some {| os_request_id := au_request_id audit; os_trace_id := au_trace_id audit;
          os_action := au_action audit; os_result := au_result audit; os_tx_id := au_tx_id audit;
          os_device_id := au_device_id audit; os_attention_required := event_attention_required e;
          os_fields := ue_fields e |}.

Class OperationSummaryStore (S : Type) := {
  summary_record_event : UnderlayEvent → ST UnderlayError S unit;
  summary_list : ST UnderlayError S (list OperationSummary);
}.
Definition list_attention_required {S} `{!OperationSummaryStore S}
    : ST UnderlayError S (list OperationSummary) :=
  summaries ← summary_list;
  mret (filter (λ x, os_attention_required x = true) summaries).

Module InMemoryOperationSummaries.
Record Store := mkStore { summaries : list OperationSummary }.
Definition record_event (e : UnderlayEvent) : ST UnderlayError Store unit := λ s,
  match OperationSummary_from_event e with
  | None => (Ok tt, s)
  | Some summary => (Ok tt, mkStore (summaries s ++ [summary]))
  end.
Definition list : ST UnderlayError Store (list OperationSummary) := λ s, (Ok (summaries s), s).
#[export] Instance store : OperationSummaryStore Store :=
  {| summary_record_event := record_event; summary_list := list |}.
End InMemoryOperationSummaries.
#[export] Existing Instance InMemoryOperationSummaries.store.

Module JsonFileOperationSummaries.
Definition summary_io_error (e : string) : UnderlayError :=
  Internal ("operation summary io error: " +:+ e).
Definition serialize_error (e : string) : UnderlayError :=
  Internal ("serialize operation summary: " +:+ e).
Definition parse_error (path : string) (line : nat) (e : string) : UnderlayError :=
  Internal ("parse operation summary " +:+ debug_str path +:+ " line " +:+ fmt_usize line +:+ ": " +:+ e).
Section store.
Context (o : FsOracle) (codec : Codec OperationSummary) (path : string).
Context (utf8_text : string → string).
Definition record_event (e : UnderlayEvent) : ST UnderlayError Fs unit :=
  match OperationSummary_from_event e with
  | None => mret tt
  | Some summary => log_append o codec path summary_io_error serialize_error summary
  end.
Definition list : ST UnderlayError Fs (list OperationSummary) :=
  log_list o codec path summary_io_error (parse_error path).
Definition compact (policy : RetentionPolicy) : ST UnderlayError Fs CompactionReport :=
  log_compact o codec path "operation summary" summary_io_error (parse_error path)
    (λ payload, Internal ("parse operation summary " +:+ debug_str path +:+ ": invalid utf-8: " +:+
                          utf8_text payload)) serialize_error policy.
#[export] Instance store : OperationSummaryStore Fs :=
  {| summary_record_event := record_event; summary_list := list |}.
End store.
End JsonFileOperationSummaries.

(** ** src/telemetry/sink.rs *)

(** [RecordingEventSink::emit] over a summary store, an optional audit store and the
    events of the inner sink. *)
Section sink.
Context {O U : Type} `{!OperationSummaryStore O} `{!OperationAuditStore U}.

Record SinkState := mkSinkState {
  inner : list UnderlayEvent;
  operation_summaries : O;
  operation_audit : option U;
}.
Definition inner_emit (e : UnderlayEvent) (s : SinkState) : SinkState :=
  mkSinkState (inner s ++ [e]) (operation_summaries s) (operation_audit s).
Definition reports_failure (e : UnderlayEvent) : bool :=
  match ue_kind e with UnderlayAuditWriteFailed => false | _ => true end.
Definition sink_emit (e : UnderlayEvent) (s : SinkState) : SinkState :=
  let '(r, summaries) := summary_record_event e (operation_summaries s) in
  let s := mkSinkState (inner s) summaries (operation_audit s) in
  let action := au_action (AuditRecord_from_event e) in
  let s := match r with
    | Err err => if reports_failure e
        then inner_emit (audit_write_failed (ue_request_id e) (ue_trace_id e) action (error_text err)) s
        else s
    | Ok _ => s
    end in
  let s := match operation_audit s with
    | None => s
    | Some audit =>
        let '(r, audit) := audit_record_event e audit in
        let s := mkSinkState (inner s) (operation_summaries s) (Some audit) in
        match r with
        | Err err => if reports_failure e
            then inner_emit (operation_audit_write_failed (ue_request_id e) (ue_trace_id e) action
                               (error_text err)) s
            else s
        | Ok _ => s
        end
    end in
  inner_emit e s.
End sink.
Arguments SinkState : clear implicits.

Definition event_log_level (e : UnderlayEvent) : string :=
  if bool_decide (is_Some (ue_error_code e)) ||
     match ue_kind e with
     | UnderlayAuditWriteFailed | UnderlayTransactionFailed | UnderlayTransactionInDoubt => true
     | _ => false
     end
  then "error"
  else match ue_kind e with
       | UnderlayDriftDetected | UnderlayDeviceLockTimeout | UnderlayForceUnlockRequested => "warn"
       | _ => "info"
       end.

#[export] Instance OperationAuditRecord_eq_dec : EqDecision OperationAuditRecord.
Proof. solve_decision. Defined.


Module AuditSample.
Definition event : UnderlayEvent := drift_audit_completed "req" "trace" 1 [].
Definition record : OperationAuditRecord := OperationAuditRecord_from_event 9 event.
Definition codec : Codec OperationAuditRecord :=
  mkCodec (λ r, if decide (r = record) then Ok "{}" else Err "unsupported")
          (λ t, if decide (t = "{}") then Ok record else Err "parse").
Definition path : string := "audit.jsonl".
Definition two_lines : string := of_bytes (bytes "{}" ++ [newline] ++ bytes "{}" ++ [newline]).
Definition log : Fs := mkFs true {[ path := two_lines ]} 0.
Lemma log_two : log_holds codec path JsonFileOperationAudit.serialize_error log [record; record].
Proof. vm_compute. reflexivity. Qed.
Definition keep_one : RetentionPolicy := mkRetentionPolicy (Some 1) None 1.
End AuditSample.

