(* ===== verification/Onboarding.v ===== *)
(** * Registering and onboarding devices (src/device/registration.rs, onboarding.rs,
      secret.rs, bootstrap.rs)

    A site is initialized with a pair of switches: for each, its credential is stored, the
    device is registered in the inventory and then probed through the adapter.  The parser
    of endpoint URLs is an argument; the adapter's answers are the oracle of [Env]. *)
From S2P Require Export Telemetry.
Local Open Scope N_scope.

(** ** src/device/registration.rs *)

Record RegisterDeviceRequest := mkRegisterDeviceRequest {
  rd_tenant_id : string;
  rd_site_id : string;
  rd_device_id : DeviceId;
  rd_management_ip : string;
  rd_management_port : N;
  rd_vendor_hint : option Vendor;
  rd_model_hint : option string;
  rd_role : DeviceRole;
  rd_secret_ref : string;
  rd_host_key_policy : HostKeyPolicy;
  rd_adapter_endpoint : string;
}.

Definition validate_required (field value : string) : UnderlayResult unit :=
  reject_if (str_is_empty (trim value)) (InvalidDeviceState (field +:+ " is empty")).
Definition validate_device_id (field : string) (d : DeviceId) : UnderlayResult unit :=
  reject_if (negb (is_canonical d))
    (InvalidDeviceState (field +:+ " " +:+ device_id_0 d +:+ " is invalid: " +:+ canonical_rule)).
Definition validate_nonzero_port (field : string) (port : N) : UnderlayResult unit :=
  reject_if (port =? 0) (InvalidDeviceState (field +:+ " must be non-zero")).
Definition validate_host_key_policy (p : HostKeyPolicy) : UnderlayResult unit :=
  match p with
  | TrustOnFirstUse => Ok tt
  | KnownHostsFile path =>
      _ ← validate_required "host_key_policy.known_hosts_path" path;
      reject_if (str_contains path (of_bytes [newline]) || str_contains path (of_bytes [carriage_return]))
        (InvalidDeviceState "host_key_policy.known_hosts_path must be a single-line path")
  | PinnedKey fingerprint => validate_required "host_key_policy.pinned_fingerprint" fingerprint
  end.

(** ** src/device/secret.rs *)

Inductive NetconfCredentialInput :=
  | InputPassword (username password : string)
  | InputPrivateKey (username key_pem : string) (passphrase : option string)
  | ExistingSecretRef (secret_ref : string).
Inductive StoredNetconfCredential :=
  | StoredPassword (username password : string)
  | StoredPrivateKey (username key_pem : string) (passphrase : option string).
Record SecretProvisioningResult := mkSecretProvisioningResult {
  sp_secret_ref : string;
  cleanup_on_registration_failure : bool;
}.
Class SecretStore (K : Type) := {
  create_for_device : string → string → DeviceId → NetconfCredentialInput →
    ST UnderlayError K SecretProvisioningResult;
  delete_secret : string → ST UnderlayError K unit;
}.

Definition validate_username (username : string) : UnderlayResult unit :=
  reject_if (str_is_empty (trim username)) (InvalidDeviceState "NETCONF username cannot be empty").
Definition device_secret_ref (tenant_id site_id : string) (d : DeviceId) : string :=
  "local/" +:+ tenant_id +:+ "/" +:+ site_id +:+ "/" +:+ device_id_0 d.

Module InMemorySecrets.
Definition Store : Type := gmap string StoredNetconfCredential.
Definition create_for_device (tenant_id site_id : string) (d : DeviceId)
    (credential : NetconfCredentialInput) : ST UnderlayError Store SecretProvisioningResult :=
  let secret_ref := device_secret_ref tenant_id site_id d in
  let keep stored : ST UnderlayError Store SecretProvisioningResult := λ s,
    (Ok (mkSecretProvisioningResult secret_ref true), <[secret_ref := stored]> s) in
  match credential with
  | ExistingSecretRef secret_ref =>
      _ ← st_lift (reject_if (str_is_empty (trim secret_ref))
                     (InvalidDeviceState "secret_ref cannot be empty"));
      mret (mkSecretProvisioningResult secret_ref false)
  | InputPassword username password =>
      _ ← st_lift (validate_username username);
      _ ← st_lift (reject_if (str_is_empty password)
                     (InvalidDeviceState "NETCONF password cannot be empty"));
      keep (StoredPassword username password)
  | InputPrivateKey username key_pem passphrase =>
      _ ← st_lift (validate_username username);
      _ ← st_lift (reject_if (str_is_empty key_pem)
                     (InvalidDeviceState "NETCONF private key cannot be empty"));
      keep (StoredPrivateKey username key_pem passphrase)
  end.
Definition delete (secret_ref : string) : ST UnderlayError Store unit := λ s,
  (Ok tt, base.delete secret_ref s).
Definition get (secret_ref : string) (s : Store) : option StoredNetconfCredential := s !! secret_ref.
#[export] Instance store : SecretStore Store :=
  {| Onboarding.create_for_device := create_for_device; delete_secret := delete |}.
End InMemorySecrets.
#[export] Existing Instance InMemorySecrets.store.

(** ** src/device/bootstrap.rs: data *)

Record SwitchBootstrapRequest := mkSwitchBootstrapRequest {
  sb_device_id : DeviceId;
  sb_role : DeviceRole;
  sb_management_ip : string;
  sb_management_port : N;
  sb_vendor_hint : option Vendor;
  sb_model_hint : option string;
  sb_host_key_policy : HostKeyPolicy;
  sb_credential : NetconfCredentialInput;
}.
Record InitializeUnderlaySiteRequest := mkInitializeUnderlaySiteRequest {
  is_request_id : string;
  is_tenant_id : string;
  is_site_id : string;
  is_adapter_endpoint : string;
  is_switches : list SwitchBootstrapRequest;
  is_allow_degraded : bool;
}.
Inductive SiteInitializationStatus :=
  | SiteReady | SiteReadyWithDegradedDevice | SiteFailed | SitePartiallyRegistered.
#[export] Instance SiteInitializationStatus_eq_dec : EqDecision SiteInitializationStatus.
Proof. solve_decision. Defined.
Record DeviceInitializationResult := mkDeviceInitializationResult {
  di_device_id : DeviceId;
  di_role : DeviceRole;
  di_secret_ref : option string;
  di_lifecycle_state : option DeviceLifecycleState;
  di_error : option string;
}.
Record InitializeUnderlaySiteResponse := mkInitializeUnderlaySiteResponse {
  isr_request_id : string;
  isr_tenant_id : string;
  isr_site_id : string;
  isr_status : SiteInitializationStatus;
  isr_devices : list DeviceInitializationResult;
}.

Definition summarize_status (devices : list DeviceInitializationResult) (allow_degraded : bool)
    : SiteInitializationStatus :=
  if existsb (λ d, bool_decide (di_lifecycle_state d = None)) devices then SitePartiallyRegistered
  else if forallb (λ d, bool_decide (di_lifecycle_state d = Some Ready)) devices then SiteReady
  else if allow_degraded &&
    forallb (λ d, match di_lifecycle_state d with Some (Ready | Degraded) => true | _ => false end)
      devices
  then SiteReadyWithDegradedDevice
  else SiteFailed.

(** [{:?}] *)
Definition debug_DeviceLifecycleState (st : DeviceLifecycleState) : string :=
  match st with
  | Pending => "Pending" | Probing => "Probing" | Ready => "Ready" | Degraded => "Degraded"
  | LifecycleUnsupported => "Unsupported" | Unreachable => "Unreachable"
  | AuthFailed => "AuthFailed" | Drifted => "Drifted" | Maintenance => "Maintenance"
  end.

Definition lifecycle_state_for_onboarding_error (e : UnderlayError) : DeviceLifecycleState :=
  match e with
  | AdapterOperation code _ retryable _ =>
      if decide (code = "AUTH_FAILED") then AuthFailed
      else if decide (code = "DEVICE_UNREACHABLE") then Unreachable
      else if decide (code = "UNSUPPORTED_DEVICE") then LifecycleUnsupported
      else if retryable then Unreachable else LifecycleUnsupported
  | AdapterTransport _ => Unreachable
  | _ => LifecycleUnsupported
  end.

Definition state_for_capability (c : DeviceCapabilityProfile) : DeviceLifecycleState :=
  if is_supported (recommended_strategy c) then
    if is_degraded (recommended_strategy c) then Degraded else Ready
  else if cap_supports_netconf c || non_empty (supported_backends c) then LifecycleUnsupported
  else Unreachable.

Section site.
Context {K : Type} `{!SecretStore K}.
Context (env : Env) (endpoint_from_shared : string → result string unit).

(** The inventory, the secrets, and how many answers were asked for. *)
Record Site := mkSite {
  site_inventory : Inventory.t;
  site_secrets : K;
  site_tick : nat;
}.
Notation BM := (ST UnderlayError Site).

Definition site_ask {A} (f : nat → UnderlayResult A) : BM A := λ s,
  (f (site_tick s), mkSite (site_inventory s) (site_secrets s) (S (site_tick s))).
Definition site_change (f : Inventory.t → UnderlayResult Inventory.t) : BM unit := λ s,
  match f (site_inventory s) with
  | Ok inv => (Ok tt, mkSite inv (site_secrets s) (site_tick s))
  | Err e => (Err e, s)
  end.
Definition site_secret {A} (m : ST UnderlayError K A) : BM A := λ s,
  let '(x, k) := m (site_secrets s) in (x, mkSite (site_inventory s) k (site_tick s)).

Definition validate_adapter_endpoint (endpoint : string) : UnderlayResult unit :=
  _ ← validate_required "adapter_endpoint" endpoint;
  map_err (λ e, InvalidDeviceState ("adapter_endpoint is invalid: " +:+ e))
    (endpoint_from_shared endpoint).

Definition validate_register_device_request (q : RegisterDeviceRequest) : UnderlayResult unit :=
  _ ← validate_required "tenant_id" (rd_tenant_id q);
  _ ← validate_required "site_id" (rd_site_id q);
  _ ← validate_device_id "device_id" (rd_device_id q);
  _ ← validate_required "management_ip" (rd_management_ip q);
  _ ← validate_nonzero_port "management_port" (rd_management_port q);
  _ ← validate_required "secret_ref" (rd_secret_ref q);
  _ ← validate_adapter_endpoint (rd_adapter_endpoint q);
  validate_host_key_policy (rd_host_key_policy q).

Definition registered_info (q : RegisterDeviceRequest) : DeviceInfo :=
  mkDeviceInfo (rd_tenant_id q) (rd_site_id q) (rd_device_id q) (rd_management_ip q)
    (rd_management_port q) (rd_vendor_hint q) (rd_model_hint q) (rd_role q) (rd_secret_ref q)
    (rd_host_key_policy q) (rd_adapter_endpoint q) Pending.
Definition register (q : RegisterDeviceRequest) : BM (DeviceId * DeviceLifecycleState) :=
  _ ← st_lift (validate_register_device_request q);
  _ ← site_change (Inventory.insert (registered_info q));
  mret (rd_device_id q, Pending).

(** ** src/device/onboarding.rs *)

Definition may_onboard (st : DeviceLifecycleState) : bool :=
  match st with
  | Pending | Probing | Unreachable | AuthFailed | LifecycleUnsupported | Degraded => true
  | _ => false
  end.
Definition onboarding_failed {A} (d : DeviceId) (e : UnderlayError) : BM A :=
  _ ← site_change (Inventory.set_state d (lifecycle_state_for_onboarding_error e));
  st_fail e.
Definition onboard_device (d : DeviceId) : BM DeviceLifecycleState :=
  s ← st_get;
  managed ← st_lift (Inventory.get d (site_inventory s));
  _ ← st_lift (reject_if (negb (may_onboard (lifecycle_state (md_info managed))))
        (InvalidDeviceState ("cannot onboard device from state " +:+
           debug_DeviceLifecycleState (lifecycle_state (md_info managed)))));
  _ ← site_change (Inventory.set_state d Probing);
  client ← st_try (site_ask (λ n, pool_client env n (adapter_endpoint (md_info managed))));
  match client with
  | Err e => onboarding_failed d e
  | Ok _ =>
      capability ← st_try (site_ask (λ n, get_capabilities env n (md_info managed)));
      match capability with
      | Err e => onboarding_failed d e
      | Ok capability =>
          _ ← site_change (Inventory.set_capability d capability);
          _ ← site_change (Inventory.set_state d (state_for_capability capability));
          mret (state_for_capability capability)
      end
  end.

(** ** src/device/bootstrap.rs *)

Definition count_role (r : DeviceRole) (switches : list SwitchBootstrapRequest) : nat :=
  length (filter (λ sw, sb_role sw = r) switches).
Definition validate_switch (sw : SwitchBootstrapRequest) : UnderlayResult unit :=
  _ ← validate_device_id "switch device_id" (sb_device_id sw);
  _ ← validate_required "switch management_ip" (sb_management_ip sw);
  _ ← validate_nonzero_port "switch management_port" (sb_management_port sw);
  validate_host_key_policy (sb_host_key_policy sw).
Definition validate_switch_pair (q : InitializeUnderlaySiteRequest) : UnderlayResult unit :=
  _ ← validate_required "request_id" (is_request_id q);
  _ ← validate_required "tenant_id" (is_tenant_id q);
  _ ← validate_required "site_id" (is_site_id q);
  _ ← validate_adapter_endpoint (is_adapter_endpoint q);
  match is_switches q with
  | [a; b] =>
      _ ← reject_if (negb (count_role LeafA [a; b] =? 1)%nat || negb (count_role LeafB [a; b] =? 1)%nat)
            (InvalidDeviceState "switch pair must contain exactly one LeafA and one LeafB");
      _ ← reject_if (bool_decide (sb_device_id a = sb_device_id b))
            (InvalidDeviceState "switch pair device_id values must be unique");
      forM_ validate_switch [a; b]
  | _ => Err (InvalidDeviceState "underlay site initialization requires exactly two switches")
  end.

Definition registration_failure_result_with_secret_cleanup (sw : SwitchBootstrapRequest)
    (secret_ref : string) (registration_error : UnderlayError) : BM DeviceInitializationResult :=
  cleanup ← st_try (site_secret (delete_secret secret_ref));
  mret (match cleanup with
    | Err cleanup_error =>
        mkDeviceInitializationResult (sb_device_id sw) (sb_role sw) (Some secret_ref) None
          (Some (error_text registration_error +:+
                 "; secret cleanup failed for created secret: " +:+ error_text cleanup_error))
    | Ok _ =>
        mkDeviceInitializationResult (sb_device_id sw) (sb_role sw) None None
          (Some (error_text registration_error))
    end).

Definition initialize_switch (q : InitializeUnderlaySiteRequest) (sw : SwitchBootstrapRequest)
    : BM DeviceInitializationResult :=
  secret ← st_try (site_secret (create_for_device (is_tenant_id q) (is_site_id q) (sb_device_id sw)
                                  (sb_credential sw)));
  match secret with
  | Err e => mret (mkDeviceInitializationResult (sb_device_id sw) (sb_role sw) None None
                     (Some (error_text e)))
  | Ok secret =>
      let secret_ref := sp_secret_ref secret in
      registered ← st_try (register (mkRegisterDeviceRequest (is_tenant_id q) (is_site_id q)
        (sb_device_id sw) (sb_management_ip sw) (sb_management_port sw) (sb_vendor_hint sw)
        (sb_model_hint sw) (sb_role sw) secret_ref (sb_host_key_policy sw) (is_adapter_endpoint q)));
      match registered with
      | Err e =>
          if cleanup_on_registration_failure secret
          then registration_failure_result_with_secret_cleanup sw secret_ref e
          else mret (mkDeviceInitializationResult (sb_device_id sw) (sb_role sw) (Some secret_ref)
                       None (Some (error_text e)))
      | Ok _ =>
          onboarding ← st_try (onboard_device (sb_device_id sw));
          s ← st_get;
          mret (mkDeviceInitializationResult (sb_device_id sw) (sb_role sw) (Some secret_ref)
            (match Inventory.get (sb_device_id sw) (site_inventory s) with
             | Ok managed => Some (lifecycle_state (md_info managed)) | Err _ => None end)
            (match onboarding with Err e => Some (error_text e) | Ok _ => None end))
      end
  end.

Definition initialize_site (q : InitializeUnderlaySiteRequest) : BM InitializeUnderlaySiteResponse :=
  _ ← st_lift (validate_switch_pair q);
  devices ← st_foldM (λ devices sw, result ← initialize_switch q sw; mret (devices ++ [result])) []
              (is_switches q);
  mret (mkInitializeUnderlaySiteResponse (is_request_id q) (is_tenant_id q) (is_site_id q)
          (summarize_status devices (is_allow_degraded q)) devices).

(** ** What initialization achieves *)

Lemma set_state_spec d st inv managed :
  inv !! d = Some managed →
  Inventory.set_state d st inv =
    Ok (<[d := mkManagedDevice (Inventory.with_lifecycle (md_info managed) st) (md_capability managed)]> inv).
Proof. intros Hd. unfold Inventory.set_state, Inventory.get. by rewrite Hd. Qed.
Lemma with_lifecycle_twice i st1 st2 :
  Inventory.with_lifecycle (Inventory.with_lifecycle i st1) st2 = Inventory.with_lifecycle i st2.
Proof. by destruct i. Qed.
Lemma lifecycle_with i st : lifecycle_state (Inventory.with_lifecycle i st) = st.
Proof. by destruct i. Qed.

(** The state a probed device is left in, and what is known of it. *)
Definition probed (x : UnderlayResult DeviceLifecycleState) (st : DeviceLifecycleState)
    (capability : option DeviceCapabilityProfile) (before : option DeviceCapabilityProfile) : Prop :=
  match x with
  | Ok st' => st' = st ∧ ∃ c, capability = Some c ∧ st = state_for_capability c
  | Err e => capability = before ∧ st = lifecycle_state_for_onboarding_error e
  end.

Lemma onboard_spec d managed s :
  site_inventory s !! d = Some managed → may_onboard (lifecycle_state (md_info managed)) = true →
  let '(x, s') := onboard_device d s in
  ∃ st capability, probed x st capability (md_capability managed) ∧
    site_secrets s' = site_secrets s ∧
    site_inventory s' = <[d := mkManagedDevice (Inventory.with_lifecycle (md_info managed) st)
                                 capability]> (site_inventory s).
Proof.
  intros Hd Hm. unfold onboard_device, onboarding_failed, mbind, ST_bind, st_get, st_lift, st_try,
    site_change, site_ask.
  rewrite (set_state_spec _ _ _ _ Hd). unfold Inventory.get at 1. rewrite Hd. simpl. rewrite Hm. simpl.
  set (probing := mkManagedDevice _ _). set (inv := <[d := probing]> (site_inventory s)).
  assert (inv !! d = Some probing) as Hp by apply lookup_insert_eq.
  assert (∀ st cap, <[d := mkManagedDevice (Inventory.with_lifecycle (md_info probing) st) cap]> inv =
    <[d := mkManagedDevice (Inventory.with_lifecycle (md_info managed) st) cap]> (site_inventory s)) as Hi.
  { intros st cap. subst inv probing. simpl. rewrite with_lifecycle_twice. apply insert_insert_eq. }
  destruct (pool_client env _ _) as [[]|e]; simpl.
  2:{ rewrite (set_state_spec _ _ _ _ Hp). simpl. eexists _, _. by rewrite <-Hi. }
  destruct (get_capabilities env _ _) as [c|e]; simpl.
  2:{ rewrite (set_state_spec _ _ _ _ Hp). simpl. eexists _, _. by rewrite <-Hi. }
  unfold Inventory.set_capability, Inventory.get. rewrite Hp. simpl.
  rewrite (set_state_spec _ _ _ (mkManagedDevice (md_info probing) (Some c))) by apply lookup_insert_eq.
  simpl. exists (state_for_capability c), (Some c). split_and!; [done|by exists c|done|].
  rewrite <-Hi. apply insert_insert_eq.
Qed.

(** What the result of a switch says of the site. *)
Definition initialized (q : InitializeUnderlaySiteRequest) (inv inv' : Inventory.t)
    (sw : SwitchBootstrapRequest) (res : DeviceInitializationResult) : Prop :=
  di_device_id res = sb_device_id sw ∧ di_role res = sb_role sw ∧
  match di_lifecycle_state res with
  | None => inv' !! sb_device_id sw = inv !! sb_device_id sw ∧ is_Some (di_error res)
  | Some st =>
      inv !! sb_device_id sw = None ∧
      ∃ managed, inv' !! sb_device_id sw = Some managed ∧
        lifecycle_state (md_info managed) = st ∧ info_role (md_info managed) = sb_role sw ∧
        info_tenant_id (md_info managed) = is_tenant_id q ∧
        info_site_id (md_info managed) = is_site_id q ∧
        di_secret_ref res = Some (info_secret_ref (md_info managed)) ∧
        match di_error res with
        | None => ∃ c, md_capability managed = Some c ∧ st = state_for_capability c
        | Some _ => md_capability managed = None ∧ st ∉ [Ready; Degraded]
        end
  end.

Lemma onboarding_error_state e : lifecycle_state_for_onboarding_error e ∉ [Ready; Degraded].
Proof.
  rewrite !not_elem_of_cons. unfold lifecycle_state_for_onboarding_error.
  repeat case_match; (split_and!; [done..|apply not_elem_of_nil]).
Qed.

Lemma register_spec rq s x s' :
  register rq s = (x, s') →
  match x with
  | Ok _ => site_inventory s !! rd_device_id rq = None ∧
      site_inventory s' = <[rd_device_id rq := mkManagedDevice (registered_info rq) None]> (site_inventory s) ∧
      site_secrets s' = site_secrets s
  | Err _ => s' = s
  end.
Proof.
  unfold register, mbind, ST_bind, st_lift, site_change.
  destruct (validate_register_device_request rq) as [[]|e]; [|by intros [= <- <-]].
  unfold Inventory.insert. simpl.
  destruct (site_inventory s !! rd_device_id rq) eqn:Hd; by intros [= <- <-].
Qed.

Lemma initialize_switch_spec q sw s :
  let '(x, s') := initialize_switch q sw s in
  ∃ res, x = Ok res ∧ initialized q (site_inventory s) (site_inventory s') sw res ∧
    ∀ d, d ≠ sb_device_id sw → site_inventory s' !! d = site_inventory s !! d.
Proof.
  unfold initialize_switch, mbind, ST_bind, st_try, site_secret.
  destruct (create_for_device _ _ _ _ _) as [[secret|e] k] eqn:Hk; simpl.
  2:{ eexists. split; [done|]. split; [|done]. split_and!; simpl; eauto. }
  set (rq := mkRegisterDeviceRequest _ _ _ _ _ _ _ _ _ _ _).
  destruct (register rq _) as [[r|e] s1] eqn:Hr; apply register_spec in Hr.
  - destruct Hr as (Hnew & Hinv & Hsec).
    pose proof (onboard_spec (sb_device_id sw) (mkManagedDevice (registered_info rq) None) s1) as Ho.
    destruct (onboard_device (sb_device_id sw) s1) as [x s2].
    destruct Ho as (st & cap & Hp & _ & Hi); [by rewrite Hinv; apply lookup_insert_eq|done|].
    assert (site_inventory s2 = <[sb_device_id sw := mkManagedDevice
      (Inventory.with_lifecycle (registered_info rq) st) cap]> (site_inventory s)) as Hi2.
    { rewrite Hi, Hinv. apply insert_insert_eq. }
    assert (site_inventory s2 !! sb_device_id sw = Some (mkManagedDevice
      (Inventory.with_lifecycle (registered_info rq) st) cap)) as Hl
      by (rewrite Hi2; apply lookup_insert_eq).
    simpl. unfold Inventory.get. rewrite Hl. simpl.
    eexists. split; [done|]. split; [|intros d Hd; rewrite Hi2; by apply lookup_insert_ne].
    split_and!; [done..|]. simpl. split; [done|]. eexists. split; [exact Hl|]. simpl.
    split_and!; [done..|]. destruct x as [st'|e]; destruct Hp as [? Hp]; [done|].
    rewrite Hp. split; [done|apply onboarding_error_state].
  - subst s1. destruct (cleanup_on_registration_failure secret).
    + unfold registration_failure_result_with_secret_cleanup, mbind, ST_bind, st_try, site_secret.
      destruct (delete_secret _ _) as [y k2]. eexists. split; [done|]. split; [|done].
      destruct y; (split_and!; simpl; eauto).
    + eexists. split; [done|]. split; [|done]. split_and!; simpl; eauto.
Qed.

Lemma validate_switch_pair_two q :
  validate_switch_pair q = Ok tt →
  ∃ a b, is_switches q = [a; b] ∧ sb_device_id a ≠ sb_device_id b.
Proof.
  unfold validate_switch_pair. intros H. repeat (apply bind_Ok in H as ([] & _ & H)).
  destruct (is_switches q) as [|a [|b [|]]]; try done.
  apply bind_Ok in H as ([] & _ & H). apply bind_Ok in H as ([] & Hne & _).
  exists a, b. split; [done|]. intros Heq. by rewrite bool_decide_true in Hne.
Qed.

Lemma summarize_ready devices allow :
  summarize_status devices allow = SiteReady →
  Forall (λ d, di_lifecycle_state d = Some Ready) devices.
Proof.
  unfold summarize_status. destruct (existsb _ _); [done|].
  destruct (forallb _ _) eqn:Hf; [|by destruct (_ && _)]. intros _.
  apply Is_true_true_2, forallb_True in Hf. eapply Forall_impl; [exact Hf|].
  intros d. apply bool_decide_unpack.
Qed.

Lemma ready_device q inv inv' sw res :
  initialized q inv inv' sw res → di_lifecycle_state res = Some Ready →
  ∃ managed c, inv' !! sb_device_id sw = Some managed ∧
    lifecycle_state (md_info managed) = Ready ∧ md_capability managed = Some c ∧
    is_supported (recommended_strategy c) = true ∧ is_degraded (recommended_strategy c) = false.
Proof.
  intros (_ & _ & Hi) Hst. rewrite Hst in Hi.
  destruct Hi as (_ & managed & Hm & Hl & _ & _ & _ & _ & He).
  destruct (di_error res); [destruct He; set_solver|]. destruct He as (c & Hc & Hs).
  exists managed, c. split_and!; [done..| |]; revert Hs; unfold state_for_capability;
    by repeat case_match.
Qed.

(** C23. Initializing a site does what its answer says: a request that is refused changes
    nothing; otherwise there is one result per switch, in order; a device with a lifecycle
    state was unknown and is now registered for this tenant and site in that state, with its
    secret, and with its capability exactly when the result carries no error; a device
    without one left the inventory as it was; no other device changes; and the site is
    called ready only when both devices were probed and recommend a supported, not degraded
    strategy. *)
Theorem initialize_site_sound q s :
  match initialize_site q s with
  | (Err _, s') => s' = s
  | (Ok resp, s') =>
      Forall2 (initialized q (site_inventory s) (site_inventory s')) (is_switches q)
        (isr_devices resp) ∧
      (∀ d, d ∉ (sb_device_id <$> is_switches q) → site_inventory s' !! d = site_inventory s !! d) ∧
      (isr_status resp = SiteReady →
       Forall (λ sw, ∃ managed c, site_inventory s' !! sb_device_id sw = Some managed ∧
         lifecycle_state (md_info managed) = Ready ∧ md_capability managed = Some c ∧
         is_supported (recommended_strategy c) = true ∧
         is_degraded (recommended_strategy c) = false) (is_switches q))
  end.
Proof.
  unfold initialize_site, mbind, ST_bind, st_lift.
  destruct (validate_switch_pair q) as [[]|e] eqn:Hv; [|done].
  apply validate_switch_pair_two in Hv as (a & b & Hsw & Hne). rewrite Hsw. simpl.
  unfold mbind, ST_bind, mret, ST_ret.
  pose proof (initialize_switch_spec q a s) as Ha.
  destruct (initialize_switch q a s) as [xa s1]. destruct Ha as (ra & -> & Hra & Hoa).
  pose proof (initialize_switch_spec q b s1) as Hb.
  destruct (initialize_switch q b s1) as [xb s2]. destruct Hb as (rb & -> & Hrb & Hob). simpl.
  assert (initialized q (site_inventory s) (site_inventory s2) a ra) as Ha2.
  { revert Hra. unfold initialized. by rewrite (Hob (sb_device_id a)) by done. }
  assert (initialized q (site_inventory s) (site_inventory s2) b rb) as Hb2.
  { revert Hrb. unfold initialized. by rewrite (Hoa (sb_device_id b)) by done. }
  split_and!.
  - constructor; [done|]. constructor; [done|]. constructor.
  - intros d Hd. rewrite Hob, Hoa by set_solver. done.
  - intros Hst. apply summarize_ready in Hst. rewrite !Forall_cons in Hst.
    destruct Hst as (Hsa & Hsb & _). rewrite !Forall_cons. eauto using ready_device.
Qed.
End site.

(** Initializing a switch whose device is registered already, with a fresh credential,
    overwrites the credential the device uses and then deletes it. *)
Lemma reinitialize_loses_secret env parse q sw username password (s : Site (K:=InMemorySecrets.Store)) :
  sb_credential sw = InputPassword username password →
  str_is_empty (trim username) = false → str_is_empty password = false →
  is_Some (site_inventory s !! sb_device_id sw) →
  let '(_, s') := initialize_switch env parse q sw s in
  site_inventory s' = site_inventory s ∧
  InMemorySecrets.get (device_secret_ref (is_tenant_id q) (is_site_id q) (sb_device_id sw))
    (site_secrets s') = None.
Proof.
  intros Hc Hu Hp [managed Hm]. unfold initialize_switch, site_secret, mbind, ST_bind, st_try. simpl.
  rewrite Hc. unfold InMemorySecrets.create_for_device, validate_username, mbind, ST_bind, st_lift.
  rewrite Hu, Hp. simpl. set (rq := mkRegisterDeviceRequest _ _ _ _ _ _ _ _ _ _ _).
  destruct (register parse rq _) as [[r|e] s1] eqn:Hr; apply register_spec in Hr; simpl in Hr.
  { destruct Hr as [Hnew _]. congruence. }
  subst s1. unfold registration_failure_result_with_secret_cleanup, site_secret, mbind, ST_bind,
    st_try. simpl. split; [done|]. apply lookup_delete_eq.
Qed.

Module SiteSample.
Definition switch (id : string) (role : DeviceRole) (ip : string) : SwitchBootstrapRequest :=
  mkSwitchBootstrapRequest (mkDeviceId id) role ip 830 None None TrustOnFirstUse
    (InputPassword "netconf" "secret").
Definition request : InitializeUnderlaySiteRequest :=
  mkInitializeUnderlaySiteRequest "req-1" "t1" "s1" "http://adapter"
    [switch "leaf-a" LeafA "10.0.0.1"; switch "leaf-b" LeafB "10.0.0.2"] false.
Definition profile : DeviceCapabilityProfile :=
  mkDeviceCapabilityProfile H3c None None [] true true true true true false false [Netconf] None
    ConfirmedCommit [] [].
Definition env : Env :=
  {| now_unix_secs n := N.of_nat n; new_tx_id n := "tx"; acquire_endpoint _ _ := Ok tt;
     acquire_many _ _ := Ok tt; pool_client _ _ := Ok tt;
     get_current_state_for_desired _ _ _ := Err (Internal "unused");
     get_capabilities _ _ := Ok profile; adapter _ _ := Err (Internal "unused") |}.
Definition empty : Site (K:=InMemorySecrets.Store) := mkSite ∅ ∅ 0.
Definition initialize := initialize_site env (λ _, Ok tt) request.
End SiteSample.

Example site_sample_ready :
  let '(x, s) := SiteSample.initialize SiteSample.empty in
  (isr_status <$> x) = Ok SiteReady ∧ size (site_secrets s) = 2%nat ∧
  size (site_secrets (SiteSample.initialize s).2) = 0%nat.
Proof. vm_compute. auto. Qed.
