(* ===== verification/AdminOps.v ===== *)
(** * Authorization and operator commands (src/authz.rs, src/api/admin_ops.rs)

    The commands of an operator on transactions: list those that block their devices,
    unlock a device, and force-resolve a transaction in doubt.  A policy decides who may
    do what; a force-resolve is written to the product audit log before the journal is
    changed. *)
From stdpp Require Import finite.
From S2P Require Export Telemetry RecoveryCorrect.
Local Open Scope N_scope.

(** ** src/authz.rs *)

Inductive AdminAction :=
  | ListOperationSummaries | ListAlerts | ListInDoubtTransactions | AcknowledgeAlert
  | ResolveAlert | SuppressAlert | ExpireAlert | ForceResolveTransaction | ForceUnlockSession
  | ChangeRetentionPolicy | ChangeDaemonSchedule | GetProductStatusBundle
  | GetWorkerReloadStatus | ExportAuditHistory.
#[export] Instance AdminAction_eq_dec : EqDecision AdminAction.
Proof. solve_decision. Defined.

Definition admin_actions : list AdminAction :=
  [ListOperationSummaries; ListAlerts; ListInDoubtTransactions; AcknowledgeAlert; ResolveAlert;
   SuppressAlert; ExpireAlert; ForceResolveTransaction; ForceUnlockSession; ChangeRetentionPolicy;
   ChangeDaemonSchedule; GetProductStatusBundle; GetWorkerReloadStatus; ExportAuditHistory].
#[export] Program Instance AdminAction_finite : Finite AdminAction := {| enum := admin_actions |}.
Next Obligation. by apply (bool_decide_unpack _). Qed.
Next Obligation. intros []; by apply (bool_decide_unpack _). Qed.

Definition all_actions : gset AdminAction := list_to_set admin_actions.

(** [{:?}] *)
Definition debug_AdminAction (a : AdminAction) : string :=
  match a with
  | ListOperationSummaries => "ListOperationSummaries" | ListAlerts => "ListAlerts"
  | ListInDoubtTransactions => "ListInDoubtTransactions"
  | AcknowledgeAlert => "AcknowledgeAlert" | ResolveAlert => "ResolveAlert"
  | SuppressAlert => "SuppressAlert" | ExpireAlert => "ExpireAlert"
  | ForceResolveTransaction => "ForceResolveTransaction"
  | ForceUnlockSession => "ForceUnlockSession" | ChangeRetentionPolicy => "ChangeRetentionPolicy"
  | ChangeDaemonSchedule => "ChangeDaemonSchedule"
  | GetProductStatusBundle => "GetProductStatusBundle"
  | GetWorkerReloadStatus => "GetWorkerReloadStatus" | ExportAuditHistory => "ExportAuditHistory"
  end.

Record AuthorizationRequest := mkAuthorizationRequest {
  az_request_id : string;
  az_trace_id : string;
  az_operator_id : string;
  az_action : AdminAction;
}.
Record AuthorizationDecision := mkAuthorizationDecision {
  ad_operator_id : string;
  ad_action : AdminAction;
}.
(** [dyn AuthorizationPolicy] *)
Class AuthorizationPolicy (Z : Type) := {
  authorize : Z → AuthorizationRequest → UnderlayResult AuthorizationDecision;
}.

Module PermitAll.
Inductive Policy := mkPolicy.
Definition authorize (_ : Policy) (request : AuthorizationRequest)
    : UnderlayResult AuthorizationDecision :=
  Ok (mkAuthorizationDecision (az_operator_id request) (az_action request)).
#[export] Instance policy : AuthorizationPolicy Policy := {| AdminOps.authorize := authorize |}.
End PermitAll.
#[export] Existing Instance PermitAll.policy.

Module StaticPolicy.
Record Policy := mkPolicy { operators : gmap string (gset AdminAction) }.
Definition new : Policy := mkPolicy ∅.
Definition with_operator (operator_id : string) (p : Policy) : Policy :=
  mkPolicy (<[operator_id := all_actions]> (operators p)).
Definition with_allowed_actions (operator_id : string) (actions : list AdminAction) (p : Policy)
    : Policy :=
  mkPolicy (<[operator_id := list_to_set actions]> (operators p)).
Definition authorize (p : Policy) (request : AuthorizationRequest)
    : UnderlayResult AuthorizationDecision :=
  match operators p !! az_operator_id request with
  | None => Err (AuthorizationDenied ("operator " +:+ az_operator_id request +:+
              " is not registered for local admin operations"))
  | Some allowed_actions =>
      if decide (az_action request ∈ allowed_actions)
      then Ok (mkAuthorizationDecision (az_operator_id request) (az_action request))
      else Err (AuthorizationDenied ("operator " +:+ az_operator_id request +:+
              " is not authorized for " +:+ debug_AdminAction (az_action request)))
  end.
#[export] Instance policy : AuthorizationPolicy Policy := {| AdminOps.authorize := authorize |}.

(** What an operator was granted last is what it may do. *)
Lemma authorize_granted p operator actions req tr action :
  is_ok (authorize (with_allowed_actions operator actions p)
           (mkAuthorizationRequest req tr operator action)) = true ↔ action ∈ actions.
Proof.
  unfold authorize, with_allowed_actions. simpl. rewrite lookup_insert_eq.
  case_decide as Ha; rewrite elem_of_list_to_set in Ha; simpl; by split.
Qed.
End StaticPolicy.
#[export] Existing Instance StaticPolicy.policy.

(** ** Requests and answers (src/api/force_resolve.rs, force_unlock.rs, transactions.rs) *)

Record ForceResolveTransactionRequest := mkForceResolveTransactionRequest {
  fr_request_id : string;
  fr_trace_id : option string;
  fr_tx_id : string;
  fr_operator : string;
  fr_reason : string;
  fr_break_glass_enabled : bool;
}.
Record ForceResolveTransactionResponse := mkForceResolveTransactionResponse {
  frr_tx_id : string;
  frr_previous_phase : TxPhase;
  frr_resolved_phase : TxPhase;
  frr_devices : list DeviceId;
  frr_resolved : bool;
  frr_warnings : list string;
}.
Record ForceUnlockRequest := mkForceUnlockRequest {
  fu_request_id : string;
  fu_trace_id : option string;
  fu_device_id : DeviceId;
  fu_lock_owner : string;
  fu_reason : string;
  fu_break_glass_enabled : bool;
}.
Record ForceUnlockResponse := mkForceUnlockResponse {
  fur_device_id : DeviceId;
  fur_unlocked : bool;
  fur_warnings : list string;
}.
Record InDoubtTransactionSummary := mkInDoubtTransactionSummary {
  it_tx_id : string;
  it_request_id : string;
  it_trace_id : string;
  it_phase : TxPhase;
  it_devices : list DeviceId;
  it_strategy : option TransactionStrategy;
  it_error_code : option string;
  it_error_message : option string;
  it_error_history : list TxJournalErrorEvent;
  it_created_at : N;
  it_updated_at : N;
}.

(** ** src/api/recovery_ops.rs *)

Definition in_doubt_summary_from_record (r : TxJournalRecord) : InDoubtTransactionSummary :=
  mkInDoubtTransactionSummary (tx_id r) (request_id r) (trace_id r) (phase r) (devices r)
    (strategy r) (error_code r) (error_message r) (error_history r) (created_at r)
    (updated_at r).

Definition validate_force_resolve_request (q : ForceResolveTransactionRequest)
    : UnderlayResult unit :=
  _ ← reject_if (str_is_empty (trim (fr_tx_id q))) (InvalidIntent "force resolve requires tx_id");
  _ ← reject_if (str_is_empty (trim (fr_operator q)))
        (InvalidIntent "force resolve requires operator");
  _ ← reject_if (str_is_empty (trim (fr_reason q))) (InvalidIntent "force resolve requires reason");
  reject_if (negb (fr_break_glass_enabled q))
    (AdapterOperation "FORCE_RESOLVE_BREAK_GLASS_REQUIRED"
       "break-glass must be enabled to force resolve an in-doubt transaction" false []).

(** ** src/api/admin_ops.rs *)

Definition product_audit_error (e : UnderlayError) : UnderlayError :=
  match e with
  | ProductAuditWriteFailed _ => e
  | other => ProductAuditWriteFailed (error_text other)
  end.

Definition tx_not_found (t : string) : UnderlayError :=
  AdapterOperation "TX_NOT_FOUND" ("transaction " +:+ t +:+ " was not found") false [].
Definition tx_not_in_doubt (r : TxJournalRecord) : UnderlayError :=
  AdapterOperation "TX_NOT_IN_DOUBT"
    ("transaction " +:+ tx_id r +:+ " is " +:+ debug_TxPhase (phase r) +:+ ", not InDoubt") false [].

Section admin.
Context {J S P Z : Type} `{!TxJournalStore J} `{!ShadowStateStore S}.
Context `{!ProductAuditStore P} `{!AuthorizationPolicy Z}.
Context (env : Env) (inv : Inventory.t) (policy : Z).
(** The call of the adapter that breaks a device's lock. *)
Context (adapter_force_unlock :
  nat → DeviceInfo → RequestContext → string → string → bool → UnderlayResult AdapterOutcome).

Notation W := (World (J:=J) (S:=S)).
Notation M := (ST UnderlayError W).
Notation AM := (ST UnderlayError (W * P)).

Definition on_device (device_id : option DeviceId) (r : TxJournalRecord) : bool :=
  match device_id with Some d => bool_decide (d ∈ devices r) | None => true end.
Definition list_in_doubt_transactions (device_id : option DeviceId)
    : M (list InDoubtTransactionSummary) :=
  recoverable ← journal_scan;
  mret (sort_by_key it_tx_id (in_doubt_summary_from_record <$>
    filter (λ r, on_device device_id r = true)
      (filter (λ r, requires_recovery (phase r) = true) recoverable))).

Definition force_unlock (q : ForceUnlockRequest) : M ForceUnlockResponse :=
  managed ← st_lift (Inventory.get (fu_device_id q) inv);
  _ ← ask_result (λ n, pool_client env n (adapter_endpoint (md_info managed)));
  let context := mkRequestContext (fu_request_id q) "" (default (fu_request_id q) (fu_trace_id q))
                   (info_tenant_id (md_info managed)) (info_site_id (md_info managed)) in
  outcome ← ask_result (λ n, adapter_force_unlock n (md_info managed) context (fu_lock_owner q)
                               (fu_reason q) (fu_break_glass_enabled q));
  mret (mkForceUnlockResponse (fu_device_id q)
          (match out_status outcome with OpCommitted => true | _ => false end)
          (out_warnings outcome)).

Definition on_world {A} (m : M A) : AM A := λ '(w, p), let '(x, w') := m w in (x, (w', p)).
Definition on_audit {A} (m : ST UnderlayError P A) : AM A := λ '(w, p),
  let '(x, p') := m p in (x, (w, p')).

Definition force_resolve_transaction (q : ForceResolveTransactionRequest)
    : AM ForceResolveTransactionResponse :=
  _ ← st_lift (validate_force_resolve_request q);
  let trace := default (fr_request_id q) (fr_trace_id q) in
  candidate ← on_world (journal_read (fr_tx_id q));
  candidate ← st_lift (ok_or candidate (tx_not_found (fr_tx_id q)));
  _ ← on_world (ask_result (λ n, acquire_many env n (devices candidate)));
  record ← on_world (journal_read (fr_tx_id q));
  record ← st_lift (ok_or record (tx_not_found (fr_tx_id q)));
  _ ← st_lift (reject_if (bool_decide (phase record ≠ InDoubt)) (tx_not_in_doubt record));
  authorization ← st_lift (authorize policy (mkAuthorizationRequest (fr_request_id q) trace
                                               (fr_operator q) ForceResolveTransaction));
  t ← on_world (now env);
  _ ← on_audit (λ p, let '(x, p') := product_append
        (force_resolve_requested t (fr_request_id q) trace (tx_id record)
           (ad_operator_id authorization) (fr_reason q)) p in
      (map_err product_audit_error x, p'));
  let previous_phase := phase record in
  t ← on_world (now env);
  let resolved := with_manual_resolution t record (fr_operator q) (fr_reason q) (fr_request_id q)
                    trace in
  t ← on_world (now env);
  resolved ← st_lift (transition_phase t resolved ForceResolved);
  _ ← on_world (journal_write resolved);
  _ ← on_world (emit_event (transaction_force_resolved (fr_request_id q) trace (tx_id record)
                  previous_phase (devices record) (fr_operator q) (fr_reason q)));
  mret (mkForceResolveTransactionResponse (tx_id record) previous_phase ForceResolved
          (devices record) true []).

(** ** What a force-resolve does *)

Context (ok : J → Prop) (view : J → gmap string TxJournalRecord) `{!TxJournalLaws J ok view}.
Context (holds : P → list ProductAuditRecord → Prop) `{!ProductAuditLaws P holds}.

(** The record that replaces one in doubt. *)
Definition resolves (q : ForceResolveTransactionRequest) (r r' : TxJournalRecord) : Prop :=
  ∃ t1 t2, r' = with_phase t2
    (with_manual_resolution t1 r (fr_operator q) (fr_reason q) (fr_request_id q)
       (default (fr_request_id q) (fr_trace_id q))) ForceResolved.

Lemma resolves_key q r r' :
  resolves q r r' → tx_id r' = tx_id r ∧ phase r' = ForceResolved ∧ devices r' = devices r.
Proof. intros (t1 & t2 & ->). by destruct r. Qed.

(** What the journal holds may have changed only with a permitted, audited command. *)
Definition audited_resolution (q : ForceResolveTransactionRequest)
    (rs : list ProductAuditRecord) (w w' : W) (p' : P) : Prop :=
  ∃ r r' decision t,
    view (w_journal w) !! fr_tx_id q = Some r ∧ phase r = InDoubt ∧
    authorize policy (mkAuthorizationRequest (fr_request_id q)
      (default (fr_request_id q) (fr_trace_id q)) (fr_operator q) ForceResolveTransaction)
      = Ok decision ∧
    holds p' (rs ++ [force_resolve_requested t (fr_request_id q)
      (default (fr_request_id q) (fr_trace_id q)) (tx_id r) (ad_operator_id decision)
      (fr_reason q)]) ∧
    resolves q r r' ∧ view (w_journal w') = <[tx_id r := r']> (view (w_journal w)).

(** Only the journal's own bookkeeping and the clock moved. *)
Definition looked (w w' : W) : Prop :=
  (ok (w_journal w) → ok (w_journal w') ∧ view (w_journal w') = view (w_journal w)) ∧
  w_shadow w' = w_shadow w ∧ w_observed w' = w_observed w ∧ w_events w' = w_events w ∧
  w_trace w' = w_trace w.
#[local] Instance looked_preorder : PreOrder looked.
Proof. split; [by intros w|]. unfold looked. intros w1 w2 w3. naive_solver congruence. Qed.

Lemma journal_read_looked t w x w' :
  journal_read t w = (x, w') →
  looked w w' ∧ (ok (w_journal w) → ∀ v, x = Ok v → v = view (w_journal w) !! t).
Proof.
  unfold journal_read. destruct (journal_get t (w_journal w)) as [y j] eqn:Hg. intros [= <- <-].
  split.
  - split; [|done]. intros Hok. by destruct (journal_get_law t _ _ _ Hok Hg) as (? & ? & _).
  - intros Hok v ->. destruct (journal_get_law t _ _ _ Hok Hg) as (_ & _ & Hv). by apply Hv.
Qed.

(** No device was called: what was done is in the journal. *)
Definition wrote (w w' : W) : Prop :=
  w_shadow w' = w_shadow w ∧ w_observed w' = w_observed w ∧
  ∃ t, w_trace w' = w_trace w ++ t ∧ Forall (λ a, ∃ r stored, a = AJournal r stored) t.
Lemma looked_wrote w w' : looked w w' → wrote w w'.
Proof.
  intros (_ & Hs & Ho & _ & Ht). split_and!; [done..|]. exists []. by rewrite app_nil_r.
Qed.
Lemma journal_write_wrote r w x w' :
  ok (w_journal w) → journal_write r w = (x, w') →
  ok (w_journal w') ∧ wrote w w' ∧ w_events w' = w_events w ∧
  (view (w_journal w') = <[tx_id r := r]> (view (w_journal w)) ∨
   is_ok x = false ∧ view (w_journal w') = view (w_journal w)).
Proof.
  unfold journal_write. destruct (journal_put r (w_journal w)) as [y j] eqn:Hp.
  intros Hok [= <- <-]. simpl. destruct (journal_put_law r _ _ _ Hok Hp) as [? ?].
  split; [done|]. split; [|done]. split_and!; [done..|].
  exists [AJournal r (is_ok y)]. split; [done|]. apply Forall_singleton. eauto.
Qed.

#[local] Instance wrote_preorder : PreOrder wrote.
Proof.
  split; [intros w; by apply looked_wrote|]. intros w1 w2 w3 (? & ? & t1 & Ht1 & ?) (? & ? & t2 & Ht2 & ?).
  split_and!; [congruence..|]. exists (t1 ++ t2). rewrite Ht2, Ht1, app_assoc.
  split; [done|by apply Forall_app].
Qed.
Lemma looked_leaves q rs w w' p' :
  ok (w_journal w) → looked w w' →
  ok (w_journal w') ∧ wrote w w' ∧
  (view (w_journal w') = view (w_journal w) ∨ audited_resolution q rs w w' p').
Proof.
  intros Hok L. pose proof L as [Hj _]. destruct (Hj Hok).
  split_and!; [done|by apply looked_wrote..|by left].
Qed.
Lemma resolution_allowed t1 t2 r operator reason req tr :
  phase r = InDoubt →
  transition_phase t2 (with_manual_resolution t1 r operator reason req tr) ForceResolved =
    Ok (with_phase t2 (with_manual_resolution t1 r operator reason req tr) ForceResolved).
Proof. destruct r. simpl. by intros ->. Qed.

(** C21. Force-resolving changes the journal only on the books: whatever happens, either the
    journal holds what it held, or the transaction was in doubt, the policy permits its
    operator the command, the product audit log ends in the record of the command, and the
    transaction's record is replaced by the resolved one.  An answer [Ok] means the latter,
    the command was complete with break-glass enabled, and an event was emitted; no device
    is called and the shadow store stays as it is. *)
Theorem force_resolve_audited q w p rs :
  ok (w_journal w) → holds p rs →
  let '(x, (w', p')) := force_resolve_transaction q (w, p) in
  ok (w_journal w') ∧ wrote w w' ∧
  match x with
  | Ok resp =>
      validate_force_resolve_request q = Ok tt ∧ audited_resolution q rs w w' p' ∧
      (∃ e, w_events w' = w_events w ++ [e] ∧ ue_kind e = UnderlayTransactionForceResolved ∧
            ue_tx_id e = Some (frr_tx_id resp)) ∧
      frr_resolved resp = true ∧ frr_previous_phase resp = InDoubt
  | Err _ =>
      view (w_journal w') = view (w_journal w) ∨ audited_resolution q rs w w' p'
  end.
Proof.
  intros Hok Hh. unfold force_resolve_transaction, mbind, ST_bind, st_lift, on_world, on_audit.
  destruct (validate_force_resolve_request q) as [[]|e] eqn:Hv; [|by apply looked_leaves].
  destruct (journal_read (fr_tx_id q) w) as [x1 w1] eqn:H1.
  apply journal_read_looked in H1 as [L1 _].
  destruct x1 as [[candidate|]|e]; simpl; [|by apply looked_leaves..].
  set (w2 := tick w1). assert (looked w1 w2) as L2 by done.
  destruct (acquire_many env _ _) as [[]|e]; [|apply looked_leaves; [done|by trans w1]].
  destruct (journal_read (fr_tx_id q) w2) as [x3 w3] eqn:H3.
  apply journal_read_looked in H3 as [L3 Hr].
  assert (looked w w3) as L by (trans w1; [done|]; by trans w2). clear L3.
  destruct x3 as [[record|]|e]; simpl; [|by apply looked_leaves..].
  assert (looked w w2) as [Hj2 _] by by trans w1.
  destruct (Hj2 Hok) as [Hok2 Hv2]. specialize (Hr Hok2 _ eq_refl). rewrite Hv2 in Hr.
  case_bool_decide as Hp; simpl; [by apply looked_leaves|].
  destruct (authorize _ _) as [decision|e] eqn:Ha; [|by apply looked_leaves].
  destruct (product_append _ p) as [[[]|e] p'] eqn:Hap; simpl.
  2:{ apply (looked_leaves q rs w (tick w3)); [done|by trans w3]. }
  apply (product_append_law _ _ rs) in Hap as Hh'; [|done].
  rewrite resolution_allowed by done. simpl.
  set (r' := with_phase _ _ _). set (w4 := tick (tick (tick w3))).
  assert (looked w w4) as L4 by by trans w3. destruct L4 as [Hj4 L4]. destruct (Hj4 Hok) as [Hok4 Hv4].
  assert (resolves q record r') as Hres by by eexists _, _.
  destruct (resolves_key _ _ _ Hres) as [Hk _].
  destruct (journal_write r' w4) as [x5 w5] eqn:H5.
  apply journal_write_wrote in H5 as (Hok5 & Hw5 & He5 & Hview); [|done]. rewrite Hk, Hv4 in Hview.
  assert (wrote w w5) as Hw. { trans w4; [by apply looked_wrote|done]. }
  assert (view (w_journal w5) = <[tx_id record := r']> (view (w_journal w)) →
          audited_resolution q rs w w5 p') as Haud.
  { intros Hv5. exists record, r', decision. eexists. done. }
  destruct x5 as [[]|e]; simpl.
  - destruct Hview as [Hv5|[? _]]; [|done]. split; [exact Hok5|]. split; [exact Hw|]. split; [done|].
    split; [exact (Haud Hv5)|]. split; [|done]. eexists. split.
    + simpl. rewrite He5. f_equal. apply L4.
    + done.
  - split; [exact Hok5|]. split; [exact Hw|]. destruct Hview as [Hv5|[_ Hv5]]; auto.
Qed.
End admin.

(** The operator's list and the guard of an apply agree: a device has nothing on the list
    exactly when no unfinished transaction blocks it. *)
Lemma nothing_listed_iff_unblocked {J S} `{!TxJournalStore J} `{!ShadowStateStore S}
    (d : DeviceId) (w : World (J:=J) (S:=S)) l w' :
  list_in_doubt_transactions (Some d) w = (Ok l, w') →
  l = [] ↔ (ensure_no_in_doubt_for_devices [d] w).1 = Ok tt.
Proof.
  unfold list_in_doubt_transactions, ensure_no_in_doubt_for_devices, mbind, ST_bind.
  destruct (journal_scan w) as [[recoverable|e] w1]; [|done]. intros [= <- _].
  unfold in_doubt_records_for_devices.
  set (blocking := filter _ (filter _ _)). set (listed := filter _ (filter _ _)).
  assert (listed = blocking) as ->.
  { subst listed blocking. apply list_filter_iff. intros r. simpl. rewrite bool_decide_eq_true, existsb_exists. unfold bs_collect.
    setoid_rewrite bool_decide_eq_true. setoid_rewrite <-list_elem_of_In. set_solver. }
  destruct blocking as [|r rs] eqn:Hb; [by split|]. split.
  - intros Hnil. pose proof (sort_by_key_perm it_tx_id (in_doubt_summary_from_record <$> r :: rs)) as Hp.
    rewrite Hnil in Hp. by apply Permutation_nil_cons in Hp.
  - by case_match.
Qed.

Module AdminSample.
Definition stuck : TxJournalRecord :=
  with_phase 7 (started 5 (mkTxContext "tx-0" "req-0" "trace-0") [ApplySample.device]) InDoubt.
Definition world := ApplySample.world [stuck].
Definition env : Env := ApplySample.env_of ApplySample.obey.
Definition policy : StaticPolicy.Policy :=
  StaticPolicy.with_allowed_actions "alice" [ForceResolveTransaction] StaticPolicy.new.
Definition command (operator : string) : ForceResolveTransactionRequest :=
  mkForceResolveTransactionRequest "req-1" None "tx-0" operator "checked on the console" true.
Definition run (operator : string) :=
  force_resolve_transaction env policy (command operator)
    (world, InMemoryProductAudit.mkStore []).
End AdminSample.

Example admin_sample_denied :
  is_ok (AdminSample.run "bob").1 = false ∧
  InMemoryProductAudit.records (AdminSample.run "bob").2.2 = [].
Proof. vm_compute. auto. Qed.

Lemma force_resolve_audited_witness :
  ∃ resp w' p', AdminSample.run "alice" = (Ok resp, (w', p')) ∧
    audited_resolution AdminSample.policy InMemoryJournal.records
      (λ s rs, InMemoryProductAudit.records s = rs) (AdminSample.command "alice") []
      AdminSample.world w' p'.
Proof.
  pose proof (force_resolve_audited (TxJournalLaws0 := InMemoryJournal.laws) AdminSample.env AdminSample.policy (λ _, True)
    InMemoryJournal.records (λ s rs, InMemoryProductAudit.records s = rs)
    (AdminSample.command "alice") AdminSample.world (InMemoryProductAudit.mkStore []) []
    I eq_refl) as H.
  change (force_resolve_transaction _ _ _ _) with (AdminSample.run "alice") in H.
  assert (is_ok (AdminSample.run "alice").1 = true) as Hrun by (vm_compute; reflexivity).
  destruct (AdminSample.run "alice") as [[resp|e] [w' p']]; [|discriminate Hrun].
  exists resp, w', p'. split; [reflexivity|apply H].
Defined.
