(* ===== verification/Ha.v ===== *)
(** * The active-passive lease (src/ha.rs)

    Of several processes that share a directory, the one whose token is in the lease file
    is active.  The holder rewrites the file in the background; a process that finds the
    file stale removes it and creates its own.  The operations run on the directory of
    [FileSystem], with its faults; [now_unix_secs()] is read at the directory's call count,
    which only grows. *)
From S2P Require Export JsonLines.
Local Open Scope N_scope.

Definition DEFAULT_ACTIVE_LEASE_TTL_SECS : N := 30.

Record ActiveLeaseRecord := mkActiveLeaseRecord {
  al_owner_id : string;
  al_token : string;
  al_acquired_at : N;
  al_updated_at : N;
}.
#[export] Instance ActiveLeaseRecord_eq_dec : EqDecision ActiveLeaseRecord.
Proof. solve_decision. Defined.

Record ActiveLeaseConfig := mkActiveLeaseConfig {
  lc_path : string;
  lc_owner_id : string;
  lc_ttl_secs : N;
  lc_heartbeat_interval_secs : N;
}.
(** [ActiveLeaseGuard] without its thread, whose body is [refresh_lease_record]. *)
Record ActiveLeaseGuard := mkActiveLeaseGuard {
  lg_path : string;
  lg_owner_id : string;
  lg_token : string;
  lg_acquired_at : N;
  lg_ttl_secs : N;
}.

Definition heartbeat_interval_for_ttl (ttl_secs : N) : N := N.max (ttl_secs / 3) 1.

Definition new_lease_config (path owner_id : string) : ActiveLeaseConfig :=
  mkActiveLeaseConfig path owner_id DEFAULT_ACTIVE_LEASE_TTL_SECS
    (heartbeat_interval_for_ttl DEFAULT_ACTIVE_LEASE_TTL_SECS).
Definition with_ttl_secs (ttl_secs : N) (c : ActiveLeaseConfig) : ActiveLeaseConfig :=
  mkActiveLeaseConfig (lc_path c) (lc_owner_id c) ttl_secs (heartbeat_interval_for_ttl ttl_secs).
Definition with_heartbeat_interval_secs (secs : N) (c : ActiveLeaseConfig) : ActiveLeaseConfig :=
  mkActiveLeaseConfig (lc_path c) (lc_owner_id c) (lc_ttl_secs c) secs.

Definition lease_config_validate (c : ActiveLeaseConfig) : UnderlayResult unit :=
  _ ← reject_if (str_is_empty (lc_path c))
        (InvalidIntent "active-passive lease path must not be empty");
  _ ← reject_if (str_is_empty (trim (lc_owner_id c)))
        (InvalidIntent "active-passive lease owner_id must not be empty");
  _ ← reject_if (lc_ttl_secs c =? 0)
        (InvalidIntent "active-passive lease ttl_secs must be greater than zero");
  _ ← reject_if (lc_heartbeat_interval_secs c =? 0)
        (InvalidIntent "active-passive lease heartbeat_interval_secs must be greater than zero");
  reject_if (lc_ttl_secs c <? lc_heartbeat_interval_secs c)
    (InvalidIntent "active-passive lease heartbeat_interval_secs must not exceed ttl_secs").

Lemma with_ttl_valid path owner ttl :
  0 < ttl → path ≠ "" → str_is_empty (trim owner) = false →
  lease_config_validate (with_ttl_secs ttl (new_lease_config path owner)) = Ok tt.
Proof.
  intros Ht Hp Ho. unfold lease_config_validate, with_ttl_secs, heartbeat_interval_for_ttl. simpl.
  rewrite Ho. apply str_is_empty_false in Hp as ->. simpl.
  pose proof (N.Div0.div_le_upper_bound ttl 3 ttl).
  destruct (N.eqb_spec ttl 0), (N.eqb_spec (N.max (ttl / 3) 1) 0); [lia..|]. simpl.
  destruct (N.ltb_spec ttl (N.max (ttl / 3) 1)); [lia|done].
Qed.

(** [std::io::Error] as far as its kind is looked at. *)
Inductive IoError := EAlreadyExists (text : string) | EOther (text : string).
Definition io_text (e : IoError) : string := match e with EAlreadyExists t | EOther t => t end.

Definition active_lease_io_error (e : string) : UnderlayError :=
  Internal ("active-passive lease io error: " +:+ e).
Definition active_lease_error (code message : string) (retryable : bool) : UnderlayError :=
  AdapterOperation code message retryable [mkAdapterErrorDetail code message].

Section lease.
Context (o : FsOracle) (codec : Codec ActiveLeaseRecord).
(** The clock, fresh tokens, and whether a thread can be spawned. *)
Context (now_unix_secs : nat → N) (new_token : nat → string) (spawn : nat → result string unit).

Notation LM := (ST UnderlayError Fs).

(** [OpenOptions::create_new] with the kind of its error. *)
Definition open_create_new (name : string) : ST IoError Fs unit := λ s,
  match io_fault o (fs_calls s) with
  | Some e => (Err (EOther e), bump s)
  | None =>
      match fs_files s !! name with
      | Some _ => (Err (EAlreadyExists "File exists (os error 17)"), bump s)
      | None => (Ok tt, bump (set_files (<[name := ""]> (fs_files s)) s))
      end
  end.
Definition other_io {A} (m : ST string Fs A) : ST IoError Fs A := λ s,
  let '(x, s') := m s in (map_err EOther x, s').

Definition lease_io {A} (m : ST IoError Fs A) : LM A := λ s,
  let '(x, s') := m s in (map_err (active_lease_io_error ∘ io_text) x, s').

Definition create_lease_file (path : string) (record : ActiveLeaseRecord) : ST IoError Fs unit :=
  payload ← st_lift (map_err EOther (encode codec record));
  _ ← open_create_new path;
  _ ← other_io (append_all o path payload);
  other_io (append_all o path (of_bytes [newline])).

Definition write_lease_record (path : string) (record : ActiveLeaseRecord) : LM unit :=
  payload ← st_lift (map_err (λ e, Internal ("serialize active lease: " +:+ e)) (encode codec record));
  atomic_write o path payload active_lease_io_error.

Definition read_lease_record (path : string) : LM ActiveLeaseRecord :=
  payload ← map_io active_lease_io_error (read_file o path);
  st_lift (map_err (λ e, Internal ("parse active-passive lease " +:+ debug_str path +:+ ": " +:+ e))
             (decode codec payload)).

Definition create_parent_dir : LM unit := map_io active_lease_io_error (create_dir_all o).

Definition remove_stale_lease (path : string) : LM unit := λ s,
  if has_file path s then map_io active_lease_io_error (remove_file o path) s
  else match io_fault o (fs_calls s) with
       | Some e => (Err (active_lease_io_error e), bump s)
       | None => (Ok tt, bump s)
       end.

Definition release_lease_if_current (path token : string) : LM unit :=
  read ← st_try (read_lease_record path);
  match read with
  | Ok record =>
      if decide (al_token record = token)
      then _ ← st_try (map_io active_lease_io_error (remove_file o path)); mret tt
      else mret tt
  | Err _ => mret tt
  end.

(** The clock is read when this is called, at [s]. *)
Definition lease_is_stale (record : ActiveLeaseRecord) (ttl_secs : N) (s : Fs) : bool :=
  ttl_secs <? u64_saturating_sub (now_unix_secs (fs_calls s)) (al_updated_at record).

Definition refresh_lease_record (path owner_id token : string) (acquired_at : N) : LM unit :=
  current ← read_lease_record path;
  if decide (al_token current ≠ token)
  then st_fail (active_lease_error "HA_LEASE_LOST"
         ("active-passive lease " +:+ debug_str path +:+ " is no longer held by this process") true)
  else
    s ← st_get;
    write_lease_record path (mkActiveLeaseRecord owner_id token acquired_at (now_unix_secs (fs_calls s))).

Definition from_acquired (config : ActiveLeaseConfig) (token : string) (acquired_at : N)
    : LM ActiveLeaseGuard :=
  s ← st_get;
  match spawn (fs_calls s) with
  | Ok _ => mret (mkActiveLeaseGuard (lc_path config) (lc_owner_id config) token acquired_at
                    (lc_ttl_secs config))
  | Err e =>
      _ ← release_lease_if_current (lc_path config) token;
      st_fail (Internal ("spawn active lease heartbeat: " +:+ e))
  end.

(** The branch of [acquire] for a file found stale. *)
Definition take_over (config : ActiveLeaseConfig) (record : ActiveLeaseRecord) : LM ActiveLeaseGuard :=
  _ ← remove_stale_lease (lc_path config);
  _ ← lease_io (create_lease_file (lc_path config) record);
  from_acquired config (al_token record) (al_acquired_at record).

Definition acquire (config : ActiveLeaseConfig) : LM ActiveLeaseGuard :=
  _ ← st_lift (lease_config_validate config);
  _ ← create_parent_dir;
  s ← st_get;
  let token := new_token (fs_calls s) in
  let acquired_at := now_unix_secs (fs_calls s) in
  let record := mkActiveLeaseRecord (lc_owner_id config) token acquired_at acquired_at in
  created ← (λ s, let '(x, s') := create_lease_file (lc_path config) record s in (Ok x, s'));
  match created with
  | Ok _ => from_acquired config token acquired_at
  | Err (EAlreadyExists _) =>
      current ← read_lease_record (lc_path config);
      s ← st_get;
      if negb (lease_is_stale current (lc_ttl_secs config) s)
      then st_fail (active_lease_error "HA_LEASE_HELD"
             ("active-passive lease " +:+ debug_str (lc_path config) +:+ " is held by " +:+
              al_owner_id current) true)
      else take_over config record
  | Err (EOther e) => st_fail (active_lease_io_error e)
  end.

Definition ensure_current (g : ActiveLeaseGuard) : LM unit :=
  record ← read_lease_record (lg_path g);
  s ← st_get;
  if decide (al_token record ≠ lg_token g)
  then st_fail (active_lease_error "HA_LEASE_LOST"
         ("active-passive lease " +:+ debug_str (lg_path g) +:+ " moved from " +:+ lg_owner_id g +:+
          " to " +:+ al_owner_id record) true)
  else if lease_is_stale record (lg_ttl_secs g) s
  then st_fail (active_lease_error "HA_LEASE_STALE"
         ("active-passive lease " +:+ debug_str (lg_path g) +:+ " heartbeat is stale") true)
  else mret tt.

(** [Drop] of the guard, and one round of its thread. *)
Definition drop_guard (g : ActiveLeaseGuard) : LM unit :=
  release_lease_if_current (lg_path g) (lg_token g).
Definition heartbeat (g : ActiveLeaseGuard) : LM unit :=
  refresh_lease_record (lg_path g) (lg_owner_id g) (lg_token g) (lg_acquired_at g).

(** ** What the file says *)

Definition leased (s : Fs) (path : string) (r : ActiveLeaseRecord) : Prop :=
  ∃ text, fs_files s !! path = Some text ∧ decode codec text = Ok r.

Lemma leased_fun s path r1 r2 : leased s path r1 → leased s path r2 → r1 = r2.
Proof. intros (t1 & H1 & D1) (t2 & H2 & D2). congruence. Qed.

Lemma read_lease_spec path s x s' :
  read_lease_record path s = (x, s') →
  s' = bump s ∧ (∀ r, x = Ok r → leased s path r) ∧
  ∀ r, leased s path r → io_fault o (fs_calls s) = None → x = Ok r.
Proof.
  unfold read_lease_record, mbind, ST_bind, map_io, read_file, syscall, st_lift.
  destruct (io_fault o (fs_calls s)) as [e|] eqn:Hf; simpl; [by intros [= <- <-]|].
  destruct (fs_files s !! path) as [text|] eqn:Ht; simpl.
  2:{ intros [= <- <-]. split_and!; [done..|]. intros r (t & Ht' & _). congruence. }
  destruct (decode codec text) as [r|e] eqn:Hd; intros [= <- <-].
  - split; [done|]. split; [intros r' [= <-]; by exists text|]. intros r' (t & Ht' & Hd') _. congruence.
  - split; [done|]. split; [done|]. intros r' (t & Ht' & Hd') _. congruence.
Qed.

(** What [path] holds stays while another operation leaves the files alone. *)
Lemma leased_files s s' path r : fs_files s' = fs_files s → leased s path r → leased s' path r.
Proof. unfold leased. by intros ->. Qed.

(** ** Operations of other processes *)

Inductive LeaseOp :=
  | LAcquire (config : ActiveLeaseConfig)
  | LHeartbeat (g : ActiveLeaseGuard)
  | LEnsure (g : ActiveLeaseGuard)
  | LDrop (g : ActiveLeaseGuard).

(** One operation: whether it let its process go on as the active one. *)
Definition lease_op (op : LeaseOp) (s : Fs) : bool * Fs :=
  match op with
  | LAcquire c => let '(x, s') := acquire c s in (is_ok x, s')
  | LHeartbeat g => let '(x, s') := heartbeat g s in (is_ok x, s')
  | LEnsure g => let '(x, s') := ensure_current g s in (is_ok x, s')
  | LDrop g => let '(_, s') := drop_guard g s in (false, s')
  end.
Fixpoint lease_ops (ops : list LeaseOp) (s : Fs) : list bool * Fs :=
  match ops with
  | [] => ([], s)
  | op :: ops => let '(b, s1) := lease_op op s in let '(bs, s2) := lease_ops ops s1 in (b :: bs, s2)
  end.

(** Another process on the lease of [g]: it waits at least as long as [g] may be silent. *)
Definition rival (g : ActiveLeaseGuard) (op : LeaseOp) : Prop :=
  match op with
  | LAcquire c => lc_path c = lg_path g ∧ lg_ttl_secs g ≤ lc_ttl_secs c
  | LHeartbeat g' | LEnsure g' | LDrop g' => lg_path g' = lg_path g ∧ lg_token g' ≠ lg_token g
  end.

Section live.
Context (g : ActiveLeaseGuard) (r : ActiveLeaseRecord) (Htoken : al_token r = lg_token g).
(** The clock has not passed the last heartbeat by more than the time to live. *)
Definition in_time (n : nat) : Prop := now_unix_secs n ≤ al_updated_at r + lg_ttl_secs g.

Lemma rival_read s x s' :
  leased s (lg_path g) r → read_lease_record (lg_path g) s = (x, s') →
  s' = bump s ∧ ∀ r', x = Ok r' → r' = r.
Proof.
  intros Hl (-> & Hx & _)%read_lease_spec. split; [done|]. intros r' ->.
  eauto using leased_fun.
Qed.

Lemma not_stale n ttl s :
  fs_calls s = n → in_time n → lg_ttl_secs g ≤ ttl → lease_is_stale r ttl s = false.
Proof.
  unfold in_time, lease_is_stale, u64_saturating_sub. intros -> Hn Ht. apply N.ltb_ge. lia.
Qed.

Lemma create_existing path record s x s' :
  is_Some (fs_files s !! path) → create_lease_file path record s = (x, s') →
  is_ok x = false ∧ fs_files s' = fs_files s ∧ (fs_calls s' ≤ S (fs_calls s))%nat.
Proof.
  intros [text Ht]. unfold create_lease_file, open_create_new, mbind, ST_bind, st_lift.
  destruct (encode codec record) as [payload|e]; simpl; [|intros [= <- <-]; auto].
  destruct (io_fault o (fs_calls s)); [by intros [= <- <-]|]. rewrite Ht. by intros [= <- <-].
Qed.

Lemma rival_acquire_fails c s x s' :
  leased s (lg_path g) r → (∀ n, (n ≤ fs_calls s + 3)%nat → in_time n) → rival g (LAcquire c) →
  acquire c s = (x, s') →
  is_ok x = false ∧ fs_files s' = fs_files s ∧ (fs_calls s' ≤ fs_calls s + 3)%nat.
Proof.
  intros Hl Hn [Hp Ht]. unfold acquire, mbind at 1, ST_bind at 1, st_lift.
  destruct (lease_config_validate c) as [[]|e]; [|intros [= <- <-]; split_and!; [done..|lia]].
  unfold mbind at 1, ST_bind at 1.
  destruct (create_parent_dir s) as [x1 s1] eqn:H1. apply create_dir_files in H1 as Hf1.
  assert (fs_calls s1 = S (fs_calls s)) as Hc1.
  { revert H1. unfold create_parent_dir, map_io, create_dir_all, syscall.
    destruct (io_fault o (fs_calls s)); by intros [= _ <-]. }
  destruct x1 as [[]|e]; [|intros [= <- <-]; split_and!; [done..|lia]].
  cbv beta delta [st_get mbind ST_bind] iota zeta.
  destruct (create_lease_file _ _ s1) as [x2 s2] eqn:H2.
  apply (leased_files _ s1) in Hl; [|done].
  apply create_existing in H2 as (Hx2 & Hf2 & Hc2).
  2:{ destruct Hl as (text & Htext & _). rewrite Hp. eauto. }
  destruct x2 as [[]|[t|t]]; [done|..].
  2:{ intros [= <- <-]. split_and!; [done|congruence|lia]. }
  rewrite Hp. destruct (read_lease_record (lg_path g) s2) as [x3 s3] eqn:H3.
  apply rival_read in H3 as [-> Hx3]; [|by apply (leased_files s1)].
  destruct x3 as [r'|e]; [|intros [= <- <-]; simpl; split_and!; [done|congruence|lia]].
  rewrite (Hx3 r' eq_refl), (not_stale (fs_calls (bump s2))); [|done|apply Hn; simpl; lia|done].
  intros [= <- <-]. simpl. split_and!; [done|congruence|lia].
Qed.

Lemma rival_op_fails op s b s' :
  leased s (lg_path g) r → (∀ n, (n ≤ fs_calls s + 3)%nat → in_time n) → rival g op →
  lease_op op s = (b, s') →
  b = false ∧ fs_files s' = fs_files s ∧ (fs_calls s' ≤ fs_calls s + 3)%nat.
Proof using Htoken.
  intros Hl Hn Hr. destruct op as [c|g'|g'|g']; simpl.
  { destruct (acquire c s) as [x s1] eqn:Ha. intros [= <- <-]. eauto using rival_acquire_fails. }
  all: destruct Hr as [Hp Ht]; unfold heartbeat, ensure_current, drop_guard,
    release_lease_if_current, refresh_lease_record, st_try, mbind, ST_bind; rewrite Hp;
    destruct (read_lease_record (lg_path g) s) as [x s1] eqn:H1;
    (apply rival_read in H1 as [-> Hx]; [|done]); destruct x as [r'|e];
    [|intros [= <- <-]; simpl; split_and!; [done..|lia]]; rewrite (Hx r' eq_refl).
  - rewrite decide_True by congruence. intros [= <- <-]. simpl. split_and!; [done..|lia].
  - cbv beta delta [st_get] iota zeta. rewrite decide_True by congruence.
    intros [= <- <-]. simpl. split_and!; [done..|lia].
  - rewrite decide_False by congruence. intros [= <- <-]. simpl. split_and!; [done..|lia].
Qed.

Lemma rivals_fail ops s :
  leased s (lg_path g) r → (∀ n, (n ≤ fs_calls s + 3 * length ops)%nat → in_time n) →
  Forall (rival g) ops →
  let '(wins, s') := lease_ops ops s in
  Forall (λ b, b = false) wins ∧ fs_files s' = fs_files s ∧
  (fs_calls s' ≤ fs_calls s + 3 * length ops)%nat.
Proof using Htoken.
  intros Hl Hn Hr. revert s Hl Hn. induction Hr as [|op ops Hop Hr IH]; intros s Hl Hn; simpl.
  { split_and!; [constructor|done|lia]. }
  destruct (lease_op op s) as [b s1] eqn:H1. simpl in Hn.
  apply rival_op_fails in H1 as (-> & Hf1 & Hc1); [|done|intros n ?; apply Hn; lia|done].
  specialize (IH s1). destruct (lease_ops ops s1) as [bs s2].
  destruct IH as (? & Hf2 & ?); [by apply (leased_files s)|intros n ?; apply Hn; lia|].
  split_and!; [by constructor|congruence|lia].
Qed.
End live.

(** C22. A live lease is exclusive: while the holder's last heartbeat is within its time to
    live and the other processes use no shorter one, whatever they try (acquire, heartbeat,
    check, release, in any order, with any I/O faults) fails and changes no file, and the
    holder's own check succeeds as soon as it can read the file.  Each operation runs
    without another in between. *)
Theorem live_lease_exclusive g r ops s :
  leased s (lg_path g) r → al_token r = lg_token g →
  (∀ n, (n ≤ fs_calls s + 3 * length ops + 1)%nat →
     now_unix_secs n ≤ al_updated_at r + lg_ttl_secs g) →
  Forall (rival g) ops →
  let '(wins, s') := lease_ops ops s in
  Forall (λ b, b = false) wins ∧ fs_files s' = fs_files s ∧
  (io_fault o (fs_calls s') = None → (ensure_current g s').1 = Ok tt).
Proof.
  intros Hl Ht Hn Hr. pose proof (rivals_fail g r Ht ops s Hl) as H.
  destruct (lease_ops ops s) as [wins s'].
  destruct H as (Hw & Hf & Hc); [intros n ?; apply Hn; lia|done|]. split_and!; [done..|].
  intros Hio. unfold ensure_current, mbind, ST_bind.
  destruct (read_lease_record (lg_path g) s') as [x s1] eqn:H1.
  apply read_lease_spec in H1 as (-> & _ & Hx).
  rewrite (Hx r) by (done || by apply (leased_files s)). cbv beta delta [st_get] iota zeta.
  rewrite decide_False by (by intros []). unfold st_get.
  rewrite (not_stale g r (fs_calls (bump s'))); [done|done| |done].
  apply Hn. simpl. lia.
Qed.

(** ** What the protocol does not exclude *)

(** Taking over never looks at the file again: a process that found the lease stale
    replaces whatever is there when it goes on, a lease just taken by another one too. *)
Lemma take_over_unconditional c record text s :
  reliable o → (∀ n, spawn n = Ok tt) → encode codec record = Ok text →
  ∃ s', take_over c record s =
    (Ok (mkActiveLeaseGuard (lc_path c) (lc_owner_id c) (al_token record) (al_acquired_at record)
           (lc_ttl_secs c)), s') ∧
    fs_files s' !! lc_path c = Some (text +:+ of_bytes [newline]).
Proof.
  intros Hr Hs He. unfold take_over, remove_stale_lease, mbind, ST_bind.
  set (s1 := bump (set_files (delete (lc_path c) (fs_files s)) s)).
  assert ((if has_file (lc_path c) s
           then map_io active_lease_io_error (remove_file o (lc_path c)) s
           else match io_fault o (fs_calls s) with
                | Some e => (Err (active_lease_io_error e), bump s) | None => (Ok tt, bump s)
                end) = (Ok tt, s1)) as ->.
  { unfold has_file, map_io, remove_file, syscall. rewrite Hr. case_bool_decide as Hx.
    - by destruct Hx as [t ->].
    - apply eq_None_not_Some in Hx. subst s1. by rewrite delete_id by done; destruct s. }
  unfold lease_io, create_lease_file, open_create_new, other_io, append_all, mbind, ST_bind, st_lift.
  rewrite He. simpl. rewrite Hr, lookup_delete_eq. simpl. rewrite Hr. simpl. rewrite Hr. simpl.
  unfold from_acquired, mbind, ST_bind, st_get. rewrite Hs. eexists. split; [done|].
  simpl. rewrite !lookup_insert_eq. simpl. done.
Qed.

(** A lease file that cannot be parsed, which is what a failed write in [acquire] leaves,
    is never replaced. *)
Lemma unreadable_lease_stays c s text e x s' :
  fs_files s !! lc_path c = Some text → decode codec text = Err e → acquire c s = (x, s') →
  is_ok x = false ∧ fs_files s' !! lc_path c = Some text.
Proof.
  intros Htext Hd. unfold acquire, mbind at 1, ST_bind at 1, st_lift.
  destruct (lease_config_validate c) as [[]|e1]; [|by intros [= <- <-]].
  unfold mbind at 1, ST_bind at 1.
  destruct (create_parent_dir s) as [x1 s1] eqn:H1. apply create_dir_files in H1 as Hf1.
  destruct x1 as [[]|e1]; [|intros [= <- <-]; by rewrite Hf1].
  cbv beta delta [st_get mbind ST_bind] iota zeta.
  destruct (create_lease_file _ _ s1) as [x2 s2] eqn:H2.
  apply create_existing in H2 as (Hx2 & Hf2 & _); [|rewrite Hf1; eauto].
  destruct x2 as [[]|[t|t]]; [done|..]; [|intros [= <- <-]; by rewrite Hf2, Hf1].
  destruct (read_lease_record (lc_path c) s2) as [x3 s3] eqn:H3.
  apply read_lease_spec in H3 as (-> & Hx3 & _).
  destruct x3 as [r'|e3]; [|intros [= <- <-]; simpl; by rewrite Hf2, Hf1].
  destruct (Hx3 r' eq_refl) as (t' & Ht' & Hd'). rewrite Hf2, Hf1 in Ht'. congruence.
Qed.
End lease.

Module LeaseSample.
Definition path : string := "lease.json".
Definition held : ActiveLeaseRecord := mkActiveLeaseRecord "node-a" "token-a" 100 110.
Definition codec : Codec ActiveLeaseRecord :=
  mkCodec (λ r, Ok (al_token r))
    (λ text, if decide (text = "token-a") then Ok held else Err "EOF while parsing").
Definition holder : ActiveLeaseGuard := mkActiveLeaseGuard path "node-a" "token-a" 100 30.
Definition standby : ActiveLeaseConfig := new_lease_config path "node-b".
Definition earlier : ActiveLeaseGuard := mkActiveLeaseGuard path "node-b" "token-b" 10 30.
Definition dir : Fs := mkFs true {[ path := "token-a" ]} 0.
Definition clock (n : nat) : N := 120 + N.of_nat n.
Definition others : list LeaseOp :=
  [LAcquire standby; LHeartbeat earlier; LEnsure earlier; LDrop earlier].
End LeaseSample.

Lemma live_lease_exclusive_witness :
  let run := lease_ops sample_oracle LeaseSample.codec LeaseSample.clock (λ _, "token-c")
               (λ _, Ok tt) LeaseSample.others LeaseSample.dir in
  Forall (λ b, b = false) run.1 ∧
  (ensure_current sample_oracle LeaseSample.codec LeaseSample.clock LeaseSample.holder run.2).1 = Ok tt.
Proof.
  cbv zeta.
  pose proof (live_lease_exclusive sample_oracle LeaseSample.codec LeaseSample.clock
    (λ _, "token-c") (λ _, Ok tt) LeaseSample.holder LeaseSample.held LeaseSample.others
    LeaseSample.dir) as H.
  destruct (lease_ops _ _ _ _ _ _ _) as [wins s'].
  destruct H as (Hw & _ & He).
  - exists "token-a". split; reflexivity.
  - reflexivity.
  - unfold LeaseSample.clock. simpl. intros n Hn. lia.
  - repeat constructor; simpl; try reflexivity; discriminate.
  - split; [exact Hw|apply He; reflexivity].
Defined.
