(* ===== verification/Service.v ===== *)
(** * The service facade (src/api/service.rs)

    What a caller of the library sees: applies of a domain intent under the domain's lock,
    with an idempotency key or without; retries of failed endpoints; dry runs; reading
    devices; the drift audit; operator commands; and the same behind an active-passive
    lease.  A service holds the stores and runs the coordinators on them; every event goes
    to the recording sink.  The adapter's [get_current_state] and the serializer that
    fingerprints a payload are arguments. *)
From S2P Require Export Locks Compensation Onboarding AdminOps Ha.
Local Open Scope N_scope.

(** ** Pure helpers *)

Definition annotate_apply_idempotency_response (response : ApplyIntentResponse)
    (request_id trace_id idempotency_key : string) (reused : bool) : ApplyIntentResponse :=
  let 'mkApplyIntentResponse _ _ _ _ tx st strategy results warnings report := response in
  mkApplyIntentResponse request_id trace_id (Some idempotency_key) reused tx st strategy results
    warnings report.
Definition push_warning (warning : string) (response : ApplyIntentResponse) : ApplyIntentResponse :=
  let 'mkApplyIntentResponse a b c d tx st strategy results warnings report := response in
  mkApplyIntentResponse a b c d tx st strategy results (warnings ++ [warning]) report.

Definition validate_non_empty (field value : string) : UnderlayResult unit :=
  reject_if (str_is_empty (trim value)) (InvalidIntent (field +:+ " must not be empty")).

Definition ha_lease_required_error : UnderlayError :=
  let code := "HA_LEASE_REQUIRED" in
  let message := "production HA mode requires active-passive lease configuration before accepting writes" in
  AdapterOperation code message false [mkAdapterErrorDetail code message].

Definition normalized_lock_component (field value : string) : UnderlayResult string :=
  let value := trim value in
  if str_is_empty value then Err (InvalidIntent (field +:+ " must not be empty"))
  else if str_contains value ":" then Err (InvalidIntent (field +:+ " must not contain ':'"))
  else Ok value.

Definition apply_scope_lock_keys (request : ApplyDomainIntentRequest) : UnderlayResult (list string) :=
  domain_id ← normalized_lock_component "domain_id" (Intent.domain_id (adr_intent request));
  let domain_key := "domain:" +:+ domain_id in
  match opt_lock_scope (adr_options request) with
  | ScopeDomain => Ok [domain_key]
  | ScopeRegion =>
      region_id ← ok_or (opt_region_id (adr_options request))
        (InvalidIntent "ApplyOptions.region_id is required when lock_scope is Region");
      region_id ← normalized_lock_component "region_id" region_id;
      Ok [domain_key; "region:" +:+ region_id]
  | ScopeSwitchPair =>
      keys ← traverse (λ endpoint,
        endpoint_id ← normalized_lock_component "management endpoint_id" (me_endpoint_id endpoint);
        Ok ("switch_pair:" +:+ domain_id +:+ ":" +:+ endpoint_id))
        (endpoints (adr_intent request));
      match keys with
      | [] => Err (InvalidIntent "switch_pair lock scope requires at least one management endpoint")
      | _ => Ok (sort_dedup (keys ++ [domain_key]))
      end
  end.

(** [src/api/response.rs], [src/api/request.rs] *)
Record DryRunResponse := mkDryRunResponse {
  drr_device_results : list DeviceApplyResult;
  drr_change_sets : list ChangeSet;
  drr_change_plans : list ChangePlan;
  drr_noop : bool;
}.
Definition dry_run_response (plan : DryRunPlan) : DryRunResponse :=
  mkDryRunResponse (device_results_from_plan plan) (dp_change_sets plan) (dp_change_plans plan)
    (is_noop plan).

(** ** src/api/operations.rs *)

Record ListOperationSummariesRequest := mkListOperationSummariesRequest {
  ls_attention_required_only : bool;
  ls_action : option string;
  ls_result : option string;
  ls_device_id : option DeviceId;
  ls_tx_id : option string;
  ls_limit : option nat;
}.
Record OperationSummaryOverview := mkOperationSummaryOverview {
  matched_records : nat;
  returned_records : nat;
  ov_attention_required : nat;
  by_action : gmap string nat;
  by_result : gmap string nat;
  by_device : gmap string nat;
}.
Definition increment (m : gmap string nat) (key : string) : gmap string nat :=
  <[key := Datatypes.S (default 0%nat (m !! key))]> m.
Definition overview_step (ov : OperationSummaryOverview) (summary : OperationSummary)
    : OperationSummaryOverview :=
  mkOperationSummaryOverview (matched_records ov) (returned_records ov)
    (if os_attention_required summary then Datatypes.S (ov_attention_required ov)
     else ov_attention_required ov)
    (increment (by_action ov) (os_action summary))
    (increment (by_result ov) (os_result summary))
    (match os_device_id summary with
     | Some d => increment (by_device ov) (device_id_0 d)
     | None => by_device ov
     end).
Definition overview_from_summaries (summaries : list OperationSummary) (returned : nat)
    : OperationSummaryOverview :=
  foldl overview_step (mkOperationSummaryOverview (length summaries) returned 0 ∅ ∅ ∅) summaries.

Definition retain_if {A V} `{EqDecision V} (wanted : option V) (f : A → V) (l : list A) : list A :=
  match wanted with Some v => filter (λ x, f x = v) l | None => l end.
Definition newest {A} (limit : option nat) (l : list A) : list A :=
  match limit with
  | Some limit => if (limit <? length l)%nat then reverse (take limit (reverse l)) else l
  | None => l
  end.

(** ** The service *)

Section service.
Context {J S I D O U P Z K : Type}.
Context `{!TxJournalStore J} `{!ShadowStateStore S} `{!ApplyIdempotencyStore I}.
Context `{!DomainApplyRecordStore D} `{!OperationSummaryStore O} `{!OperationAuditStore U}.
Context `{!ProductAuditStore P} `{!AuthorizationPolicy Z} `{!SecretStore K}.
Notation W := (World (J:=J) (S:=S)).

(** The stores, the registry and the inventory, which are shared and change; [sv_world]
    holds the journal and both state stores, and its event list is empty between
    operations: events have gone to the sink. *)
Record AriaUnderlayService := mkAriaUnderlayService {
  sv_world : W;
  sv_inventory : Inventory.t;
  sv_apply_idempotency : ApplyIdempotencyRegistry I;
  sv_domain_apply_records : D;
  sv_event_sink : SinkState O U;
  sv_product_audit : P;
  sv_secret_store : K;
}.
Notation SM := (ST UnderlayError AriaUnderlayService).

(** What does not change, and what is outside. *)
Record ServiceEnv := mkServiceEnv {
  se_env : Env;
  se_confirmed_commit_timeout_secs : N;
  se_authorization_policy : Z;
  se_get_current_state : nat → DeviceInfo → UnderlayResult DeviceShadowState;
  se_force_unlock :
    nat → DeviceInfo → RequestContext → string → string → bool → UnderlayResult AdapterOutcome;
  se_endpoint_from_shared : string → result string unit;
  se_to_string : string → UnderlayDomainIntent → ApplyOptions → result string string;
}.
Context (se : ServiceEnv).
Notation env := (se_env se).

Definition with_events (es : list UnderlayEvent) (w : W) : W :=
  mkWorld (w_journal w) (w_shadow w) (w_observed w) es (w_tick w) (w_trace w).
Definition set_world (w : W) (s : AriaUnderlayService) : AriaUnderlayService :=
  mkAriaUnderlayService (with_events [] w) (sv_inventory s) (sv_apply_idempotency s)
    (sv_domain_apply_records s) (foldl (λ k e, sink_emit e k) (sv_event_sink s) (w_events w))
    (sv_product_audit s) (sv_secret_store s).
Definition set_inventory (inv : Inventory.t) (s : AriaUnderlayService) : AriaUnderlayService :=
  mkAriaUnderlayService (sv_world s) inv (sv_apply_idempotency s) (sv_domain_apply_records s)
    (sv_event_sink s) (sv_product_audit s) (sv_secret_store s).
Definition set_registry (r : ApplyIdempotencyRegistry I) (s : AriaUnderlayService)
    : AriaUnderlayService :=
  mkAriaUnderlayService (sv_world s) (sv_inventory s) r (sv_domain_apply_records s)
    (sv_event_sink s) (sv_product_audit s) (sv_secret_store s).
Definition set_records (d : D) (s : AriaUnderlayService) : AriaUnderlayService :=
  mkAriaUnderlayService (sv_world s) (sv_inventory s) (sv_apply_idempotency s) d
    (sv_event_sink s) (sv_product_audit s) (sv_secret_store s).

(** A coordinator runs on the stores, with the service's inventory; what it emits goes
    through the recording sink, whose stores it does not touch otherwise. *)
Definition coordinate {A} (m : Inventory.t → ST UnderlayError W A) : SM A := λ s,
  let '(x, w) := m (sv_inventory s) (with_events [] (sv_world s)) in (x, set_world w s).
Definition with_registry {A} (m : ST UnderlayError (ApplyIdempotencyRegistry I) A) : SM A := λ s,
  let '(x, r) := m (sv_apply_idempotency s) in (x, set_registry r s).
Definition with_records {A} (m : ST UnderlayError D A) : SM A := λ s,
  let '(x, d) := m (sv_domain_apply_records s) in (x, set_records d s).
Definition with_inventory (m : Inventory.t → UnderlayResult Inventory.t) : SM unit := λ s,
  match m (sv_inventory s) with
  | Ok inv => (Ok tt, set_inventory inv s)
  | Err e => (Err e, s)
  end.
Definition service_now : SM N := coordinate (λ _, now env).
Definition service_emit (e : UnderlayEvent) : SM unit := coordinate (λ _, emit_event e).

Definition apply_coordinator (inv : Inventory.t) : ApplyCoordinator :=
  new inv (se_confirmed_commit_timeout_secs se).
Definition run_apply (request_id trace_id : string) (desired : list DeviceDesiredState)
    (options : ApplyOptions) : SM ApplyIntentResponse :=
  coordinate (λ inv, apply_desired_states env (apply_coordinator inv) request_id trace_id desired
    (opt_allow_degraded_atomicity options) (opt_drift_policy options)).

(** *** Applies *)

Definition persist_domain_apply_record (request : ApplyDomainIntentRequest)
    (response : ApplyIntentResponse) : SM ApplyIntentResponse :=
  t ← service_now;
  stored ← st_try (with_records (record_put (new_domain_apply_record t request response)));
  mret (match stored with
        | Ok _ => response
        | Err err => push_warning ("domain apply record persistence failed: " +:+ error_text err) response
        end).

(** The part of [apply_domain_intent] under the slot of an idempotency key. *)
Definition apply_with_key (request : ApplyDomainIntentRequest) (request_id trace_id : string)
    (desired_states : list DeviceDesiredState) (idempotency_key fp : string)
    : SM ApplyIntentResponse :=
  held ← with_registry (slot idempotency_key);
  match held with
  | Some record =>
      if decide (fingerprint record ≠ fp)
      then st_fail (idempotency_payload_mismatch_error idempotency_key)
      else mret (annotate_apply_idempotency_response (response record) request_id trace_id
                   idempotency_key true)
  | None =>
      response ← run_apply request_id trace_id desired_states (adr_options request);
      let response := annotate_apply_idempotency_response response request_id trace_id
                        idempotency_key false in
      response ← persist_domain_apply_record request response;
      t ← service_now;
      let stored_record := mkApplyIdempotencyRecord t fp response in
      stored ← st_try (with_registry (registry_put idempotency_key stored_record));
      match stored with
      | Err err =>
          mret (push_warning ("idempotency record persistence failed: " +:+ error_text err) response)
      | Ok _ =>
          _ ← with_registry (λ r, (Ok tt, fill_slot idempotency_key stored_record r));
          mret response
      end
  end.

Definition apply_domain_intent (request : ApplyDomainIntentRequest) : SM ApplyIntentResponse :=
  let request_id := adr_request_id request in
  let trace_id := default request_id (adr_trace_id request) in
  lock_keys ← st_lift (apply_scope_lock_keys request);
  _ ← st_lift (normalize_scope_keys lock_keys);
  idempotency_key ← st_lift (match adr_idempotency_key request with
    | Some key => key ← normalize_idempotency_key key; Ok (Some key)
    | None => Ok None
    end);
  fp ← st_lift (match idempotency_key with
    | Some _ => fp ← apply_domain_fingerprint (se_to_string se) (adr_intent request)
                       (adr_options request); Ok (Some fp)
    | None => Ok None
    end);
  desired_states ← st_lift (plan_underlay_domain (adr_intent request));
  match idempotency_key, fp with
  | Some idempotency_key, Some fp =>
      apply_with_key request request_id trace_id desired_states idempotency_key fp
  | _, _ =>
      response ← run_apply request_id trace_id desired_states (adr_options request);
      persist_domain_apply_record request response
  end.

Definition domain_apply_record (request_id : string) : SM DomainApplyRecord :=
  _ ← st_lift (validate_non_empty "domain apply request_id" request_id);
  record ← with_records (record_get request_id);
  st_lift (ok_or record (InvalidIntent ("domain apply record " +:+ request_id +:+ " was not found"))).

Definition get_domain_apply_compensation_plan (request_id : string)
    : SM DomainApplyCompensationPlan :=
  record ← domain_apply_record request_id;
  mret (from_record record).

Definition retry_failed_domain_endpoints (request : RetryFailedDomainEndpointsRequest)
    : SM ApplyIntentResponse :=
  _ ← st_lift (validate_non_empty "retry failed endpoint request_id" (rfr_request_id request));
  _ ← st_lift (validate_non_empty "retry failed endpoint original_request_id"
                 (rfr_original_request_id request));
  record ← domain_apply_record (rfr_original_request_id request);
  endpoint_ids ← st_lift (select_retryable_failed_endpoints record (rfr_endpoint_ids request));
  intent ← st_lift (filter_domain_intent_to_endpoints (adr_intent (dar_request record)) endpoint_ids);
  apply_domain_intent (mkApplyDomainIntentRequest (rfr_request_id request) (rfr_trace_id request)
    (rfr_idempotency_key request) intent (adr_options (dar_request record))).

Definition apply_intent (request : ApplyIntentRequest) : SM ApplyIntentResponse :=
  _ ← st_lift (validate_switch_pair_intent (ai_intent request));
  let request_id := ai_request_id request in
  let trace_id := default request_id (ai_trace_id request) in
  run_apply request_id trace_id (plan_switch_pair (ai_intent request)) (ai_options request).

(** *** Dry runs *)

Definition dry_run_states (desired_states : list DeviceDesiredState) : SM DryRunResponse :=
  plan ← coordinate (λ inv, dry_run_desired_states env (apply_coordinator inv) desired_states);
  mret (dry_run_response plan).
Definition dry_run_domain (request : ApplyDomainIntentRequest) : SM DryRunResponse :=
  desired_states ← st_lift (plan_underlay_domain (adr_intent request));
  dry_run_states desired_states.
Definition dry_run (request : ApplyIntentRequest) : SM DryRunResponse :=
  _ ← st_lift (validate_switch_pair_intent (ai_intent request));
  dry_run_states (plan_switch_pair (ai_intent request)).

(** *** Devices *)

Definition fetch_device_state_from_adapter (device_id : DeviceId) : SM DeviceShadowState :=
  coordinate (λ inv,
    managed ← st_lift (Inventory.get device_id inv);
    _ ← ask_result (λ n, pool_client env n (adapter_endpoint (md_info managed)));
    ask_result (λ n, se_get_current_state se n (md_info managed))).
Definition get_device_state (device_id : DeviceId) : SM DeviceShadowState :=
  state ← fetch_device_state_from_adapter device_id;
  _ ← coordinate (λ _, observed_write state);
  mret state.
Definition refresh_state (device_ids : list DeviceId) : SM (list DeviceId) :=
  _ ← st_foldM (λ _ device_id, _ ← get_device_state device_id; mret tt) tt device_ids;
  mret device_ids.

Definition audit_device (drifted_devices : list DeviceId) (device_id : DeviceId)
    : SM (list DeviceId) :=
  observed ← fetch_device_state_from_adapter device_id;
  _ ← coordinate (λ _, observed_write observed);
  expected ← coordinate (λ _, shadow_read device_id);
  let report := match expected with
    | Some expected => detect_drift expected observed
    | None => from_adapter_warnings device_id (ss_warnings observed)
    end in
  if drift_detected report then
    _ ← service_emit (event_drift_detected "drift-audit" "drift-audit" report);
    _ ← with_inventory (Inventory.set_state device_id Drifted);
    mret (drifted_devices ++ [device_id])
  else
    match expected with
    | None => mret drifted_devices
    | Some _ =>
        s ← st_get;
        managed ← st_lift (Inventory.get device_id (sv_inventory s));
        if decide (lifecycle_state (md_info managed) = Drifted)
        then _ ← with_inventory (Inventory.set_state device_id Ready); mret drifted_devices
        else mret drifted_devices
    end.
Definition run_drift_audit (device_ids : list DeviceId) : SM (list DeviceId) :=
  drifted_devices ← st_foldM audit_device [] device_ids;
  _ ← service_emit (drift_audit_completed "drift-audit" "drift-audit" (length device_ids)
                      drifted_devices);
  mret drifted_devices.

(** *** Onboarding *)

Definition on_site {A} (m : ST UnderlayError (Site (K:=K)) A) : SM A := λ s,
  let w := sv_world s in
  let '(x, site) := m (mkSite (sv_inventory s) (sv_secret_store s) (w_tick w)) in
  (x, mkAriaUnderlayService
        (mkWorld (w_journal w) (w_shadow w) (w_observed w) (w_events w) (site_tick site) (w_trace w))
        (site_inventory site) (sv_apply_idempotency s) (sv_domain_apply_records s) (sv_event_sink s)
        (sv_product_audit s) (site_secrets site)).
Definition service_initialize_underlay_site (q : InitializeUnderlaySiteRequest)
    : SM InitializeUnderlaySiteResponse :=
  on_site (initialize_site env (se_endpoint_from_shared se) q).
Definition service_register_device (q : RegisterDeviceRequest) : SM (DeviceId * DeviceLifecycleState) :=
  on_site (register (se_endpoint_from_shared se) q).
Definition service_onboard_device (device_id : DeviceId) : SM (DeviceId * DeviceLifecycleState) :=
  lifecycle_state ← on_site (onboard_device env device_id);
  mret (device_id, lifecycle_state).

(** *** Recovery and operator commands *)

Definition service_recover_pending_transactions : SM RecoveryReport :=
  coordinate (recover_pending_transactions env).
Definition service_recover_timed_out_confirmed_commits : SM RecoveryReport :=
  t ← service_now;
  coordinate (λ inv, recover_timed_out_confirmed_commits env inv t
                       (se_confirmed_commit_timeout_secs se)).
Definition service_list_in_doubt_transactions (device_id : option DeviceId)
    : SM (list InDoubtTransactionSummary) :=
  coordinate (λ _, list_in_doubt_transactions device_id).
Definition service_force_unlock (q : ForceUnlockRequest) : SM ForceUnlockResponse :=
  coordinate (λ inv, force_unlock env inv (se_force_unlock se) q).
Definition service_force_resolve_transaction (q : ForceResolveTransactionRequest)
    : SM ForceResolveTransactionResponse := λ s,
  let '(x, (w, p)) := force_resolve_transaction env (se_authorization_policy se) q
                        (with_events [] (sv_world s), sv_product_audit s) in
  let s := set_world w s in
  (x, mkAriaUnderlayService (sv_world s) (sv_inventory s) (sv_apply_idempotency s)
        (sv_domain_apply_records s) (sv_event_sink s) p (sv_secret_store s)).

Definition list_operation_summaries (q : ListOperationSummariesRequest)
    : SM (list OperationSummary * OperationSummaryOverview) := λ s,
  let k := sv_event_sink s in
  let '(x, o) := (if ls_attention_required_only q then list_attention_required else summary_list)
                   (operation_summaries k) in
  let s := mkAriaUnderlayService (sv_world s) (sv_inventory s) (sv_apply_idempotency s)
             (sv_domain_apply_records s) (mkSinkState (inner k) o (operation_audit k))
             (sv_product_audit s) (sv_secret_store s) in
  (summaries ← x;
   let summaries := retain_if (ls_action q) os_action summaries in
   let summaries := retain_if (ls_result q) os_result summaries in
   let summaries := retain_if (Some <$> ls_device_id q) os_device_id summaries in
   let summaries := retain_if (Some <$> ls_tx_id q) os_tx_id summaries in
   let returned := newest (ls_limit q) summaries in
   Ok (returned, overview_from_summaries summaries (length returned)), s).

(** *** Every call *)

Inductive ServiceCall :=
  | CInitializeUnderlaySite (q : InitializeUnderlaySiteRequest)
  | CRegisterDevice (q : RegisterDeviceRequest)
  | COnboardDevice (device_id : DeviceId)
  | CApplyIntent (q : ApplyIntentRequest)
  | CDryRun (q : ApplyIntentRequest)
  | CRefreshState (device_ids : list DeviceId)
  | CGetDeviceState (device_id : DeviceId)
  | CRecoverPendingTransactions
  | CListInDoubtTransactions (device_id : option DeviceId)
  | CRunDriftAudit (device_ids : list DeviceId)
  | CForceUnlock (q : ForceUnlockRequest)
  | CForceResolveTransaction (q : ForceResolveTransactionRequest)
  | CListOperationSummaries (q : ListOperationSummariesRequest)
  | CApplyDomainIntent (q : ApplyDomainIntentRequest)
  | CGetDomainApplyCompensationPlan (request_id : string)
  | CRetryFailedDomainEndpoints (q : RetryFailedDomainEndpointsRequest)
  | CDryRunDomain (q : ApplyDomainIntentRequest).
Inductive ServiceAnswer :=
  | AInitialized (r : InitializeUnderlaySiteResponse)
  | ADevice (device_id : DeviceId) (st : DeviceLifecycleState)
  | AApplied (r : ApplyIntentResponse)
  | ADryRun (r : DryRunResponse)
  | ADevices (l : list DeviceId)
  | AState (st : DeviceShadowState)
  | ARecovered (r : RecoveryReport)
  | AInDoubt (l : list InDoubtTransactionSummary)
  | AUnlocked (r : ForceUnlockResponse)
  | AResolved (r : ForceResolveTransactionResponse)
  | ASummaries (l : list OperationSummary) (overview : OperationSummaryOverview)
  | ACompensation (plan : DomainApplyCompensationPlan).

Definition service_call (c : ServiceCall) : SM ServiceAnswer :=
  match c with
  | CInitializeUnderlaySite q => r ← service_initialize_underlay_site q; mret (AInitialized r)
  | CRegisterDevice q => '(d, st) ← service_register_device q; mret (ADevice d st)
  | COnboardDevice d => '(d, st) ← service_onboard_device d; mret (ADevice d st)
  | CApplyIntent q => r ← apply_intent q; mret (AApplied r)
  | CDryRun q => r ← dry_run q; mret (ADryRun r)
  | CRefreshState l => r ← refresh_state l; mret (ADevices r)
  | CGetDeviceState d => r ← get_device_state d; mret (AState r)
  | CRecoverPendingTransactions => r ← service_recover_pending_transactions; mret (ARecovered r)
  | CListInDoubtTransactions d => r ← service_list_in_doubt_transactions d; mret (AInDoubt r)
  | CRunDriftAudit l => r ← run_drift_audit l; mret (ADevices r)
  | CForceUnlock q => r ← service_force_unlock q; mret (AUnlocked r)
  | CForceResolveTransaction q => r ← service_force_resolve_transaction q; mret (AResolved r)
  | CListOperationSummaries q => '(l, ov) ← list_operation_summaries q; mret (ASummaries l ov)
  | CApplyDomainIntent q => r ← apply_domain_intent q; mret (AApplied r)
  | CGetDomainApplyCompensationPlan id =>
      r ← get_domain_apply_compensation_plan id; mret (ACompensation r)
  | CRetryFailedDomainEndpoints q => r ← retry_failed_domain_endpoints q; mret (AApplied r)
  | CDryRunDomain q => r ← dry_run_domain q; mret (ADryRun r)
  end.

(** A process starts again on the stores of the last one: the slots are empty. *)
Definition restart (s : AriaUnderlayService) : AriaUnderlayService :=
  set_registry (mkApplyIdempotencyRegistry ∅ (idem_store (sv_apply_idempotency s))) s.

(** A call, the confirmed-commit worker's pass, or a new process. *)
Inductive ServiceStep := Called (c : ServiceCall) | Swept | Restarted.
Definition serve_step (step : ServiceStep) (s : AriaUnderlayService) : AriaUnderlayService :=
  match step with
  | Called c => (service_call c s).2
  | Swept => (service_recover_timed_out_confirmed_commits s).2
  | Restarted => restart s
  end.
Definition serve (steps : list ServiceStep) (s : AriaUnderlayService) : AriaUnderlayService :=
  foldl (λ s step, serve_step step s) s steps.

(** ** Idempotency *)

Context (view : I → string → option ApplyIdempotencyRecord) `{!IdempotencyStoreLaws I view}.

(** A filled slot agrees with the store. *)
Definition slots_ok (s : AriaUnderlayService) : Prop :=
  let reg := sv_apply_idempotency s in
  ∀ k r, entries reg !! k = Some (Some r) → view (idem_store reg) k = Some r.
(** The answer to key [k] is on record, in the store and in no other way in the slot. *)
Definition recorded (k : string) (r : ApplyIdempotencyRecord) (s : AriaUnderlayService) : Prop :=
  let reg := sv_apply_idempotency s in
  view (idem_store reg) k = Some r ∧ ∀ held, entries reg !! k = Some held → held = Some r.

(** No record is lost from [s] to [s'], by nothing a computation does. *)
Definition keeps (s s' : AriaUnderlayService) : Prop :=
  (slots_ok s → slots_ok s') ∧ ∀ k r, recorded k r s → recorded k r s'.
#[local] Instance keeps_preorder : PreOrder keeps.
Proof. split; [done|]. unfold keeps. intros s1 s2 s3. naive_solver. Qed.
Definition retains {A} (m : SM A) : Prop := ∀ s, keeps s (m s).2.

(** The registry is the same. *)
Definition leaves_registry {A} (m : SM A) : Prop := ∀ s,
  sv_apply_idempotency (m s).2 = sv_apply_idempotency s.
Lemma same_registry_keeps s s' : sv_apply_idempotency s' = sv_apply_idempotency s → keeps s s'.
Proof. unfold keeps, slots_ok, recorded. by intros ->. Qed.
Lemma leaves_retains {A} (m : SM A) : leaves_registry m → retains m.
Proof. intros Hm s. by apply same_registry_keeps. Qed.

Lemma retains_bind {A B} (m : SM A) (f : A → SM B) :
  retains m → (∀ a, retains (f a)) → retains (m ≫= f).
Proof.
  intros Hm Hf s. unfold mbind, ST_bind. specialize (Hm s). destruct (m s) as [[a|e] s1]; [|done].
  trans s1; [done|apply Hf].
Qed.
Lemma leaves_bind {A B} (m : SM A) (f : A → SM B) :
  leaves_registry m → (∀ a, leaves_registry (f a)) → leaves_registry (m ≫= f).
Proof.
  intros Hm Hf s. unfold mbind, ST_bind. specialize (Hm s). destruct (m s) as [[a|e] s1]; [|done].
  simpl in *. by rewrite Hf.
Qed.
Lemma leaves_try {A} (m : SM A) : leaves_registry m → leaves_registry (st_try m).
Proof. intros Hm s. specialize (Hm s). unfold st_try. by destruct (m s). Qed.
Lemma leaves_foldM {A B} (f : B → A → SM B) b l :
  (∀ b a, leaves_registry (f b a)) → leaves_registry (st_foldM f b l).
Proof. intros Hf. induction l as [|a l IH] in b |- *; simpl; [done|]. by apply leaves_bind. Qed.
Lemma leaves_coordinate {A} (m : Inventory.t → ST UnderlayError W A) : leaves_registry (coordinate m).
Proof. intros s. unfold coordinate. by destruct (m _ _). Qed.
Lemma leaves_records {A} (m : ST UnderlayError D A) : leaves_registry (with_records m).
Proof. intros s. unfold with_records. by destruct (m _). Qed.
Lemma leaves_inventory m : leaves_registry (with_inventory m).
Proof. intros s. unfold with_inventory. by destruct (m _). Qed.
Lemma leaves_site {A} (m : ST UnderlayError (Site (K:=K)) A) : leaves_registry (on_site m).
Proof. intros s. unfold on_site. by destruct (m _). Qed.

Ltac leaves :=
  repeat first
    [ apply leaves_coordinate | apply leaves_records | apply leaves_inventory | apply leaves_site
    | apply leaves_try | apply leaves_foldM; intros | apply leaves_bind; [|intros ?]
    | done | case_match ].

Lemma persist_leaves q response : leaves_registry (persist_domain_apply_record q response).
Proof. unfold persist_domain_apply_record, service_now. leaves. Qed.
Lemma run_apply_leaves request_id trace_id desired options :
  leaves_registry (run_apply request_id trace_id desired options).
Proof. apply leaves_coordinate. Qed.
Lemma domain_apply_record_leaves id : leaves_registry (domain_apply_record id).
Proof. unfold domain_apply_record. leaves. Qed.

(** What taking a slot does to the records. *)
Lemma slot_spec key s x s' :
  with_registry (slot key) s = (x, s') →
  (∃ reg, s' = set_registry reg s) ∧
  keeps s s' ∧
  ∀ held, x = Ok held →
    entries (sv_apply_idempotency s') !! key = Some held ∧
    (slots_ok s → ∀ r, held = Some r → recorded key r s') ∧
    ∀ r, recorded key r s → held = Some r.
Proof.
  unfold with_registry, slot, keeps, slots_ok, recorded. set (reg := sv_apply_idempotency s).
  destruct (entries reg !! key) as [held|] eqn:He.
  { intros [= <- <-]. simpl. split; [by eexists|]. split; [done|].
    intros held' [= <-]. split; [done|]. split; [|naive_solver].
    intros Hok r ->. split; [by apply Hok|]. naive_solver. }
  destruct (idem_get key (idem_store reg)) as [[stored|e] store] eqn:Hg;
    apply idem_get_law in Hg as [Hv Hr]; intros [= <- <-]; simpl.
  2:{ split; [by eexists|]. setoid_rewrite Hv. split; [done|]. by intros. }
  specialize (Hr _ eq_refl). split; [by eexists|]. setoid_rewrite Hv. split_and!.
  - intros Hok k r. destruct (decide (k = key)) as [->|Hk].
    + rewrite lookup_insert_eq. naive_solver.
    + rewrite lookup_insert_ne by done. apply Hok.
  - intros k r [Hkr Hk]. split; [done|]. intros held.
    destruct (decide (k = key)) as [->|Hne].
    + rewrite lookup_insert_eq. intros [= <-]. congruence.
    + rewrite lookup_insert_ne by done. apply Hk.
  - intros held [= <-]. split; [by rewrite lookup_insert_eq|]. split.
    + intros Hok r ->. split; [done|]. intros held. rewrite lookup_insert_eq. by intros [= <-].
    + intros r [Hkr _]. congruence.
Qed.

(** Storing under a key whose slot is taken and empty. *)
Lemma registry_put_spec key a s x s' :
  entries (sv_apply_idempotency s) !! key = Some None →
  with_registry (registry_put key a) s = (x, s') →
  (∃ reg, s' = set_registry reg s) ∧
  entries (sv_apply_idempotency s') = entries (sv_apply_idempotency s) ∧
  keeps s s' ∧ (is_ok x = true → view (idem_store (sv_apply_idempotency s')) key = Some a).
Proof.
  intros He. unfold with_registry, registry_put, keeps, slots_ok, recorded. set (reg := sv_apply_idempotency s).
  destruct (idem_put key a (idem_store reg)) as [y store] eqn:Hp.
  apply idem_put_law in Hp as [Hother Hkey]. intros [= <- <-]. simpl. fold reg in He.
  split_and!; [by eexists|done|..].
  - intros Hok k r Hk. destruct (decide (k = key)) as [->|Hne]; [congruence|].
    rewrite Hother by done. by apply Hok.
  - intros k r [Hkr Hk]. destruct (decide (k = key)) as [->|Hne]; [by apply Hk in He|].
    by rewrite Hother.
  - intros Hy. destruct Hkey as [|[? _]]; [done|congruence].
Qed.

Lemma fill_spec key a s s' :
  with_registry (λ r, (Ok tt, fill_slot key a r)) s = (Ok tt, s') →
  entries (sv_apply_idempotency s) !! key = Some None →
  view (idem_store (sv_apply_idempotency s)) key = Some a →
  keeps s s' ∧ recorded key a s'.
Proof.
  unfold with_registry, fill_slot, keeps, slots_ok, recorded. intros [= <-] He Hv. simpl. split_and!.
  - intros Hok k r. destruct (decide (k = key)) as [->|Hk].
    + rewrite lookup_insert_eq. by intros [= <-].
    + rewrite lookup_insert_ne by done. apply Hok.
  - intros k r [Hkr Hk]. split; [done|].
    destruct (decide (k = key)) as [->|Hne]; [by apply Hk in He|]. by rewrite lookup_insert_ne.
  - done.
  - intros held. rewrite lookup_insert_eq. by intros [= <-].
Qed.

(** The answer says that its record was not stored. *)
Definition persistence_failed (resp : ApplyIntentResponse) : Prop :=
  ∃ e, last (resp_warnings resp) = Some ("idempotency record persistence failed: " +:+ e).
Lemma push_warning_failed e resp :
  persistence_failed (push_warning ("idempotency record persistence failed: " +:+ e) resp).
Proof. destruct resp. exists e. simpl. by rewrite last_snoc. Qed.

(** Two answers that differ in nothing but what a replay sets. *)
Definition same_answer (k : string) (a b : ApplyIntentResponse) : Prop := ∀ id tr reused,
  annotate_apply_idempotency_response a id tr k reused =
  annotate_apply_idempotency_response b id tr k reused.

Lemma apply_with_key_spec q id tr desired k fp s x s' :
  apply_with_key q id tr desired k fp s = (x, s') →
  keeps s s' ∧
  ∀ resp, slots_ok s → x = Ok resp → ¬ persistence_failed resp →
    ∃ r, recorded k r s' ∧ fingerprint r = fp ∧ same_answer k (response r) resp.
Proof.
  unfold apply_with_key, mbind at 1, ST_bind at 1.
  destruct (with_registry (slot k) s) as [held s1] eqn:Hslot.
  apply slot_spec in Hslot as (_ & K1 & Hheld).
  destruct held as [held|e]; [|intros [= <- <-]; by split].
  destruct (Hheld _ eq_refl) as (He & Hr1 & _). destruct held as [record|].
  { case_decide as Hfp; intros [= <- <-]; (split; [done|]); [done|].
    intros resp Hok [= <-] _. exists record. split; [by apply Hr1|]. split; [done|].
    intros ???. by destruct (response record). }
  unfold mbind at 1, ST_bind at 1.
  pose proof (run_apply_leaves id tr desired (adr_options q) s1) as L2.
  destruct (run_apply id tr desired (adr_options q) s1) as [resp s2]. simpl in L2.
  assert (keeps s s2) as K2 by (trans s1; [done|by apply same_registry_keeps]).
  destruct resp as [resp|e]; [|intros [= <- <-]; by split].
  set (resp1 := annotate_apply_idempotency_response _ _ _ _ _). unfold mbind at 1, ST_bind at 1.
  pose proof (persist_leaves q resp1 s2) as L3.
  destruct (persist_domain_apply_record q resp1 s2) as [resp2 s3]. simpl in L3.
  assert (keeps s s3) as K3 by (trans s2; [done|by apply same_registry_keeps]).
  destruct resp2 as [resp2|e]; [|intros [= <- <-]; by split].
  unfold mbind at 1, ST_bind at 1. destruct (service_now s3) as [t s4] eqn:H4.
  assert (sv_apply_idempotency s4 = sv_apply_idempotency s3) as L4.
  { revert H4. by intros [= _ <-]. }
  assert (keeps s s4) as K4 by (trans s3; [done|by apply same_registry_keeps]).
  destruct t as [t|e]; [|intros [= <- <-]; by split].
  set (stored := mkApplyIdempotencyRecord t fp resp2).
  rewrite <-L2, <-L3, <-L4 in He. unfold mbind at 1, ST_bind at 1, st_try.
  destruct (with_registry (registry_put k stored) s4) as [y s5] eqn:H5.
  apply registry_put_spec in H5 as (_ & He5 & K5 & Hv5); [|done].
  destruct y as [[]|err]; simpl.
  - rewrite <-He5 in He. specialize (Hv5 eq_refl). unfold mbind, ST_bind.
    destruct (with_registry _ s5) as [z s6] eqn:H6. assert (z = Ok tt) as ->.
    { revert H6. by intros [= <- _]. }
    apply fill_spec in H6 as [K6 Hr6]; [|done..]. intros [= <- <-].
    split; [trans s5; [by trans s4|done]|]. intros resp' _ [= <-] _. by exists stored.
  - intros [= <- <-]. split; [by trans s4|]. intros resp' _ [= <-] Hn.
    destruct Hn. apply push_warning_failed.
Qed.

Definition trace_of (q : ApplyDomainIntentRequest) : string :=
  default (adr_request_id q) (adr_trace_id q).
(** What a request with a key runs, when its checks pass: the same for every request with
    this intent, these options and this key. *)
Definition admits (q : ApplyDomainIntentRequest) (k fp : string) (desired : list DeviceDesiredState)
    : Prop :=
  (∃ keys ordered, apply_scope_lock_keys q = Ok keys ∧ normalize_scope_keys keys = Ok ordered) ∧
  (∃ key, adr_idempotency_key q = Some key ∧ normalize_idempotency_key key = Ok k) ∧
  apply_domain_fingerprint (se_to_string se) (adr_intent q) (adr_options q) = Ok fp ∧
  plan_underlay_domain (adr_intent q) = Ok desired.

Lemma apply_domain_admitted q k fp desired s :
  admits q k fp desired →
  apply_domain_intent q s = apply_with_key q (adr_request_id q) (trace_of q) desired k fp s.
Proof.
  intros ((keys & ordered & Hl & Hn) & (key & Hk & Hkn) & Hf & Hp).
  unfold apply_domain_intent, mbind, ST_bind, st_lift. rewrite Hl, Hn, Hk. simpl.
  rewrite Hkn. simpl. rewrite Hf. simpl. by rewrite Hp.
Qed.

Lemma apply_domain_Ok_admits q key resp s s' :
  adr_idempotency_key q = Some key → apply_domain_intent q s = (Ok resp, s') →
  ∃ k fp desired, admits q k fp desired ∧ normalize_idempotency_key key = Ok k.
Proof.
  intros Hk. unfold apply_domain_intent, admits, mbind, ST_bind, st_lift. rewrite Hk.
  destruct (apply_scope_lock_keys q) as [keys|] eqn:Hl; [|done].
  destruct (normalize_scope_keys keys) as [ordered|] eqn:Hn; [|done].
  destruct (normalize_idempotency_key key) as [k|] eqn:Hkn; [|done]. simpl.
  destruct (apply_domain_fingerprint _ _ _) as [fp|]; [|done]. simpl.
  destruct (plan_underlay_domain _) as [desired|]; [|done]. intros _.
  exists k, fp, desired. split; [|done]. split_and!; eauto.
Qed.

Lemma normalize_key_trims key k : normalize_idempotency_key key = Ok k → k = trim key.
Proof. unfold normalize_idempotency_key. repeat case_match; by intros [= <-]. Qed.

Lemma apply_domain_retains q : retains (apply_domain_intent q).
Proof.
  unfold apply_domain_intent. do 5 (apply retains_bind; [by apply leaves_retains|intros ?]).
  case_match; [case_match|].
  - intros s1. destruct (apply_with_key _ _ _ _ _ _ s1) as [x s2] eqn:Hrun.
    by apply apply_with_key_spec in Hrun as [? _].
  - apply leaves_retains, leaves_bind; [apply run_apply_leaves|intros ?; apply persist_leaves].
  - apply leaves_retains, leaves_bind; [apply run_apply_leaves|intros ?; apply persist_leaves].
Qed.

Lemma retry_retains q : retains (retry_failed_domain_endpoints q).
Proof.
  unfold retry_failed_domain_endpoints.
  do 2 (apply retains_bind; [by apply leaves_retains|intros ?]).
  apply retains_bind; [apply leaves_retains, domain_apply_record_leaves|intros record].
  do 2 (apply retains_bind; [by apply leaves_retains|intros ?]). apply apply_domain_retains.
Qed.

Lemma audit_device_leaves drifted d : leaves_registry (audit_device drifted d).
Proof. unfold audit_device, fetch_device_state_from_adapter, service_emit. leaves. Qed.

Lemma run_drift_audit_leaves device_ids : leaves_registry (run_drift_audit device_ids).
Proof.
  unfold run_drift_audit. apply leaves_bind; [apply leaves_foldM, audit_device_leaves|intros ?].
  unfold service_emit. leaves.
Qed.

Lemma call_retains c : retains (service_call c).
Proof.
  destruct c; unfold service_call; (apply retains_bind; [|intros; try case_match; by apply leaves_retains]);
    try apply apply_domain_retains; try apply retry_retains; apply leaves_retains;
    try apply run_drift_audit_leaves;
    unfold service_initialize_underlay_site, service_register_device, service_onboard_device,
      apply_intent, run_apply, dry_run, dry_run_domain, dry_run_states, refresh_state,
      get_device_state, fetch_device_state_from_adapter, service_recover_pending_transactions,
      service_list_in_doubt_transactions, service_force_unlock, get_domain_apply_compensation_plan,
      domain_apply_record; leaves.
  - intros s. unfold service_force_resolve_transaction.
    by destruct (force_resolve_transaction _ _ _ _) as [x [w p]].
  - intros s. unfold list_operation_summaries. by destruct (_ (operation_summaries _)).
Qed.

Lemma restart_keeps s : keeps s (restart s).
Proof. by split; [|intros k r [? ?]; split]. Qed.

Lemma serve_keeps steps s : keeps s (serve steps s).
Proof.
  induction steps as [|step steps IH] in s |- *; simpl; [done|]. trans (serve_step step s); [|apply IH].
  destruct step; [apply call_retains|apply leaves_retains|apply restart_keeps].
  unfold service_recover_timed_out_confirmed_commits, service_now. leaves.
Qed.

(** A request whose key is on record is answered from the record. *)
Lemma replayed q k fp desired r s x s' :
  admits q k fp desired → recorded k r s → apply_domain_intent q s = (x, s') →
  (∃ reg, s' = set_registry reg s) ∧
  match x with
  | Ok resp => fingerprint r = fp ∧
      resp = annotate_apply_idempotency_response (response r) (adr_request_id q) (trace_of q) k true
  | Err e => e = idempotency_payload_mismatch_error k ∧ fingerprint r ≠ fp ∨
      (idem_get k (idem_store (sv_apply_idempotency s))).1 = Err e
  end.
Proof.
  intros Ha Hr. rewrite (apply_domain_admitted _ _ _ _ _ Ha).
  unfold apply_with_key, mbind at 1, ST_bind at 1.
  destruct (with_registry (slot k) s) as [held s1] eqn:Hslot.
  pose proof Hslot as Hs. apply slot_spec in Hs as (Hreg & _ & Hheld).
  destruct held as [held|e].
  - destruct (Hheld _ eq_refl) as (_ & _ & Hrec). rewrite (Hrec r Hr).
    case_decide as Hfp; intros [= <- <-]; auto.
  - intros [= <- <-]. split; [done|]. right. revert Hslot. unfold with_registry, slot.
    destruct (entries (sv_apply_idempotency s) !! k); [by intros [=]|].
    destruct (idem_get k (idem_store _)) as [[v|e'] st]; [by intros [=]|]. by intros [= -> _].
Qed.

End service.
