(* ===== verification/ApplyScope.v ===== *)
(** * Which applies exclude each other (src/api/service.rs, src/tx/domain_lock.rs)

    The lock keys of a request, as [apply_scope_lock_keys] builds and [DomainApplyLockTable]
    normalizes them, and exactly when two requests share one. *)
From S2P Require Export Service.

(** ** Keys are trimmed already *)

Lemma suffix_app_cases {A} (l k1 k2 : list A) :
  l `suffix_of` k1 ++ k2 → l `suffix_of` k2 ∨ ∃ l', l' ≠ [] ∧ l = l' ++ k2 ∧ l' `suffix_of` k1.
Proof.
  intros [k Hk]. apply app_eq_inv in Hk as [(l' & -> & ->)|(k' & -> & ->)].
  - destruct l' as [|a l']; [left; by exists []|]. right. exists (a :: l').
    split_and!; [done..|]. by exists k.
  - left. by exists k'.
Qed.

Lemma trimmed_prefixed (p x : string) a :
  head (bytes p) = Some a → last (bytes p) = Some ":"%char →
  Forall (λ w, head w ≠ Some a ∧ ":"%char ∉ w) whitespace → x ≠ "" → trimmed x →
  trimmed (p +:+ x).
Proof.
  unfold trimmed. rewrite bytes_app. intros Ha Hl Hw Hx [_ Hend]. rewrite Forall_forall in Hw.
  split; intros w Hin; destruct (Hw w Hin) as [Hh Hc].
  - destruct (bytes p) as [|b p']; [done|]. intros [k Hk].
    destruct w as [|c w]; [by apply whitespace_nonempty in Hin|]. by simplify_eq/=.
  - intros [Hs|(l' & Hne & -> & [k Hk])]%suffix_app_cases; [by apply (Hend w)|].
    rewrite Hk, last_app in Hl. destruct (last l') as [c|] eqn:Hc'; [|by apply last_None in Hc'].
    simplify_eq. apply last_Some_elem_of in Hc'. set_solver.
Qed.

(** ** The shape of the keys *)

Lemma component_Ok field value c :
  normalized_lock_component field value = Ok c → c = trim value ∧ c ≠ "" ∧ ":"%char ∉ bytes c.
Proof.
  unfold normalized_lock_component. destruct (str_is_empty (trim value)) eqn:He; [done|].
  destruct (str_contains _ _) eqn:Hc; [done|]. intros [= <-].
  split_and!; [done|by apply str_is_empty_false|]. revert Hc. unfold str_contains.
  generalize (bytes (trim value)). intros l. induction l as [|b l IH]; simpl; [set_solver|].
  rewrite orb_false_iff. intros [Hb Hl]. apply bool_decide_eq_false in Hb.
  apply not_elem_of_cons. split; [|by apply IH]. intros <-. destruct Hb. by exists l.
Qed.

Lemma traverse_Ok {E A B} (f : A → result E B) l ys :
  traverse f l = Ok ys → Forall2 (λ x y, f x = Ok y) l ys.
Proof.
  revert ys. induction l as [|x l IH]; simpl; intros ys; [intros [= <-]; constructor|].
  intros (y & Hy & (ys' & Hys & [= <-])%bind_Ok)%bind_Ok. constructor; auto.
Qed.
Lemma Forall2_In_l {A B} (R : A → B → Prop) l k x : Forall2 R l k → x ∈ l → ∃ y, y ∈ k ∧ R x y.
Proof. induction 1; set_solver. Qed.
Lemma Forall2_In_r {A B} (R : A → B → Prop) l k y : Forall2 R l k → y ∈ k → ∃ x, x ∈ l ∧ R x y.
Proof. induction 1; set_solver. Qed.

Section keys.
Context (q : ApplyDomainIntentRequest).
Notation dom := (trim (Intent.domain_id (adr_intent q))).

(** The keys a request asks for. *)
Inductive scope_key : string → Prop :=
  | key_domain : scope_key ("domain:" +:+ dom)
  | key_region r : opt_lock_scope (adr_options q) = ScopeRegion →
      opt_region_id (adr_options q) = Some r → scope_key ("region:" +:+ trim r)
  | key_pair e : opt_lock_scope (adr_options q) = ScopeSwitchPair →
      e ∈ endpoints (adr_intent q) →
      scope_key ("switch_pair:" +:+ dom +:+ ":" +:+ trim (me_endpoint_id e)).

(** Components are trimmed and hold no colon. *)
Lemma scope_keys_spec keys :
  apply_scope_lock_keys q = Ok keys →
  dom ≠ "" ∧ ":"%char ∉ bytes dom ∧ Forall (λ k, trimmed k ∧ k ≠ "") keys ∧
  ∀ k, k ∈ keys ↔ scope_key k.
Proof.
  unfold apply_scope_lock_keys. intros (d & (-> & Hd & Hc)%component_Ok & H)%bind_Ok.
  split; [done|]. split; [done|].
  assert (trimmed ("domain:" +:+ dom)) as Hdom.
  { apply (trimmed_prefixed _ _ "d"%char); [done|done| |done|apply trim_trimmed].
    by apply (bool_decide_unpack _). }
  destruct (opt_lock_scope (adr_options q)) eqn:Hs.
  - simplify_eq. split; [by apply Forall_singleton|]. intros k. rewrite list_elem_of_singleton.
    split; [intros ->; constructor|]. intros []; congruence.
  - apply bind_Ok in H as (r & Hr & (r' & (-> & Hr' & _)%component_Ok & [= <-])%bind_Ok).
    destruct (opt_region_id (adr_options q)) as [r0|] eqn:Hro; simplify_eq/=. split.
    + rewrite !Forall_cons. split_and!; [done..| |done|done].
      apply (trimmed_prefixed _ _ "r"%char); [done|done| |done|apply trim_trimmed].
      by apply (bool_decide_unpack _).
    + intros k. rewrite elem_of_cons, list_elem_of_singleton. split.
      * intros [Hk|Hk]; subst k; [constructor|by apply key_region].
      * intros []; [by left|right|]; congruence.
  - apply bind_Ok in H as (ks & Hks%traverse_Ok & H).
    assert (keys = sort_dedup (ks ++ ["domain:" +:+ dom])) as -> by (by destruct ks; simplify_eq).
    clear H. destruct (sort_dedup_spec (ks ++ ["domain:" +:+ dom])) as (_ & _ & Hin). split.
    + apply Forall_forall. intros k. rewrite Hin, elem_of_app, list_elem_of_singleton.
      intros [Hk|Hk]; [|by subst k].
      destruct (Forall2_In_r _ _ _ _ Hks Hk) as (e & _ & (e' & (-> & He & _)%component_Ok & [= <-])%bind_Ok).
      split; [|done]. rewrite <-!string_app_assoc.
      apply (trimmed_prefixed _ _ "s"%char); [done| | |done|apply trim_trimmed].
      * by rewrite !bytes_app, last_app.
      * by apply (bool_decide_unpack _).
    + intros k. rewrite Hin, elem_of_app, list_elem_of_singleton. split.
      * intros [Hk|Hk]; [|subst k; constructor].
        destruct (Forall2_In_r _ _ _ _ Hks Hk) as (e & Hel & (e' & (-> & _)%component_Ok & [= <-])%bind_Ok).
        by apply key_pair.
      * intros [|r|e _ He]; [by right|congruence|left].
        by destruct (Forall2_In_l _ _ _ _ Hks He) as (k' & Hk & (e' & (-> & _)%component_Ok & [= <-])%bind_Ok).
Qed.
End keys.

(** ** What the lock table makes of them *)

Lemma normalize_trimmed keys :
  Forall (λ k, trimmed k ∧ k ≠ "") keys → traverse normalize_scope_key keys = Ok keys.
Proof.
  induction 1 as [|k keys [Ht Hne] _ IH]; [done|]. cbn [traverse].
  assert (normalize_scope_key k = Ok k) as ->.
  { unfold normalize_scope_key. rewrite trimmed_trim by done. by apply str_is_empty_false in Hne as ->. }
  simpl. by rewrite IH.
Qed.

Lemma table_keys_spec q keys ordered :
  apply_scope_lock_keys q = Ok keys → normalize_scope_keys keys = Ok ordered →
  trim (Intent.domain_id (adr_intent q)) ≠ "" ∧
  ":"%char ∉ bytes (trim (Intent.domain_id (adr_intent q))) ∧ ∀ k, k ∈ ordered ↔ scope_key q k.
Proof.
  intros (Hd & Hc & Ht & Hin)%scope_keys_spec. unfold normalize_scope_keys.
  rewrite normalize_trimmed by done. simpl. case_bool_decide; [done|]. intros [= <-].
  split_and!; [done..|]. intros k. rewrite elem_of_bs_elems. unfold bs_collect.
  by rewrite elem_of_list_to_set, Hin.
Qed.

Lemma before_colon (a b x y : list ascii) :
  ":"%char ∉ a → ":"%char ∉ b → a ++ ":"%char :: x = b ++ ":"%char :: y → a = b.
Proof.
  revert b. induction a as [|c a IH]; intros [|d b] Ha Hb; simpl; intros H; simplify_eq;
    [done|set_solver..|]. f_equal. apply IH; [set_solver..|done].
Qed.

(** Two applies hold a lock in common, and so exclude each other, exactly when their
    domain ids agree up to surrounding white space, or both lock a region and the region ids
    do: whatever scope a request chooses it excludes every other apply of its domain, and no
    two unrelated requests wait for each other. *)
Theorem applies_exclude_iff q1 q2 keys1 keys2 ordered1 ordered2 :
  apply_scope_lock_keys q1 = Ok keys1 → normalize_scope_keys keys1 = Ok ordered1 →
  apply_scope_lock_keys q2 = Ok keys2 → normalize_scope_keys keys2 = Ok ordered2 →
  (∃ k, k ∈ ordered1 ∧ k ∈ ordered2) ↔
  trim (Intent.domain_id (adr_intent q1)) = trim (Intent.domain_id (adr_intent q2)) ∨
  opt_lock_scope (adr_options q1) = ScopeRegion ∧ opt_lock_scope (adr_options q2) = ScopeRegion ∧
    (trim <$> opt_region_id (adr_options q1)) = (trim <$> opt_region_id (adr_options q2)).
Proof.
  intros Ha1 Hn1 Ha2 Hn2.
  destruct (table_keys_spec _ _ _ Ha1 Hn1) as (_ & Hc1 & Hk1).
  destruct (table_keys_spec _ _ _ Ha2 Hn2) as (_ & Hc2 & Hk2).
  setoid_rewrite Hk1. setoid_rewrite Hk2. split.
  - intros (k & H1 & H2). destruct H1 as [|r1 Hs1 Hr1|e1 Hs1 _]; inversion H2 as [Hk|r2 Hs2 Hr2 Hk|e2 Hs2 _ Hk].
    + left. symmetry. exact Hk.
    + right. assert (trim r2 = trim r1) as Hr by exact Hk. rewrite Hr1, Hr2. simpl. by rewrite Hr.
    + left. apply (f_equal bytes) in Hk. rewrite !bytes_app in Hk.
      apply (inj bytes). symmetry. eapply before_colon; [exact Hc2|exact Hc1|exact Hk].
  - intros [Hd|(Hs1 & Hs2 & Hr)].
    + exists ("domain:" +:+ trim (Intent.domain_id (adr_intent q1))).
      split; [constructor|]. rewrite Hd. constructor.
    + revert Ha1 Ha2. unfold apply_scope_lock_keys. rewrite Hs1, Hs2.
      intros (d1 & _ & (r1 & Hr1 & _)%bind_Ok)%bind_Ok (d2 & _ & (r2 & Hr2 & _)%bind_Ok)%bind_Ok.
      destruct (opt_region_id (adr_options q1)) as [r1'|] eqn:Ho1; [|done].
      destruct (opt_region_id (adr_options q2)) as [r2'|] eqn:Ho2; [|done]. simplify_eq/=.
      exists ("region:" +:+ trim r1). split; [by apply key_region|]. rewrite Hr. by apply key_region.
Qed.


(** A service with in-memory stores, two leaves that do what they are told, and requests to
    it: a pod and its region. *)
Module ServiceSample.
Definition leaf (id : string) : DeviceId * ManagedDevice :=
  (mkDeviceId id, mkManagedDevice (mkDeviceInfo "t1" "s1" (mkDeviceId id) "10.0.0.1" 830 None None
     LeafA "vault:leaf" TrustOnFirstUse "http://adapter" Ready) (Some ApplySample.profile)).
Definition env : Env :=
  {| now_unix_secs n := N.of_nat n; new_tx_id n := "tx-" +:+ fmt_usize n;
     acquire_endpoint _ _ := Ok tt; acquire_many _ _ := Ok tt; pool_client _ _ := Ok tt;
     get_current_state_for_desired _ _ desired :=
       Ok (mkDeviceShadowState (ds_device_id desired) 0 ∅ ∅ ∅ ∅ ∅ ∅ []);
     get_capabilities _ _ := Ok ApplySample.profile; adapter _ := ApplySample.obey |}.
Definition se : ServiceEnv (Z:=PermitAll.Policy) :=
  {| se_env := env; se_confirmed_commit_timeout_secs := 120;
     se_authorization_policy := PermitAll.mkPolicy;
     se_get_current_state _ info := Ok (mkDeviceShadowState (info_id info) 0 ∅ ∅ ∅ ∅ ∅ ∅ []);
     se_force_unlock _ _ _ _ _ _ := Err (Internal "unused");
     se_endpoint_from_shared _ := Ok tt; se_to_string operation _ _ := Ok operation |}.
Definition service :
    AriaUnderlayService (J:=InMemoryJournal.Store) (S:=InMemoryShadow.Store)
      (I:=InMemoryIdempotency.Store) (D:=InMemoryDomainRecords.Store)
      (O:=InMemoryOperationSummaries.Store) (U:=NoopOperationAudit.Store)
      (P:=NoopProductAudit.Store) (K:=InMemorySecrets.Store) :=
  {| sv_world := ApplySample.world []; sv_inventory := list_to_map [leaf "leaf-a"; leaf "leaf-b"];
     sv_apply_idempotency := mkApplyIdempotencyRegistry ∅ (InMemoryIdempotency.mkStore ∅);
     sv_domain_apply_records := InMemoryDomainRecords.mkStore ∅;
     sv_event_sink := mkSinkState [] (InMemoryOperationSummaries.mkStore []) None;
     sv_product_audit := NoopProductAudit.mkStore; sv_secret_store := ∅ |}.
Definition pod (name : string) : UnderlayDomainIntent :=
  let i := RetrySample.fabric in
  mkUnderlayDomainIntent name (topology i) (take 2 (endpoints i)) (members i) (di_vlans i)
    (di_interfaces i) [] [] [] [] [] [] [] [] [] [].
Definition request (id name : string) (key : option string) (scope : ApplyLockScope)
    (region : option string) : ApplyDomainIntentRequest :=
  mkApplyDomainIntentRequest id None key (pod name)
    (mkApplyOptions false false ReportOnly scope region).
Definition first : ApplyDomainIntentRequest := request "req-1" "pod-1" (Some "k1") ScopeDomain None.
Definition again : ApplyDomainIntentRequest := request "req-2" "pod-1" (Some " k1 ") ScopeDomain None.
End ServiceSample.

Example service_sample_applies :
  let '(x, s) := apply_domain_intent ServiceSample.se ServiceSample.first ServiceSample.service in
  (resp_status <$> x) = Ok Success ∧ length (w_trace (sv_world s)) = 24%nat ∧
  (reused <$> (apply_domain_intent ServiceSample.se ServiceSample.again s).1) = Ok true.
Proof. vm_compute. auto. Qed.


Lemma applies_exclude_iff_witness :
  ∃ k, k ∈ ["domain:pod-1"; "region:eu"] ∧ k ∈ ["domain:pod-1"].
Proof.
  apply (applies_exclude_iff
    (ServiceSample.request "req-1" " pod-1" None ScopeRegion (Some "eu"))
    (ServiceSample.request "req-2" "pod-1 " None ScopeDomain None)
    ["domain:pod-1"; "region:eu"] ["domain:pod-1"]); try (vm_compute; reflexivity).
  left. vm_compute. reflexivity.
Defined.
