(* ===== verification/HaService.v ===== *)
(** * The service behind a lease (src/api/service.rs)

    [ActivePassiveAriaUnderlayService] checks its lease before every call but one;
    [HaProtectedAriaUnderlayService] is that or a plain service, as the startup policy
    says.  The state is the service and the directory of the lease file. *)
From S2P Require Export ApplyScope.
Local Open Scope N_scope.

Inductive HaLeaseMode := StandaloneAllowed | RequireActiveLease.
Record HaLeaseStartupPolicy := mkHaLeaseStartupPolicy {
  hp_mode : HaLeaseMode;
  hp_lease_config : option ActiveLeaseConfig;
}.
Definition standalone_allowed : HaLeaseStartupPolicy := mkHaLeaseStartupPolicy StandaloneAllowed None.
Definition require_active_lease (c : option ActiveLeaseConfig) : HaLeaseStartupPolicy :=
  mkHaLeaseStartupPolicy RequireActiveLease c.

Inductive HaProtected :=
  | Standalone
  | ActivePassive (lease : ActiveLeaseGuard) (startup_recovery : RecoveryReport).
Definition is_standalone (h : HaProtected) : bool :=
  match h with Standalone => true | ActivePassive _ _ => false end.
Definition is_active_passive (h : HaProtected) : bool :=
  match h with Standalone => false | ActivePassive _ _ => true end.
Definition ha_startup_recovery (h : HaProtected) : option RecoveryReport :=
  match h with Standalone => None | ActivePassive _ r => Some r end.

Section ha.
Context {J S I D O U P Z K : Type}.
Context `{!TxJournalStore J} `{!ShadowStateStore S} `{!ApplyIdempotencyStore I}.
Context `{!DomainApplyRecordStore D} `{!OperationSummaryStore O} `{!OperationAuditStore U}.
Context `{!ProductAuditStore P} `{!AuthorizationPolicy Z} `{!SecretStore K}.
Context (se : ServiceEnv (Z:=Z)).
Context (o : FsOracle) (codec : Codec ActiveLeaseRecord) (clock : nat → N)
  (new_token : nat → string) (spawn : nat → result string unit).
Notation Svc := (AriaUnderlayService (J:=J) (S:=S) (I:=I) (D:=D) (O:=O) (U:=U) (P:=P) (K:=K)).
Notation HM := (ST UnderlayError (Svc * Fs)).

Definition on_service {A} (m : ST UnderlayError Svc A) : HM A := λ '(s, f),
  let '(x, s') := m s in (x, (s', f)).
Definition on_lease {A} (m : ST UnderlayError Fs A) : HM A := λ '(s, f),
  let '(x, f') := m f in (x, (s, f')).

Definition ensure_active (lease : ActiveLeaseGuard) : HM unit :=
  on_lease (ensure_current o codec clock lease).
(** The plan of a compensation is read without the lease. *)
Definition needs_lease (c : ServiceCall) : bool :=
  match c with CGetDomainApplyCompensationPlan _ => false | _ => true end.
Definition active_passive_call (lease : ActiveLeaseGuard) (c : ServiceCall) : HM ServiceAnswer :=
  _ ← (if needs_lease c then ensure_active lease else mret tt);
  on_service (service_call se c).
Definition ha_call (h : HaProtected) (c : ServiceCall) : HM ServiceAnswer :=
  match h with
  | Standalone => on_service (service_call se c)
  | ActivePassive lease _ => active_passive_call lease c
  end.

(** An error of the startup recovery drops the guard. *)
Definition activate_active_passive (config : ActiveLeaseConfig) : HM HaProtected :=
  lease ← on_lease (acquire o codec clock new_token spawn config);
  recovered ← st_try (on_service (service_recover_pending_transactions se));
  match recovered with
  | Ok report => mret (ActivePassive lease report)
  | Err e => _ ← on_lease (drop_guard o codec lease); st_fail e
  end.
Definition activate_with_ha_policy (policy : HaLeaseStartupPolicy) : HM HaProtected :=
  match hp_mode policy with
  | StandaloneAllowed => mret Standalone
  | RequireActiveLease =>
      config ← st_lift (ok_or (hp_lease_config policy) ha_lease_required_error);
      activate_active_passive config
  end.

(** ** One active process *)

(** What a process of another token gets while the holder's lease is live: no activation,
    and an error for every call that needs the lease; its service stays as it is. *)
Lemma passive_call_refused g r g' report c s f :
  leased codec f (lg_path g) r → al_token r = lg_token g →
  lg_path g' = lg_path g → lg_token g' ≠ lg_token g → needs_lease c = true →
  let '(x, (s', f')) := ha_call (ActivePassive g' report) c (s, f) in
  is_ok x = false ∧ s' = s ∧ fs_files f' = fs_files f.
Proof.
  intros Hl Ht Hp Hne Hc. unfold ha_call, active_passive_call, ensure_active, on_lease, mbind, ST_bind.
  rewrite Hc. unfold ensure_current, mbind, ST_bind. rewrite Hp.
  destruct (read_lease_record o codec (lg_path g) f) as [x f1] eqn:H1.
  apply (rival_read o codec g r) in H1 as [-> Hx]; [|done].
  destruct x as [r'|e]; [|done]. rewrite (Hx r' eq_refl). cbv beta delta [st_get] iota zeta.
  by rewrite decide_True by congruence.
Qed.

Lemma passive_activation_refused g r config s f :
  leased codec f (lg_path g) r → al_token r = lg_token g →
  lc_path config = lg_path g → lg_ttl_secs g ≤ lc_ttl_secs config →
  (∀ n, (n ≤ fs_calls f + 3)%nat → clock n ≤ al_updated_at r + lg_ttl_secs g) →
  let '(x, (s', f')) := activate_active_passive config (s, f) in
  is_ok x = false ∧ s' = s ∧ fs_files f' = fs_files f.
Proof.
  intros Hl Ht Hp Httl Hn. unfold activate_active_passive, on_lease, mbind, ST_bind.
  destruct (acquire o codec clock new_token spawn config f) as [x f1] eqn:Ha.
  apply (rival_acquire_fails o codec clock new_token spawn g r) in Ha as (Hx & Hf & _); [|done..].
  by destruct x.
Qed.

(** A process that starts active has recovered every transaction it found: its report is
    that of a pass of recovery over the stores. *)
Lemma activation_recovers config h s f s' f' :
  activate_active_passive config (s, f) = (Ok h, (s', f')) →
  ∃ lease report, h = ActivePassive lease report ∧
    (acquire o codec clock new_token spawn config f) = (Ok lease, f') ∧
    service_recover_pending_transactions se s = (Ok report, s').
Proof.
  unfold activate_active_passive, on_lease, on_service, mbind, ST_bind, st_try.
  destruct (acquire _ _ _ _ _ _ f) as [[lease|e] f1] eqn:Ha; [|done].
  destruct (service_recover_pending_transactions se s) as [[report|e] s1] eqn:Hr.
  - intros [= <- <- <-]. eauto.
  - by destruct (drop_guard _ _ _ _) as [[]].
Qed.
End ha.
