(* ===== verification/Gc.v ===== *)
(** * Garbage collection (src/worker/gc.rs)

    The journal's collector deletes records of finished transactions that are old enough,
    the rollback artifacts that go with them, artifacts of transactions nobody knows, and
    artifacts beyond a number per device.  The idempotency collector deletes old records.
    Neither fails: a system call that does is counted in the report.

    The journal is the directory of [FileSystem]; the artifacts are directories of
    transactions in directories of devices, [None] when there is no such root.  All system
    calls share one count, so one oracle says which of them fail. *)
From S2P Require Export Telemetry.
Local Open Scope N_scope.

(** ** Policies and reports *)

Module Collect.

Record Retention := mkRetention {
  committed_journal_retention_days : N;
  rolled_back_journal_retention_days : N;
  failed_journal_retention_days : N;
  rollback_artifact_retention_days : N;
  max_artifacts_per_device : N;
}.
Definition default_retention : Retention := mkRetention 30 30 90 30 50.
Definition validate (p : Retention) : UnderlayResult unit :=
  reject_if (max_artifacts_per_device p =? 0)
    (InvalidIntent "journal GC retention max_artifacts_per_device must be greater than zero").
Definition idempotency_validate (retention_days : N) : UnderlayResult unit :=
  reject_if (retention_days =? 0)
    (InvalidIntent "apply idempotency GC retention_days must be greater than zero").

Record JournalGcReport := mkJournalGcReport {
  journals_deleted : nat;
  journals_retained : nat;
  journals_failed : nat;
  artifacts_deleted : nat;
  artifacts_failed : nat;
  journal_deleted_tx_ids : list string;
  failed_journal_refs : list string;
  artifact_deleted_refs : list string;
  failed_artifact_refs : list string;
}.
Definition empty_report : JournalGcReport := mkJournalGcReport 0 0 0 0 0 [] [] [] [].
Definition deleted_total (r : JournalGcReport) : nat := journals_deleted r + artifacts_deleted r.
Definition sort_details (r : JournalGcReport) : JournalGcReport :=
  mkJournalGcReport (journals_deleted r) (journals_retained r) (journals_failed r)
    (artifacts_deleted r) (artifacts_failed r) (sort (journal_deleted_tx_ids r))
    (sort (failed_journal_refs r)) (sort (artifact_deleted_refs r)) (sort (failed_artifact_refs r)).

Definition record_journal_failure (reference : string) (r : JournalGcReport) : JournalGcReport :=
  if decide (reference ∈ failed_journal_refs r) then r else
  mkJournalGcReport (journals_deleted r) (journals_retained r) (S (journals_failed r))
    (artifacts_deleted r) (artifacts_failed r) (journal_deleted_tx_ids r)
    (failed_journal_refs r ++ [reference]) (artifact_deleted_refs r) (failed_artifact_refs r).
Definition record_artifact_failure (reference : string) (r : JournalGcReport) : JournalGcReport :=
  if decide (reference ∈ failed_artifact_refs r) then r else
  mkJournalGcReport (journals_deleted r) (journals_retained r) (journals_failed r)
    (artifacts_deleted r) (S (artifacts_failed r)) (journal_deleted_tx_ids r)
    (failed_journal_refs r) (artifact_deleted_refs r) (failed_artifact_refs r ++ [reference]).
Definition count_retained (r : JournalGcReport) : JournalGcReport :=
  mkJournalGcReport (journals_deleted r) (S (journals_retained r)) (journals_failed r)
    (artifacts_deleted r) (artifacts_failed r) (journal_deleted_tx_ids r) (failed_journal_refs r)
    (artifact_deleted_refs r) (failed_artifact_refs r).
Definition count_journal_deleted (tx : string) (r : JournalGcReport) : JournalGcReport :=
  mkJournalGcReport (S (journals_deleted r)) (journals_retained r) (journals_failed r)
    (artifacts_deleted r) (artifacts_failed r) (journal_deleted_tx_ids r ++ [tx])
    (failed_journal_refs r) (artifact_deleted_refs r) (failed_artifact_refs r).
Definition count_artifact_deleted (reference : string) (r : JournalGcReport) : JournalGcReport :=
  mkJournalGcReport (journals_deleted r) (journals_retained r) (journals_failed r)
    (S (artifacts_deleted r)) (artifacts_failed r) (journal_deleted_tx_ids r)
    (failed_journal_refs r) (artifact_deleted_refs r ++ [reference]) (failed_artifact_refs r).

(** ** When a record may go *)

Definition is_terminal_phase (p : TxPhase) : bool :=
  match p with Committed | RolledBack | Failed | ForceResolved => true | _ => false end.
Definition journal_retention_days (p : TxPhase) (policy : Retention) : N :=
  match p with
  | Committed => committed_journal_retention_days policy
  | RolledBack => rolled_back_journal_retention_days policy
  | Failed | ForceResolved => failed_journal_retention_days policy
  | _ => U32_MAX
  end.
Definition is_older_than (updated_at now retention_days : N) : bool :=
  if retention_days =? U32_MAX then false else
  let retention_secs := N.min (retention_days * (24 * 60 * 60)) U64_MAX in
  retention_secs <=? u64_saturating_sub now updated_at.
(** [journal_due] *)
Definition journal_due (policy : Retention) (now : N) (r : TxJournalRecord) : bool :=
  is_older_than (updated_at r) now
    (N.max (journal_retention_days (phase r) policy) (rollback_artifact_retention_days policy)).

(** [Path::file_stem] *)
Definition file_stem (name : string) : string :=
  match split_dot (reverse (bytes name)) with
  | Some (_, (_ :: _) as stem) => of_bytes (reverse stem)
  | _ => name
  end.

(** ** The journal's collector *)

Section gc.
Context (o : FsOracle) (codec : Codec TxJournalRecord) (policy : Retention) (now : N).
(** [path_ref] of the two roots. *)
Context (journal_root artifact_root : string).

Notation Artifacts := (gmap string (gset string)).
Record Run := mkRun {
  g_fs : Fs;
  g_artifacts : option Artifacts;
  g_report : JournalGcReport;
}.
Definition on_report (f : JournalGcReport → JournalGcReport) (s : Run) : Run :=
  mkRun (g_fs s) (g_artifacts s) (f (g_report s)).
(** Whether the next system call fails. *)
Definition fails (s : Run) : bool * Run :=
  (bool_decide (is_Some (io_fault o (fs_calls (g_fs s)))),
   mkRun (bump (g_fs s)) (g_artifacts s) (g_report s)).

Definition tx_dirs (device : string) (s : Run) : gset string :=
  default ∅ (default ∅ (g_artifacts s) !! device).
Definition drop_tx_dir (device tx : string) (s : Run) : Run :=
  mkRun (g_fs s)
    ((λ art : Artifacts, <[device := default ∅ (art !! device) ∖ {[tx]}]> art) <$> g_artifacts s)
    (g_report s).
(** [fs::remove_dir_all] of an artifact, counted *)
Definition remove_artifact (device tx : string) (s : Run) : Run :=
  let reference := device +:+ "/" +:+ tx in
  let '(failed, s) := fails s in
  if failed then on_report (record_artifact_failure reference) s
  else on_report (count_artifact_deleted reference) (drop_tx_dir device tx s).

(** [path.exists()] or [path.is_dir()] of a path below the artifacts' root that is there *)
Definition seen (path : string) (s : Run) : bool := stat_ok o (artifact_root +:+ path) (g_fs s).

(** The loop over the device directories, with what to do for one. *)
Definition for_devices (body : string → Run → Run) (s : Run) : Run :=
  match g_artifacts s with
  | None => s
  | Some art =>
      if negb (seen "" s) then s else
      let '(failed, s) := fails s in
      if failed then on_report (record_artifact_failure artifact_root) s else
      foldl (λ s device,
        let '(failed, s) := fails s in
        if failed then on_report (record_artifact_failure artifact_root) s else
        if seen ("/" +:+ device) s then body device s else s)
        s (dir_order o (bt_keys art))
  end.

Definition has_tx_dir (device tx : string) (s : Run) : bool :=
  seen ("/" +:+ device +:+ "/" +:+ tx) s && bool_decide (tx ∈ tx_dirs device s).
Definition delete_artifacts_for_tx (tx : string) : Run → Run :=
  for_devices (λ device s, if has_tx_dir device tx s then remove_artifact device tx s else s).

(** The loop over the transaction directories of a device: orphans go at once, those of
    finished transactions are collected. *)
Definition sort_out_tx (terminal_by_tx : gmap string N) (known_tx_ids : gset string) (device : string)
    (acc : list (N * string) * Run) (tx : string) : list (N * string) * Run :=
  let '(terminal, s) := acc in
  let '(failed, s) := fails s in
  if failed then (terminal, on_report (record_artifact_failure device) s) else
  if negb (seen ("/" +:+ device +:+ "/" +:+ tx) s) then (terminal, s) else
  match terminal_by_tx !! tx with
  | Some updated => (terminal ++ [(updated, tx)], s)
  | None => if decide (tx ∈ known_tx_ids) then (terminal, s)
            else (terminal, remove_artifact device tx s)
  end.
(** Newest first, by time and then by id. *)
Definition newest_first (l : list (N * string)) : list (N * string) :=
  reverse (sort_by_key fst (sort_by_key snd l)).
Definition prune_device (terminal_by_tx : gmap string N) (known_tx_ids : gset string) (max : nat)
    (device : string) (s : Run) : Run :=
  let '(failed, s) := fails s in
  if failed then on_report (record_artifact_failure device) s else
  let '(terminal, s) := foldl (sort_out_tx terminal_by_tx known_tx_ids device) ([], s)
                          (dir_order o (bs_elems (tx_dirs device s))) in
  foldl (λ s '(_, tx), if has_tx_dir device tx s then remove_artifact device tx s else s)
    s (drop max (newest_first terminal)).
Definition prune_artifacts_per_device (terminal_records : list TxJournalRecord)
    (known_tx_ids : gset string) (max : nat) (s : Run) : Run :=
  if (max =? 0)%nat then s else
  let terminal_by_tx := bt_collect ((λ r, (tx_id r, updated_at r)) <$>
        filter (λ r, is_terminal_phase (phase r) = true) terminal_records) in
  for_devices (prune_device terminal_by_tx known_tx_ids max) s.

Definition read_journal_record (name : string) (s : Run) : option TxJournalRecord * Run :=
  let '(failed, s) := fails s in
  (if failed then None else
   text ← fs_files (g_fs s) !! name;
   match decode codec text with Ok r => Some r | Err _ => None end, s).
Definition remove_journal (name tx : string) (s : Run) : Run :=
  let '(failed, s) := fails s in
  if failed || negb (has_file name (g_fs s)) then on_report (record_journal_failure name) s else
  on_report (count_journal_deleted tx)
    (mkRun (set_files (delete name (fs_files (g_fs s))) (g_fs s)) (g_artifacts s) (g_report s)).

(** The records of finished transactions and the ids seen so far. *)
Definition Seen : Type := list TxJournalRecord * gset string.

Definition gc_record (seen : Seen) (name : string) (r : TxJournalRecord) (s : Run) : Seen * Run :=
  let '(terminal, known) := seen in
  let known := {[tx_id r]} ∪ known in
  if negb (is_terminal_phase (phase r)) then ((terminal, known), on_report count_retained s) else
  let artifact_due := is_older_than (updated_at r) now (rollback_artifact_retention_days policy) in
  let s := if journal_due policy now r then remove_journal name (tx_id r) s
           else on_report count_retained s in
  let s := if artifact_due then delete_artifacts_for_tx (tx_id r) s else s in
  ((terminal ++ [r], known), s).
Definition gc_entry (acc : Seen * Run) (name : string) : Seen * Run :=
  let '((terminal, known), s) := acc in
  let '(failed, s) := fails s in
  if failed then ((terminal, known), on_report (record_journal_failure journal_root) s) else
  if decide (extension name = Some "json") then
    let known := {[file_stem name]} ∪ known in
    match read_journal_record name s with
    | (Some r, s) => gc_record (terminal, known) name r s
    | (None, s) => ((terminal, known), on_report (record_journal_failure name) s)
    end
  else ((terminal, known), s).

Definition run_once (s : Run) : Run :=
  if negb (root_exists o (g_fs s)) then s else
  let '(failed, s) := fails s in
  if failed then on_report (sort_details ∘ record_journal_failure journal_root) s else
  let '((terminal_records, known_tx_ids), s) :=
    foldl gc_entry (([], ∅), s) (dir_order o (bt_keys (fs_files (g_fs s)))) in
  let s := prune_artifacts_per_device terminal_records known_tx_ids
             (N.to_nat (max_artifacts_per_device policy)) s in
  on_report sort_details s.
Definition collect (fs : Fs) (artifacts : option Artifacts) : Run :=
  run_once (mkRun fs artifacts empty_report).

(** ** What is kept *)

Lemma terminal_iff p : is_terminal_phase p = negb (requires_recovery p).
Proof. by destruct p. Qed.

(** Names of journal files are told apart by their stems. *)
Lemma json_stem name : extension name = Some "json" → name = json_name (file_stem name).
Proof.
  unfold extension, file_stem. destruct (split_dot _) as [[ext [|c stem]]|] eqn:Hs; [done| |done].
  intros [= Hext]. apply split_dot_Some in Hs as [Hs _].
  assert (reverse ext = bytes "json") as Hext' by (by rewrite <-Hext, bytes_of_bytes).
  apply (inj bytes). unfold json_name. rewrite bytes_app, bytes_of_bytes. apply (inj reverse).
  rewrite Hs, reverse_app, reverse_involutive. simpl. by rewrite <-(reverse_involutive ext), Hext'.
Qed.

(** What a run keeps: a journal file goes only when [file_may_go] says so, an artifact
    only when [artifact_may_go] does. *)
Section invariant.
Context (files : gmap string string) (artifacts : option Artifacts).
Context (file_may_go artifact_may_go : string → Prop).

Definition Inv (s : Run) : Prop :=
  (∀ name, fs_files (g_fs s) !! name = files !! name ∨
           fs_files (g_fs s) !! name = None ∧ file_may_go name) ∧
  (∀ device tx, tx ∈ default ∅ (default ∅ artifacts !! device) →
     tx ∈ tx_dirs device s ∨ artifact_may_go tx).

Lemma Inv_report f s : Inv s → Inv (on_report f s).
Proof. done. Qed.
Lemma Inv_fails s : Inv s → Inv (fails s).2.
Proof. done. Qed.
Lemma Inv_foldl {A} (f : Run → A → Run) l s :
  Inv s → (∀ a s, a ∈ l → Inv s → Inv (f s a)) → Inv (foldl f s l).
Proof.
  revert s. induction l as [|a l IH]; intros s Hs Hf; simpl; [done|].
  apply IH; [apply Hf; set_solver|]. intros a' s' ?. apply Hf. set_solver.
Qed.
Lemma Inv_remove_artifact device tx s :
  artifact_may_go tx → Inv s → Inv (remove_artifact device tx s).
Proof.
  intros Hgo [Hf Ha]. unfold remove_artifact. simpl. case_bool_decide; [done|]. split; [done|].
  intros d t Ht. destruct (Ha d t Ht) as [Hin|]; [|by right]. unfold tx_dirs, drop_tx_dir in *. simpl.
  destruct (g_artifacts s) as [art|]; simpl in *; [|by left].
  destruct (decide (d = device)) as [->|Hd]; [|left; by rewrite lookup_insert_ne].
  rewrite lookup_insert_eq. simpl. destruct (decide (t = tx)) as [->|]; [by right|left; set_solver].
Qed.
Lemma Inv_for_devices body s :
  Inv s → (∀ d s, Inv s → Inv (body d s)) → Inv (for_devices body s).
Proof.
  intros Hs Hb. unfold for_devices. destruct (g_artifacts s) as [art|]; [|done]. simpl.
  destruct (seen "" s); [|done]. simpl.
  case_bool_decide; [done|]. apply Inv_foldl; [done|]. intros d s' _ Hs'. simpl.
  case_bool_decide; [done|]. case_match; [by apply Hb|done].
Qed.
Lemma Inv_delete_artifacts tx s : artifact_may_go tx → Inv s → Inv (delete_artifacts_for_tx tx s).
Proof.
  intros Hgo Hs. apply Inv_for_devices; [done|]. intros d s' Hs'.
  case_match; [by apply Inv_remove_artifact|done].
Qed.

Lemma Inv_sort_out terminal known device l s dirs l' s' :
  (∀ tx, tx ∉ known → terminal !! tx = None → artifact_may_go tx) → Inv s →
  foldl (sort_out_tx terminal known device) (l, s) dirs = (l', s') →
  Inv s' ∧ ∀ p, p ∈ l' → p ∈ l ∨ terminal !! p.2 = Some p.1.
Proof.
  intros Hgo. revert l s. induction dirs as [|tx dirs IH]; intros l s Hs; simpl.
  { intros [= <- <-]. auto. }
  case_bool_decide; [by apply IH|]. destruct (negb (seen _ _)); [by apply IH|].
  destruct (terminal !! tx) as [u|] eqn:Ht.
  - intros [Hi Hl]%IH; [|done]. split; [done|]. intros p [Hp|]%Hl; [|by right].
    rewrite elem_of_app, list_elem_of_singleton in Hp. destruct Hp as [|Hp]; [by left|].
    right. by subst p.
  - case_decide; intros [Hi Hl]%IH; [done..| |]; [by split|]. apply Inv_remove_artifact; auto.
Qed.

Lemma Inv_prune terminal known max s :
  (∀ r, r ∈ terminal → is_terminal_phase (phase r) = true → artifact_may_go (tx_id r)) →
  (∀ tx, tx ∉ known → artifact_may_go tx) → Inv s →
  Inv (prune_artifacts_per_device terminal known max s).
Proof.
  intros Hterm Hgo Hs. unfold prune_artifacts_per_device. case_match; [done|].
  set (by_tx := bt_collect _). apply Inv_for_devices; [done|]. clear s Hs. intros device s Hs.
  unfold prune_device. simpl. case_bool_decide; [done|]. destruct (foldl _ _ _) as [l s1] eqn:Hf.
  apply Inv_sort_out in Hf as [Hs1 Hl]; [|by auto|done]. apply Inv_foldl; [done|].
  intros [u tx] s' Hin Hs'. case_match; [|done]. apply Inv_remove_artifact; [|done].
  apply (subseteq_drop max) in Hin. unfold newest_first in Hin.
  rewrite elem_of_reverse, !elem_of_sort_by_key in Hin. apply Hl in Hin as [|Hin]; [set_solver|].
  simpl in Hin. subst by_tx. apply bt_collect_Some, list_elem_of_fmap in Hin as (r & [= -> ->] & Hr).
  apply list_elem_of_filter in Hr as [? ?]. by apply Hterm.
Qed.

Lemma Inv_remove_journal name tx s : file_may_go name → Inv s → Inv (remove_journal name tx s).
Proof.
  intros Hgo [Hf Ha]. unfold remove_journal. simpl. case_match; [done|]. split; [|done].
  intros name'. simpl. destruct (decide (name' = name)) as [->|Hn].
  - right. split; [apply lookup_delete_eq|done].
  - rewrite lookup_delete_ne by done. apply Hf.
Qed.
End invariant.

(** *** The failures a report names

    Deleting artifacts leaves the failures of the journal alone, and nothing takes
    one back. *)
Notation journal_failures s := (failed_journal_refs (g_report s)).

Lemma remove_artifact_failures device tx s :
  journal_failures (remove_artifact device tx s) = journal_failures s.
Proof.
  unfold remove_artifact. simpl. case_bool_decide; [|done]. simpl.
  unfold record_artifact_failure. by case_decide.
Qed.
Lemma artifact_failure_failures reference s :
  journal_failures (on_report (record_artifact_failure reference) s) = journal_failures s.
Proof. simpl. unfold record_artifact_failure. by case_decide. Qed.
Lemma foldl_failures {A} (f : Run → A → Run) l s :
  (∀ s a, journal_failures (f s a) = journal_failures s) →
  journal_failures (foldl f s l) = journal_failures s.
Proof. intros Hf. revert s. induction l as [|a l IH]; intros s; simpl; [done|]. by rewrite IH. Qed.
Lemma for_devices_failures body s :
  (∀ d s, journal_failures (body d s) = journal_failures s) →
  journal_failures (for_devices body s) = journal_failures s.
Proof.
  intros Hb. unfold for_devices. destruct (g_artifacts s) as [art|]; [|done]. simpl.
  destruct (seen "" s); [|done]. simpl. case_bool_decide; [by rewrite artifact_failure_failures|].
  rewrite foldl_failures; [done|]. intros s' d. simpl.
  case_bool_decide; [by rewrite artifact_failure_failures|]. case_match; [by rewrite Hb|done].
Qed.
Lemma delete_artifacts_failures tx s :
  journal_failures (delete_artifacts_for_tx tx s) = journal_failures s.
Proof.
  apply for_devices_failures. intros d s'. case_match; [apply remove_artifact_failures|done].
Qed.
Lemma sort_out_failures terminal known device acc dirs :
  journal_failures (foldl (sort_out_tx terminal known device) acc dirs).2 = journal_failures acc.2.
Proof.
  revert acc. induction dirs as [|tx dirs IH]; intros [l s]; simpl; [done|]. rewrite IH.
  case_bool_decide; [by rewrite <-(artifact_failure_failures device s)|]. case_match; [done|].
  case_match; [done|]. case_decide; [done|]. simpl. by rewrite remove_artifact_failures.
Qed.
Lemma prune_failures terminal known max s :
  journal_failures (prune_artifacts_per_device terminal known max s) = journal_failures s.
Proof.
  unfold prune_artifacts_per_device. case_match; [done|]. apply for_devices_failures.
  clear s. intros device s. unfold prune_device. simpl.
  case_bool_decide; [by rewrite <-(artifact_failure_failures device s)|].
  destruct (foldl _ _ _) as [l s1] eqn:Hf. rewrite foldl_failures.
  - apply (f_equal snd) in Hf. simpl in Hf. subst s1. by rewrite sort_out_failures.
  - intros s' [u tx]. case_match; [apply remove_artifact_failures|done].
Qed.
Lemma journal_failure_subseteq reference r :
  failed_journal_refs r ⊆ failed_journal_refs (record_journal_failure reference r) ∧
  reference ∈ failed_journal_refs (record_journal_failure reference r).
Proof. unfold record_journal_failure. case_decide; simpl; set_solver. Qed.
Lemma remove_journal_failures name tx s :
  journal_failures s ⊆ journal_failures (remove_journal name tx s).
Proof. unfold remove_journal. simpl. case_match; [apply journal_failure_subseteq|done]. Qed.
Lemma sort_details_failures r x :
  x ∈ failed_journal_refs (sort_details r) ↔ x ∈ failed_journal_refs r.
Proof. simpl. unfold sort. apply elem_of_sort_by_key. Qed.

(** ** Scanning the journal *)

Section scan.
Context (fs : Fs) (artifacts : option Artifacts).
Notation files := (fs_files fs).

(** The record of a file, when it has one. *)
Definition record_at (name : string) (r : TxJournalRecord) : Prop :=
  ∃ text, files !! name = Some text ∧ decode codec text = Ok r.
(** Files are named after the transactions they hold. *)
Definition named_after : Prop := ∀ name r,
  extension name = Some "json" → record_at name r → file_stem name = tx_id r.
(** A transaction that is not known to be finished. *)
Definition unfinished (tx : string) : Prop := ∃ name,
  extension name = Some "json" ∧ file_stem name = tx ∧ is_Some (files !! name) ∧
  ∀ r, record_at name r → requires_recovery (phase r) = true.

Definition expired (name : string) : Prop := ∃ r,
  record_at name r ∧ requires_recovery (phase r) = false ∧ journal_due policy now r = true.
(** The report names no failure to list the journal's directory. *)
Definition all_listed (s : Run) : Prop := journal_root ∉ failed_journal_refs (g_report s).
Definition may_go (tx : string) : Prop :=
  all_listed (collect fs artifacts) → named_after → ¬ unfinished tx.
Notation Inv := (Inv files artifacts expired may_go).

Lemma finished_may_go name r :
  extension name = Some "json" → record_at name r → requires_recovery (phase r) = false →
  may_go (tx_id r).
Proof.
  intros Hx Hr Hf _ Hn (name' & Hx' & Hst & _ & Hall).
  assert (name' = name) as ->.
  { rewrite (json_stem name'), (json_stem name) by done. by rewrite Hst, (Hn name r). }
  specialize (Hall r Hr). congruence.
Qed.

(** After the files [done]: what was collected is finished, and what was not is known. *)
Definition scanned (done : list string) (acc : Seen * Run) : Prop :=
  let '((terminal, known), s) := acc in
  Inv s ∧
  (∀ r, r ∈ terminal → ∃ name, extension name = Some "json" ∧ record_at name r ∧
     requires_recovery (phase r) = false) ∧
  (all_listed s → ∀ name, name ∈ done → extension name = Some "json" → file_stem name ∈ known).

Lemma read_journal_spec name s r s' :
  Inv s → read_journal_record name s = (Some r, s') →
  Inv s' ∧ record_at name r ∧ journal_failures s' = journal_failures s.
Proof.
  intros Hs. unfold read_journal_record. simpl. intros [= Hr <-]. split_and!; [done| |done].
  case_bool_decide; [done|]. apply bind_Some in Hr as (text & Ht & Hd).
  destruct (decode codec text) as [r'|e] eqn:Hdec; simplify_eq. exists text. split; [|done].
  destruct Hs as [Hf _]. destruct (Hf name) as [<-|[Hnone _]]; [done|congruence].
Qed.

Lemma gc_record_scanned done terminal known s name r :
  scanned done ((terminal, known), s) → extension name = Some "json" → record_at name r →
  file_stem name ∈ known →
  scanned (done ++ [name]) (gc_record (terminal, known) name r s).
Proof.
  intros (Hs & Ht & Hk) Hx Hr Hst. unfold gc_record.
  assert (all_listed s → ∀ n, n ∈ done ++ [name] → extension n = Some "json" →
    file_stem n ∈ {[tx_id r]} ∪ known) as Hk'.
  { intros Hrel n [Hn|Hn%list_elem_of_singleton]%elem_of_app Hxn; [set_solver|]. set_solver. }
  destruct (is_terminal_phase (phase r)) eqn:Hp; simpl; [|done].
  rewrite terminal_iff in Hp. apply negb_true_iff in Hp.
  assert (may_go (tx_id r)) as Hgo by by eapply finished_may_go.
  set (s1 := if journal_due policy now r then _ else _).
  assert (Inv s1 ∧ journal_failures s ⊆ journal_failures s1) as [Hs1 Hf1].
  { subst s1. destruct (journal_due policy now r) eqn:Hd; [|done].
    split; [|apply remove_journal_failures]. apply Inv_remove_journal; [|done]. by exists r. }
  split_and!.
  - destruct (is_older_than _ _ _); [by apply Inv_delete_artifacts|done].
  - intros r' [Hr'|Hr'%list_elem_of_singleton]%elem_of_app; [by apply Ht|]. subst r'. eauto.
  - intros Hl. apply Hk'. intros Hin. apply Hl.
    destruct (is_older_than _ _ _); [rewrite delete_artifacts_failures|]; by apply Hf1.
Qed.

Lemma gc_entry_scanned done acc name :
  scanned done acc → scanned (done ++ [name]) (gc_entry acc name).
Proof.
  destruct acc as [[terminal known] s]. intros (Hs & Ht & Hk). unfold gc_entry, fails.
  cbv beta iota. case_bool_decide as Hf.
  { split_and!; [done..|]. intros Hl. destruct Hl. apply journal_failure_subseteq. }
  case_decide as Hx.
  2:{ split_and!; [done..|]. intros Hrel n [Hn|Hn%list_elem_of_singleton]%elem_of_app; [by apply Hk|].
      by subst n. }
  destruct (read_journal_record name _) as [[r|] s1] eqn:Hread.
  - apply read_journal_spec in Hread as (Hs1 & Hr & Heq); [|done].
    apply gc_record_scanned; [|done|done|set_solver].
    split_and!; [done..|]. unfold all_listed. rewrite Heq. intros Hrel n Hn Hxn.
    specialize (Hk Hrel n Hn Hxn). set_solver.
  - unfold read_journal_record in Hread. simpl in Hread. injection Hread as _ <-.
    split_and!; [done..|]. intros Hl. assert (all_listed s) as Hrel.
    { intros Hin. apply Hl. by apply journal_failure_subseteq. }
    intros n [Hn|Hn%list_elem_of_singleton]%elem_of_app Hxn;
      [specialize (Hk Hrel n Hn Hxn)|subst n]; set_solver.
Qed.

Lemma scan_all names acc : scanned [] acc → scanned names (foldl gc_entry acc names).
Proof.
  intros Hacc. induction names as [|name names IH] using rev_ind; [done|].
  rewrite foldl_app. simpl. by apply gc_entry_scanned.
Qed.

Lemma collect_Inv : Inv (collect fs artifacts).
Proof.
  assert (Inv (mkRun fs artifacts empty_report)) as H0 by by split; auto.
  destruct (collect fs artifacts) as [f1 a1 r1] eqn:Hc. rewrite <-Hc. pose proof Hc as Hcol.
  revert Hc. unfold collect, run_once, fails. cbv beta iota.
  case_match; [done|]. case_bool_decide; [done|].
  set (s0 := mkRun _ _ _). set (names := dir_order o _).
  pose proof (scan_all names (([], ∅), s0)) as Hscan.
  destruct (foldl gc_entry (([], ∅), s0) names) as [[terminal known] s1].
  destruct Hscan as (Hs1 & Ht & Hk); [split_and!; [done|set_solver|set_solver]|]. intros Hc.
  apply Inv_report, Inv_prune; [|intros tx Htx|done].
  - intros r Hr _. destruct (Ht r Hr) as (name & Hx & Hat & Hf). by eapply finished_may_go.
  - intros Hl _ (name & Hx & Hst & [text Hfile] & _). apply Htx. rewrite <-Hst.
    apply Hk; [|subst names|done].
    + intros Hin. apply Hl. rewrite Hcol, <-Hc. apply sort_details_failures. by rewrite prune_failures.
    + rewrite dir_order_perm. unfold bt_keys. simpl.
      apply list_elem_of_fmap. exists (name, text). split; [done|]. by apply elem_of_bt_entries.
Qed.
End scan.

(** C24. Collecting garbage loses nothing a recovery needs.  Whatever system call fails, a
    journal file is deleted only when its record is of a finished transaction and older
    than the retention of its phase and of rollback artifacts, and every other file keeps
    its contents.  And when the journal's files are named after their transactions and the
    report names no failure to list the journal's directory, whatever other system call
    fails, the artifacts of a transaction that is unfinished, or whose record cannot be
    parsed, stay. *)
Theorem journal_gc_safe fs artifacts :
  let s := collect fs artifacts in
  (∀ name, fs_files (g_fs s) !! name = fs_files fs !! name ∨
     fs_files (g_fs s) !! name = None ∧
     ∃ r, record_at fs name r ∧ requires_recovery (phase r) = false ∧ journal_due policy now r = true) ∧
  (journal_root ∉ failed_journal_refs (g_report s) → named_after fs → ∀ device tx,
     tx ∈ default ∅ (default ∅ artifacts !! device) → unfinished fs tx → tx ∈ tx_dirs device s).
Proof.
  cbv zeta. destruct (collect_Inv fs artifacts) as [Hf Ha]. split; [exact Hf|].
  intros Hrel Hn device tx Htx Hu. destruct (Ha device tx Htx) as [|Hgo]; [done|].
  by destruct (Hgo Hrel Hn).
Qed.
End gc.

Module GcSample.
Definition fs : Fs := mkFs true {[ "tx-0.json" := "{}" ]} 0.
Definition artifacts : option (gmap string (gset string)) :=
  Some {[ "leaf-a" := {[ "tx-0"; "tx-9" ]} ]}.
Definition run (o : FsOracle) : Run :=
  collect o JournalSample.codec default_retention 9 "journal" "artifacts" fs artifacts.
(** The system call that yields the only entry of the journal's directory fails. *)
Definition entry_fault : FsOracle :=
  mkFsOracle (λ n, if (n =? 1)%nat then Some "EIO" else None) (λ _, 0%nat) (λ l, l)
    (λ _, Permutation_refl _) (λ _, "u") (λ _ _, false).
Lemma sample_named : named_after JournalSample.codec fs.
Proof.
  intros name r _ (text & Ht & Hd). unfold fs in Ht. simpl in Ht.
  apply lookup_singleton_Some in Ht as [<- <-]. vm_compute in Hd. by injection Hd as <-.
Qed.
Lemma sample_unfinished : unfinished JournalSample.codec fs "tx-0".
Proof.
  exists "tx-0.json". split; [reflexivity|]. split; [reflexivity|]. split; [by eexists|].
  intros r (text & Ht & Hd). unfold fs in Ht. simpl in Ht.
  apply lookup_singleton_Some in Ht as [_ <-]. vm_compute in Hd. by injection Hd as <-.
Qed.
End GcSample.

Lemma journal_gc_safe_witness :
  "tx-0" ∈ tx_dirs "leaf-a" (GcSample.run sample_oracle) ∧
  "tx-9" ∉ tx_dirs "leaf-a" (GcSample.run sample_oracle).
Proof.
  split; [|by vm_compute].
  apply (journal_gc_safe sample_oracle JournalSample.codec default_retention 9 "journal" "artifacts"
           GcSample.fs GcSample.artifacts).
  - apply (bool_decide_unpack _). vm_compute. exact I.
  - exact GcSample.sample_named.
  - by vm_compute.
  - exact GcSample.sample_unfinished.
Defined.

(** The premise on the report is needed: an entry that cannot be read leaves its
    transaction unknown, and the artifacts of an unfinished transaction are
    deleted as if they were nobody's. *)
Example unread_entry_loses_artifacts :
  let s := GcSample.run GcSample.entry_fault in
  fs_files (g_fs s) = fs_files GcSample.fs ∧ "tx-0" ∉ tx_dirs "leaf-a" s ∧
  artifact_deleted_refs (g_report s) = ["leaf-a/tx-0"; "leaf-a/tx-9"].
Proof. vm_compute. split_and!; [done|by intros ?|done]. Qed.

(** ** The idempotency collector *)

Record ApplyIdempotencyGcReport := mkApplyIdempotencyGcReport {
  records_deleted : nat;
  records_retained : nat;
  records_failed : nat;
  deleted_refs : list string;
  failed_refs : list string;
}.
Definition empty_idempotency_report : ApplyIdempotencyGcReport :=
  mkApplyIdempotencyGcReport 0 0 0 [] [].
Definition sort_idempotency_details (r : ApplyIdempotencyGcReport) : ApplyIdempotencyGcReport :=
  mkApplyIdempotencyGcReport (records_deleted r) (records_retained r) (records_failed r)
    (sort (deleted_refs r)) (sort (failed_refs r)).
Definition record_apply_idempotency_failure (reference : string) (r : ApplyIdempotencyGcReport)
    : ApplyIdempotencyGcReport :=
  if decide (reference ∈ failed_refs r) then r else
  mkApplyIdempotencyGcReport (records_deleted r) (records_retained r) (S (records_failed r))
    (deleted_refs r) (failed_refs r ++ [reference]).

Section idempotency.
(** [decode_stored_at] parses [stored_at_unix_secs], which defaults to the current time. *)
Context (o : FsOracle) (decode_stored_at : string → result string N) (retention_days now : N).
Context (root : string).
Notation State := (Fs * ApplyIdempotencyGcReport)%type.

Definition call_fails (s : Fs) : bool := bool_decide (is_Some (io_fault o (fs_calls s))).
Definition idempotency_gc_entry (acc : State) (name : string) : State :=
  let '(s, report) := acc in
  if call_fails s then (bump s, record_apply_idempotency_failure root report) else
  let s := bump s in
  if decide (extension name = Some "json") then
    let read := if call_fails s then None else
                text ← fs_files s !! name;
                match decode_stored_at text with Ok t => Some t | Err _ => None end in
    let s := bump s in
    match read with
    | None => (s, record_apply_idempotency_failure name report)
    | Some stored_at =>
        if is_older_than stored_at now retention_days then
          if call_fails s || negb (has_file name s)
          then (bump s, record_apply_idempotency_failure name report)
          else (bump (set_files (delete name (fs_files s)) s),
                mkApplyIdempotencyGcReport (S (records_deleted report)) (records_retained report)
                  (records_failed report) (deleted_refs report ++ [name]) (failed_refs report))
        else (s, mkApplyIdempotencyGcReport (records_deleted report) (S (records_retained report))
                   (records_failed report) (deleted_refs report) (failed_refs report))
    end
  else (s, report).
Definition idempotency_run_once : ST UnderlayError Fs ApplyIdempotencyGcReport := λ s,
  match idempotency_validate retention_days with
  | Err e => (Err e, s)
  | Ok _ =>
      if negb (root_exists o s) then (Ok empty_idempotency_report, s) else
      if call_fails s
      then (Ok (record_apply_idempotency_failure root empty_idempotency_report), bump s)
      else
        let '(s, report) := foldl idempotency_gc_entry (bump s, empty_idempotency_report)
                              (dir_order o (bt_keys (fs_files s))) in
        (Ok (sort_idempotency_details report), s)
  end.

(** Only records past the retention are deleted, and every deletion is reported. *)
Definition old_record (files : gmap string string) (name : string) : Prop :=
  ∃ text t, files !! name = Some text ∧ decode_stored_at text = Ok t ∧
    is_older_than t now retention_days = true.
Definition idempotency_kept (files : gmap string string) (acc : State) : Prop :=
  (∀ name, fs_files acc.1 !! name = files !! name ∨
     fs_files acc.1 !! name = None ∧ old_record files name ∧ name ∈ deleted_refs acc.2).
Lemma idempotency_entry_keeps files acc name :
  idempotency_kept files acc → idempotency_kept files (idempotency_gc_entry acc name).
Proof.
  destruct acc as [s report]. unfold idempotency_kept, idempotency_gc_entry. simpl. intros Hs.
  assert (∀ ref, deleted_refs (record_apply_idempotency_failure ref report) = deleted_refs report) as Hr.
  { intros ref. unfold record_apply_idempotency_failure. by case_decide. }
  case_match; [by setoid_rewrite Hr|]. case_decide; [|done].
  destruct (if call_fails (bump s) then None else _) as [t|] eqn:Hread; [|by setoid_rewrite Hr].
  destruct (call_fails (bump s)); [done|]. apply bind_Some in Hread as (text & Ht & Hd).
  destruct (decode_stored_at text) as [t'|e] eqn:Hdec; simplify_eq.
  destruct (is_older_than _ _ _) eqn:Hold; [|done].
  case_match; [by setoid_rewrite Hr|]. simpl. intros k. destruct (decide (k = name)) as [->|Hk].
  - right. split; [apply lookup_delete_eq|]. split; [|set_solver]. exists text, t.
    split_and!; [|done..]. destruct (Hs name) as [<-|[Hn _]]; [done|]. simpl in Ht. congruence.
  - rewrite lookup_delete_ne by done. destruct (Hs k) as [|(? & ? & ?)]; [by left|right; set_solver].
Qed.
Lemma idempotency_gc_keeps s x s' :
  idempotency_run_once s = (x, s') →
  ∀ name, fs_files s' !! name = fs_files s !! name ∨
    fs_files s' !! name = None ∧ old_record (fs_files s) name ∧
    ∃ report, x = Ok report ∧ name ∈ deleted_refs report.
Proof.
  unfold idempotency_run_once. destruct (idempotency_validate _); [|intros [= <- <-]; auto].
  case_match; [intros [= <- <-]; auto|]. case_match; [intros [= <- <-]; auto|].
  generalize (dir_order o (bt_keys (fs_files s))). intros names.
  assert (idempotency_kept (fs_files s) (foldl idempotency_gc_entry (bump s, empty_idempotency_report) names)) as Hk.
  { induction names as [|n names IH] using rev_ind; [by left|].
    rewrite foldl_app. simpl. by apply idempotency_entry_keeps. }
  destruct (foldl _ _ names) as [s1 report]. intros [= <- <-] name.
  destruct (Hk name) as [|(? & ? & Hin)]; [by left|]. right. split_and!; [done..|].
  eexists. split; [done|]. simpl. unfold sort. by rewrite elem_of_sort_by_key.
Qed.
End idempotency.

(** ** Events (src/telemetry/events.rs) *)

Definition insert_refs (name : string) (refs : list string) (fields : gmap string string)
    : gmap string string :=
  match refs with [] => fields | _ => <[name := join "," refs]> fields end.
Definition journal_gc_completed (req tr : string) (r : JournalGcReport) : UnderlayEvent :=
  mkUnderlayEvent UnderlayJournalGcCompleted req tr None None None None (Some "completed") None None
    (insert_refs "failed_artifact_refs" (failed_artifact_refs r) (
     insert_refs "failed_journal_refs" (failed_journal_refs r) (
     insert_refs "artifact_deleted_refs" (artifact_deleted_refs r) (
     insert_refs "journal_deleted_tx_ids" (journal_deleted_tx_ids r) (
     <["deleted_total" := fmt_usize (deleted_total r)]> (
     <["artifacts_failed" := fmt_usize (artifacts_failed r)]> (
     <["artifacts_deleted" := fmt_usize (artifacts_deleted r)]> (
     <["journals_failed" := fmt_usize (journals_failed r)]> (
     <["journals_retained" := fmt_usize (journals_retained r)]> (
     <["journals_deleted" := fmt_usize (journals_deleted r)]> ∅)))))))))).
Definition apply_idempotency_gc_completed (req tr : string) (r : ApplyIdempotencyGcReport)
    : UnderlayEvent :=
  mkUnderlayEvent UnderlayApplyIdempotencyGcCompleted req tr None None None None (Some "completed")
    None None
    (insert_refs "failed_refs" (failed_refs r) (
     insert_refs "deleted_refs" (deleted_refs r) (
     <["deleted_total" := fmt_usize (records_deleted r)]> (
     <["records_failed" := fmt_usize (records_failed r)]> (
     <["records_retained" := fmt_usize (records_retained r)]> (
     <["records_deleted" := fmt_usize (records_deleted r)]> ∅)))))).
End Collect.
