(* ===== verification/Alerts.v ===== *)
(** * Alerts (src/telemetry/alerts.rs, src/worker/operation_alerts.rs,
      src/api/alert_lifecycle.rs, src/api/operation_alerts.rs)

    Operation summaries that need attention become alerts.  A worker delivers those whose
    key is not in a checkpoint to a sink and then extends the checkpoint; operators move an
    alert through its life cycle, on the books of the product audit log; a listing joins
    the sink's file with the life cycle records.

    The clock is an argument.  Paths name files of one directory. *)
From S2P Require Export AdminOps.

(** ** A file that holds one value *)

Section value_file.
Context (o : FsOracle) {A : Type} (codec : Codec A) (path : string) (empty : A).
Context (io_error parse_error serialize_error : string → UnderlayError).

(** [if !path.exists() { return Ok(default) } read_to_string; from_str] *)
Definition read_value : ST UnderlayError Fs A :=
  s ← st_get;
  if negb (exists_file o path s) then mret empty else
  payload ← map_io io_error (read_to_string o path);
  st_lift (map_err parse_error (decode codec payload)).
(** [to_vec_pretty; atomic_write] *)
Definition write_value (a : A) : ST UnderlayError Fs unit :=
  payload ← st_lift (map_err serialize_error (encode codec a));
  atomic_write o path payload io_error.

Definition value_holds (s : Fs) (a : A) : Prop :=
  match fs_files s !! path with
  | None => a = empty
  | Some text => decode codec text = Ok a
  end.

Lemma read_value_spec `{!StatsWork o} s a r s' :
  value_holds s a → read_value s = (r, s') → value_holds s' a ∧ ∀ b, r = Ok b → b = a.
Proof using Type.
  clear serialize_error. unfold value_holds, read_value. unfold mbind at 1, ST_bind at 1, st_get at 1.
  rewrite (exists_file_works o). unfold read_to_string, read_file, map_io, syscall,
    mbind, ST_bind, st_get, st_lift, mret, ST_ret.
  destruct (fs_files s !! path) as [text|] eqn:Hf; simpl.
  2:{ intros -> [= <- <-]. rewrite Hf. naive_solver. }
  intros Ht. destruct (io_fault o (fs_calls s)); simpl; [intros [= <- <-]; simpl; rewrite Hf; naive_solver|].
  rewrite Hf. simpl. destruct (is_utf8 (bytes text)); simpl; intros [= <- <-]; simpl; rewrite Hf;
    [rewrite Ht|]; naive_solver.
Qed.
Lemma write_value_spec s a b r s' :
  codec_round_trip codec → value_holds s a → write_value b s = (r, s') →
  value_holds s' b ∨ is_ok r = false ∧ value_holds s' a.
Proof using Type.
  clear parse_error. intros Hc Hs. unfold write_value, mbind, ST_bind, st_lift.
  destruct (encode codec b) as [text|e] eqn:He; simpl; [|intros [= <- <-]; by right].
  apply Hc in He. intros (_ & _ & Hw)%atomic_write_spec. unfold value_holds in *.
  destruct r as [[]|e]; [destruct Hw as [_ ->]; by left|].
  destruct Hw as [->| ->]; [by left|by right].
Qed.
End value_file.
Arguments value_holds {A} _ _ _ _ _.

Module Alerts.

(** ** src/telemetry/alerts.rs *)

Inductive OperationAlertSeverity := Warning | Critical.
#[export] Instance OperationAlertSeverity_eq_dec : EqDecision OperationAlertSeverity.
Proof. solve_decision. Defined.

Record OperationAlert := mkOperationAlert {
  alert_dedupe_key : string;
  alert_severity : OperationAlertSeverity;
  alert_request_id : string;
  alert_trace_id : string;
  alert_action : string;
  alert_result : string;
  alert_tx_id : option string;
  alert_device_id : option DeviceId;
  alert_fields : gmap string string;
}.
#[export] Instance OperationAlert_eq_dec : EqDecision OperationAlert.
Proof. solve_decision. Defined.

Definition dedupe_key (s : OperationSummary) : string :=
  os_action s +:+ "|" +:+ os_result s +:+ "|" +:+ os_request_id s +:+ "|" +:+ os_trace_id s +:+ "|" +:+
  default "-" (os_tx_id s) +:+ "|" +:+ default "-" (device_id_0 <$> os_device_id s).
Definition severity_for_summary (s : OperationSummary) : OperationAlertSeverity :=
  if decide (os_action s ∈ ["transaction.in_doubt"; "audit.write_failed"]) then Critical
  else if decide (os_result s ∈ ["in_doubt"; "failed"]) then Critical else Warning.
Definition from_summary (s : OperationSummary) : OperationAlert :=
  {| alert_dedupe_key := dedupe_key s; alert_severity := severity_for_summary s;
     alert_request_id := os_request_id s; alert_trace_id := os_trace_id s;
     alert_action := os_action s; alert_result := os_result s; alert_tx_id := os_tx_id s;
     alert_device_id := os_device_id s; alert_fields := os_fields s |}.

Definition alert_io_error (e : string) : UnderlayError := Internal ("operation alert io error: " +:+ e).

(** *** Sinks *)

(** [dyn OperationAlertSink], with what a client relies on: delivered alerts are kept, in
    order. *)
Class OperationAlertSink (K : Type) := {
  deliver : list OperationAlert → ST UnderlayError K unit;
}.
Class AlertSinkLaws (K : Type) `{!OperationAlertSink K} (holds : K → list OperationAlert → Prop) := {
  deliver_law alerts s l s' :
    holds s l → deliver alerts s = (Ok tt, s') → holds s' (l ++ alerts);
}.

Module InMemorySink.
Record Sink := mkSink { alerts : list OperationAlert }.
Definition deliver (l : list OperationAlert) : ST UnderlayError Sink unit := λ s,
  (Ok tt, mkSink (alerts s ++ l)).
#[export] Instance sink : OperationAlertSink Sink := {| Alerts.deliver := deliver |}.
#[export] Instance laws : AlertSinkLaws Sink (λ s l, alerts s = l).
Proof. split. intros l s l' s' <- [= <-]. done. Qed.
End InMemorySink.
#[export] Existing Instances InMemorySink.sink InMemorySink.laws.

Module JsonFileSink.
Definition serialize_error (e : string) : UnderlayError :=
  Internal ("serialize operation alert: " +:+ e).
Definition parse_error (path : string) (line : nat) (e : string) : UnderlayError :=
  Internal ("parse operation alert " +:+ debug_str path +:+ " line " +:+ fmt_usize line +:+ ": " +:+ e).
Section sink.
Context (o : FsOracle) (codec : Codec OperationAlert) (path : string).
Definition list : ST UnderlayError Fs (list OperationAlert) :=
  log_list o codec path alert_io_error (parse_error path).
Fixpoint write_alerts (l : Datatypes.list OperationAlert) : ST UnderlayError Fs unit :=
  match l with
  | [] => mret tt
  | alert :: l =>
      payload ← st_lift (encode_line codec serialize_error alert);
      _ ← map_io alert_io_error (append_all o path payload);
      write_alerts l
  end.
Definition deliver (l : Datatypes.list OperationAlert) : ST UnderlayError Fs unit :=
  match l with
  | [] => mret tt
  | _ =>
      _ ← map_io alert_io_error (create_dir_all o);
      _ ← map_io alert_io_error (open_append o path);
      _ ← write_alerts l;
      map_io alert_io_error (sync o)
  end.
#[export] Instance sink : OperationAlertSink Fs := {| Alerts.deliver := deliver |}.

Lemma write_alerts_Ok l s rs text s' :
  fs_files s !! path = Some text → encode_records codec serialize_error rs = Ok text →
  write_alerts l s = (Ok tt, s') →
  ∃ text', fs_files s' !! path = Some text' ∧ encode_records codec serialize_error (rs ++ l) = Ok text'.
Proof.
  revert s rs text. induction l as [|a l IH]; intros s rs text Hf Ht; simpl.
  { intros [= <-]. rewrite app_nil_r. eauto. }
  unfold mbind, ST_bind, st_lift. destruct (encode_line codec serialize_error a) as [line|e] eqn:Ha; [|done].
  destruct (map_io _ (append_all o path line) s) as [[[]|e] s1] eqn:H1; [|done].
  apply append_all_spec in H1 as [_ H1]. rewrite Hf in H1. simpl in H1. intros Hw.
  destruct (IH s1 (rs ++ [a]) _ H1) with (2 := Hw) as (text' & Hf' & Ht').
  { by apply encode_records_snoc. }
  exists text'. by rewrite <-app_assoc in Ht'.
Qed.
#[export] Instance laws : AlertSinkLaws Fs (log_holds codec path serialize_error).
Proof.
  split. intros l s rs s' Hh. change (Alerts.deliver l) with (deliver l).
  unfold deliver, mbind, ST_bind. destruct l as [|a l]; [intros [= <-]; by rewrite app_nil_r|].
  destruct (map_io _ (create_dir_all o) s) as [[[]|e] s0] eqn:H0; [|done].
  apply create_dir_files in H0 as Hf0.
  destruct (map_io _ (open_append o path) s0) as [[[]|e] s1] eqn:H1; [|done].
  apply open_append_spec in H1 as [_ Hp1]. rewrite Hf0 in Hp1.
  destruct (write_alerts (a :: l) s1) as [[[]|e] s2] eqn:H2; [|done].
  intros H3%sync_files. unfold log_holds in *. rewrite H3.
  assert (encode_records codec serialize_error rs = Ok (default "" (fs_files s !! path))) as He
    by (by destruct (fs_files s !! path); [|subst rs]).
  by destruct (write_alerts_Ok (a :: l) s1 rs _ s2 Hp1 He H2) as (text' & -> & Ht).
Qed.
End sink.
End JsonFileSink.

(** *** Checkpoints *)

Class CheckpointStore (C : Type) := {
  delivered_keys : ST UnderlayError C (gset string);
  record_delivered : list string → ST UnderlayError C unit;
}.
Class CheckpointLaws (C : Type) `{!CheckpointStore C} (holds : C → gset string → Prop) := {
  delivered_keys_law s v r s' :
    holds s v → delivered_keys s = (r, s') → holds s' v ∧ ∀ ks, r = Ok ks → ks = v;
  record_delivered_law ks s v r s' :
    holds s v → record_delivered ks s = (r, s') →
    holds s' (v ∪ list_to_set ks) ∨ is_ok r = false ∧ holds s' v;
}.

Module InMemoryCheckpoint.
Record Store := mkStore { keys : gset string }.
Definition delivered_keys : ST UnderlayError Store (gset string) := λ s, (Ok (keys s), s).
Definition record_delivered (ks : list string) : ST UnderlayError Store unit := λ s,
  (Ok tt, mkStore (keys s ∪ list_to_set ks)).
#[export] Instance store : CheckpointStore Store :=
  {| Alerts.delivered_keys := delivered_keys; Alerts.record_delivered := record_delivered |}.
#[export] Instance laws : CheckpointLaws Store (λ s v, keys s = v).
Proof.
  split.
  - intros s v r s' <- [= <- <-]. naive_solver.
  - intros ks s v r s' <- [= <- <-]. by left.
Qed.
End InMemoryCheckpoint.
#[export] Existing Instances InMemoryCheckpoint.store InMemoryCheckpoint.laws.

Module JsonFileCheckpoint.
Definition serialize_error (e : string) : UnderlayError :=
  Internal ("serialize operation alert checkpoint: " +:+ e).
Definition parse_error (path e : string) : UnderlayError :=
  Internal ("parse operation alert checkpoint " +:+ debug_str path +:+ ": " +:+ e).
Section store.
Context (o : FsOracle) (codec : Codec (gset string)) (path : string).
Definition read_checkpoint_keys : ST UnderlayError Fs (gset string) :=
  read_value o codec path ∅ alert_io_error (parse_error path).
Definition record_delivered (ks : list string) : ST UnderlayError Fs unit :=
  match ks with
  | [] => mret tt
  | _ =>
      delivered_keys ← read_checkpoint_keys;
      write_value o codec path alert_io_error serialize_error (delivered_keys ∪ list_to_set ks)
  end.
#[export] Instance store : CheckpointStore Fs :=
  {| Alerts.delivered_keys := read_checkpoint_keys; Alerts.record_delivered := record_delivered |}.
Lemma checkpoint_laws `{!StatsWork o} : codec_round_trip codec → CheckpointLaws Fs (value_holds codec path ∅).
Proof.
  intros Hc. split.
  - intros s v r s' Hs Hr. eapply (read_value_spec o); [apply _|exact Hs|exact Hr].
  - intros [|k ks] s v r s' Hs; simpl.
    { intros [= <- <-]. left. by rewrite (right_id_L ∅ (∪)). }
    unfold record_delivered, mbind, ST_bind. destruct (read_checkpoint_keys s) as [[v'|e] s1] eqn:Hr.
    2:{ eapply (read_value_spec o) in Hr as [H1 _]; [|apply _|done]. intros [= <- <-]. by right. }
    eapply (read_value_spec o) in Hr as [H1 Hv]; [|apply _|done]. rewrite (Hv v') by done.
    intros Hw. by eapply write_value_spec.
Qed.
End store.
End JsonFileCheckpoint.

(** *** The life cycle of an alert *)

Record OperationAlertLifecycleEvent := mkLifecycleEvent {
  le_status : OperationAlertLifecycleStatus;
  le_operator_id : string;
  le_reason : option string;
  le_request_id : string;
  le_trace_id : string;
  le_updated_at_unix_secs : N;
}.
Record OperationAlertLifecycleRecord := mkLifecycleRecord {
  lr_dedupe_key : string;
  lr_status : OperationAlertLifecycleStatus;
  lr_operator_id : option string;
  lr_reason : option string;
  lr_request_id : string;
  lr_trace_id : string;
  lr_updated_at_unix_secs : N;
  lr_history : list OperationAlertLifecycleEvent;
}.
Record OperationAlertLifecycleTransition := mkLifecycleTransition {
  lt_dedupe_key : string;
  lt_status : OperationAlertLifecycleStatus;
  lt_operator_id : string;
  lt_reason : option string;
  lt_request_id : string;
  lt_trace_id : string;
}.
#[export] Instance OperationAlertLifecycleEvent_eq_dec : EqDecision OperationAlertLifecycleEvent.
Proof. solve_decision. Defined.
#[export] Instance OperationAlertLifecycleRecord_eq_dec : EqDecision OperationAlertLifecycleRecord.
Proof. solve_decision. Defined.

Definition is_allowed_lifecycle_transition (from to : OperationAlertLifecycleStatus) : bool :=
  match from with
  | Open => match to with Acknowledged | Resolved | Suppressed | Expired => true | Open => false end
  | Acknowledged => match to with Resolved | Suppressed | Expired => true | _ => false end
  | Resolved | Suppressed | Expired => false
  end.
Definition transition_lifecycle_record (now : N) (current : option OperationAlertLifecycleRecord)
    (t : OperationAlertLifecycleTransition) : UnderlayResult OperationAlertLifecycleRecord :=
  let from_status := default Open (lr_status <$> current) in
  if negb (is_allowed_lifecycle_transition from_status (lt_status t)) then
    Err (InvalidIntent ("cannot transition alert " +:+ lt_dedupe_key t +:+ " from " +:+
           debug_lifecycle_status from_status +:+ " to " +:+ debug_lifecycle_status (lt_status t)))
  else
    let event := mkLifecycleEvent (lt_status t) (lt_operator_id t) (lt_reason t) (lt_request_id t)
                   (lt_trace_id t) now in
    let record := default (mkLifecycleRecord (lt_dedupe_key t) Open None None (lt_request_id t)
                             (lt_trace_id t) now []) current in
    Ok (mkLifecycleRecord (lr_dedupe_key record) (lt_status t) (Some (lt_operator_id t)) (lt_reason t)
          (lt_request_id t) (lt_trace_id t) now (lr_history record ++ [event])).

(** [dyn OperationAlertLifecycleStore] *)
Class LifecycleStore (L : Type) := {
  lifecycle_get : string → ST UnderlayError L (option OperationAlertLifecycleRecord);
  lifecycle_list : ST UnderlayError L (list OperationAlertLifecycleRecord);
  lifecycle_transition : N → OperationAlertLifecycleTransition →
    ST UnderlayError L OperationAlertLifecycleRecord;
}.
Notation Records := (gmap string OperationAlertLifecycleRecord).
(** A store is a map; a transition replaces one record as [transition_lifecycle_record]
    says, or leaves the map as it was and fails. *)
Class LifecycleLaws (L : Type) `{!LifecycleStore L} (holds : L → Records → Prop) := {
  lifecycle_get_law key s m r s' :
    holds s m → lifecycle_get key s = (r, s') → holds s' m ∧ ∀ v, r = Ok v → v = m !! key;
  lifecycle_list_law s m r s' :
    holds s m → lifecycle_list s = (r, s') → holds s' m ∧ ∀ l, r = Ok l → l = bt_values m;
  lifecycle_transition_law now t s m r s' :
    holds s m → lifecycle_transition now t s = (r, s') →
    is_ok r = false ∧ holds s' m ∨
    ∃ record, transition_lifecycle_record now (m !! lt_dedupe_key t) t = Ok record ∧
      holds s' (<[lr_dedupe_key record := record]> m) ∧ ∀ v, r = Ok v → v = record;
}.

Module InMemoryLifecycle.
Record Store := mkStore { records : Records }.
Definition get (key : string) : ST UnderlayError Store (option OperationAlertLifecycleRecord) := λ s,
  (Ok (records s !! key), s).
Definition list : ST UnderlayError Store (list OperationAlertLifecycleRecord) := λ s,
  (Ok (bt_values (records s)), s).
Definition transition (now : N) (t : OperationAlertLifecycleTransition)
    : ST UnderlayError Store OperationAlertLifecycleRecord := λ s,
  match transition_lifecycle_record now (records s !! lt_dedupe_key t) t with
  | Err e => (Err e, s)
  | Ok record => (Ok record, mkStore (<[lr_dedupe_key record := record]> (records s)))
  end.
#[export] Instance store : LifecycleStore Store :=
  {| lifecycle_get := get; lifecycle_list := list; lifecycle_transition := transition |}.
#[export] Instance laws : LifecycleLaws Store (λ s m, records s = m).
Proof.
  split.
  - intros key s m r s' <- [= <- <-]. naive_solver.
  - intros s m r s' <- [= <- <-]. naive_solver.
  - intros now t s m r s' <-. simpl. unfold transition.
    destruct (transition_lifecycle_record _ _ _) as [record|e] eqn:Ht; intros [= <- <-]; [|by left].
    right. exists record. naive_solver.
Qed.
End InMemoryLifecycle.
#[export] Existing Instances InMemoryLifecycle.store InMemoryLifecycle.laws.

Module JsonFileLifecycle.
Definition serialize_error (e : string) : UnderlayError :=
  Internal ("serialize operation alert lifecycle: " +:+ e).
Definition parse_error (path e : string) : UnderlayError :=
  Internal ("parse operation alert lifecycle " +:+ debug_str path +:+ ": " +:+ e).
Section store.
Context (o : FsOracle) (codec : Codec Records) (path : string).
Definition read_lifecycle_records : ST UnderlayError Fs Records :=
  read_value o codec path ∅ alert_io_error (parse_error path).
Definition write_lifecycle_records (records : Records) : ST UnderlayError Fs unit :=
  write_value o codec path alert_io_error serialize_error records.
Definition get (key : string) : ST UnderlayError Fs (option OperationAlertLifecycleRecord) :=
  records ← read_lifecycle_records; mret (records !! key).
Definition list : ST UnderlayError Fs (list OperationAlertLifecycleRecord) :=
  records ← read_lifecycle_records; mret (bt_values records).
Definition transition (now : N) (t : OperationAlertLifecycleTransition)
    : ST UnderlayError Fs OperationAlertLifecycleRecord :=
  records ← read_lifecycle_records;
  record ← st_lift (transition_lifecycle_record now (records !! lt_dedupe_key t) t);
  _ ← write_lifecycle_records (<[lr_dedupe_key record := record]> records);
  mret record.
#[export] Instance store : LifecycleStore Fs :=
  {| lifecycle_get := get; lifecycle_list := list; lifecycle_transition := transition |}.

Lemma read_records_then `{!StatsWork o} {B} (f : Records → ST UnderlayError Fs B) s m r s' :
  value_holds codec path ∅ s m → (read_lifecycle_records ≫= f) s = (r, s') →
  is_ok r = false ∧ value_holds codec path ∅ s' m ∨
  ∃ s1, value_holds codec path ∅ s1 m ∧ f m s1 = (r, s').
Proof.
  intros Hs. unfold mbind, ST_bind.
  destruct (read_lifecycle_records s) as [[v|e] s1] eqn:Hr;
    eapply (read_value_spec o) in Hr as [H1 Hv]; [|apply _|exact Hs| |apply _|exact Hs].
  - rewrite (Hv v) by done. eauto.
  - intros [= <- <-]. by left.
Qed.
Lemma lifecycle_laws `{!StatsWork o} : codec_round_trip codec → LifecycleLaws Fs (value_holds codec path ∅).
Proof.
  intros Hc. split.
  - intros key s m r s' Hs Hr.
    destruct (read_records_then _ _ _ _ _ Hs Hr) as [[He ?]|(s1 & H1 & [= <- <-])]; [|naive_solver].
    split; [done|]. by intros v ->.
  - intros s m r s' Hs Hr.
    destruct (read_records_then _ _ _ _ _ Hs Hr) as [[He ?]|(s1 & H1 & [= <- <-])]; [|naive_solver].
    split; [done|]. by intros v ->.
  - intros now t s m r s' Hs Hr.
    destruct (read_records_then _ _ _ _ _ Hs Hr) as [?|(s1 & H1 & Hr1)]; [by left|].
    unfold mbind, ST_bind, st_lift in Hr1.
    destruct (transition_lifecycle_record _ _ _) as [record|e] eqn:Ht;
      [|injection Hr1 as <- <-; by left].
    destruct (write_lifecycle_records _ s1) as [w s2] eqn:Hw.
    destruct (write_value_spec _ _ _ _ _ _ _ _ _ _ _ Hc H1 Hw) as [H2|[He H2]].
    + right. exists record. split; [done|]. destruct w; injection Hr1 as <- <-; naive_solver.
    + left. destruct w; [done|]. injection Hr1 as <- <-. done.
Qed.
End store.
End JsonFileLifecycle.

(** ** src/worker/operation_alerts.rs *)

Record OperationAlertDeliveryReport := mkDeliveryReport {
  scanned_attention_required : nat;
  already_delivered : nat;
  newly_delivered : nat;
}.

(** The body of the loop over the summaries. *)
Definition sort_out_alert (delivered : gset string) (acc : nat * list OperationAlert)
    (summary : OperationSummary) : nat * list OperationAlert :=
  let '(already, alerts) := acc in
  let alert := from_summary summary in
  if decide (alert_dedupe_key alert ∈ delivered) then (S already, alerts)
  else (already, alerts ++ [alert]).

(** The alerts a run has to deliver. *)
Definition pending (delivered : gset string) (l : list OperationSummary) : list OperationAlert :=
  filter (λ a, alert_dedupe_key a ∉ delivered)
    (from_summary <$> filter (λ x, os_attention_required x = true) l).

Lemma sort_out_spec delivered l n alerts :
  foldl (sort_out_alert delivered) (n, alerts) l =
    (n + length (filter (λ a, alert_dedupe_key a ∈ delivered) (from_summary <$> l)),
     alerts ++ filter (λ a, alert_dedupe_key a ∉ delivered) (from_summary <$> l))%nat.
Proof.
  revert n alerts. induction l as [|x l IH]; intros n alerts; simpl.
  { by rewrite Nat.add_0_r, app_nil_r. }
  rewrite !filter_cons. repeat case_decide; try done; rewrite IH; simpl.
  - by rewrite Nat.add_succ_r.
  - by rewrite <-app_assoc.
Qed.
Lemma filter_split_length {A} (P : A → Prop) `{∀ x, Decision (P x)} (l : list A) :
  (length (filter P l) + length (filter (λ x, ¬ P x) l) = length l)%nat.
Proof.
  induction l as [|x l IH]; [done|]. rewrite !filter_cons. simpl. repeat case_decide; simpl; naive_solver lia.
Qed.
Lemma sorted_out v l :
  let attention := filter (λ x, os_attention_required x = true) l in
  ∃ already, foldl (sort_out_alert v) (0%nat, []) attention = (already, pending v l) ∧
    (already + length (pending v l) = length attention)%nat.
Proof.
  cbv zeta. rewrite sort_out_spec. eexists. split; [reflexivity|].
  rewrite <-(length_fmap from_summary).
  apply (filter_split_length (λ a, alert_dedupe_key a ∈ v)).
Qed.

Lemma pending_elem v l a :
  a ∈ pending v l ↔
  alert_dedupe_key a ∉ v ∧ ∃ x, x ∈ l ∧ os_attention_required x = true ∧ a = from_summary x.
Proof.
  unfold pending. rewrite list_elem_of_filter, list_elem_of_fmap.
  setoid_rewrite list_elem_of_filter. naive_solver.
Qed.
Lemma pending_done v l : pending (v ∪ list_to_set (alert_dedupe_key <$> pending v l)) l = [].
Proof.
  destruct (pending _ l) as [|a rest] eqn:Hp; [done|].
  assert (a ∈ a :: rest) as Ha by set_solver. rewrite <-Hp in Ha.
  apply pending_elem in Ha as (Hk & x & Hx & Hatt & ->).
  destruct Hk. rewrite elem_of_union, elem_of_list_to_set.
  destruct (decide (dedupe_key x ∈ v)); [by left|]. right. apply list_elem_of_fmap.
  exists (from_summary x). split; [done|]. apply pending_elem. eauto.
Qed.

Definition keys_of (alerts : list OperationAlert) : list string := alert_dedupe_key <$> alerts.

Section delivery.
Context {S K C : Type} `{!OperationSummaryStore S} `{!OperationAlertSink K} `{!CheckpointStore C}.

(** The stores of [OperationAlertDeliveryWorker]. *)
Record Delivery := mkDelivery {
  d_summaries : S;
  d_sink : K;
  d_checkpoint : C;
}.
Definition on_summaries {A} (f : ST UnderlayError S A) : ST UnderlayError Delivery A := λ w,
  let '(x, s) := f (d_summaries w) in (x, mkDelivery s (d_sink w) (d_checkpoint w)).
Definition on_sink {A} (f : ST UnderlayError K A) : ST UnderlayError Delivery A := λ w,
  let '(x, k) := f (d_sink w) in (x, mkDelivery (d_summaries w) k (d_checkpoint w)).
Definition on_checkpoint {A} (f : ST UnderlayError C A) : ST UnderlayError Delivery A := λ w,
  let '(x, c) := f (d_checkpoint w) in (x, mkDelivery (d_summaries w) (d_sink w) c).

Definition deliver_once : ST UnderlayError Delivery OperationAlertDeliveryReport :=
  summaries ← on_summaries list_attention_required;
  keys ← on_checkpoint delivered_keys;
  let '(already, alerts) := foldl (sort_out_alert keys) (0%nat, []) summaries in
  _ ← (if (0 <? length alerts)%nat then
         _ ← on_sink (deliver alerts);
         on_checkpoint (record_delivered (alert_dedupe_key <$> alerts))
       else mret tt);
  mret (mkDeliveryReport (length summaries) already (length alerts)).

(** *** What is delivered *)

Context (listed : S → list OperationSummary → Prop).
Context (Hlisted : ∀ s l r s', listed s l → summary_list s = (r, s') →
  listed s' l ∧ ∀ l', r = Ok l' → l' = l).
Context (sent : K → list OperationAlert → Prop) `{!AlertSinkLaws K sent}.
Context (noted : C → gset string → Prop) `{!CheckpointLaws C noted}.

(** What a run does to the three stores. *)
Definition delivered_run (l : list OperationSummary) (alerts : list OperationAlert) (v : gset string)
    (w' : Delivery) : Prop :=
  listed (d_summaries w') l ∧ sent (d_sink w') (alerts ++ pending v l) ∧
  noted (d_checkpoint w') (v ∪ list_to_set (alert_dedupe_key <$> pending v l)).

Lemma deliver_once_spec w l alerts v r w' :
  listed (d_summaries w) l → sent (d_sink w) alerts → noted (d_checkpoint w) v →
  deliver_once w = (r, w') →
  match r with
  | Ok report => delivered_run l alerts v w' ∧ newly_delivered report = length (pending v l) ∧
      (already_delivered report + newly_delivered report = scanned_attention_required report)%nat
  | Err _ =>
      noted (d_checkpoint w') v ∧
        (sent (d_sink w') alerts ∨ sent (d_sink w') (alerts ++ pending v l) ∨
         is_ok (deliver (pending v l) (d_sink w)).1 = false) ∨
      delivered_run l alerts v w'
  end.
Proof using All.
  intros Hl Hk Hc. unfold deliver_once, list_attention_required, on_summaries, on_checkpoint, on_sink,
    mbind, ST_bind. simpl.
  destruct (summary_list (d_summaries w)) as [[l'|e] s1] eqn:Hs; [|intros [= <- <-]; by auto].
  destruct (Hlisted _ _ _ _ Hl Hs) as [Hs1 Heq]. rewrite (Heq l') by done. simpl.
  destruct (delivered_keys (d_checkpoint w)) as [[ks|e] c1] eqn:Hks;
    destruct (delivered_keys_law _ _ _ _ Hc Hks) as [Hc1 Hkeys]; [|intros [= <- <-]; by auto].
  rewrite (Hkeys ks) by done. destruct (sorted_out v l) as (already & -> & Hlen).
  destruct (0 <? length (pending v l))%nat eqn:Hp.
  2:{ apply Nat.ltb_ge in Hp. destruct (pending v l) eqn:Hpv; [|simpl in Hp; lia].
      intros [= <- <-]. unfold delivered_run. rewrite Hpv. simpl.
      rewrite app_nil_r, (right_id_L ∅ (∪)). by split_and!. }
  simpl. destruct (deliver (pending v l) (d_sink w)) as [[[]|e] k1] eqn:Hd; [|intros [= <- <-]; by auto].
  apply (deliver_law _ _ _ _ Hk) in Hd. simpl.
  destruct (record_delivered _ c1) as [x c2] eqn:Hrec.
  destruct (record_delivered_law _ _ _ _ _ Hc1 Hrec) as [Hc2|[Hx Hc2]];
    (destruct x as [[]|e]; [try done|]; intros [= <- <-]); [|by right|by auto].
  by split_and!.
Qed.

(** C25. Alerts are delivered at least once per key, and the checkpoint does not run ahead of
    the sink.  From a sink that holds whole alerts and a checkpoint whose keys all belong to
    delivered alerts: after a run that succeeds the sink has kept what it had, followed by
    exactly the alerts of the summaries that need attention and whose key was not
    checkpointed; every summary that needs attention now has an alert of its key in the
    sink, the next run on the same summaries delivers nothing, and the counts add up.  After
    a run that fails the sink again holds whole alerts, the old ones first, and every
    checkpointed key belongs to one of them, unless it was the delivery to the sink that
    failed: then the checkpoint is as it was, and nothing is said of the sink, whose last
    line may be torn.  The stores are any that keep their contracts, as those in memory do,
    and those of files as long as no [stat] fails. *)
Theorem alerts_delivered_at_least_once w l alerts v r w' :
  listed (d_summaries w) l → sent (d_sink w) alerts → noted (d_checkpoint w) v →
  (∀ key, key ∈ v → key ∈ keys_of alerts) → deliver_once w = (r, w') →
  ∃ v', noted (d_checkpoint w') v' ∧
  match r with
  | Ok report => ∃ new,
      sent (d_sink w') (alerts ++ new) ∧
      (∀ a, a ∈ new ↔ alert_dedupe_key a ∉ v ∧
         ∃ x, x ∈ l ∧ os_attention_required x = true ∧ a = from_summary x) ∧
      (∀ x, x ∈ l → os_attention_required x = true → dedupe_key x ∈ keys_of (alerts ++ new)) ∧
      (∀ key, key ∈ v' → key ∈ keys_of (alerts ++ new)) ∧ pending v' l = [] ∧
      newly_delivered report = length new ∧
      (already_delivered report + newly_delivered report = scanned_attention_required report)%nat
  | Err _ =>
      v' = v ∧ is_ok (deliver (pending v l) (d_sink w)).1 = false ∨
      ∃ new, sent (d_sink w') (alerts ++ new) ∧ ∀ key, key ∈ v' → key ∈ keys_of (alerts ++ new)
  end.
Proof using All.
  intros Hl Hk Hc Hv Hrun. pose proof (deliver_once_spec _ _ _ _ _ _ Hl Hk Hc Hrun) as Hspec.
  assert (∀ key, key ∈ v ∪ list_to_set (alert_dedupe_key <$> pending v l) →
    key ∈ keys_of (alerts ++ pending v l)) as Hkeys.
  { intros key [Hkey|Hkey%elem_of_list_to_set]%elem_of_union; unfold keys_of in *;
      rewrite fmap_app; apply elem_of_app; auto. }
  destruct r as [report|e].
  - destruct Hspec as ((_ & Hs & Hn) & Hnew & Hsum). eexists. split; [exact Hn|].
    exists (pending v l). split; [done|]. split; [intros a; apply pending_elem|].
    split; [|split; [exact Hkeys|by rewrite pending_done]].
    intros x Hx Hatt. destruct (decide (dedupe_key x ∈ v)) as [Hin|Hin]; [apply Hkeys; set_solver|].
    apply Hkeys, elem_of_union_r, elem_of_list_to_set, list_elem_of_fmap.
    exists (from_summary x). split; [done|]. apply pending_elem. eauto.
  - destruct Hspec as [[Hn Hsink]|(_ & Hs & Hn)]; [|by eauto 10].
    exists v. split; [done|]. destruct Hsink as [Hs|[Hs|?]]; [right|right|by left].
    + exists []. by rewrite app_nil_r.
    + exists (pending v l). split; [done|]. intros key Hkey. apply Hkeys. set_solver.
Qed.
End delivery.

Module DeliverySample.
Definition drift (path : string) : DriftReport :=
  mkDriftReport (mkDeviceId "leaf-a") true [mkDriftFinding MissingVlan path None None] [].
Definition event (path : string) : UnderlayEvent :=
  event_drift_detected "drift-audit" "drift-audit" (drift path).
Definition record (path : string) (w : Delivery (S := InMemoryOperationSummaries.Store)
    (K := InMemorySink.Sink) (C := InMemoryCheckpoint.Store)) :=
  mkDelivery (InMemoryOperationSummaries.record_event (event path) (d_summaries w)).2 (d_sink w)
    (d_checkpoint w).
Definition start := mkDelivery (InMemoryOperationSummaries.mkStore [])
  (InMemorySink.mkSink []) (InMemoryCheckpoint.mkStore ∅).
Definition first_run := deliver_once (record "vlans/10" start).
Definition sent_by (run : UnderlayResult OperationAlertDeliveryReport * Delivery
    (S := InMemoryOperationSummaries.Store) (K := InMemorySink.Sink) (C := InMemoryCheckpoint.Store))
    : option nat :=
  match run.1 with Ok report => Some (newly_delivered report) | Err _ => None end.
End DeliverySample.

Lemma alerts_delivered_at_least_once_witness :
  ∃ report w', DeliverySample.first_run = (Ok report, w') ∧
    dedupe_key (mkOperationSummary "drift-audit" "drift-audit" "drift.detected" "drift_detected" None
      (Some (mkDeviceId "leaf-a")) true (ue_fields (DeliverySample.event "vlans/10")))
    ∈ keys_of (InMemorySink.alerts (d_sink w')).
Proof.
  destruct DeliverySample.first_run as [r w'] eqn:Hrun.
  assert (∃ report, r = Ok report) as [report ->].
  { change r with (r, w').1. rewrite <-Hrun. vm_compute. by eexists. }
  destruct (alerts_delivered_at_least_once (λ s l, InMemoryOperationSummaries.summaries s = l)
    ltac:(intros s l r s' <- [= <- <-]; naive_solver) (λ s l, InMemorySink.alerts s = l)
    (λ s v, InMemoryCheckpoint.keys s = v) (DeliverySample.record "vlans/10" DeliverySample.start)
    _ [] ∅ (Ok report) w' eq_refl eq_refl eq_refl) as (v' & _ & new & Hs & _ & Hall & _ & _ & Hn & _).
  { by intros key Hkey. }
  { exact Hrun. }
  exists report, w'. split; [done|]. rewrite Hs. apply Hall; [by vm_compute; left|done].
Defined.

(** The key of a drift alert has no time and no finding in it: all drifts of a device share
    one key. *)
Lemma drift_key_constant req tr r1 r2 s1 s2 :
  dr_device_id r1 = dr_device_id r2 → drift_detected r1 = drift_detected r2 →
  OperationSummary_from_event (event_drift_detected req tr r1) = Some s1 →
  OperationSummary_from_event (event_drift_detected req tr r2) = Some s2 →
  dedupe_key s1 = dedupe_key s2.
Proof. intros Hd Hf [= <-] [= <-]. unfold dedupe_key. simpl. by rewrite Hd, Hf. Qed.

(** So a drift found after the first one was alerted is never alerted, while two found
    before a run are alerted twice. *)
Example later_drift_not_alerted :
  DeliverySample.sent_by (deliver_once (DeliverySample.record "vlans/20" DeliverySample.first_run.2))
    = Some 0%nat ∧
  DeliverySample.sent_by (deliver_once (DeliverySample.record "vlans/20"
    (DeliverySample.record "vlans/10" DeliverySample.start))) = Some 2%nat.
Proof. vm_compute. done. Qed.

(** ** A delivery torn apart

    A write that fails half way leaves a part of a line; the next delivery goes on in the
    same line, succeeds, and from then on the file cannot be listed. *)
Module TornSample.
Definition alert : OperationAlert := from_summary
  (mkOperationSummary "r" "t" "drift.detected" "drift_detected" None None true ∅).
Definition codec : Codec OperationAlert :=
  mkCodec (λ a, if decide (a = alert) then Ok "{}" else Err "unsupported")
          (λ t, if decide (t = "{}") then Ok alert else Err "parse").
Lemma torn_codec_ok : codec_round_trip codec ∧ prints_one_line codec.
Proof.
  split; intros a t; unfold codec, encode, decode;
    (destruct (decide (a = alert)) as [Ha|Ha]; [|discriminate]); intros [= <-].
  - subst a. reflexivity.
  - split; [apply (bool_decide_unpack _); vm_compute; exact I|by exists []].
Qed.
Definition torn_write : FsOracle :=
  mkFsOracle (λ n, if (n =? 2)%nat then Some "ENOSPC" else None) (λ _, 1%nat) (λ l, l)
    (λ _, Permutation_refl _) (λ _, "u") (λ _ _, false).
Definition try_deliver := JsonFileSink.deliver torn_write codec "alerts.jsonl" [alert].
Definition listing := JsonFileSink.list torn_write codec "alerts.jsonl".
End TornSample.

Example torn_delivery_poisons_log :
  let '(r1, s1) := TornSample.try_deliver (mkFs true ∅ 0) in
  let '(r2, s2) := TornSample.try_deliver s1 in
  is_ok r1 = false ∧ r2 = Ok tt ∧ is_ok (TornSample.listing s2).1 = false.
Proof. vm_compute. done. Qed.

(** ** What a life cycle record says *)

(** Statuses one after the other, each allowed by the one before. *)
Inductive moves : OperationAlertLifecycleStatus → list OperationAlertLifecycleStatus →
    OperationAlertLifecycleStatus → Prop :=
  | moves_nil a : moves a [] a
  | moves_cons a b l c :
      is_allowed_lifecycle_transition a b = true → moves b l c → moves a (b :: l) c.

Lemma moves_snoc a l b c :
  moves a l b → is_allowed_lifecycle_transition b c = true → moves a (l ++ [c]) c.
Proof. induction 1; intros Hc; simpl; repeat econstructor; eauto. Qed.

(** How many moves a status leaves. *)
Definition moves_left (a : OperationAlertLifecycleStatus) : nat :=
  match a with Open => 2 | Acknowledged => 1 | _ => 0 end.
Lemma moves_bounded a l b : moves a l b → (length l + moves_left b ≤ moves_left a)%nat.
Proof. induction 1 as [|a b l c Ha _ IH]; simpl; [lia|]. destruct a, b; simpl in *; try done; lia. Qed.

(** The requests made of a store so far. *)
Notation Requests := (list (N * OperationAlertLifecycleTransition)).
Definition from_request (key : string) (e : OperationAlertLifecycleEvent)
    (request : N * OperationAlertLifecycleTransition) : Prop :=
  let '(now, t) := request in
  lt_dedupe_key t = key ∧
  e = mkLifecycleEvent (lt_status t) (lt_operator_id t) (lt_reason t) (lt_request_id t)
        (lt_trace_id t) now.
Definition faithful (requests : Requests) (key : string) (r : OperationAlertLifecycleRecord) : Prop :=
  lr_dedupe_key r = key ∧
  moves Open (le_status <$> lr_history r) (lr_status r) ∧
  (∀ e, e ∈ lr_history r → ∃ request, request ∈ requests ∧ from_request key e request) ∧
  ∃ e, list.last (lr_history r) = Some e ∧
    e = mkLifecycleEvent (lr_status r) (default "" (lr_operator_id r)) (lr_reason r)
          (lr_request_id r) (lr_trace_id r) (lr_updated_at_unix_secs r).

Lemma faithful_weaken requests requests' key r :
  (∀ x, x ∈ requests → x ∈ requests') → faithful requests key r → faithful requests' key r.
Proof. unfold faithful. naive_solver. Qed.

Lemma transition_faithful requests now t (m : Records) r :
  map_Forall (faithful requests) m →
  transition_lifecycle_record now (m !! lt_dedupe_key t) t = Ok r →
  faithful (requests ++ [(now, t)]) (lt_dedupe_key t) r.
Proof.
  intros Hm. unfold transition_lifecycle_record. case_match eqn:Ha; [done|].
  apply negb_false_iff in Ha. intros [= <-].
  assert (∃ old : list _, lr_history (default (mkLifecycleRecord (lt_dedupe_key t) Open None None
      (lt_request_id t) (lt_trace_id t) now []) (m !! lt_dedupe_key t)) = old ∧
    lr_dedupe_key (default (mkLifecycleRecord (lt_dedupe_key t) Open None None
      (lt_request_id t) (lt_trace_id t) now []) (m !! lt_dedupe_key t)) = lt_dedupe_key t ∧
    moves Open (le_status <$> old) (default Open (lr_status <$> m !! lt_dedupe_key t)) ∧
    ∀ e, e ∈ old → ∃ request, request ∈ requests ∧ from_request (lt_dedupe_key t) e request)
    as (old & Hold & Hkey & Hmoves & Hreq).
  { destruct (m !! lt_dedupe_key t) as [r|] eqn:Hr; simpl.
    - destruct (Hm _ _ Hr) as (? & ? & ? & _). eauto.
    - exists []. split_and!; [done..|constructor|]. set_solver. }
  rewrite Hold, Hkey. split_and!; simpl; [done| | |].
  - rewrite fmap_app. by eapply moves_snoc.
  - intros e [He|He%list_elem_of_singleton]%elem_of_app.
    + destruct (Hreq e He) as (q & ? & ?). exists q. set_solver.
    + exists (now, t). split; [set_solver|]. by split.
  - eexists. split; [by rewrite last_snoc|done].
Qed.

Section lifecycle.
Context {L : Type} `{!LifecycleStore L} (holds : L → Records → Prop) `{!LifecycleLaws L holds}.

(** The store after a sequence of requests, with their answers. *)
Fixpoint transitions (requests : Requests) (s : L) : list bool * L :=
  match requests with
  | [] => ([], s)
  | (now, t) :: rest =>
      let '(r, s) := lifecycle_transition now t s in
      let '(answers, s) := transitions rest s in
      (is_ok r :: answers, s)
  end.

Lemma transitions_faithful before requests s m answers s' :
  holds s m → map_Forall (faithful before) m → transitions requests s = (answers, s') →
  ∃ m', holds s' m' ∧ map_Forall (faithful (before ++ requests)) m' ∧
    ∀ key r, m !! key = Some r → moves_left (lr_status r) = 0%nat → m' !! key = Some r.
Proof using All.
  revert before s m answers. induction requests as [|[now t] rest IH]; intros before s m answers Hs Hm; simpl.
  { intros [= <- <-]. exists m. by rewrite app_nil_r. }
  destruct (lifecycle_transition now t s) as [r s1] eqn:Ht.
  destruct (transitions rest s1) as [answers' s2] eqn:Hrest. intros [= <- <-].
  rewrite cons_middle, app_assoc.
  assert (map_Forall (faithful (before ++ [(now, t)])) m) as Hm1.
  { intros k x Hk. eapply faithful_weaken; [|by apply Hm]. set_solver. }
  destruct (lifecycle_transition_law _ _ _ _ _ _ Hs Ht) as [[_ H1]|(record & Hrec & H1 & _)].
  { by eapply IH. }
  pose proof (transition_faithful _ _ _ _ _ Hm Hrec) as Hf. pose proof Hf as [Hkey _].
  edestruct IH as (m' & Hm' & Hfm' & Hstay); [exact H1| |exact Hrest|].
  { apply map_Forall_insert_2; [by rewrite Hkey|exact Hm1]. }
  exists m'. split_and!; [done..|]. intros key x Hx Hclosed. apply Hstay; [|done].
  rewrite lookup_insert_ne; [done|]. intros <-. rewrite Hkey in Hx.
  unfold transition_lifecycle_record in Hrec. rewrite Hx in Hrec. simpl in Hrec.
  by destruct (lr_status x), (lt_status t).
Qed.

(** The books on alerts are straight in any store that keeps the contract, whatever
    requests it got and whichever failed: a record is kept under the key of its alert, its
    history is made of requests for that alert, leads from Open to the current status in
    allowed steps, at most two, and ends in the event the record shows; and an alert that
    was resolved, suppressed or expired keeps its record for good. *)
Theorem alert_history_faithful requests more s answers s1 answers' s2 :
  holds s ∅ → transitions requests s = (answers, s1) → transitions more s1 = (answers', s2) →
  ∃ m m', holds s1 m ∧ holds s2 m' ∧
    map_Forall (λ key r, faithful requests key r ∧ (1 ≤ length (lr_history r) ≤ 2)%nat) m ∧
    ∀ key r, m !! key = Some r → lr_status r ∈ [Resolved; Suppressed; Expired] → m' !! key = Some r.
Proof using All.
  intros Hs H1 H2.
  destruct (transitions_faithful [] _ _ _ _ _ Hs (map_Forall_empty _) H1) as (m & Hm & Hf & _).
  destruct (transitions_faithful _ _ _ _ _ _ Hm Hf H2) as (m' & Hm' & _ & Hstay).
  exists m, m'. split_and!; [done..| |].
  - intros key r Hr. pose proof (Hf _ _ Hr) as Hr'. split; [done|].
    destruct Hr' as (_ & Hmoves & _ & e & He & _). apply moves_bounded in Hmoves.
    rewrite length_fmap in Hmoves. simpl in Hmoves. split; [|lia]. by destruct (lr_history r); [|simpl; lia].
  - intros key r Hr Hclosed. apply (Hstay _ _ Hr).
    repeat (apply elem_of_cons in Hclosed as [Heq|Hclosed]; [by rewrite Heq|]). set_solver.
Qed.
End lifecycle.

Module LifecycleSample.
Definition ask (status : OperationAlertLifecycleStatus) : N * OperationAlertLifecycleTransition :=
  (7%N, mkLifecycleTransition "k" status "alice" (Some "seen") "req" "trace").
Definition closing := transitions [ask Acknowledged; ask Resolved] (InMemoryLifecycle.mkStore ∅).
End LifecycleSample.
Lemma alert_history_faithful_witness :
  ∃ r, InMemoryLifecycle.records LifecycleSample.closing.2 !! "k" = Some r ∧
    lr_status r = Resolved ∧
    InMemoryLifecycle.records (transitions [LifecycleSample.ask Expired] LifecycleSample.closing.2).2
      !! "k" = Some r.
Proof.
  destruct (alert_history_faithful (λ s m, InMemoryLifecycle.records s = m)
    [LifecycleSample.ask Acknowledged; LifecycleSample.ask Resolved] [LifecycleSample.ask Expired]
    (InMemoryLifecycle.mkStore ∅) LifecycleSample.closing.1 LifecycleSample.closing.2
    (transitions [LifecycleSample.ask Expired] LifecycleSample.closing.2).1
    (transitions [LifecycleSample.ask Expired] LifecycleSample.closing.2).2
    eq_refl (surjective_pairing _) (surjective_pairing _)) as (m & m' & Hm & Hm' & _ & Hstay).
  destruct (m !! "k") as [r|] eqn:Hr; rewrite <-Hm in Hr; [|vm_compute in Hr; discriminate Hr].
  exists r. split; [done|]. assert (lr_status r = Resolved) as Hs by (vm_compute in Hr; by injection Hr as <-).
  split; [done|]. rewrite Hm'. apply Hstay; [by rewrite <-Hm|]. rewrite Hs. left.
Defined.

(** ** src/api/alert_lifecycle.rs *)

Record AlertLifecycleTransitionRequest := mkAlertTransitionRequest {
  ar_request_id : string;
  ar_trace_id : option string;
  ar_dedupe_key : string;
  ar_operator : string;
  ar_reason : string;
  ar_target_status : OperationAlertLifecycleStatus;
}.
Definition ensure_non_empty (field value : string) : UnderlayResult unit :=
  reject_if (str_is_empty (trim value))
    (InvalidIntent ("alert lifecycle " +:+ field +:+ " must not be empty")).
Definition validate_transition_request (q : AlertLifecycleTransitionRequest) : UnderlayResult unit :=
  _ ← ensure_non_empty "request_id" (ar_request_id q);
  _ ← ensure_non_empty "dedupe_key" (ar_dedupe_key q);
  _ ← ensure_non_empty "operator" (ar_operator q);
  _ ← ensure_non_empty "reason" (ar_reason q);
  Ok tt.
Definition action_for_status (status : OperationAlertLifecycleStatus) : UnderlayResult AdminAction :=
  match status with
  | Open => Err (InvalidIntent "alert lifecycle cannot manually transition to Open")
  | Acknowledged => Ok AcknowledgeAlert
  | Resolved => Ok ResolveAlert
  | Suppressed => Ok SuppressAlert
  | Expired => Ok ExpireAlert
  end.

Section manager.
Context {Z P L : Type} `{!AuthorizationPolicy Z} `{!ProductAuditStore P} `{!LifecycleStore L}.
Context (policy : Z) (audit_time transition_time : N).

Definition request_trace (q : AlertLifecycleTransitionRequest) : string :=
  default (ar_request_id q) (ar_trace_id q).
Definition asked_transition (q : AlertLifecycleTransitionRequest) : OperationAlertLifecycleTransition :=
  mkLifecycleTransition (ar_dedupe_key q) (ar_target_status q) (ar_operator q) (Some (ar_reason q))
    (ar_request_id q) (request_trace q).
Definition on_audit {A} (f : ST UnderlayError P A) : ST UnderlayError (P * L) A := λ s,
  let '(x, p) := f s.1 in (x, (p, s.2)).
Definition on_lifecycle {A} (f : ST UnderlayError L A) : ST UnderlayError (P * L) A := λ s,
  let '(x, l) := f s.2 in (x, (s.1, l)).
(** [AlertLifecycleManager::transition] *)
Definition manager_transition (q : AlertLifecycleTransitionRequest)
    : ST UnderlayError (P * L) OperationAlertLifecycleRecord :=
  _ ← st_lift (validate_transition_request q);
  action ← st_lift (action_for_status (ar_target_status q));
  _ ← st_lift (authorize policy (mkAuthorizationRequest (ar_request_id q) (request_trace q)
                                   (ar_operator q) action));
  _ ← on_audit (product_append (alert_lifecycle_transition audit_time (ar_request_id q)
        (request_trace q) (ar_dedupe_key q) (ar_target_status q) (ar_operator q) (ar_reason q)));
  on_lifecycle (lifecycle_transition transition_time (asked_transition q)).

Context (logged : P → list ProductAuditRecord → Prop) `{!ProductAuditLaws P logged}.
Context (holds : L → Records → Prop) `{!LifecycleLaws L holds}.

(** An operator moves an alert only on the books: the life cycle records change only
    when the request is complete, its status is not Open, the policy permits the operator
    the action of that status and the product audit log ends in the record of the command;
    then exactly the record of that alert is replaced, by an allowed step.  A request that
    succeeds did so. *)
Theorem alert_transition_audited q p l log m r p' l' :
  logged p log → holds l m → manager_transition q (p, l) = (r, (p', l')) →
  ∃ m', holds l' m' ∧
  (is_ok r = false ∧ m' = m ∨
   ∃ action decision record,
     validate_transition_request q = Ok tt ∧ action_for_status (ar_target_status q) = Ok action ∧
     authorize policy (mkAuthorizationRequest (ar_request_id q) (request_trace q)
       (ar_operator q) action) = Ok decision ∧
     logged p' (log ++ [alert_lifecycle_transition audit_time (ar_request_id q) (request_trace q)
       (ar_dedupe_key q) (ar_target_status q) (ar_operator q) (ar_reason q)]) ∧
     transition_lifecycle_record transition_time (m !! ar_dedupe_key q) (asked_transition q) = Ok record ∧
     m' = <[lr_dedupe_key record := record]> m ∧ ∀ v, r = Ok v → v = record).
Proof using All.
  intros Hp Hl. unfold manager_transition, on_audit, on_lifecycle, mbind, ST_bind, st_lift. simpl.
  destruct (validate_transition_request q) as [[]|e]; [|intros [= <- <- <-]; eauto].
  destruct (action_for_status (ar_target_status q)) as [action|e]; [|intros [= <- <- <-]; eauto].
  destruct (authorize policy _) as [decision|e] eqn:Hz; [|intros [= <- <- <-]; eauto].
  destruct (product_append _ p) as [[[]|e] p1] eqn:Ha; [|intros [= <- <- <-]; eauto].
  apply (product_append_law _ _ _ _ Hp) in Ha.
  simpl. destruct (lifecycle_transition _ _ l) as [x l1] eqn:Ht. intros [= <- <- <-].
  destruct (lifecycle_transition_law _ _ _ _ _ _ Hl Ht) as [[Hx H1]|(record & Hrec & H1 & Hv)]; [eauto|].
  eexists. split; [exact H1|]. right. exists action, decision, record. by split_and!.
Qed.
End manager.

Module ManagerSample.
Definition request (operator : string) : AlertLifecycleTransitionRequest :=
  mkAlertTransitionRequest "req" None "k" operator "seen" Acknowledged.
Definition policy : StaticPolicy.Policy :=
  StaticPolicy.with_allowed_actions "alice" [AcknowledgeAlert] StaticPolicy.new.
Definition run (operator : string) := manager_transition policy 7 8 (request operator)
  (InMemoryProductAudit.mkStore [], InMemoryLifecycle.mkStore ∅).
End ManagerSample.
Lemma alert_transition_audited_witness :
  ∃ record, (ManagerSample.run "alice").1 = Ok record ∧
    InMemoryLifecycle.records (ManagerSample.run "alice").2.2 = {[ "k" := record ]} ∧
    length (InMemoryProductAudit.records (ManagerSample.run "alice").2.1) = 1%nat ∧
    ManagerSample.run "bob" = (Err (AuthorizationDenied
      "operator bob is not registered for local admin operations"),
      (InMemoryProductAudit.mkStore [], InMemoryLifecycle.mkStore ∅)).
Proof.
  destruct (alert_transition_audited ManagerSample.policy 7 8
    (λ s rs, InMemoryProductAudit.records s = rs) (λ s m, InMemoryLifecycle.records s = m)
    (ManagerSample.request "alice") (InMemoryProductAudit.mkStore []) (InMemoryLifecycle.mkStore ∅)
    [] ∅ (ManagerSample.run "alice").1 (ManagerSample.run "alice").2.1
    (ManagerSample.run "alice").2.2 eq_refl eq_refl)
    as (m' & Hm & [[Hr _]|(action & decision & record & _ & _ & _ & Hp & Hrec & Hm' & Hv)]).
  - rewrite <-(surjective_pairing (ManagerSample.run "alice").2). apply surjective_pairing.
  - vm_compute in Hr. discriminate Hr.
  - exists record. rewrite Hm, Hp, Hm'. vm_compute in Hrec. injection Hrec as <-.
    split_and!; reflexivity.
Defined.

(** ** src/api/operation_alerts.rs *)

Record ListOperationAlertsRequest := mkListOperationAlertsRequest {
  la_operation_alert_path : string;
  la_alert_state_path : option string;
  la_severity : option OperationAlertSeverity;
  la_limit : option nat;
}.
Record OperationAlertView := mkOperationAlertView {
  view_alert : OperationAlert;
  view_lifecycle : option OperationAlertLifecycleRecord;
}.
Record OperationAlertOverview := mkOperationAlertOverview {
  matched_alerts : nat;
  returned_alerts : nat;
  critical : nat;
  warning : nat;
  open : nat;
  acknowledged : nat;
  resolved : nat;
  suppressed : nat;
  expired : nat;
  by_action : gmap string nat;
  by_result : gmap string nat;
  by_device : gmap string nat;
}.
Definition increment (m : gmap string nat) (key : string) : gmap string nat :=
  <[key := S (default 0%nat (m !! key))]> m.
Definition record_lifecycle_status (status : OperationAlertLifecycleStatus)
    (ov : OperationAlertOverview) : OperationAlertOverview :=
  let 'mkOperationAlertOverview m r c w op ack res sup ex ba br bd := ov in
  match status with
  | Open => mkOperationAlertOverview m r c w (S op) ack res sup ex ba br bd
  | Acknowledged => mkOperationAlertOverview m r c w op (S ack) res sup ex ba br bd
  | Resolved => mkOperationAlertOverview m r c w op ack (S res) sup ex ba br bd
  | Suppressed => mkOperationAlertOverview m r c w op ack res (S sup) ex ba br bd
  | Expired => mkOperationAlertOverview m r c w op ack res sup (S ex) ba br bd
  end.
Definition count_alert (lifecycle_records : Records) (ov : OperationAlertOverview)
    (alert : OperationAlert) : OperationAlertOverview :=
  let 'mkOperationAlertOverview m r c w op ack res sup ex ba br bd := ov in
  record_lifecycle_status
    (default Open (lr_status <$> lifecycle_records !! alert_dedupe_key alert))
    (mkOperationAlertOverview m r
       (match alert_severity alert with Critical => S c | Warning => c end)
       (match alert_severity alert with Critical => w | Warning => S w end)
       op ack res sup ex
       (increment ba (alert_action alert)) (increment br (alert_result alert))
       (match alert_device_id alert with
        | Some d => increment bd (device_id_0 d)
        | None => bd
        end)).
Definition from_alerts (alerts : list OperationAlert) (returned : nat) (lifecycle_records : Records)
    : OperationAlertOverview :=
  foldl (count_alert lifecycle_records)
    (mkOperationAlertOverview (length alerts) returned 0 0 0 0 0 0 0 ∅ ∅ ∅) alerts.
Definition limit_alerts (alerts : list OperationAlert) (lifecycle_records : Records)
    (limit : option nat) : list OperationAlertView :=
  (λ alert, mkOperationAlertView alert (lifecycle_records !! alert_dedupe_key alert)) <$>
    take (default (length alerts) limit) alerts.

Section listing.
Context (o : FsOracle) (alert_codec : Codec OperationAlert) (state_codec : Codec Records).

Definition severity_matches (request : ListOperationAlertsRequest) (alert : OperationAlert) : bool :=
  match la_severity request with
  | Some severity => bool_decide (alert_severity alert = severity)
  | None => true
  end.
Definition filtered_alerts (request : ListOperationAlertsRequest)
    : ST UnderlayError Fs (list OperationAlert) :=
  alerts ← JsonFileSink.list o alert_codec (la_operation_alert_path request);
  mret (filter (λ a, severity_matches request a = true) alerts).
Definition lifecycle_records (request : ListOperationAlertsRequest) : ST UnderlayError Fs Records :=
  match la_alert_state_path request with
  | None => mret ∅
  | Some path =>
      records ← JsonFileLifecycle.list o state_codec path;
      mret (bt_collect ((λ r, (lr_dedupe_key r, r)) <$> records))
  end.
Definition list_operation_alerts (request : ListOperationAlertsRequest)
    : ST UnderlayError Fs (list OperationAlertView * OperationAlertOverview) :=
  alerts ← filtered_alerts request;
  records ← lifecycle_records request;
  let returned := limit_alerts alerts records (la_limit request) in
  mret (returned, from_alerts alerts (length returned) records).

(** *** What a listing says *)

Definition status_of (records : Records) (alert : OperationAlert) : OperationAlertLifecycleStatus :=
  default Open (lr_status <$> records !! alert_dedupe_key alert).
Definition status_count (ov : OperationAlertOverview) (x : OperationAlertLifecycleStatus) : nat :=
  match x with
  | Open => open ov | Acknowledged => acknowledged ov | Resolved => resolved ov
  | Suppressed => suppressed ov | Expired => expired ov
  end.
Definition counts {A} (P : A → Prop) `{∀ x, Decision (P x)} (l : list A) : nat := length (filter P l).

Lemma counts_cons {A} (P : A → Prop) `{∀ x, Decision (P x)} x l :
  counts P (x :: l) = ((if decide (P x) then 1 else 0) + counts P l)%nat.
Proof. unfold counts. rewrite filter_cons. by case_decide. Qed.

Lemma increment_get m key k :
  default 0%nat (increment m key !! k) = ((if decide (key = k) then 1 else 0) + default 0 (m !! k))%nat.
Proof.
  unfold increment. case_decide; [subst; by rewrite lookup_insert_eq|by rewrite lookup_insert_ne].
Qed.

Lemma count_alert_fields records ov a :
  let ov' := count_alert records ov a in
  matched_alerts ov' = matched_alerts ov ∧ returned_alerts ov' = returned_alerts ov ∧
  critical ov' = ((if decide (alert_severity a = Critical) then 1 else 0) + critical ov)%nat ∧
  warning ov' = ((if decide (alert_severity a = Warning) then 1 else 0) + warning ov)%nat ∧
  (∀ x, status_count ov' x = (if decide (status_of records a = x) then 1 else 0) + status_count ov x)%nat ∧
  by_action ov' = increment (by_action ov) (alert_action a) ∧
  by_result ov' = increment (by_result ov) (alert_result a) ∧
  by_device ov' = match alert_device_id a with
                  | Some d => increment (by_device ov) (device_id_0 d)
                  | None => by_device ov
                  end.
Proof.
  destruct ov as [mt r c w op ack res sup ex ba br bd]. unfold status_of. cbv zeta. simpl.
  destruct (default Open _), (alert_severity a); simpl; split_and!; try done; by intros [].
Qed.

Lemma from_alerts_counts records alerts ov :
  let ov' := foldl (count_alert records) ov alerts in
  matched_alerts ov' = matched_alerts ov ∧ returned_alerts ov' = returned_alerts ov ∧
  critical ov' = (critical ov + counts (λ a, alert_severity a = Critical) alerts)%nat ∧
  warning ov' = (warning ov + counts (λ a, alert_severity a = Warning) alerts)%nat ∧
  (∀ x, status_count ov' x = status_count ov x + counts (λ a, status_of records a = x) alerts)%nat ∧
  (∀ k, default 0 (by_action ov' !! k) =
     default 0 (by_action ov !! k) + counts (λ a, alert_action a = k) alerts)%nat ∧
  (∀ k, default 0 (by_result ov' !! k) =
     default 0 (by_result ov !! k) + counts (λ a, alert_result a = k) alerts)%nat ∧
  (∀ k, default 0 (by_device ov' !! k) =
     default 0 (by_device ov !! k) +
     counts (λ a, device_id_0 <$> alert_device_id a = Some k) alerts)%nat.
Proof.
  revert ov. induction alerts as [|a alerts IH]; intros ov; cbv zeta; simpl.
  { unfold counts. split_and!; intros; simpl; lia. }
  destruct (IH (count_alert records ov a)) as (-> & -> & -> & -> & Hs & Ha & Hr & Hd).
  destruct (count_alert_fields records ov a) as (-> & -> & -> & -> & Hs1 & Ha1 & Hr1 & Hd1).
  split_and!; [done..|rewrite counts_cons; lia|rewrite counts_cons; lia| | | |]; intros k;
    rewrite counts_cons.
  - rewrite Hs, Hs1. lia.
  - rewrite Ha, Ha1, increment_get. lia.
  - rewrite Hr, Hr1, increment_get. lia.
  - rewrite Hd, Hd1. destruct (alert_device_id a) as [d|]; simpl; [rewrite increment_get|];
      repeat case_decide; simplify_eq; try done; lia.
Qed.

Lemma total_status records alerts :
  (counts (λ a, status_of records a = Open) alerts + counts (λ a, status_of records a = Acknowledged) alerts +
   counts (λ a, status_of records a = Resolved) alerts + counts (λ a, status_of records a = Suppressed) alerts +
   counts (λ a, status_of records a = Expired) alerts = length alerts)%nat.
Proof.
  induction alerts as [|a alerts IH]; [done|]. rewrite !counts_cons. simpl length. rewrite <-IH.
  destruct (status_of records a); repeat case_decide; try done; lia.
Qed.
Lemma total_severity alerts :
  (counts (λ a, alert_severity a = Critical) alerts + counts (λ a, alert_severity a = Warning) alerts
   = length alerts)%nat.
Proof.
  induction alerts as [|a alerts IH]; [done|]. rewrite !counts_cons. simpl length. rewrite <-IH.
  destruct (alert_severity a); repeat case_decide; try done; lia.
Qed.

(** Records kept under their keys are what the listing joins with. *)
Lemma keyed_records_collect (m : Records) :
  map_Forall (λ key r, lr_dedupe_key r = key) m →
  bt_collect ((λ r, (lr_dedupe_key r, r)) <$> bt_values m) = m.
Proof.
  intros Hm. apply map_eq. intros key. apply option_eq. intros r.
  assert (∀ r, (key, r) ∈ (λ r, (lr_dedupe_key r, r)) <$> bt_values m ↔ m !! key = Some r) as Hin.
  { intros x. rewrite list_elem_of_fmap. setoid_rewrite elem_of_bt_values. split.
    - intros (y & [= -> ->] & k & Hk). by rewrite (Hm _ _ Hk).
    - intros Hx. exists x. rewrite (Hm _ _ Hx). eauto. }
  split; [intros Hr%bt_collect_Some; by apply Hin|]. intros Hr. apply Hin in Hr as Hel.
  destruct (bt_collect _ !! key) as [r'|] eqn:Hr'.
  - apply bt_collect_Some, Hin in Hr'. congruence.
  - apply bt_collect_None in Hr'. destruct Hr'. apply list_elem_of_fmap. by exists (key, r).
Qed.

Lemma filtered_alerts_spec `{!StatsWork o} request alerts s r s' :
  codec_round_trip alert_codec → prints_one_line alert_codec →
  log_holds alert_codec (la_operation_alert_path request) JsonFileSink.serialize_error s alerts →
  filtered_alerts request s = (r, s') →
  fs_files s' = fs_files s ∧
  ∀ l, r = Ok l → l = filter (λ a, severity_matches request a = true) alerts.
Proof.
  intros Hc Hl Hh. unfold filtered_alerts, mbind, ST_bind.
  destruct (JsonFileSink.list _ _ _ s) as [[l|e] s1] eqn:Hlist;
    destruct (log_list_spec o alert_codec _ _ _ _ Hc Hl _ _ _ _ Hh Hlist) as [Hf Heq];
    intros [= <- <-]; [|done]. rewrite (Heq l) by done. naive_solver.
Qed.
Lemma lifecycle_records_spec `{!StatsWork o} request m s r s' :
  map_Forall (λ key r, lr_dedupe_key r = key) m →
  match la_alert_state_path request with
  | Some path => value_holds state_codec path ∅ s m
  | None => m = ∅
  end →
  lifecycle_records request s = (r, s') → ∀ v, r = Ok v → v = m.
Proof.
  intros Hm Hs. unfold lifecycle_records. destruct (la_alert_state_path request) as [path|].
  2:{ intros [= <- <-] v [= <-]. by subst m. }
  unfold JsonFileLifecycle.list, mbind, ST_bind.
  destruct (JsonFileLifecycle.read_lifecycle_records _ _ _ s) as [[v|e] s1] eqn:Hr;
    eapply (read_value_spec o) in Hr as [_ Hv]; [|apply _|exact Hs| |apply _|exact Hs]; intros [= <- <-] x; [|done].
  intros [= <-]. rewrite (Hv v) by done. by apply keyed_records_collect.
Qed.

(** Unless a [stat] fails, a listing shows what the files hold: the alerts of the wanted severity, in the order
    they were delivered and up to the limit, each with its life cycle record; the overview
    counts all that match (not only those returned), by severity, by status (an alert
    without record is open), by action, result and device, and the counts add up. *)
Theorem list_operation_alerts_correct `{!StatsWork o} request s alerts m views ov s' :
  codec_round_trip alert_codec → prints_one_line alert_codec →
  log_holds alert_codec (la_operation_alert_path request) JsonFileSink.serialize_error s alerts →
  map_Forall (λ key r, lr_dedupe_key r = key) m →
  match la_alert_state_path request with
  | Some path => value_holds state_codec path ∅ s m
  | None => m = ∅
  end →
  list_operation_alerts request s = (Ok (views, ov), s') →
  let matched := filter (λ a, severity_matches request a = true) alerts in
  views = (λ a, mkOperationAlertView a (m !! alert_dedupe_key a)) <$>
            take (default (length matched) (la_limit request)) matched ∧
  matched_alerts ov = length matched ∧ returned_alerts ov = length views ∧
  critical ov = counts (λ a, alert_severity a = Critical) matched ∧
  (critical ov + warning ov = length matched)%nat ∧
  (∀ x, status_count ov x = counts (λ a, status_of m a = x) matched) ∧
  (open ov + acknowledged ov + resolved ov + suppressed ov + expired ov = length matched)%nat ∧
  (∀ k, default 0%nat (by_action ov !! k) = counts (λ a, alert_action a = k) matched) ∧
  (∀ k, default 0%nat (by_result ov !! k) = counts (λ a, alert_result a = k) matched) ∧
  (∀ k, default 0%nat (by_device ov !! k) =
     counts (λ a, device_id_0 <$> alert_device_id a = Some k) matched).
Proof.
  intros Hc Hl Hh Hm Hs. unfold list_operation_alerts, mbind, ST_bind.
  destruct (filtered_alerts request s) as [[l|e] s1] eqn:Hf; [|done].
  destruct (filtered_alerts_spec _ _ _ _ _ Hc Hl Hh Hf) as [Hsame Hl1]. rewrite (Hl1 l) by done.
  destruct (lifecycle_records request s1) as [[v|e] s2] eqn:Hr; [|done].
  assert (v = m) as Hv.
  { eapply lifecycle_records_spec; [done| |exact Hr|done].
    unfold value_holds in *. by rewrite Hsame. }
  subst v.
  intros [= <- <- <-]. cbv zeta. set (matched := filter _ alerts). unfold from_alerts.
  edestruct (from_alerts_counts m matched) as (-> & -> & -> & -> & Hst & Ha & Hres & Hd).
  assert (∀ x, status_count (from_alerts matched (length (limit_alerts matched m (la_limit request))) m) x
    = counts (λ a, status_of m a = x) matched) as Hst' by (intros x; unfold from_alerts; by rewrite Hst; destruct x).
  split_and!; try done.
  - apply total_severity.
  - pose proof (total_status m matched) as Ht. rewrite <-!Hst' in Ht. exact Ht.
Qed.
End listing.

Module ListingSample.
Definition line : string := of_bytes (bytes "{}" ++ [newline]).
Definition fs : Fs := mkFs true {[ "alerts.jsonl" := line +:+ line; "state.json" := "[]" ]} 0.
Definition closed : OperationAlertLifecycleRecord := mkLifecycleRecord
  (alert_dedupe_key TornSample.alert) Resolved (Some "alice") None "req" "trace" 7 [].
Definition states : Codec Records :=
  mkCodec (λ _, Err "unsupported") (λ _, Ok {[ alert_dedupe_key TornSample.alert := closed ]}).
Definition request : ListOperationAlertsRequest :=
  mkListOperationAlertsRequest "alerts.jsonl" (Some "state.json") (Some Warning) (Some 1%nat).
Definition run := list_operation_alerts sample_oracle TornSample.codec states request fs.
End ListingSample.

Lemma list_operation_alerts_correct_witness :
  ∃ views ov s', ListingSample.run = (Ok (views, ov), s') ∧ length views = 1%nat ∧
    matched_alerts ov = 2%nat ∧ resolved ov = 2%nat.
Proof.
  destruct ListingSample.run as [[[views ov]|e] s'] eqn:Hrun.
  2:{ exfalso. apply (f_equal fst) in Hrun. vm_compute in Hrun. discriminate Hrun. }
  destruct (list_operation_alerts_correct sample_oracle TornSample.codec ListingSample.states
    ListingSample.request ListingSample.fs [TornSample.alert; TornSample.alert]
    {[ alert_dedupe_key TornSample.alert := ListingSample.closed ]} views ov s')
    as (Hv & Hm & _ & _ & _ & Hs & _).
  - apply TornSample.torn_codec_ok.
  - apply TornSample.torn_codec_ok.
  - vm_compute. reflexivity.
  - apply map_Forall_singleton. reflexivity.
  - reflexivity.
  - exact Hrun.
  - exists views, ov, s'. split; [reflexivity|]. split; [rewrite Hv; vm_compute; reflexivity|].
    split; [rewrite Hm; vm_compute; reflexivity|].
    change (resolved ov) with (status_count ov Resolved). rewrite Hs. vm_compute. reflexivity.
Defined.
End Alerts.
