(* ===== verification/Workers.v ===== *)
(** * Workers (src/worker/)

    A worker repeats a task on a schedule until it is told to stop; the first error ends it.
    The workers collect garbage (gc.rs), audit drift (drift_auditor.rs), recover overdue
    confirmed commits (confirmed_commit.rs), deliver alerts (operation_alerts.rs) and compact
    logs (operation_audit_compactor.rs, operation_summary_compactor.rs); the runtime
    (runtime.rs) runs those configured side by side and restarts the ones that panic.

    Time is what happens between two runs: a worker gets, for every tick of its interval
    before the shutdown, what the rest of the system did to the state meanwhile. *)
From S2P Require Export Service Gc Alerts.

(** ** Running on a schedule *)

Record Schedule := mkSchedule {
  interval_secs : N;
  run_immediately : bool;
}.
Record SchedulerReport (R : Type) := mkSchedulerReport {
  runs : nat;
  last_report : option R;
}.
Arguments mkSchedulerReport {R}. Arguments runs {R}. Arguments last_report {R}.

Section periodic.
Context {W R : Type} (run_once : ST UnderlayError W R).
Notation Report := (SchedulerReport R).

Definition run_and_note (report : Report) : ST UnderlayError W Report :=
  r ← run_once; mret (mkSchedulerReport (S (runs report)) (Some r)).
(** The loop: one run per tick, until the shutdown. *)
Fixpoint tick_loop (report : Report) (ticks : list (W → W)) : ST UnderlayError W Report :=
  match ticks with
  | [] => mret report
  | meanwhile :: ticks => λ w, (report ← run_and_note report; tick_loop report ticks) (meanwhile w)
  end.
Definition run_periodic (what : string) (schedule : Schedule) (ticks : list (W → W))
    : ST UnderlayError W Report :=
  _ ← st_lift (reject_if (interval_secs schedule =? 0)%N
        (InvalidIntent (what +:+ " schedule interval_secs must be greater than zero")));
  report ← (if run_immediately schedule then run_and_note (mkSchedulerReport 0 None)
            else mret (mkSchedulerReport 0 None));
  tick_loop report ticks.

(** What every run and everything that happens meanwhile keeps, a worker keeps. *)
Lemma run_periodic_invariant (P : W → Prop) what schedule ticks w :
  (∀ w, P w → P (run_once w).2) → (∀ f w, f ∈ ticks → P w → P (f w)) →
  P w → P (run_periodic what schedule ticks w).2.
Proof using Type.
  intros Hrun Hticks Hw.
  assert (∀ report ticks w, (∀ f w, f ∈ ticks → P w → P (f w)) → P w → P (tick_loop report ticks w).2)
    as Hloop.
  { clear w Hw Hticks. intros report ticks'. revert report.
    induction ticks' as [|f ticks' IH]; intros report w Ht Hw; simpl; [done|].
    unfold run_and_note, mbind, ST_bind. pose proof (Hrun (f w)) as H1.
    destruct (run_once (f w)) as [[r|e] w1]; simpl; [|apply H1, Ht; set_solver].
    apply IH; [set_solver|]. apply H1, Ht; set_solver. }
  unfold run_periodic, run_and_note, mbind, ST_bind, st_lift. destruct (reject_if _ _); [|done].
  destruct (run_immediately schedule); [|by apply Hloop].
  pose proof (Hrun w) as H1. destruct (run_once w) as [[r|e] w1]; [|by apply H1].
  apply Hloop; [done|by apply H1].
Qed.

(** A worker stops for one of three reasons: its schedule is refused, a run failed (and it
    stops right there), or the shutdown, after one run per tick and the immediate one. *)
Lemma run_periodic_ends what schedule ticks w r w' :
  run_periodic what schedule ticks w = (r, w') →
  match r with
  | Ok report => (0 < interval_secs schedule)%N ∧
      runs report = (length ticks + if run_immediately schedule then 1 else 0)%nat ∧
      (is_Some (last_report report) ↔ (0 < runs report)%nat)
  | Err e => interval_secs schedule = 0%N ∧ w' = w ∨ ∃ w0, run_once w0 = (Err e, w')
  end.
Proof using Type.
  assert (∀ ticks report w r w', (is_Some (last_report report) ↔ (0 < runs report)%nat) →
    tick_loop report ticks w = (r, w') →
    match r with
    | Ok report' => runs report' = (length ticks + runs report)%nat ∧
        (is_Some (last_report report') ↔ (0 < runs report')%nat)
    | Err e => ∃ w0, run_once w0 = (Err e, w')
    end) as Hloop.
  { clear. induction ticks as [|f ticks IH]; intros report w r w' Hrep; simpl; [by intros [= <- <-]|].
    unfold run_and_note, mbind, ST_bind. destruct (run_once (f w)) as [[x|e] w1] eqn:Hr; simpl.
    - intros Hl. apply IH in Hl; [|simpl; split; [lia|by eexists]]. destruct r; [|done].
      destruct Hl as [-> ?]. split; [simpl; lia|done].
    - intros [= <- <-]. eauto. }
  unfold run_periodic, run_and_note, mbind, ST_bind, st_lift, reject_if.
  destruct (interval_secs schedule =? 0)%N eqn:Hi.
  { intros [= <- <-]. left. by apply N.eqb_eq in Hi. }
  apply N.eqb_neq in Hi. destruct (run_immediately schedule).
  - destruct (run_once w) as [[x|e] w1] eqn:Hr; simpl; [|intros [= <- <-]; eauto].
    intros Hl. apply Hloop in Hl; [|simpl; split; [lia|by eexists]]. simpl in Hl.
    destruct r; [|by right]. split_and!; [lia|lia|tauto].
  - intros Hl. apply Hloop in Hl; [|simpl; split; [by intros []|lia]]. simpl in Hl.
    destruct r; [|by right]. split_and!; [lia|lia|tauto].
Qed.
End periodic.

(** ** The collectors (gc.rs) *)

(** The request and trace id a worker puts on its events. *)
Record WorkerContext := mkWorkerContext { wc_request_id : string; wc_trace_id : string }.
Definition worker_context (name : string) : WorkerContext := mkWorkerContext name name.

Section collectors.
Context {K : Type} (emit : UnderlayEvent → K → K) (ctx : WorkerContext).
Context (o : FsOracle) (now : nat → N).

Record GcState := mkGcState {
  gs_fs : Fs;
  gs_artifacts : option (gmap string (gset string));
  gs_sink : K;
}.
Definition journal_gc_run_once_and_emit (codec : Codec TxJournalRecord) (policy : Collect.Retention)
    (journal_root artifact_root : string) : ST UnderlayError GcState Collect.JournalGcReport := λ s,
  let run := Collect.collect o codec policy (now (fs_calls (gs_fs s))) journal_root artifact_root
               (gs_fs s) (gs_artifacts s) in
  let report := Collect.g_report run in
  (Ok report, mkGcState (Collect.g_fs run) (Collect.g_artifacts run)
     (emit (Collect.journal_gc_completed (wc_request_id ctx) (wc_trace_id ctx) report) (gs_sink s))).
Definition journal_gc_run_periodic codec policy journal_root artifact_root :=
  run_periodic (journal_gc_run_once_and_emit codec policy journal_root artifact_root) "journal GC".

Definition idempotency_gc_run_once_and_emit (decode_stored_at : string → result string N)
    (retention_days : N) (root : string)
    : ST UnderlayError (Fs * K) Collect.ApplyIdempotencyGcReport := λ s,
  match Collect.idempotency_run_once o decode_stored_at retention_days (now (fs_calls s.1)) root s.1 with
  | (Err e, fs) => (Err e, (fs, s.2))
  | (Ok report, fs) => (Ok report, (fs,
      emit (Collect.apply_idempotency_gc_completed (wc_request_id ctx) (wc_trace_id ctx) report) s.2))
  end.
Definition idempotency_gc_run_periodic decode_stored_at retention_days root :=
  run_periodic (idempotency_gc_run_once_and_emit decode_stored_at retention_days root)
    "apply idempotency GC".

(** Collecting never touches a record that recovery needs, run after run. *)
Lemma journal_gc_worker_keeps codec policy journal_root artifact_root schedule ticks name text r s :
  (∀ f s, f ∈ ticks → fs_files (gs_fs (f s)) = fs_files (gs_fs s)) →
  fs_files (gs_fs s) !! name = Some text → decode codec text = Ok r → requires_recovery (phase r) = true →
  fs_files (gs_fs (journal_gc_run_periodic codec policy journal_root artifact_root schedule ticks s).2)
    !! name = Some text.
Proof using Type.
  intros Hticks Hfile Hdec Hphase.
  apply (run_periodic_invariant _ (λ s, fs_files (gs_fs s) !! name = Some text)); [|by intros f s' ? <-; rewrite Hticks|done].
  intros s0 H0. simpl.
  destruct (Collect.collect_Inv o codec policy (now (fs_calls (gs_fs s0))) journal_root artifact_root
    (gs_fs s0) (gs_artifacts s0)) as [Hf _].
  destruct (Hf name) as [->|[_ (r' & (t' & Ht' & Hd') & Hp & _)]]; [done|].
  simpl in Ht'. rewrite H0 in Ht'. simplify_eq. congruence.
Qed.
End collectors.

(** ** Drift audits (drift_auditor.rs) *)

Record DriftAuditRunSummary := mkDriftAuditRunSummary {
  audited_devices : nat;
  failed_devices : list DeviceId;
  drifted_devices : list DeviceId;
  expected_store_listing_error : option string;
  reports : list DriftReport;
}.
Definition from_reports_and_failures (audited : nat) (reports : list DriftReport)
    (failed : list DeviceId) : DriftAuditRunSummary :=
  mkDriftAuditRunSummary audited failed (dr_device_id <$> reports) None reports.
Definition from_reports (audited : nat) (reports : list DriftReport) : DriftAuditRunSummary :=
  from_reports_and_failures audited reports [].
Definition from_expected_store_listing_error (e : UnderlayError) : DriftAuditRunSummary :=
  mkDriftAuditRunSummary 0 [] [] (Some (error_text e)) [].

Definition run_snapshot_audit (snapshots : list (DeviceShadowState * DeviceShadowState))
    : list DriftReport :=
  filter (λ report, drift_detected report = true)
    ((λ '(expected, observed), detect_drift expected observed) <$> snapshots).

Section drift.
Context {S B K : Type} `{!ShadowStateStore S} (emit : UnderlayEvent → K → K) (ctx : WorkerContext).
(** [dyn DriftObservationSource] *)
Context (get_observed_state : DeviceId → ST UnderlayError B DeviceShadowState).

Definition audit_expected (acc : (list DriftReport * list DeviceId) * B) (expected : DeviceShadowState)
    : (list DriftReport * list DeviceId) * B :=
  let '((reports, failed), b) := acc in
  match get_observed_state (ss_device_id expected) b with
  | (Err _, b) => ((reports, failed ++ [ss_device_id expected]), b)
  | (Ok observed, b) =>
      let report := detect_drift expected observed in
      ((if drift_detected report then reports ++ [report] else reports, failed), b)
  end.
Definition audit_run_once : ST UnderlayError (S * B) DriftAuditRunSummary := λ '(s, b),
  match shadow_list s with
  | (Err e, s) => (Ok (from_expected_store_listing_error e), (s, b))
  | (Ok expected_states, s) =>
      let '((reports, failed), b) := foldl audit_expected (([], []), b) expected_states in
      (Ok (from_reports_and_failures (length expected_states) reports failed), (s, b))
  end.
(** [DriftAuditor::run_once_with_summary], of an auditor made by [from_source] or by [new]. *)
Definition run_once_with_summary (from_source : bool)
    (snapshots : list (DeviceShadowState * DeviceShadowState))
    : ST UnderlayError (S * B) DriftAuditRunSummary :=
  if from_source then audit_run_once
  else mret (from_reports (length snapshots) (run_snapshot_audit snapshots)).
Definition audit_run_once_and_emit (from_source : bool)
    (snapshots : list (DeviceShadowState * DeviceShadowState))
    : ST UnderlayError (S * B * K) DriftAuditRunSummary := λ '(s, b, k),
  match run_once_with_summary from_source snapshots (s, b) with
  | (Err e, (s, b)) => (Err e, (s, b, k))
  | (Ok summary, (s, b)) =>
      let k := foldl (λ k report,
        emit (event_drift_detected (wc_request_id ctx) (wc_trace_id ctx) report) k) k (reports summary) in
      (Ok summary, (s, b, emit (drift_audit_completed_with_failures (wc_request_id ctx)
        (wc_trace_id ctx) (audited_devices summary) (drifted_devices summary)
        (failed_devices summary) (expected_store_listing_error summary)) k))
  end.
Definition audit_run_periodic from_source snapshots :=
  run_periodic (audit_run_once_and_emit from_source snapshots) "drift audit".

(** A source that answers from a map of observations, or fails. *)
Context (source_ok : B → Prop) (seen : B → gmap DeviceId DeviceShadowState).
Context (Hseen : ∀ d b r b', source_ok b → get_observed_state d b = (r, b') →
  source_ok b' ∧ seen b' = seen b ∧ ∀ v, r = Ok v → seen b !! d = Some v).

Definition drift_of (b : B) (expected : DeviceShadowState) : option DriftReport :=
  observed ← seen b !! ss_device_id expected;
  let report := detect_drift expected observed in
  if drift_detected report then Some report else None.

#[local] Opaque detect_drift.
(** What the loop found so far: drifts are of observed devices, and every device was
    found drifted, found clean or counted as failed. *)
Lemma audit_loop b0 l reports failed b reports' failed' b' :
  source_ok b → seen b = seen b0 → foldl audit_expected ((reports, failed), b) l = ((reports', failed'), b') →
  ∃ new_reports new_failed,
    reports' = reports ++ new_reports ∧ failed' = failed ++ new_failed ∧
    (∀ report, report ∈ new_reports → ∃ e, e ∈ l ∧ drift_of b0 e = Some report) ∧
    (∀ e, e ∈ l → ss_device_id e ∈ new_failed ∨
       is_Some (seen b0 !! ss_device_id e) ∧ ∀ report, drift_of b0 e = Some report → report ∈ new_reports) ∧
    (∀ d, d ∈ new_failed → ∃ e, e ∈ l ∧ ss_device_id e = d).
Proof using Type*.
  revert reports failed b. induction l as [|e l IH]; intros reports failed b Hok Hb; simpl.
  { intros [= <- <- <-]. exists [], []. rewrite !app_nil_r. set_solver. }
  destruct (get_observed_state (ss_device_id e) b) as [[v|err] b1] eqn:Hget;
    destruct (Hseen _ _ _ _ Hok Hget) as (Hok1 & Hb1 & Hv); rewrite Hb in *; intros Hl.
  - apply IH in Hl as (nr & nf & -> & -> & Hr & Hall & Hf); [|done..].
    specialize (Hv v eq_refl).
    assert (drift_of b0 e = if drift_detected (detect_drift e v) then Some (detect_drift e v) else None) as He.
    { unfold drift_of. by rewrite Hv. }
    exists (if drift_detected (detect_drift e v) then detect_drift e v :: nr else nr), nf.
    destruct (drift_detected (detect_drift e v)); simpl; rewrite <-?app_assoc; (split_and!; [done|done|..]).
    + intros report [Hrep|Hrep]%elem_of_cons; [subst; exists e; set_solver|].
      destruct (Hr _ Hrep) as (x & ? & ?). exists x. set_solver.
    + intros x [Hx|Hx]%elem_of_cons; [subst; right; split; [by eexists|]; rewrite He; set_solver|].
      destruct (Hall x Hx) as [|[? Hrep]]; [by left|right; split; [done|]]. intros rep Hd. set_solver.
    + intros d Hd. destruct (Hf d Hd) as (x & ? & ?). set_solver.
    + intros report Hrep. destruct (Hr _ Hrep) as (x & ? & ?). exists x. set_solver.
    + intros x [Hx|Hx]%elem_of_cons; [subst; right; split; [by eexists|]; rewrite He; set_solver|auto].
    + intros d Hd. destruct (Hf d Hd) as (x & ? & ?). set_solver.
  - apply IH in Hl as (nr & nf & -> & -> & Hr & Hall & Hf); [|done..].
    exists nr, (ss_device_id e :: nf). split_and!; [done|by rewrite <-app_assoc|..].
    + intros report Hrep. destruct (Hr _ Hrep) as (x & ? & ?). exists x. set_solver.
    + intros x [Hx|Hx]%elem_of_cons; [subst; left; set_solver|].
      destruct (Hall x Hx) as [|]; [left; set_solver|by right].
    + intros d [Hd|Hd]%elem_of_cons; [subst; exists e; set_solver|].
      destruct (Hf d Hd) as (x & ? & ?). set_solver.
Qed.
#[local] Transparent detect_drift.

(** An audit accounts for every device of the expected store: one whose state could not be
    observed is listed as failed, and of the others exactly those that drifted are
    reported.  When the store cannot be listed the summary says so. *)
Context (ok : S → Prop) (view : S → gmap DeviceId DeviceShadowState) `{!ShadowStoreLaws S ok view}.
Lemma drift_audit_accounts_for_all s b r s' b' :
  ok s → source_ok b → audit_run_once (s, b) = (r, (s', b')) →
  ∃ summary, r = Ok summary ∧ view s' = view s ∧
    (is_Some (expected_store_listing_error summary) ∧ reports summary = [] ∨
     expected_store_listing_error summary = None ∧
     audited_devices summary = length (bt_values (view s)) ∧
     (∀ d e, view s !! d = Some e → ss_device_id e ∈ failed_devices summary ∨
        is_Some (seen b !! ss_device_id e) ∧
        ∀ report, drift_of b e = Some report → report ∈ reports summary) ∧
     (∀ report, report ∈ reports summary → ∃ d e, view s !! d = Some e ∧ drift_of b e = Some report)).
Proof using All.
  intros Hok Hb. unfold audit_run_once. destruct (shadow_list s) as [[l|e] s1] eqn:Hlist;
    destruct (shadow_list_law _ _ _ Hok Hlist) as (_ & Hview & Hl).
  2:{ intros [= <- <- <-]. eexists. split; [done|]. split; [done|]. left. split; [by eexists|done]. }
  rewrite (Hl l) by done. destruct (foldl audit_expected _ _) as [[nr nf] b1] eqn:Hf.
  intros [= <- <- <-]. eexists. split; [done|]. split; [done|]. right.
  eapply audit_loop in Hf as (nr' & nf' & -> & -> & Hr & Hall & _); [|done..]. simpl.
  split_and!; [done..| |].
  - intros d e He. apply Hall, elem_of_bt_values. eauto.
  - intros report Hrep. destruct (Hr _ Hrep) as (e & He & Hd). apply elem_of_bt_values in He as [d Hd']. eauto.
Qed.
End drift.

(** A shadow store as a source of observations ([ShadowStoreObservationSource] in daemon.rs). *)
Definition observe_in_store {S} `{!ShadowStateStore S} (d : DeviceId)
    : ST UnderlayError S DeviceShadowState :=
  state ← shadow_get d;
  st_lift (match state with Some state => Ok state | None => Err (missing_shadow_state d) end).
Lemma observe_in_store_spec {S} `{!ShadowStateStore S} ok view `{!ShadowStoreLaws S ok view} d b r b' :
  ok b → observe_in_store d b = (r, b') →
  ok b' ∧ view b' = view b ∧ ∀ v, r = Ok v → view b !! d = Some v.
Proof.
  intros Hok. unfold observe_in_store, mbind, ST_bind, st_lift.
  destruct (shadow_get d b) as [[state|e] b1] eqn:Hg;
    destruct (shadow_get_law _ _ _ _ Hok Hg) as (? & ? & Hv); intros [= <- <-]; [|done].
  split_and!; [done..|]. rewrite <-(Hv state) by done. by destruct state; intros v [= <-].
Qed.

(** ** The other workers (confirmed_commit.rs, operation_alerts.rs, the compactors) *)

Section others.
Context {J S I D O U P Z K : Type}.
Context `{!TxJournalStore J} `{!ShadowStateStore S} `{!ApplyIdempotencyStore I}.
Context `{!DomainApplyRecordStore D} `{!OperationSummaryStore O} `{!OperationAuditStore U}.
Context `{!ProductAuditStore P} `{!AuthorizationPolicy Z} `{!SecretStore K}.

(** [ConfirmedCommitTimeoutWatcher::run_once] *)
Definition watcher_run_once (se : ServiceEnv) :=
  service_recover_timed_out_confirmed_commits (J:=J) (S:=S) (I:=I) (D:=D) (O:=O) (U:=U) (P:=P) (Z:=Z)
    (K:=K) se.
Definition watcher_run_periodic (se : ServiceEnv) :=
  run_periodic (watcher_run_once se) "confirmed-commit timeout watcher".
End others.

Definition alert_delivery_run_periodic {S K C} `{!OperationSummaryStore S}
    `{!Alerts.OperationAlertSink K} `{!Alerts.CheckpointStore C} :=
  run_periodic (Alerts.deliver_once (S := S) (K := K) (C := C)) "operation alert delivery".

Section compactors.
Context (o : FsOracle) (path : string) (utf8_text : string → string) (policy : RetentionPolicy).
Definition audit_compaction_run_once (codec : Codec OperationAuditRecord)
    : ST UnderlayError Fs CompactionReport :=
  JsonFileOperationAudit.compact o codec path utf8_text policy.
Definition audit_compaction_run_periodic (codec : Codec OperationAuditRecord) :=
  run_periodic (audit_compaction_run_once codec) "operation audit compaction".
Definition summary_compaction_run_once (codec : Codec OperationSummary)
    : ST UnderlayError Fs CompactionReport :=
  JsonFileOperationSummaries.compact o codec path utf8_text policy.
Definition summary_compaction_run_periodic (codec : Codec OperationSummary) :=
  run_periodic (summary_compaction_run_once codec) "operation summary compaction".
End compactors.

