(* ===== verification/Runtime.v ===== *)
(** * The worker runtime (src/worker/runtime.rs)

    The runtime starts one task per configured worker and waits for tasks to end: a worker
    that panicked is started again after a delay that grows, one that ended otherwise is not;
    a shutdown ends all.  A task here is the kind of its worker; what a task's end brings is
    up to the environment. *)
From S2P Require Export Workers.

(** ** Workers by kind *)

Inductive RuntimeWorkerKind :=
  | KJournalGc | KApplyIdempotencyGc | KConfirmedCommitTimeout | KDriftAudit
  | KOperationAlertDelivery | KOperationSummaryCompaction | KOperationAuditCompaction.
#[export] Instance RuntimeWorkerKind_eq_dec : EqDecision RuntimeWorkerKind.
Proof. solve_decision. Defined.
Definition kind_index (k : RuntimeWorkerKind) : nat :=
  match k with
  | KJournalGc => 0 | KApplyIdempotencyGc => 1 | KConfirmedCommitTimeout => 2 | KDriftAudit => 3
  | KOperationAlertDelivery => 4 | KOperationSummaryCompaction => 5 | KOperationAuditCompaction => 6
  end.
Definition worker_kinds : list RuntimeWorkerKind :=
  [KJournalGc; KApplyIdempotencyGc; KConfirmedCommitTimeout; KDriftAudit; KOperationAlertDelivery;
   KOperationSummaryCompaction; KOperationAuditCompaction].
#[export] Program Instance RuntimeWorkerKind_countable : Countable RuntimeWorkerKind :=
  inj_countable kind_index (λ n, worker_kinds !! n) _.
Next Obligation. by intros []. Qed.

Definition runtime_worker_name (k : RuntimeWorkerKind) : string :=
  match k with
  | KJournalGc => "journal_gc"
  | KApplyIdempotencyGc => "apply_idempotency_gc"
  | KConfirmedCommitTimeout => "confirmed_commit_timeout"
  | KDriftAudit => "drift_audit"
  | KOperationAlertDelivery => "operation_alert_delivery"
  | KOperationSummaryCompaction => "operation_summary_compaction"
  | KOperationAuditCompaction => "operation_audit_compaction"
  end.

(** In milliseconds. *)
Definition WORKER_RESTART_DELAY : N := 100.
Definition worker_restart_delay (previous_restarts : N) : N :=
  let multiplier := N.min (2 ^ N.min previous_restarts 6) U64_MAX in
  N.min (WORKER_RESTART_DELAY * multiplier) 5000.

(** ** Configuration *)

(** What was configured: the workers, each with its schedule.  [Wk] is the type of a
    worker by kind. *)
Record UnderlayWorkerRuntime (Wk : RuntimeWorkerKind → Type) := mkRuntime {
  configured : ∀ k, option (Wk k * Schedule);
}.
Arguments mkRuntime {Wk}. Arguments configured {Wk}.
Definition new_runtime {Wk} : UnderlayWorkerRuntime Wk := mkRuntime (λ _, None).
(** [with_journal_gc] and the other builders *)
Definition with_worker {Wk} (k : RuntimeWorkerKind) (worker : Wk k) (schedule : Schedule)
    (self : UnderlayWorkerRuntime Wk) : UnderlayWorkerRuntime Wk :=
  mkRuntime (λ k', match decide (k = k') with
                   | left e => Some (eq_rect k Wk worker k' e, schedule)
                   | right _ => configured self k'
                   end).

Definition validate_interval (worker_name : string) (interval : N) : UnderlayResult unit :=
  reject_if (interval =? 0)%N
    (InvalidIntent (worker_name +:+ " runtime schedule interval_secs must be greater than zero")).
Definition schedule_name (k : RuntimeWorkerKind) : string :=
  match k with
  | KJournalGc => "journal GC"
  | KApplyIdempotencyGc => "apply idempotency GC"
  | KConfirmedCommitTimeout => "confirmed-commit timeout watcher"
  | KDriftAudit => "drift audit"
  | KOperationAlertDelivery => "operation alert delivery"
  | KOperationSummaryCompaction => "operation summary compaction"
  | KOperationAuditCompaction => "operation audit compaction"
  end.
Fixpoint validate_kinds {Wk} (self : UnderlayWorkerRuntime Wk) (l : list RuntimeWorkerKind)
    : UnderlayResult unit :=
  match l with
  | [] => Ok tt
  | k :: l =>
      _ ← match configured self k with
          | Some (_, schedule) => validate_interval (schedule_name k) (interval_secs schedule)
          | None => Ok tt
          end;
      validate_kinds self l
  end.
Definition validate_schedules {Wk} (self : UnderlayWorkerRuntime Wk) : UnderlayResult unit :=
  validate_kinds self worker_kinds.
(** The kinds of the workers that are configured, in the order they are started. *)
Definition specs {Wk} (self : UnderlayWorkerRuntime Wk) : list RuntimeWorkerKind :=
  filter (λ k, is_Some (configured self k)) worker_kinds.

(** ** What a task's end brings *)

Inductive WorkerRun (T : Type) :=
  | Finished (result : UnderlayResult T)
  | Panicked (join_error : string).
Arguments Finished {T}. Arguments Panicked {T}.

Inductive RuntimeWorkerOutcome :=
  | OJournalGc (run : WorkerRun (SchedulerReport Collect.JournalGcReport))
  | OApplyIdempotencyGc (run : WorkerRun (SchedulerReport Collect.ApplyIdempotencyGcReport))
  | OConfirmedCommitTimeout (run : WorkerRun (SchedulerReport RecoveryReport))
  | ODriftAudit (run : WorkerRun (SchedulerReport DriftAuditRunSummary))
  | OOperationAlertDelivery (run : WorkerRun (SchedulerReport Alerts.OperationAlertDeliveryReport))
  | OOperationSummaryCompaction (run : WorkerRun (SchedulerReport CompactionReport))
  | OOperationAuditCompaction (run : WorkerRun (SchedulerReport CompactionReport))
  | RestartSkipped.

Record UnderlayWorkerRuntimeReport := mkRuntimeReport {
  rr_journal_gc : option (SchedulerReport Collect.JournalGcReport);
  rr_apply_idempotency_gc : option (SchedulerReport Collect.ApplyIdempotencyGcReport);
  rr_confirmed_commit_timeout : option (SchedulerReport RecoveryReport);
  rr_drift_audit : option (SchedulerReport DriftAuditRunSummary);
  rr_operation_alert_delivery : option (SchedulerReport Alerts.OperationAlertDeliveryReport);
  rr_operation_summary_compaction : option (SchedulerReport CompactionReport);
  rr_operation_audit_compaction : option (SchedulerReport CompactionReport);
  worker_errors : list string;
}.
Definition default_runtime_report : UnderlayWorkerRuntimeReport :=
  mkRuntimeReport None None None None None None None [].
Definition record_worker_error (worker_name : string) (e : UnderlayError)
    (r : UnderlayWorkerRuntimeReport) : UnderlayWorkerRuntimeReport :=
  let 'mkRuntimeReport jg ig cc da ad sc ac errors := r in
  mkRuntimeReport jg ig cc da ad sc ac (errors ++ [worker_name +:+ ": " +:+ error_text e]).
Definition record_worker_join_error (err : string) (r : UnderlayWorkerRuntimeReport)
    : UnderlayWorkerRuntimeReport :=
  record_worker_error "worker_runtime" (Internal ("worker runtime task join error: " +:+ err)) r.
Definition record_worker_join_error_for (k : RuntimeWorkerKind) (err : string)
    (r : UnderlayWorkerRuntimeReport) : UnderlayWorkerRuntimeReport :=
  record_worker_error "worker_runtime"
    (Internal (runtime_worker_name k +:+ " task join error: " +:+ err)) r.

(** The three ways a worker's run ends; the kind of a worker to restart. *)
Definition record_run {T} (k : RuntimeWorkerKind) (run : WorkerRun T)
    (set : T → UnderlayWorkerRuntimeReport) (r : UnderlayWorkerRuntimeReport) : option RuntimeWorkerKind * UnderlayWorkerRuntimeReport :=
  match run with
  | Finished (Ok worker_report) => (None, set worker_report)
  | Finished (Err e) => (None, record_worker_error (runtime_worker_name k) e r)
  | Panicked err => (Some k, record_worker_join_error_for k err r)
  end.
Definition record_worker_outcome (outcome : RuntimeWorkerOutcome) (r : UnderlayWorkerRuntimeReport)
    : option RuntimeWorkerKind * UnderlayWorkerRuntimeReport :=
  let 'mkRuntimeReport jg ig cc da ad sc ac errors := r in
  match outcome with
  | OJournalGc run =>
      record_run KJournalGc run (λ x, mkRuntimeReport (Some x) ig cc da ad sc ac errors) r
  | OApplyIdempotencyGc run =>
      record_run KApplyIdempotencyGc run (λ x, mkRuntimeReport jg (Some x) cc da ad sc ac errors) r
  | OConfirmedCommitTimeout run =>
      record_run KConfirmedCommitTimeout run (λ x, mkRuntimeReport jg ig (Some x) da ad sc ac errors) r
  | ODriftAudit run =>
      record_run KDriftAudit run (λ x, mkRuntimeReport jg ig cc (Some x) ad sc ac errors) r
  | OOperationAlertDelivery run =>
      record_run KOperationAlertDelivery run (λ x, mkRuntimeReport jg ig cc da (Some x) sc ac errors) r
  | OOperationSummaryCompaction run =>
      record_run KOperationSummaryCompaction run
        (λ x, mkRuntimeReport jg ig cc da ad (Some x) ac errors) r
  | OOperationAuditCompaction run =>
      record_run KOperationAuditCompaction run
        (λ x, mkRuntimeReport jg ig cc da ad sc (Some x) errors) r
  | RestartSkipped => (None, r)
  end.

(** ** The loop *)

(** A task that ended: its outcome, or the error of joining it. *)
Inductive Joined :=
  | JoinOk (outcome : RuntimeWorkerOutcome)
  | JoinErr (err : string).

(** The tasks, each with the delay (in milliseconds) it starts with; the restarts so far. *)
Record RuntimeState := mkRuntimeState {
  rt_tasks : list (RuntimeWorkerKind * option N);
  rt_attempts : gmap RuntimeWorkerKind N;
  rt_report : UnderlayWorkerRuntimeReport;
}.
Definition start (specs : list RuntimeWorkerKind) : RuntimeState :=
  mkRuntimeState ((λ k, (k, None)) <$> specs) ∅ default_runtime_report.
(** [spawn_runtime_worker] with the delay of a restart *)
Definition restart_worker (kind : RuntimeWorkerKind) (s : RuntimeState) : RuntimeState :=
  let attempts := default 0%N (rt_attempts s !! kind) in
  mkRuntimeState (rt_tasks s ++ [(kind, Some (worker_restart_delay attempts))])
    (<[kind := N.min (attempts + 1) U32_MAX]> (rt_attempts s)) (rt_report s).
(** The branch [joined = tasks.join_next()]: task [i] ended. *)
Definition on_joined (specs : list RuntimeWorkerKind) (i : nat) (joined : Joined) (s : RuntimeState)
    : RuntimeState :=
  let tasks := delete i (rt_tasks s) in
  match joined with
  | JoinOk outcome =>
      let '(restart, report) := record_worker_outcome outcome (rt_report s) in
      let s := mkRuntimeState tasks (rt_attempts s) report in
      match restart with
      | Some kind => if decide (kind ∈ specs) then restart_worker kind s else s
      | None => s
      end
  | JoinErr err =>
      mkRuntimeState tasks (rt_attempts s) (record_worker_join_error err (rt_report s))
  end.
(** The branch of the shutdown: the remaining tasks end, none is restarted. *)
Definition on_shutdown_joined (r : UnderlayWorkerRuntimeReport) (joined : Joined)
    : UnderlayWorkerRuntimeReport :=
  match joined with
  | JoinOk outcome => (record_worker_outcome outcome r).2
  | JoinErr err => record_worker_join_error err r
  end.
(** [ended] are the tasks that end before the shutdown, [last] those after it. *)
Fixpoint join_loop (specs : list RuntimeWorkerKind) (ended : list (nat * Joined)) (last : list Joined)
    (s : RuntimeState) : UnderlayWorkerRuntimeReport :=
  match ended with
  | [] => foldl on_shutdown_joined (rt_report s) last
  | (i, joined) :: ended =>
      let s := on_joined specs i joined s in
      match rt_tasks s with
      | [] => rt_report s
      | _ => join_loop specs ended last s
      end
  end.
Definition run_until_shutdown {Wk} (self : UnderlayWorkerRuntime Wk) (ended : list (nat * Joined))
    (last : list Joined) : UnderlayResult UnderlayWorkerRuntimeReport :=
  _ ← validate_schedules self;
  match specs self with
  | [] => Ok default_runtime_report
  | l => Ok (join_loop l ended last (start l))
  end.

(** ** What the runtime keeps running *)

Definition run_panicked {T} (run : WorkerRun T) : bool :=
  match run with Panicked _ => true | Finished _ => false end.
Definition run_failed {T} (run : WorkerRun T) : bool :=
  match run with Finished (Ok _) => false | _ => true end.
(** The worker an outcome is of, and whether it panicked. *)
Definition outcome_of (o : RuntimeWorkerOutcome) : option (RuntimeWorkerKind * bool * bool) :=
  match o with
  | OJournalGc run => Some (KJournalGc, run_panicked run, run_failed run)
  | OApplyIdempotencyGc run => Some (KApplyIdempotencyGc, run_panicked run, run_failed run)
  | OConfirmedCommitTimeout run => Some (KConfirmedCommitTimeout, run_panicked run, run_failed run)
  | ODriftAudit run => Some (KDriftAudit, run_panicked run, run_failed run)
  | OOperationAlertDelivery run => Some (KOperationAlertDelivery, run_panicked run, run_failed run)
  | OOperationSummaryCompaction run =>
      Some (KOperationSummaryCompaction, run_panicked run, run_failed run)
  | OOperationAuditCompaction run => Some (KOperationAuditCompaction, run_panicked run, run_failed run)
  | RestartSkipped => None
  end.
Lemma record_worker_outcome_spec o r :
  (record_worker_outcome o r).1 = (match outcome_of o with Some (k, true, _) => Some k | _ => None end) ∧
  length (worker_errors (record_worker_outcome o r).2) =
    (length (worker_errors r) + match outcome_of o with Some (_, _, true) => 1 | _ => 0 end)%nat.
Proof.
  destruct r as [jg ig cc da ad sc ac errors].
  destruct o as [[[x|e]|e]|[[x|e]|e]|[[x|e]|e]|[[x|e]|e]|[[x|e]|e]|[[x|e]|e]|[[x|e]|e]|]; simpl;
    rewrite ?length_app; simpl; split; done || lia.
Qed.

(** Before the shutdown a task ends with an outcome of its own worker, or is lost. *)
Definition ends_as (k : RuntimeWorkerKind) (joined : Joined) : Prop :=
  match joined with
  | JoinOk outcome => ∃ panicked failed, outcome_of outcome = Some (k, panicked, failed)
  | JoinErr _ => True
  end.
Definition panics (joined : Joined) : bool :=
  match joined with
  | JoinOk outcome => match outcome_of outcome with Some (_, true, _) => true | _ => false end
  | JoinErr _ => false
  end.
Definition fails (joined : Joined) : bool :=
  match joined with
  | JoinOk outcome => match outcome_of outcome with Some (_, _, true) => true | _ => false end
  | JoinErr _ => true
  end.

(** Runs of the runtime, with the tasks that ended on the way. *)
Inductive supervised (specs : list RuntimeWorkerKind)
    : list (RuntimeWorkerKind * Joined) → RuntimeState → Prop :=
  | supervised_start : supervised specs [] (start specs)
  | supervised_joined history s i k delay joined :
      supervised specs history s → rt_tasks s !! i = Some (k, delay) → ends_as k joined →
      supervised specs (history ++ [(k, joined)]) (on_joined specs i joined s).

Definition running (s : RuntimeState) : list RuntimeWorkerKind := (rt_tasks s).*1.
Definition panic_count (k : RuntimeWorkerKind) (history : list (RuntimeWorkerKind * Joined)) : nat :=
  length (filter (λ x, x.1 = k ∧ panics x.2 = true) history).

Lemma delete_parts {A} (l : list A) i x :
  l !! i = Some x → ∃ l1 l2, l = l1 ++ x :: l2 ∧ delete i l = l1 ++ l2.
Proof.
  intros Hx. exists (take i l), (drop (S i) l).
  split; [by rewrite take_drop_middle|apply delete_take_drop].
Qed.
Lemma panic_count_snoc k history k' joined :
  panic_count k (history ++ [(k', joined)]) =
    (panic_count k history + if decide (k' = k ∧ panics joined = true) then 1 else 0)%nat.
Proof.
  unfold panic_count. rewrite filter_app, length_app, filter_cons. simpl.
  by case_decide.
Qed.
Lemma worker_restart_delay_bounds n : (100 ≤ worker_restart_delay n ≤ 5000)%N.
Proof.
  unfold worker_restart_delay, WORKER_RESTART_DELAY, U64_MAX.
  assert (2 ^ N.min n 6 ≠ 0)%N by (apply N.pow_nonzero; lia). lia.
Qed.

(** What the supervision keeps: see [runtime_supervises]. *)
Record tidy (specs : list RuntimeWorkerKind) (history : list (RuntimeWorkerKind * Joined))
    (s : RuntimeState) : Prop := {
  tidy_once : NoDup (running s);
  tidy_running k : k ∈ running s ↔
    k ∈ specs ∧ ∀ joined, (k, joined) ∈ history → panics joined = true;
  tidy_attempts k :
    default 0%N (rt_attempts s !! k) = N.min (N.of_nat (panic_count k history)) U32_MAX;
  tidy_delay k delay : (k, Some delay) ∈ rt_tasks s → (100 ≤ delay ≤ 5000)%N;
  tidy_errors : length (worker_errors (rt_report s)) =
    length (filter (λ x, fails x.2 = true) history);
}.

(** A task that ended and is not started again. *)
Lemma tidy_gone specs history s i k delay joined report :
  tidy specs history s → rt_tasks s !! i = Some (k, delay) → panics joined = false →
  length (worker_errors report) =
    (length (worker_errors (rt_report s)) + if fails joined then 1 else 0)%nat →
  tidy specs (history ++ [(k, joined)]) (mkRuntimeState (delete i (rt_tasks s)) (rt_attempts s) report).
Proof.
  intros [Honce Hrun Hatt Hdelay Herr] Hi Hp Hrep. unfold running in *.
  destruct (delete_parts _ _ _ Hi) as (l1 & l2 & Hl & Hd). rewrite Hl in Honce, Hrun, Hdelay.
  rewrite fmap_app, fmap_cons in Honce. apply NoDup_app in Honce as (H1 & H2 & H3%NoDup_cons).
  split; unfold running; simpl; rewrite ?Hd, ?fmap_app.
  - apply NoDup_app. split_and!; [done| |apply H3]. set_solver.
  - intros k'. specialize (Hrun k'). rewrite fmap_app, fmap_cons in Hrun. simpl in *.
    destruct (decide (k' = k)) as [->|Hk].
    + clear -H2 H3 Hp. split; [intros [Hin|Hin]%elem_of_app; [by destruct (H2 k Hin); left|by destruct H3]|].
      intros [_ Hall]. specialize (Hall joined ltac:(set_solver)). congruence.
    + transitivity (k' ∈ l1.*1 ++ k :: l2.*1); [set_solver|]. rewrite Hrun. set_solver.
  - intros k'. rewrite panic_count_snoc, Hatt, decide_False by (rewrite Hp; naive_solver).
    f_equal. lia.
  - intros k' delay' Hin. apply (Hdelay k' delay'). set_solver.
  - rewrite Hrep, Herr, filter_app, length_app, filter_cons. simpl.
    by destruct (fails joined).
Qed.
(** A worker that panicked and is started again. *)
Lemma tidy_restarted specs history s i k delay joined report :
  tidy specs history s → rt_tasks s !! i = Some (k, delay) → panics joined = true →
  fails joined = true → length (worker_errors report) = S (length (worker_errors (rt_report s))) →
  tidy specs (history ++ [(k, joined)])
    (restart_worker k (mkRuntimeState (delete i (rt_tasks s)) (rt_attempts s) report)).
Proof.
  intros [Honce Hrun Hatt Hdelay Herr] Hi Hp Hfail Hrep. unfold running in *.
  destruct (delete_parts _ _ _ Hi) as (l1 & l2 & Hl & Hd). rewrite Hl in Honce, Hrun, Hdelay.
  assert ((k :: l1.*1 ++ l2.*1) ≡ₚ (l1 ++ (k, delay) :: l2).*1) as Hperm.
  { rewrite fmap_app, fmap_cons. simpl. apply Permutation_middle. }
  split; unfold running, restart_worker; simpl; rewrite ?Hd, ?fmap_app; simpl.
  - rewrite (comm (++)). simpl. by rewrite Hperm.
  - intros k'. rewrite (comm (++)). simpl. rewrite Hperm, Hrun.
    split; intros [? Hall]; (split; [done|]); [|set_solver].
    intros j [Hj|Hj%list_elem_of_singleton]%elem_of_app; [by apply Hall|]. by simplify_eq.
  - intros k'. rewrite panic_count_snoc. destruct (decide (k' = k)) as [->|Hk].
    + rewrite lookup_insert_eq, decide_True by done. simpl. rewrite Hatt. lia.
    + rewrite lookup_insert_ne by done. rewrite Hatt, decide_False by naive_solver. f_equal. lia.
  - intros k' delay'. rewrite !elem_of_app, list_elem_of_singleton. intros [Hin|[= -> ->]].
    + apply (Hdelay k' delay'). set_solver.
    + apply worker_restart_delay_bounds.
  - rewrite Hrep, Herr, filter_app, length_app, filter_cons. simpl. rewrite Hfail. simpl. lia.
Qed.

(** C26. The runtime supervises its workers.  Whatever tasks end in whatever order before the
    shutdown: no worker runs twice at a time; a configured worker is running exactly when
    each time it ended it had panicked, so a worker that returned, with a report or with an
    error, is not started again; the restarts of a worker are counted; a restart waits
    between 100 milliseconds and 5 seconds; and each failed end is one error of the
    report. *)
Theorem runtime_supervises specs history s :
  NoDup specs → supervised specs history s →
  NoDup (running s) ∧
  (∀ k, k ∈ running s ↔ k ∈ specs ∧ ∀ joined, (k, joined) ∈ history → panics joined = true) ∧
  (∀ k, default 0%N (rt_attempts s !! k) = N.min (N.of_nat (panic_count k history)) U32_MAX) ∧
  (∀ k delay, (k, Some delay) ∈ rt_tasks s → (100 ≤ delay ≤ 5000)%N) ∧
  length (worker_errors (rt_report s)) = length (filter (λ x, fails x.2 = true) history).
Proof.
  intros Hspecs Hsup. cut (tidy specs history s); [by intros []|].
  induction Hsup as [|history s i k delay joined Hsup IH Hi Hends].
  - split; unfold running; simpl; [by rewrite <-list_fmap_compose, list_fmap_id| |done| |done].
    + intros k. rewrite <-list_fmap_compose, list_fmap_id. set_solver.
    + intros k delay Hin. apply list_elem_of_fmap in Hin as (x & [=] & _).
  - assert (k ∈ specs) as Hk.
    { apply (tidy_running _ _ _ IH). unfold running. apply list_elem_of_fmap.
      exists (k, delay). split; [done|]. by eapply list_elem_of_lookup_2. }
    destruct joined as [outcome|err]; simpl.
    + destruct Hends as (panicked & failed & Hout).
      pose proof (record_worker_outcome_spec outcome (rt_report s)) as [Hr Hlen].
      destruct (record_worker_outcome outcome (rt_report s)) as [restart report]. simpl in *.
      rewrite Hout in Hr, Hlen. destruct panicked.
      * assert (failed = true) as -> by (destruct outcome as [[]|[]|[]|[]|[]|[]|[]|]; by simplify_eq/=).
        subst restart. rewrite decide_True by done.
        apply (tidy_restarted _ _ _ _ _ delay); [done..|simpl; by rewrite Hout|simpl; by rewrite Hout|lia].
      * subst restart. apply (tidy_gone _ _ _ _ _ delay); [done|done|simpl; by rewrite Hout|].
        simpl. rewrite Hout, Hlen. by destruct failed.
    + apply (tidy_gone _ _ _ _ _ delay); [done..|]. unfold record_worker_join_error.
      destruct (rt_report s). simpl. by rewrite length_app.
Qed.

Module RuntimeSample.
Definition workers : list RuntimeWorkerKind := [KJournalGc; KDriftAudit].
Definition crash : Joined := JoinOk (ODriftAudit (Panicked "boom")).
Definition refused : Joined := JoinOk (OJournalGc (Finished (Err (Internal "disk full")))).
Definition final : RuntimeState := on_joined workers 0 refused (on_joined workers 1 crash (start workers)).
Lemma sample_supervised : supervised workers [(KDriftAudit, crash); (KJournalGc, refused)] final.
Proof.
  apply (supervised_joined _ [(KDriftAudit, crash)] _ 0 KJournalGc None).
  - apply (supervised_joined _ [] _ 1 KDriftAudit None); [constructor|done|by do 2 eexists].
  - reflexivity.
  - by do 2 eexists.
Qed.
End RuntimeSample.

Lemma runtime_supervises_witness :
  KDriftAudit ∈ running RuntimeSample.final ∧ KJournalGc ∉ running RuntimeSample.final.
Proof.
  destruct (runtime_supervises RuntimeSample.workers
    [(KDriftAudit, RuntimeSample.crash); (KJournalGc, RuntimeSample.refused)] RuntimeSample.final)
    as (_ & Hrun & _).
  - by apply (bool_decide_unpack _).
  - exact RuntimeSample.sample_supervised.
  - split.
    + apply Hrun. split; [set_solver|]. intros joined Hj.
      repeat (apply elem_of_cons in Hj as [[= ->]|Hj]; [reflexivity|] || apply elem_of_cons in Hj as [[=]|Hj]).
      set_solver.
    + intros [_ Hall]%Hrun. specialize (Hall RuntimeSample.refused ltac:(set_solver)). discriminate Hall.
Defined.
