(* ===== verification/Daemon.v ===== *)
(** * The worker daemon (src/worker/daemon.rs)

    The daemon reads a configuration file, builds the workers it names and runs them; when
    reloading is enabled it looks at the file again and again, takes over a changed
    configuration that is valid and says in a checkpoint file what it runs.

    The runtime that runs is named by the configuration it was built from; a poll of the
    interval gets what became of the files meanwhile. *)
From S2P Require Export Runtime.

(** ** Configuration *)

Record WorkerReloadDaemonConfig := mkReloadConfig {
  rl_enabled : bool;
  rl_poll_interval_secs : N;
  rl_checkpoint_path : option string;
}.
Record LogDaemonConfig := mkLogConfig {   (* OperationSummaryDaemonConfig, OperationAuditDaemonConfig *)
  lg_path : string;
  lg_retention : RetentionPolicy;
  lg_retention_schedule : Schedule;
}.
Record OperationAlertDaemonConfig := mkAlertConfig {
  ac_path : string;
  ac_checkpoint_path : string;
  ac_schedule : Schedule;
}.
Record JournalGcDaemonConfig := mkJournalGcConfig {
  jc_journal_root : string;
  jc_artifact_root : option string;
  jc_schedule : Schedule;
  jc_retention : Collect.Retention;
}.
Record ApplyIdempotencyGcDaemonConfig := mkIdempotencyGcConfig {
  ic_root : string;
  ic_schedule : Schedule;
  ic_retention_days : N;
}.
Record DriftAuditDaemonConfig := mkDriftConfig {
  dc_expected_shadow_root : string;
  dc_observed_shadow_root : string;
  dc_schedule : Schedule;
}.
Record UnderlayWorkerDaemonConfig := mkDaemonConfig {
  cfg_reload : option WorkerReloadDaemonConfig;
  cfg_operation_summary : option LogDaemonConfig;
  cfg_operation_audit : option LogDaemonConfig;
  cfg_operation_alert : option OperationAlertDaemonConfig;
  cfg_journal_gc : option JournalGcDaemonConfig;
  cfg_apply_idempotency_gc : option ApplyIdempotencyGcDaemonConfig;
  cfg_drift_audit : option DriftAuditDaemonConfig;
}.
(** [WorkerScheduleConfig::default] *)
Definition default_schedule : Schedule := mkSchedule (60 * 60) true.
Definition default_reload_poll_interval_secs : N := 5.

(** ** Workers *)

(** Where the events of the workers go: to the error stream, and when one of the stores is
    configured also to a summary log (in memory without one) and an audit log. *)
Inductive DaemonSink :=
  | StderrSink
  | RecordingSink (summary_log audit_log : option string).

Inductive Worker : RuntimeWorkerKind → Type :=
  | WJournalGc (journal_root : string) (artifact_root : option string) (policy : Collect.Retention)
      (sink : DaemonSink) : Worker KJournalGc
  | WApplyIdempotencyGc (root : string) (retention_days : N) (sink : DaemonSink)
      : Worker KApplyIdempotencyGc
  | WDriftAudit (expected_root observed_root : string) (sink : DaemonSink) : Worker KDriftAudit
  | WOperationAlertDelivery (summary_log alert_log checkpoint : string)
      : Worker KOperationAlertDelivery
  | WOperationSummaryCompaction (log : string) (policy : RetentionPolicy)
      : Worker KOperationSummaryCompaction
  | WOperationAuditCompaction (log : string) (policy : RetentionPolicy)
      : Worker KOperationAuditCompaction.

Definition event_sink_of (summary audit : option LogDaemonConfig) : DaemonSink :=
  match summary, audit with
  | Some s, Some a => RecordingSink (Some (lg_path s)) (Some (lg_path a))
  | Some s, None => RecordingSink (Some (lg_path s)) None
  | None, Some a => RecordingSink None (Some (lg_path a))
  | None, None => StderrSink
  end.
(** [if let Some(config) = .. { runtime = .. }] *)
Definition with_opt {A} (f : A → UnderlayWorkerRuntime Worker → UnderlayWorkerRuntime Worker)
    (o : option A) (runtime : UnderlayWorkerRuntime Worker) : UnderlayWorkerRuntime Worker :=
  match o with Some config => f config runtime | None => runtime end.
Definition add_summary_compaction (c : LogDaemonConfig) (runtime : UnderlayWorkerRuntime Worker) :=
  if retention_is_enabled (lg_retention c)
  then with_worker _ (WOperationSummaryCompaction (lg_path c) (lg_retention c))
         (lg_retention_schedule c) runtime
  else runtime.
Definition add_audit_compaction (c : LogDaemonConfig) (runtime : UnderlayWorkerRuntime Worker) :=
  if retention_is_enabled (lg_retention c)
  then with_worker _ (WOperationAuditCompaction (lg_path c) (lg_retention c))
         (lg_retention_schedule c) runtime
  else runtime.
Definition add_alert_delivery (summary : option LogDaemonConfig) (alert : option OperationAlertDaemonConfig)
    (runtime : UnderlayWorkerRuntime Worker) : UnderlayResult (UnderlayWorkerRuntime Worker) :=
  match alert with
  | Some c =>
      match summary with
      | None => Err (InvalidIntent "operation alert delivery requires operation_summary.path")
      | Some s => Ok (with_worker _ (WOperationAlertDelivery (lg_path s) (ac_path c)
                        (ac_checkpoint_path c)) (ac_schedule c) runtime)
      end
  | None => Ok runtime
  end.
Definition from_config (config : UnderlayWorkerDaemonConfig)
    : UnderlayResult (UnderlayWorkerRuntime Worker) :=
  let sink := event_sink_of (cfg_operation_summary config) (cfg_operation_audit config) in
  let runtime := with_opt add_summary_compaction (cfg_operation_summary config) new_runtime in
  let runtime := with_opt add_audit_compaction (cfg_operation_audit config) runtime in
  runtime ← add_alert_delivery (cfg_operation_summary config) (cfg_operation_alert config) runtime;
  let runtime := with_opt (λ c, with_worker _
        (WJournalGc (jc_journal_root c) (jc_artifact_root c) (jc_retention c) sink) (jc_schedule c))
      (cfg_journal_gc config) runtime in
  let runtime := with_opt (λ c, with_worker _
        (WApplyIdempotencyGc (ic_root c) (ic_retention_days c) sink) (ic_schedule c))
      (cfg_apply_idempotency_gc config) runtime in
  let runtime := with_opt (λ c, with_worker _
        (WDriftAudit (dc_expected_shadow_root c) (dc_observed_shadow_root c) sink) (dc_schedule c))
      (cfg_drift_audit config) runtime in
  Ok runtime.

(** ** Validation *)

Definition validate_worker_schedule (field : string) (schedule : Schedule) : UnderlayResult unit :=
  reject_if (interval_secs schedule =? 0)%N
    (InvalidIntent (field +:+ ".interval_secs must be greater than zero")).
Definition validate_reload_config (config : WorkerReloadDaemonConfig) : UnderlayResult unit :=
  if negb (rl_enabled config) then Ok tt else
  _ ← reject_if (rl_poll_interval_secs config =? 0)%N
        (InvalidIntent "reload.poll_interval_secs must be greater than zero");
  reject_if (bool_decide (rl_checkpoint_path config = None))
    (InvalidIntent "reload.checkpoint_path is required when enabled").
Definition validate_opt {A} (f : A → UnderlayResult unit) (o : option A) : UnderlayResult unit :=
  match o with Some a => f a | None => Ok tt end.
Definition validate_worker_config_for_runtime (config : UnderlayWorkerDaemonConfig)
    : UnderlayResult unit :=
  _ ← reject_if (bool_decide (is_Some (cfg_operation_alert config)) &&
                 bool_decide (cfg_operation_summary config = None))
        (InvalidIntent "operation_alert requires operation_summary.path");
  _ ← validate_opt (λ c, _ ← retention_validate "operation summary" (lg_retention c);
        validate_worker_schedule "operation_summary.retention_schedule" (lg_retention_schedule c))
        (cfg_operation_summary config);
  _ ← validate_opt (λ c, _ ← retention_validate "operation audit" (lg_retention c);
        validate_worker_schedule "operation_audit.retention_schedule" (lg_retention_schedule c))
        (cfg_operation_audit config);
  _ ← validate_opt (λ c, validate_worker_schedule "operation_alert.schedule" (ac_schedule c))
        (cfg_operation_alert config);
  _ ← validate_opt (λ c, _ ← Collect.validate (jc_retention c);
        validate_worker_schedule "journal_gc.schedule" (jc_schedule c)) (cfg_journal_gc config);
  _ ← validate_opt (λ c, _ ← Collect.idempotency_validate (ic_retention_days c);
        validate_worker_schedule "apply_idempotency_gc.schedule" (ic_schedule c))
        (cfg_apply_idempotency_gc config);
  _ ← validate_opt (λ c, validate_worker_schedule "drift_audit.schedule" (dc_schedule c))
        (cfg_drift_audit config);
  validate_opt validate_reload_config (cfg_reload config).
Definition enabled_reload_config (config : UnderlayWorkerDaemonConfig)
    : option WorkerReloadDaemonConfig :=
  reload ← cfg_reload config; if rl_enabled reload then Some reload else None.

(** What the workers of a runtime need in order not to refuse their work. *)
Definition worker_ok {k} (w : Worker k) : Prop :=
  match w with
  | WJournalGc _ _ policy _ => Collect.validate policy = Ok tt
  | WApplyIdempotencyGc _ days _ => Collect.idempotency_validate days = Ok tt
  | WOperationSummaryCompaction _ policy =>
      retention_validate "operation summary" policy = Ok tt ∧ retention_is_enabled policy = true
  | WOperationAuditCompaction _ policy =>
      retention_validate "operation audit" policy = Ok tt ∧ retention_is_enabled policy = true
  | _ => True
  end.
Definition runtime_ok (runtime : UnderlayWorkerRuntime Worker) : Prop :=
  ∀ k w schedule, configured runtime k = Some (w, schedule) →
    worker_ok w ∧ (interval_secs schedule =? 0)%N = false.

Lemma runtime_ok_new : runtime_ok new_runtime.
Proof. by intros k w schedule. Qed.
Lemma runtime_ok_with k (w : Worker k) schedule runtime :
  worker_ok w → (interval_secs schedule =? 0)%N = false → runtime_ok runtime →
  runtime_ok (with_worker k w schedule runtime).
Proof.
  intros Hw Hs Hr k' w' schedule'. unfold with_worker. simpl.
  destruct (decide (k = k')) as [<-|Hk]; [|apply Hr]. simpl. by intros [= <- <-].
Qed.
Lemma runtime_ok_validated runtime : runtime_ok runtime → validate_schedules runtime = Ok tt.
Proof.
  intros Hr. unfold validate_schedules. generalize worker_kinds. intros l.
  induction l as [|k l IH]; simpl; [done|]. destruct (configured runtime k) as [[w schedule]|] eqn:Hc; [|done].
  unfold validate_interval. destruct (Hr _ _ _ Hc) as [_ ->]. done.
Qed.
Lemma runtime_ok_opt {A} (check : A → UnderlayResult unit) f (o : option A) runtime :
  validate_opt check o = Ok tt →
  (∀ c r, check c = Ok tt → runtime_ok r → runtime_ok (f c r)) →
  runtime_ok runtime → runtime_ok (with_opt f o runtime).
Proof. destruct o; simpl; auto. Qed.
Lemma alert_delivery_ok summary alert runtime :
  bool_decide (is_Some alert) && bool_decide (summary = None) = false →
  validate_opt (λ c, validate_worker_schedule "operation_alert.schedule" (ac_schedule c)) alert = Ok tt →
  runtime_ok runtime →
  ∃ runtime', add_alert_delivery summary alert runtime = Ok runtime' ∧ runtime_ok runtime'.
Proof.
  intros Hboth Halert Hr. destruct alert as [c|]; [|by eexists]. apply reject_if_Ok in Halert.
  destruct summary as [c'|]; [|by rewrite !bool_decide_true in Hboth by eauto].
  eexists. split; [done|]. by apply runtime_ok_with.
Qed.

(** A configuration that passes validation can be built and started: no worker it names
    is left out for lack of a store, and none refuses its policy or its schedule. *)
Theorem validated_config_runs config :
  validate_worker_config_for_runtime config = Ok tt →
  ∃ runtime, from_config config = Ok runtime ∧ validate_schedules runtime = Ok tt ∧ runtime_ok runtime.
Proof.
  intros Hv. cut (∃ runtime, from_config config = Ok runtime ∧ runtime_ok runtime).
  { intros (runtime & ? & ?). exists runtime. auto using runtime_ok_validated. }
  unfold validate_worker_config_for_runtime in Hv.
  apply bind_Ok in Hv as ([] & Hboth%reject_if_Ok & Hv).
  apply bind_Ok in Hv as ([] & Hsu & Hv). apply bind_Ok in Hv as ([] & Hau & Hv).
  apply bind_Ok in Hv as ([] & Hal & Hv). apply bind_Ok in Hv as ([] & Hjg & Hv).
  apply bind_Ok in Hv as ([] & Hig & Hv). apply bind_Ok in Hv as ([] & Hdr & _).
  unfold from_config.
  destruct (alert_delivery_ok _ _ (with_opt add_audit_compaction (cfg_operation_audit config)
    (with_opt add_summary_compaction (cfg_operation_summary config) new_runtime)) Hboth Hal)
    as (r3 & -> & H3).
  { eapply runtime_ok_opt; [exact Hau| |eapply runtime_ok_opt; [exact Hsu| |apply runtime_ok_new]];
      intros c r (u & Hp & Hs%reject_if_Ok)%bind_Ok Hr; destruct u;
      unfold add_audit_compaction, add_summary_compaction; case_match; try done;
      by apply runtime_ok_with. }
  simpl. eexists. split; [done|].
  eapply runtime_ok_opt; [exact Hdr| |eapply runtime_ok_opt; [exact Hig| |
    eapply runtime_ok_opt; [exact Hjg| |exact H3]]]; intros c r Hc Hr.
  - apply reject_if_Ok in Hc. by apply runtime_ok_with.
  - apply bind_Ok in Hc as ([] & ? & ?%reject_if_Ok). by apply runtime_ok_with.
  - apply bind_Ok in Hc as ([] & ? & ?%reject_if_Ok). by apply runtime_ok_with.
Qed.

Module DaemonSample.
Definition gc_only (interval : N) : UnderlayWorkerDaemonConfig :=
  mkDaemonConfig (Some (mkReloadConfig true 5 (Some "checkpoint.json"))) None None None
    (Some (mkJournalGcConfig "journal" None (mkSchedule interval true) Collect.default_retention))
    None None.
End DaemonSample.
Lemma validated_config_runs_witness :
  ∃ runtime, from_config (DaemonSample.gc_only 60) = Ok runtime ∧
    validate_schedules runtime = Ok tt ∧ specs runtime = [KJournalGc].
Proof.
  destruct (validated_config_runs (DaemonSample.gc_only 60)) as (runtime & Hc & Hv & _); [reflexivity|].
  exists runtime. split; [exact Hc|]. split; [exact Hv|]. injection Hc as <-. reflexivity.
Defined.

(** ** Reloading *)

Inductive WorkerConfigReloadStatus := RStarted | RApplied | RRejected | RShutdown.
#[export] Instance WorkerConfigReloadStatus_eq_dec : EqDecision WorkerConfigReloadStatus.
Proof. solve_decision. Defined.
Record WorkerReloadCheckpoint := mkCheckpoint {
  cp_config_path : string;
  cp_generation : N;
  cp_fingerprint : string;
  cp_status : WorkerConfigReloadStatus;
  cp_updated_at_unix_secs : N;
  cp_error : option string;
}.
#[export] Instance WorkerReloadCheckpoint_eq_dec : EqDecision WorkerReloadCheckpoint.
Proof. solve_decision. Defined.

(** [{:016x}] of a [u64] *)
Definition hex16 (n : N) : string :=
  of_bytes ((λ i, hex_digit ((n / 16 ^ N.of_nat (15 - i)) mod 16)%N) <$> seq 0 16).
(** FNV-1a, 64 bits *)
Definition fnv_step (hash : N) (c : ascii) : N :=
  ((N.lxor hash (N_of_ascii c) * 0x100000001b3) mod 2 ^ 64)%N.
Definition payload_fingerprint (payload : string) : string :=
  hex16 (foldl fnv_step 0xcbf29ce484222325%N (bytes payload)) +:+ ":" +:+
  fmt_usize (length (bytes payload)).

Definition worker_config_io_error (e : string) : UnderlayError :=
  Internal ("worker daemon config io error: " +:+ e).
Definition checkpoint_serialize_error (e : string) : UnderlayError :=
  Internal ("serialize worker reload checkpoint: " +:+ e).

Section reload.
Context (o : FsOracle) (now : nat → N) (codec : Codec WorkerReloadCheckpoint).
(** The parser of configurations, and what a runtime returns when it is stopped. *)
Context (parse : string → result string UnderlayWorkerDaemonConfig).
Context (stop : UnderlayWorkerRuntime Worker → UnderlayResult UnderlayWorkerRuntimeReport).
Context (config_path checkpoint_path : string).
Notation Runtime := (UnderlayWorkerRuntime Worker).

Definition parse_worker_config_payload (payload : string)
    : UnderlayResult UnderlayWorkerDaemonConfig :=
  map_err (λ e, InvalidIntent ("parse worker daemon config " +:+ debug_str config_path +:+ ": " +:+ e))
    (parse payload).
(** The configuration of a payload, when the daemon would run it. *)
Definition accepted (payload : string) : UnderlayResult Runtime :=
  config ← parse_worker_config_payload payload;
  _ ← validate_worker_config_for_runtime config;
  from_config config.

Record Reload := mkReload {
  rs_fs : Fs;                  (* the directory of the checkpoint *)
  rs_generation : N;
  rs_adopted : string;
  rs_last_seen : string;
  rs_running : Runtime;
}.
Definition write_reload_checkpoint (checkpoint : WorkerReloadCheckpoint) : ST UnderlayError Fs unit :=
  write_value o codec checkpoint_path worker_config_io_error checkpoint_serialize_error checkpoint.
(** [write_reload_checkpoint(.., reload_checkpoint(..))] *)
Definition note (status : WorkerConfigReloadStatus) (error : option string)
    : ST UnderlayError Reload unit := λ s,
  let '(x, fs) := write_reload_checkpoint (mkCheckpoint config_path (rs_generation s) (rs_adopted s)
                    status (now (fs_calls (rs_fs s))) error) (rs_fs s) in
  (x, mkReload fs (rs_generation s) (rs_adopted s) (rs_last_seen s) (rs_running s)).
Definition see (fingerprint : string) : ST UnderlayError Reload unit := λ s,
  (Ok tt, mkReload (rs_fs s) (rs_generation s) (rs_adopted s) fingerprint (rs_running s)).
Definition adopt (runtime : Runtime) (fingerprint : string) : ST UnderlayError Reload unit := λ s,
  (Ok tt, mkReload (rs_fs s) (rs_generation s + 1)%N fingerprint (rs_last_seen s) runtime).

(** One poll, with what reading the configuration file gives. *)
Definition poll (read : result string string) : ST UnderlayError Reload unit :=
  match read with
  | Err e =>
      note RRejected (Some ("read worker daemon config " +:+ debug_str config_path +:+ ": " +:+ e))
  | Ok payload =>
      s ← st_get;
      let candidate_fingerprint := payload_fingerprint payload in
      if decide (candidate_fingerprint = rs_last_seen s) then mret tt else
      _ ← see candidate_fingerprint;
      match accepted payload with
      | Err e => note RRejected (Some (error_text e))
      | Ok candidate =>
          _ ← st_lift (stop (rs_running s));
          _ ← adopt candidate candidate_fingerprint;
          note RApplied None
      end
  end.
Fixpoint poll_loop (reads : list (result string string)) : ST UnderlayError Reload unit :=
  match reads with
  | [] => mret tt
  | read :: reads => _ ← poll read; poll_loop reads
  end.
(** From the start of the workers to the shutdown. *)
Definition run_reloadable (initial_payload : string) (initial : UnderlayWorkerDaemonConfig)
    (reads : list (result string string)) (fs : Fs)
    : UnderlayResult UnderlayWorkerRuntimeReport * Fs :=
  let fingerprint := payload_fingerprint initial_payload in
  match write_reload_checkpoint (mkCheckpoint config_path 1 fingerprint RStarted
          (now (fs_calls fs)) None) fs with
  | (Err e, fs) => (Err e, fs)
  | (Ok _, fs) =>
      match from_config initial with
      | Err e => (Err e, fs)
      | Ok runtime =>
          match poll_loop reads (mkReload fs 1 fingerprint fingerprint runtime) with
          | (Err e, s) => (Err e, rs_fs s)
          | (Ok _, s) =>
              match stop (rs_running s) with
              | Err e => (Err e, rs_fs s)
              | Ok report =>
                  match note RShutdown None s with
                  | (Err e, s) => (Err e, rs_fs s)
                  | (Ok _, s) => (Ok report, rs_fs s)
                  end
              end
          end
      end
  end.

(** *** What is running *)

Definition read_ok (read : result string string) : option string :=
  match read with Ok payload => Some payload | Err _ => None end.
(** No two of the payloads share a fingerprint. *)
Definition distinguished (payloads : list string) : Prop :=
  ∀ p q, p ∈ payloads → q ∈ payloads → payload_fingerprint p = payload_fingerprint q → p = q.

(** The workers run a configuration that was read and accepted, known by its fingerprint. *)
Definition runs_accepted (history : list string) (s : Reload) : Prop :=
  ∃ p, p ∈ history ∧ accepted p = Ok (rs_running s) ∧ payload_fingerprint p = rs_adopted s.
(** The checkpoint names what runs. *)
Definition checkpoint_names (s : Reload) : Prop :=
  ∃ text cp, fs_files (rs_fs s) !! checkpoint_path = Some text ∧ decode codec text = Ok cp ∧
    cp_config_path cp = config_path ∧ cp_generation cp = rs_generation s ∧
    cp_fingerprint cp = rs_adopted s.
Record in_step (history : list string) (s : Reload) : Prop := {
  step_runs : runs_accepted history s;
  step_checkpoint : checkpoint_names s;
  step_seen : ∃ q, list.last history = Some q ∧ payload_fingerprint q = rs_last_seen s;
  step_latest q rt : distinguished history → list.last history = Some q → accepted q = Ok rt →
    rs_adopted s = rs_last_seen s;
}.

Context (Hcodec : codec_round_trip codec).

Lemma note_spec status error s r s' :
  note status error s = (r, s') →
  rs_generation s' = rs_generation s ∧ rs_adopted s' = rs_adopted s ∧
  rs_last_seen s' = rs_last_seen s ∧ rs_running s' = rs_running s ∧
  (r = Ok tt → checkpoint_names s').
Proof using Hcodec.
  unfold note, write_reload_checkpoint, write_value, mbind, ST_bind, st_lift.
  set (cp := mkCheckpoint _ _ _ _ _ _). destruct (encode codec cp) as [text|e] eqn:He; simpl.
  2:{ intros [= <- <-]. by split_and!. }
  destruct (atomic_write _ _ _ _ _) as [x fs] eqn:Hw. intros [= <- <-]. split_and!; try done.
  intros ->. apply atomic_write_spec in Hw as (_ & _ & _ & Hf). exists text, cp.
  split_and!; [done|by apply Hcodec|done..].
Qed.

Lemma runs_accepted_more history p s :
  runs_accepted history s → runs_accepted (history ++ [p]) s.
Proof using Type. clear Hcodec. intros (q & ? & ?). exists q. set_solver. Qed.
Lemma distinguished_less history p : distinguished (history ++ [p]) → distinguished history.
Proof using Type. intros Hd p' q' Hp Hq. apply Hd; apply elem_of_app; by left. Qed.

Definition note_read (history : list string) (read : result string string) : list string :=
  match read_ok read with Some p => history ++ [p] | None => history end.

Lemma poll_in_step history read s r s' :
  in_step history s → poll read s = (r, s') →
  let history' := note_read history read in
  runs_accepted history' s' ∧ (rs_generation s ≤ rs_generation s' ≤ rs_generation s + 1)%N ∧
  (r = Ok tt → in_step history' s').
Proof using Hcodec.
  intros [Hrun Hcp Hseen Hlatest]. unfold poll. destruct read as [payload|e]; unfold note_read; simpl.
  2:{ intros (Hg & Ha & Hs & Hr & Hn)%note_spec.
      assert (runs_accepted history s') as Hrun' by (unfold runs_accepted in *; by rewrite Hr, Ha).
      split_and!; [done|lia..|]. intros ->. split; [done|auto|by rewrite Hs|by rewrite Hs, Ha]. }
  unfold mbind at 1, ST_bind at 1, st_get. simpl. case_decide as Hfp.
  { intros [= <- <-]. split_and!; [by apply runs_accepted_more|lia..|]. intros _.
    split; [by apply runs_accepted_more|done|by exists payload; rewrite last_snoc|].
    intros q rt Hd. rewrite last_snoc. intros [= <-] Hacc. destruct Hseen as (q & Hq & Hqs).
    assert (payload = q) as ->.
    { apply Hd; [set_solver|apply elem_of_app; left; by eapply last_Some_elem_of|congruence]. }
    eapply Hlatest; [by eapply distinguished_less|done..]. }
  unfold mbind at 1, ST_bind at 1, see. simpl. set (s1 := mkReload _ _ _ _ _).
  destruct (accepted payload) as [rt|e] eqn:Hacc.
  2:{ intros (Hg & Ha & Hs & Hr & Hn)%note_spec.
      assert (runs_accepted (history ++ [payload]) s') as Hrun'.
      { apply runs_accepted_more. unfold runs_accepted in *. by rewrite Hr, Ha. }
      split_and!; [done|subst s1; simpl in *; lia..|]. intros ->.
      split; [done|auto|exists payload; by rewrite last_snoc, Hs|].
      intros q rt' _. rewrite last_snoc. intros [= <-] Hq. congruence. }
  unfold mbind at 1, ST_bind at 1, st_lift. destruct (stop (rs_running s)) as [report|e].
  2:{ intros [= <- <-]. split_and!; [by apply runs_accepted_more|subst s1; simpl; lia..|done]. }
  unfold mbind, ST_bind, adopt. intros (Hg & Ha & Hs & Hr & Hn)%note_spec.
  assert (runs_accepted (history ++ [payload]) s') as Hrun'.
  { exists payload. rewrite Hr, Ha. split; [set_solver|done]. }
  split_and!; [done|subst s1; simpl in *; lia..|]. intros ->.
  split; [done|auto|exists payload; by rewrite last_snoc, Hs|by rewrite Hs, Ha].
Qed.

Lemma poll_loop_in_step history reads s r s' :
  in_step history s → poll_loop reads s = (r, s') →
  let history' := history ++ omap read_ok reads in
  runs_accepted history' s' ∧
  (rs_generation s ≤ rs_generation s' ≤ rs_generation s + N.of_nat (length reads))%N ∧
  (r = Ok tt → in_step history' s').
Proof using Hcodec.
  revert history s. induction reads as [|read reads IH]; intros history s Hs; simpl.
  { intros [= <- <-]. rewrite app_nil_r. split_and!; [apply Hs|lia..|done]. }
  unfold mbind, ST_bind. destruct (poll read s) as [x s1] eqn:Hp.
  destruct (poll_in_step _ _ _ _ _ Hs Hp) as (Hrun & Hgen & Hstep).
  assert (history ++ omap read_ok (read :: reads) = note_read history read ++ omap read_ok reads) as Heq.
  { unfold note_read. simpl. destruct (read_ok read); [|done]. by rewrite <-app_assoc. }
  simpl in Heq. rewrite Heq. destruct x as [[]|e].
  - intros Hl. apply (IH _ _ (Hstep eq_refl)) in Hl as (? & ? & ?). split_and!; [done|lia..|done].
  - intros [= <- <-]. split_and!; [|lia..|done]. destruct Hrun as (p & Hp' & ? & ?).
    exists p. split; [|done]. apply elem_of_app. by left.
Qed.

(** C27. A daemon that reloads runs what it says.  Whatever the configuration file reads as
    and whatever fails: the workers that run were built from an accepted configuration that
    was read, the adopted fingerprint is the one of that configuration, and the generation
    grows by at most one per poll.  While no error ended it, the checkpoint file names the
    generation and the fingerprint that run; and when the payload read last is acceptable
    (and no two payloads share a fingerprint) it is the one that runs, so a rejected
    configuration never takes effect and an accepted one always does. *)
Theorem reload_runs_what_it_says initial runtime reads fs r s' :
  let fingerprint := payload_fingerprint initial in
  let start := mkReload fs 1 fingerprint fingerprint runtime in
  accepted initial = Ok runtime → checkpoint_names start → poll_loop reads start = (r, s') →
  let payloads := initial :: omap read_ok reads in
  (∃ p, p ∈ payloads ∧ accepted p = Ok (rs_running s') ∧ payload_fingerprint p = rs_adopted s') ∧
  (1 ≤ rs_generation s' ≤ 1 + N.of_nat (length reads))%N ∧
  (r = Ok tt → checkpoint_names s' ∧
   (distinguished payloads → ∀ p rt, list.last payloads = Some p → accepted p = Ok rt →
      rs_running s' = rt)).
Proof using Hcodec.
  intros fingerprint s0 Hacc Hcp Hloop payloads.
  assert (in_step [initial] s0) as H0.
  { split; [exists initial; set_solver|done|by exists initial|done]. }
  destruct (poll_loop_in_step _ _ _ _ _ H0 Hloop) as (Hrun & Hgen & Hstep).
  split_and!; [exact Hrun|apply Hgen..|]. intros Hr. destruct (Hstep Hr) as [_ Hcp' Hseen Hlatest].
  split; [done|]. intros Hd p rt Hlast Hp.
  destruct Hseen as (q & Hq & Hqs). simpl in Hq, Hlatest.
  assert (q = p) as -> by (unfold payloads in Hlast; congruence).
  destruct Hrun as (p' & Hin & Hacc' & Hfp').
  assert (p' = p) as ->.
  { apply Hd; [done|by eapply last_Some_elem_of|]. rewrite Hfp', Hqs. by eapply Hlatest. }
  congruence.
Qed.
End reload.

(** [UnderlayWorkerDaemon::run_config_path_until_shutdown] *)
Definition run_config_path (o : FsOracle) (now : nat → N) (codec : Codec WorkerReloadCheckpoint)
    (parse : string → result string UnderlayWorkerDaemonConfig)
    (stop : UnderlayWorkerRuntime Worker → UnderlayResult UnderlayWorkerRuntimeReport)
    (config_path : string) (initial_read : result string string) (reads : list (result string string))
    (fs : Fs) : UnderlayResult UnderlayWorkerRuntimeReport * Fs :=
  match initial_payload ← map_err worker_config_io_error initial_read;
        config ← parse_worker_config_payload parse config_path initial_payload;
        _ ← validate_worker_config_for_runtime config;
        Ok (initial_payload, config) with
  | Err e => (Err e, fs)
  | Ok (initial_payload, config) =>
      match enabled_reload_config config with
      | None => (runtime ← from_config config; stop runtime, fs)
      | Some reload =>
          match rl_checkpoint_path reload with
          | None => (Err (InvalidIntent "reload.checkpoint_path is required when enabled"), fs)
          | Some checkpoint_path =>
              run_reloadable o now codec parse stop config_path checkpoint_path
                initial_payload config reads fs
          end
      end
  end.

Module ReloadSample.
Definition parse (text : string) : result string UnderlayWorkerDaemonConfig :=
  if decide (text = "a") then Ok (DaemonSample.gc_only 60)
  else if decide (text = "b") then Ok (DaemonSample.gc_only 30)
  else if decide (text = "zero") then Ok (DaemonSample.gc_only 0) else Err "parse".
Definition cp (generation : N) (payload : string) (status : WorkerConfigReloadStatus)
    (error : option string) : WorkerReloadCheckpoint :=
  mkCheckpoint "daemon.json" generation (payload_fingerprint payload) status 7 error.
Definition started_a : WorkerReloadCheckpoint := cp 1 "a" RStarted None.
Definition applied_b : WorkerReloadCheckpoint := cp 2 "b" RApplied None.
Definition rejected : WorkerReloadCheckpoint := cp 2 "b" RRejected
  (Some "invalid intent: journal_gc.schedule.interval_secs must be greater than zero").
Definition unread : WorkerReloadCheckpoint := cp 1 "a" RRejected
  (Some ("read worker daemon config " +:+ debug_str "daemon.json" +:+ ": EIO")).
(** A serializer that knows these. *)
Definition codec : Codec WorkerReloadCheckpoint := mkCodec
  (λ c, if decide (c = started_a) then Ok "1" else if decide (c = applied_b) then Ok "2"
        else if decide (c = rejected) then Ok "3" else if decide (c = unread) then Ok "4" else Err "?")
  (λ t, if decide (t = "1") then Ok started_a else if decide (t = "2") then Ok applied_b
        else if decide (t = "3") then Ok rejected else if decide (t = "4") then Ok unread else Err "?").
Lemma reload_codec_ok : codec_round_trip codec.
Proof.
  intros c t. unfold codec, encode, decode.
  repeat (case_decide as Hc; [intros [= <-]; subst c; reflexivity|clear Hc]). discriminate.
Qed.
Definition stop (_ : UnderlayWorkerRuntime Worker) : UnderlayResult UnderlayWorkerRuntimeReport :=
  Ok default_runtime_report.
Definition fs : Fs := mkFs true {[ "checkpoint.json" := "1" ]} 0.
Definition polls (reads : list (result string string)) (start : Reload) :=
  poll_loop sample_oracle (λ _, 7%N) codec parse stop "daemon.json" "checkpoint.json" reads start.
Definition start (runtime : UnderlayWorkerRuntime Worker) : Reload :=
  mkReload fs 1 (payload_fingerprint "a") (payload_fingerprint "a") runtime.
Definition three_reads : list (result string string) := [Ok "a"; Ok "b"; Ok "zero"].
End ReloadSample.

Lemma reload_runs_what_it_says_witness :
  ∃ runtime runtime' s', accepted ReloadSample.parse "daemon.json" "a" = Ok runtime ∧
    ReloadSample.polls ReloadSample.three_reads (ReloadSample.start runtime) = (Ok tt, s') ∧
    accepted ReloadSample.parse "daemon.json" "b" = Ok runtime' ∧
    rs_adopted s' = payload_fingerprint "b" ∧
    checkpoint_names ReloadSample.codec "daemon.json" "checkpoint.json" s' ∧
    ∃ p, accepted ReloadSample.parse "daemon.json" p = Ok (rs_running s') ∧
         payload_fingerprint p = rs_adopted s'.
Proof.
  destruct (accepted ReloadSample.parse "daemon.json" "a") as [runtime|] eqn:Ha; [|discriminate Ha].
  destruct (accepted ReloadSample.parse "daemon.json" "b") as [runtime'|] eqn:Hb; [|discriminate Hb].
  destruct (ReloadSample.polls ReloadSample.three_reads (ReloadSample.start runtime)) as [r s'] eqn:Hp.
  destruct (reload_runs_what_it_says sample_oracle (λ _, 7%N) ReloadSample.codec ReloadSample.parse
    ReloadSample.stop "daemon.json" "checkpoint.json" ReloadSample.reload_codec_ok "a" runtime
    ReloadSample.three_reads ReloadSample.fs r s' Ha) as ((p & _ & Hacc & Hfp) & _ & Hcp).
  - exists "1", ReloadSample.started_a. repeat split.
  - exact Hp.
  - assert (r = Ok tt ∧ rs_adopted s' = payload_fingerprint "b") as [-> Hadopted].
    { apply (f_equal (λ x, (x.1, rs_adopted x.2))) in Hp. vm_compute in Hp. injection Hp as Hr Hs.
      split; [by rewrite <-Hr|]. unfold rs_adopted. rewrite <-Hs. vm_compute. reflexivity. }
    exists runtime, runtime', s'. split; [reflexivity|]. split; [exact Hp|]. split; [reflexivity|].
    split; [exact Hadopted|]. split; [exact (proj1 (Hcp eq_refl))|].
    exists p. split; [exact Hacc|exact Hfp].
Defined.

(** A configuration that could not be read once is reported as rejected even after it was
    read again unchanged. *)
Example unread_config_stays_rejected :
  match accepted ReloadSample.parse "daemon.json" "a" with
  | Ok runtime =>
      let '(r, s) := ReloadSample.polls [Err "EIO"; Ok "a"; Ok "a"] (ReloadSample.start runtime) in
      r = Ok tt ∧ rs_generation s = 1%N ∧
      decode ReloadSample.codec (default "" (fs_files (rs_fs s) !! "checkpoint.json"))
        = Ok ReloadSample.unread
  | Err _ => False
  end.
Proof. vm_compute. done. Qed.
