(* ===== verification/Protobuf.v ===== *)
(** * The adapter's protocol (proto/aria_underlay_adapter.proto)

    One record per message and one inductive type per enum of the protocol file,
    as the generated code has them: a field of a message type is an [option], an
    enum field is the [i32] number on the wire ([Z]), [uint32] and [uint64] are
    [N].  [TryFrom<i32>] of an enum is [try_from_i32], which knows the numbers the
    protocol file gives and no others. *)
From S2P Require Export ApplyCoordinator.

(** ** Enums *)

Class ProtoEnum (E : Type) := {
  enum_number : E → Z;
  enum_values : list E;
  #[global] enum_number_inj :: Inj (=) (=) enum_number;
  enum_complete e : e ∈ enum_values;
}.

(** [E::try_from(value).ok()] *)
Definition try_from_i32 {E} `{ProtoEnum E} (value : Z) : option E :=
  List.find (λ e, enum_number e =? value)%Z enum_values.
(** [E::try_from(value).unwrap_or(default)] *)
Definition enum_or {E} `{ProtoEnum E} (default : E) (value : Z) : E :=
  match try_from_i32 value with Some e => e | None => default end.

Section enums.
Context {E : Type} `{ProtoEnum E}.

Lemma try_from_i32_Some (e : E) v : try_from_i32 v = Some e ↔ v = enum_number e.
Proof.
  unfold try_from_i32. split.
  - intros [_ Hv%Z.eqb_eq]%find_some. done.
  - intros ->. pose proof (proj1 (list_elem_of_In _ _) (enum_complete e)) as Hin.
    destruct (List.find _ _) as [e'|] eqn:Hf.
    + apply find_some in Hf as [_ Hv%Z.eqb_eq]. f_equal. by apply (inj enum_number).
    + apply (find_none _ _ Hf), Z.eqb_neq in Hin as []. done.
Qed.

Lemma enum_or_number (d e : E) : enum_or d (enum_number e) = e.
Proof. unfold enum_or. by rewrite (proj2 (try_from_i32_Some e _)). Qed.
End enums.
#[export] Hint Rewrite @enum_or_number : rust.

Ltac solve_enum := (intros [] []; simpl; congruence) || (intros []; set_solver).

Module Proto.

Inductive Vendor :=
  | VENDOR_UNSPECIFIED | VENDOR_HUAWEI | VENDOR_H3C | VENDOR_CISCO | VENDOR_RUIJIE
  | VENDOR_UNKNOWN.
#[global] Program Instance Vendor_enum : ProtoEnum Vendor := {|
  enum_number e := match e with
    | VENDOR_UNSPECIFIED => 0 | VENDOR_HUAWEI => 1 | VENDOR_H3C => 2 | VENDOR_CISCO => 3
    | VENDOR_RUIJIE => 4 | VENDOR_UNKNOWN => 100 end%Z;
  enum_values :=
    [VENDOR_UNSPECIFIED; VENDOR_HUAWEI; VENDOR_H3C; VENDOR_CISCO; VENDOR_RUIJIE; VENDOR_UNKNOWN] |}.
Solve All Obligations with solve_enum.

Inductive BackendKind :=
  | BACKEND_KIND_UNSPECIFIED | BACKEND_KIND_NETCONF | BACKEND_KIND_NAPALM
  | BACKEND_KIND_NETMIKO | BACKEND_KIND_CLI.
#[global] Program Instance BackendKind_enum : ProtoEnum BackendKind := {|
  enum_number e := match e with
    | BACKEND_KIND_UNSPECIFIED => 0 | BACKEND_KIND_NETCONF => 1 | BACKEND_KIND_NAPALM => 2
    | BACKEND_KIND_NETMIKO => 3 | BACKEND_KIND_CLI => 4 end%Z;
  enum_values :=
    [BACKEND_KIND_UNSPECIFIED; BACKEND_KIND_NETCONF; BACKEND_KIND_NAPALM; BACKEND_KIND_NETMIKO;
    BACKEND_KIND_CLI] |}.
Solve All Obligations with solve_enum.

Inductive TransactionStrategy :=
  | TRANSACTION_STRATEGY_UNSPECIFIED | TRANSACTION_STRATEGY_CONFIRMED_COMMIT
  | TRANSACTION_STRATEGY_CANDIDATE_COMMIT | TRANSACTION_STRATEGY_RUNNING_ROLLBACK_ON_ERROR
  | TRANSACTION_STRATEGY_BEST_EFFORT_CLI | TRANSACTION_STRATEGY_UNSUPPORTED.
#[global] Program Instance TransactionStrategy_enum : ProtoEnum TransactionStrategy := {|
  enum_number e := match e with
    | TRANSACTION_STRATEGY_UNSPECIFIED => 0 | TRANSACTION_STRATEGY_CONFIRMED_COMMIT => 1
    | TRANSACTION_STRATEGY_CANDIDATE_COMMIT => 2
    | TRANSACTION_STRATEGY_RUNNING_ROLLBACK_ON_ERROR => 3
    | TRANSACTION_STRATEGY_BEST_EFFORT_CLI => 4 | TRANSACTION_STRATEGY_UNSUPPORTED => 100 end%Z;
  enum_values :=
    [TRANSACTION_STRATEGY_UNSPECIFIED; TRANSACTION_STRATEGY_CONFIRMED_COMMIT;
    TRANSACTION_STRATEGY_CANDIDATE_COMMIT; TRANSACTION_STRATEGY_RUNNING_ROLLBACK_ON_ERROR;
    TRANSACTION_STRATEGY_BEST_EFFORT_CLI; TRANSACTION_STRATEGY_UNSUPPORTED] |}.
Solve All Obligations with solve_enum.

Inductive AdapterOperationStatus :=
  | ADAPTER_OPERATION_STATUS_UNSPECIFIED | ADAPTER_OPERATION_STATUS_NO_CHANGE
  | ADAPTER_OPERATION_STATUS_PREPARED | ADAPTER_OPERATION_STATUS_COMMITTED
  | ADAPTER_OPERATION_STATUS_ROLLED_BACK | ADAPTER_OPERATION_STATUS_FAILED
  | ADAPTER_OPERATION_STATUS_IN_DOUBT | ADAPTER_OPERATION_STATUS_CONFIRMED_COMMIT_PENDING.
#[global] Program Instance AdapterOperationStatus_enum : ProtoEnum AdapterOperationStatus := {|
  enum_number e := match e with
    | ADAPTER_OPERATION_STATUS_UNSPECIFIED => 0 | ADAPTER_OPERATION_STATUS_NO_CHANGE => 1
    | ADAPTER_OPERATION_STATUS_PREPARED => 2 | ADAPTER_OPERATION_STATUS_COMMITTED => 3
    | ADAPTER_OPERATION_STATUS_ROLLED_BACK => 4 | ADAPTER_OPERATION_STATUS_FAILED => 5
    | ADAPTER_OPERATION_STATUS_IN_DOUBT => 6
    | ADAPTER_OPERATION_STATUS_CONFIRMED_COMMIT_PENDING => 7 end%Z;
  enum_values :=
    [ADAPTER_OPERATION_STATUS_UNSPECIFIED; ADAPTER_OPERATION_STATUS_NO_CHANGE;
    ADAPTER_OPERATION_STATUS_PREPARED; ADAPTER_OPERATION_STATUS_COMMITTED;
    ADAPTER_OPERATION_STATUS_ROLLED_BACK; ADAPTER_OPERATION_STATUS_FAILED;
    ADAPTER_OPERATION_STATUS_IN_DOUBT; ADAPTER_OPERATION_STATUS_CONFIRMED_COMMIT_PENDING] |}.
Solve All Obligations with solve_enum.

Inductive RecoveryAction :=
  | RECOVERY_ACTION_UNSPECIFIED | RECOVERY_ACTION_DISCARD_PREPARED_CHANGES
  | RECOVERY_ACTION_ADAPTER_RECOVER.
#[global] Program Instance RecoveryAction_enum : ProtoEnum RecoveryAction := {|
  enum_number e := match e with
    | RECOVERY_ACTION_UNSPECIFIED => 0 | RECOVERY_ACTION_DISCARD_PREPARED_CHANGES => 1
    | RECOVERY_ACTION_ADAPTER_RECOVER => 2 end%Z;
  enum_values :=
    [RECOVERY_ACTION_UNSPECIFIED; RECOVERY_ACTION_DISCARD_PREPARED_CHANGES;
    RECOVERY_ACTION_ADAPTER_RECOVER] |}.
Solve All Obligations with solve_enum.

Inductive AdminState :=
  | ADMIN_STATE_UNSPECIFIED | ADMIN_STATE_UP | ADMIN_STATE_DOWN.
#[global] Program Instance AdminState_enum : ProtoEnum AdminState := {|
  enum_number e := match e with
    | ADMIN_STATE_UNSPECIFIED => 0 | ADMIN_STATE_UP => 1 | ADMIN_STATE_DOWN => 2 end%Z;
  enum_values :=
    [ADMIN_STATE_UNSPECIFIED; ADMIN_STATE_UP; ADMIN_STATE_DOWN] |}.
Solve All Obligations with solve_enum.

Inductive PortModeKind :=
  | PORT_MODE_KIND_UNSPECIFIED | PORT_MODE_KIND_ACCESS | PORT_MODE_KIND_TRUNK.
#[global] Program Instance PortModeKind_enum : ProtoEnum PortModeKind := {|
  enum_number e := match e with
    | PORT_MODE_KIND_UNSPECIFIED => 0 | PORT_MODE_KIND_ACCESS => 1 | PORT_MODE_KIND_TRUNK => 2 end%Z;
  enum_values :=
    [PORT_MODE_KIND_UNSPECIFIED; PORT_MODE_KIND_ACCESS; PORT_MODE_KIND_TRUNK] |}.
Solve All Obligations with solve_enum.

Inductive HostKeyPolicy :=
  | HOST_KEY_POLICY_UNSPECIFIED | HOST_KEY_POLICY_TRUST_ON_FIRST_USE
  | HOST_KEY_POLICY_KNOWN_HOSTS_FILE | HOST_KEY_POLICY_PINNED_KEY.
#[global] Program Instance HostKeyPolicy_enum : ProtoEnum HostKeyPolicy := {|
  enum_number e := match e with
    | HOST_KEY_POLICY_UNSPECIFIED => 0 | HOST_KEY_POLICY_TRUST_ON_FIRST_USE => 1
    | HOST_KEY_POLICY_KNOWN_HOSTS_FILE => 2 | HOST_KEY_POLICY_PINNED_KEY => 3 end%Z;
  enum_values :=
    [HOST_KEY_POLICY_UNSPECIFIED; HOST_KEY_POLICY_TRUST_ON_FIRST_USE;
    HOST_KEY_POLICY_KNOWN_HOSTS_FILE; HOST_KEY_POLICY_PINNED_KEY] |}.
Solve All Obligations with solve_enum.

Inductive AclAction :=
  | ACL_ACTION_UNSPECIFIED | ACL_ACTION_PERMIT | ACL_ACTION_DENY.
#[global] Program Instance AclAction_enum : ProtoEnum AclAction := {|
  enum_number e := match e with
    | ACL_ACTION_UNSPECIFIED => 0 | ACL_ACTION_PERMIT => 1 | ACL_ACTION_DENY => 2 end%Z;
  enum_values :=
    [ACL_ACTION_UNSPECIFIED; ACL_ACTION_PERMIT; ACL_ACTION_DENY] |}.
Solve All Obligations with solve_enum.

Inductive AclProtocol :=
  | ACL_PROTOCOL_UNSPECIFIED | ACL_PROTOCOL_IP | ACL_PROTOCOL_TCP | ACL_PROTOCOL_UDP
  | ACL_PROTOCOL_ICMP.
#[global] Program Instance AclProtocol_enum : ProtoEnum AclProtocol := {|
  enum_number e := match e with
    | ACL_PROTOCOL_UNSPECIFIED => 0 | ACL_PROTOCOL_IP => 1 | ACL_PROTOCOL_TCP => 2
    | ACL_PROTOCOL_UDP => 3 | ACL_PROTOCOL_ICMP => 4 end%Z;
  enum_values :=
    [ACL_PROTOCOL_UNSPECIFIED; ACL_PROTOCOL_IP; ACL_PROTOCOL_TCP; ACL_PROTOCOL_UDP;
    ACL_PROTOCOL_ICMP] |}.
Solve All Obligations with solve_enum.

Inductive AclDirection :=
  | ACL_DIRECTION_UNSPECIFIED | ACL_DIRECTION_INBOUND | ACL_DIRECTION_OUTBOUND.
#[global] Program Instance AclDirection_enum : ProtoEnum AclDirection := {|
  enum_number e := match e with
    | ACL_DIRECTION_UNSPECIFIED => 0 | ACL_DIRECTION_INBOUND => 1 | ACL_DIRECTION_OUTBOUND => 2 end%Z;
  enum_values :=
    [ACL_DIRECTION_UNSPECIFIED; ACL_DIRECTION_INBOUND; ACL_DIRECTION_OUTBOUND] |}.
Solve All Obligations with solve_enum.

Inductive AclKind :=
  | ACL_KIND_UNSPECIFIED | ACL_KIND_ADVANCED_IPV4 | ACL_KIND_BASIC_IPV4.
#[global] Program Instance AclKind_enum : ProtoEnum AclKind := {|
  enum_number e := match e with
    | ACL_KIND_UNSPECIFIED => 0 | ACL_KIND_ADVANCED_IPV4 => 1 | ACL_KIND_BASIC_IPV4 => 2 end%Z;
  enum_values :=
    [ACL_KIND_UNSPECIFIED; ACL_KIND_ADVANCED_IPV4; ACL_KIND_BASIC_IPV4] |}.
Solve All Obligations with solve_enum.

Inductive ModelProtocol :=
  | MODEL_PROTOCOL_UNSPECIFIED | MODEL_PROTOCOL_OPENCONFIG_GNMI
  | MODEL_PROTOCOL_OPENCONFIG_NETCONF | MODEL_PROTOCOL_VENDOR_NATIVE_YANG
  | MODEL_PROTOCOL_VENDOR_CLI.
#[global] Program Instance ModelProtocol_enum : ProtoEnum ModelProtocol := {|
  enum_number e := match e with
    | MODEL_PROTOCOL_UNSPECIFIED => 0 | MODEL_PROTOCOL_OPENCONFIG_GNMI => 1
    | MODEL_PROTOCOL_OPENCONFIG_NETCONF => 2 | MODEL_PROTOCOL_VENDOR_NATIVE_YANG => 3
    | MODEL_PROTOCOL_VENDOR_CLI => 4 end%Z;
  enum_values :=
    [MODEL_PROTOCOL_UNSPECIFIED; MODEL_PROTOCOL_OPENCONFIG_GNMI;
    MODEL_PROTOCOL_OPENCONFIG_NETCONF; MODEL_PROTOCOL_VENDOR_NATIVE_YANG;
    MODEL_PROTOCOL_VENDOR_CLI] |}.
Solve All Obligations with solve_enum.

Inductive WriteReadiness :=
  | WRITE_READINESS_UNSPECIFIED | WRITE_READINESS_READ_ONLY | WRITE_READINESS_WRITE_SAFE
  | WRITE_READINESS_WRITE_REJECTED.
#[global] Program Instance WriteReadiness_enum : ProtoEnum WriteReadiness := {|
  enum_number e := match e with
    | WRITE_READINESS_UNSPECIFIED => 0 | WRITE_READINESS_READ_ONLY => 1
    | WRITE_READINESS_WRITE_SAFE => 2 | WRITE_READINESS_WRITE_REJECTED => 3 end%Z;
  enum_values :=
    [WRITE_READINESS_UNSPECIFIED; WRITE_READINESS_READ_ONLY; WRITE_READINESS_WRITE_SAFE;
    WRITE_READINESS_WRITE_REJECTED] |}.
Solve All Obligations with solve_enum.

Record DeviceRef := mkDeviceRef {
  dr_device_id : string;
  dr_management_ip : string;
  dr_management_port : N;
  dr_vendor_hint : Z;
  dr_model_hint : string;
  dr_secret_ref : string;
  dr_host_key_policy : Z;
  dr_known_hosts_path : string;
  dr_pinned_host_key_fingerprint : string;
}.
Record ModelPathSupport := mkModelPathSupport {
  ps_protocol : Z;
  ps_model : string;
  ps_revision : string;
  ps_path : string;
  ps_readable : bool;
  ps_writable : bool;
  ps_verified_on_device : bool;
  ps_deviations : list string;
  ps_notes : list string;
}.
Record YangModuleSummary := mkYangModuleSummary {
  ym_name : string;
  ym_revision : string;
  ym_namespace : string;
  ym_schema_size_bytes : N;
  ym_schema_downloaded : bool;
  ym_format : string;
}.
Record DeviceModelProfile := mkDeviceModelProfile {
  dp_profile_id : string;
  dp_vendor : Z;
  dp_model : string;
  dp_os_version : string;
  dp_paths : list ModelPathSupport;
  dp_pbr_write_readiness : Z;
  dp_bgp_write_readiness : Z;
  dp_rejection_reasons : list string;
  dp_yang_module_count : N;
}.
Record DeviceCapability := mkDeviceCapability {
  dc_vendor : Z;
  dc_model : string;
  dc_os_version : string;
  dc_raw_capabilities : list string;
  dc_supports_netconf : bool;
  dc_supports_candidate : bool;
  dc_supports_validate : bool;
  dc_supports_confirmed_commit : bool;
  dc_supports_persist_id : bool;
  dc_supports_rollback_on_error : bool;
  dc_supports_writable_running : bool;
  dc_supported_backends : list Z;
  dc_model_profile : option DeviceModelProfile;
  dc_yang_modules : list YangModuleSummary;
}.
Record VlanConfig := mkVlanConfig {
  vl_vlan_id : N;
  vl_name : option string;
  vl_description : option string;
}.
Record PortMode := mkPortMode {
  pm_kind : Z;
  pm_access_vlan : option N;
  pm_native_vlan : option N;
  pm_allowed_vlans : list N;
}.
Record InterfaceConfig := mkInterfaceConfig {
  if_name : string;
  if_admin_state : Z;
  if_description : option string;
  if_mode : option PortMode;
}.
Record AclEndpoint := mkAclEndpoint {
  ae_address : string;
  ae_wildcard : string;
}.
Record AclRule := mkAclRule {
  ar_sequence : N;
  ar_action : Z;
  ar_protocol : Z;
  ar_source : option AclEndpoint;
  ar_destination : option AclEndpoint;
  ar_source_port_eq : option N;
  ar_destination_port_eq : option N;
  ar_description : option string;
}.
Record AclConfig := mkAclConfig {
  ac_acl_id : N;
  ac_name : option string;
  ac_description : option string;
  ac_rules : list AclRule;
  ac_kind : Z;
}.
Record AclBinding := mkAclBinding {
  ab_interface_name : string;
  ab_direction : Z;
  ab_acl_id : N;
}.
Record BgpProcess := mkBgpProcess {
  bp_vrf : string;
  bp_local_as : N;
  bp_router_id : option string;
}.
Record BgpNeighbor := mkBgpNeighbor {
  bn_vrf : string;
  bn_address : string;
  bn_remote_as : N;
  bn_description : option string;
  bn_import_policy : option string;
  bn_export_policy : option string;
}.
Record DesiredDeviceState := mkDesiredDeviceState {
  dd_device_id : string;
  dd_vlans : list VlanConfig;
  dd_interfaces : list InterfaceConfig;
  dd_acls : list AclConfig;
  dd_acl_bindings : list AclBinding;
  dd_delete_vlan_ids : list N;
  dd_delete_acl_ids : list N;
  dd_delete_acl_bindings : list AclBinding;
  dd_delete_interface_names : list string;
  dd_bgp_processes : list BgpProcess;
  dd_bgp_neighbors : list BgpNeighbor;
  dd_delete_bgp_process_vrfs : list string;
  dd_delete_bgp_neighbors : list BgpNeighbor;
}.
Record ObservedDeviceState := mkObservedDeviceState {
  od_device_id : string;
  od_vlans : list VlanConfig;
  od_interfaces : list InterfaceConfig;
  od_acls : list AclConfig;
  od_acl_bindings : list AclBinding;
  od_bgp_processes : list BgpProcess;
  od_bgp_neighbors : list BgpNeighbor;
}.
Record StateScope := mkStateScope {
  sc_full : bool;
  sc_vlan_ids : list N;
  sc_interface_names : list string;
  sc_acl_ids : list N;
}.
Record RollbackArtifactRef := mkRollbackArtifactRef {
  ra_artifact_id : string;
  ra_tx_id : string;
  ra_device_id : string;
  ra_storage_uri : string;
  ra_checksum : string;
}.
Record AdapterError := mkAdapterError {
  er_code : string;
  er_message : string;
  er_normalized_error : string;
  er_raw_error_summary : string;
  er_retryable : bool;
}.
Record AdapterResult := mkAdapterResult {
  re_status : Z;
  re_changed : bool;
  re_warnings : list string;
  re_errors : list AdapterError;
  re_rollback_artifact : option RollbackArtifactRef;
  re_normalized_state : option ObservedDeviceState;
  re_prepared_candidate_checksum : string;
}.
Record GetCapabilitiesRequest := mkGetCapabilitiesRequest {
  gcq_context : option RequestContext;
  gcq_device : option DeviceRef;
}.
Record GetCapabilitiesResponse := mkGetCapabilitiesResponse {
  gcr_capability : option DeviceCapability;
  gcr_warnings : list string;
  gcr_errors : list AdapterError;
}.
Record GetCurrentStateRequest := mkGetCurrentStateRequest {
  gsq_context : option RequestContext;
  gsq_device : option DeviceRef;
  gsq_scope : option StateScope;
}.
Record GetCurrentStateResponse := mkGetCurrentStateResponse {
  gsr_state : option ObservedDeviceState;
  gsr_warnings : list string;
  gsr_errors : list AdapterError;
}.
Record PrepareRequest := mkPrepareRequest {
  prq_context : option RequestContext;
  prq_device : option DeviceRef;
  prq_desired_state : option DesiredDeviceState;
}.
Record CommitRequest := mkCommitRequest {
  cmq_context : option RequestContext;
  cmq_device : option DeviceRef;
  cmq_strategy : Z;
  cmq_confirm_timeout_secs : N;
  cmq_prepared_candidate_checksum : string;
}.
Record FinalConfirmRequest := mkFinalConfirmRequest {
  fcq_context : option RequestContext;
  fcq_device : option DeviceRef;
}.
Record RollbackRequest := mkRollbackRequest {
  rbq_context : option RequestContext;
  rbq_device : option DeviceRef;
  rbq_strategy : Z;
}.
Record VerifyRequest := mkVerifyRequest {
  vfq_context : option RequestContext;
  vfq_device : option DeviceRef;
  vfq_desired_state : option DesiredDeviceState;
  vfq_scope : option StateScope;
}.
Record RecoverRequest := mkRecoverRequest {
  rcq_context : option RequestContext;
  rcq_device : option DeviceRef;
  rcq_strategy : Z;
  rcq_action : Z;
}.
Record ForceUnlockRequest := mkForceUnlockRequest {
  fuq_context : option RequestContext;
  fuq_device : option DeviceRef;
  fuq_lock_owner : string;
  fuq_reason : string;
  fuq_break_glass_enabled : bool;
}.

(** The answer of every operation on a device: [PrepareResponse], [CommitResponse],
    [FinalConfirmResponse], [RollbackResponse], [VerifyResponse], [RecoverResponse] and
    [ForceUnlockResponse] have the one field [result]. *)
Record ResultResponse := mkResultResponse { rr_result : option AdapterResult }.

End Proto.
