(* ===== verification/Mapper.v ===== *)
(** * Translation to and from the adapter's messages (src/adapter_client/mapper.rs and the
      [from_proto] of src/device/model_profile.rs)

    What the controller sends is a message built from a device and its desired
    state; what it receives is decoded, field by field, into a shadow state, a
    capability profile or the outcome of an operation.  [*_to_proto] never fails;
    [*_from_proto] rejects what the data model cannot hold. *)
From S2P Require Export Protobuf.
Local Open Scope N_scope.

(** ** Errors and integers *)

(** The errors this file makes carry a code and a message, are not retryable and
    have no further details. *)
Definition malformed (code message : string) : UnderlayError :=
  AdapterOperation code message false [].

(** [u16::try_from(value).map_err(..)] of a [u32] *)
Definition u16_try_from (value : N) (e : UnderlayError) : UnderlayResult N :=
  if value <=? U16_MAX then Ok value else Err e.

(** [option.map(f).transpose()] *)
Definition transpose_map {A B} (f : A → UnderlayResult B) (o : option A) : UnderlayResult (option B) :=
  match o with None => Ok None | Some a => b ← f a; Ok (Some b) end.

Definition empty_to_none (value : string) : option string :=
  if str_is_empty value then None else Some value.

Definition extract_adapter_errors (errors : list Proto.AdapterError) : option UnderlayError :=
  match errors with
  | [] => None
  | first :: rest =>
      Some (AdapterOperation (Proto.er_code first) (Proto.er_message first)
        (Proto.er_retryable first)
        ((λ e, mkAdapterErrorDetail (Proto.er_code e) (Proto.er_message e)) <$> rest))
  end.

(** ** Devices *)

Definition vendor_to_proto (vendor : Vendor) : Proto.Vendor :=
  match vendor with
  | Huawei => Proto.VENDOR_HUAWEI | H3c => Proto.VENDOR_H3C | Cisco => Proto.VENDOR_CISCO
  | Ruijie => Proto.VENDOR_RUIJIE | VendorUnknown => Proto.VENDOR_UNKNOWN
  end.
Definition vendor_from_i32 (value : Z) : Vendor :=
  match enum_or Proto.VENDOR_UNKNOWN value with
  | Proto.VENDOR_HUAWEI => Huawei | Proto.VENDOR_H3C => H3c | Proto.VENDOR_CISCO => Cisco
  | Proto.VENDOR_RUIJIE => Ruijie | _ => VendorUnknown
  end.
Definition host_key_policy_to_proto (policy : HostKeyPolicy)
    : Proto.HostKeyPolicy * string * string :=
  match policy with
  | TrustOnFirstUse => (Proto.HOST_KEY_POLICY_TRUST_ON_FIRST_USE, "", "")
  | KnownHostsFile path => (Proto.HOST_KEY_POLICY_KNOWN_HOSTS_FILE, path, "")
  | PinnedKey fingerprint => (Proto.HOST_KEY_POLICY_PINNED_KEY, "", fingerprint)
  end.
Definition device_ref_from_info (info : DeviceInfo) : Proto.DeviceRef :=
  let '(policy, known_hosts_path, fingerprint) := host_key_policy_to_proto (host_key_policy info) in
  {| Proto.dr_device_id := device_id_0 (info_id info);
     Proto.dr_management_ip := management_ip info;
     Proto.dr_management_port := management_port info;
     Proto.dr_vendor_hint :=
       enum_number (vendor_to_proto (default VendorUnknown (info_vendor_hint info)));
     Proto.dr_model_hint := default "" (info_model_hint info);
     Proto.dr_secret_ref := info_secret_ref info;
     Proto.dr_host_key_policy := enum_number policy;
     Proto.dr_known_hosts_path := known_hosts_path;
     Proto.dr_pinned_host_key_fingerprint := fingerprint |}.

(** ** Capabilities *)

Definition backend_from_i32 (value : Z) : option BackendKind :=
  match try_from_i32 value with
  | Some Proto.BACKEND_KIND_NETCONF => Some Netconf
  | Some Proto.BACKEND_KIND_NAPALM => Some Napalm
  | Some Proto.BACKEND_KIND_NETMIKO => Some Netmiko
  | Some Proto.BACKEND_KIND_CLI => Some Cli
  | _ => None
  end.

Definition model_protocol_from_proto (value : Z) : ModelProtocol :=
  match enum_or Proto.MODEL_PROTOCOL_UNSPECIFIED value with
  | Proto.MODEL_PROTOCOL_OPENCONFIG_GNMI => OpenConfigGnmi
  | Proto.MODEL_PROTOCOL_OPENCONFIG_NETCONF => OpenConfigNetconf
  | Proto.MODEL_PROTOCOL_VENDOR_NATIVE_YANG => VendorNativeYang
  | Proto.MODEL_PROTOCOL_VENDOR_CLI => VendorCli
  | Proto.MODEL_PROTOCOL_UNSPECIFIED => VendorCli
  end.
Definition write_readiness_from_proto (value : Z) : WriteReadiness :=
  match enum_or Proto.WRITE_READINESS_UNSPECIFIED value with
  | Proto.WRITE_READINESS_READ_ONLY => ReadinessReadOnly
  | Proto.WRITE_READINESS_WRITE_SAFE => WriteSafe
  | Proto.WRITE_READINESS_WRITE_REJECTED | Proto.WRITE_READINESS_UNSPECIFIED => WriteRejected
  end.
Definition vendor_from_proto (value : Z) : Vendor :=
  match enum_or Proto.VENDOR_UNKNOWN value with
  | Proto.VENDOR_HUAWEI => Huawei | Proto.VENDOR_H3C => H3c | Proto.VENDOR_CISCO => Cisco
  | Proto.VENDOR_RUIJIE => Ruijie | _ => VendorUnknown
  end.
Definition model_path_from_proto (p : Proto.ModelPathSupport) : ModelPathSupport :=
  {| mp_protocol := model_protocol_from_proto (Proto.ps_protocol p);
     mp_model := Proto.ps_model p;
     mp_revision := empty_to_none (Proto.ps_revision p);
     mp_path := Proto.ps_path p;
     readable := Proto.ps_readable p;
     writable := Proto.ps_writable p;
     verified_on_device := Proto.ps_verified_on_device p;
     deviations := Proto.ps_deviations p;
     notes := Proto.ps_notes p |}.
Definition model_profile_from_proto (p : Proto.DeviceModelProfile) : DeviceModelProfile :=
  {| profile_id := Proto.dp_profile_id p;
     pf_vendor := vendor_from_proto (Proto.dp_vendor p);
     pf_model := Proto.dp_model p;
     pf_os_version := Proto.dp_os_version p;
     paths := fmap (M:=list) model_path_from_proto (Proto.dp_paths p);
     pbr_write_readiness := write_readiness_from_proto (Proto.dp_pbr_write_readiness p);
     bgp_write_readiness := write_readiness_from_proto (Proto.dp_bgp_write_readiness p);
     rejection_reasons := Proto.dp_rejection_reasons p;
     yang_module_count := Proto.dp_yang_module_count p |}.
Definition yang_module_from_proto (p : Proto.YangModuleSummary) : YangModuleSummary :=
  mkYangModuleSummary (Proto.ym_name p) (Proto.ym_revision p) (Proto.ym_namespace p)
    (Proto.ym_schema_size_bytes p) (Proto.ym_schema_downloaded p) (Proto.ym_format p).

Definition is_cli_backend (b : BackendKind) : bool :=
  match b with Cli | Netmiko => true | _ => false end.

Definition capability_from_proto (p : Proto.DeviceCapability) (warnings : list string)
    : DeviceCapabilityProfile :=
  let backends := omap (M:=list) backend_from_i32 (Proto.dc_supported_backends p) in
  let flags :=
    {| supports_candidate := Proto.dc_supports_candidate p;
       supports_validate := Proto.dc_supports_validate p;
       supports_confirmed_commit := Proto.dc_supports_confirmed_commit p;
       supports_persist_id := Proto.dc_supports_persist_id p;
       supports_rollback_on_error := Proto.dc_supports_rollback_on_error p;
       supports_writable_running := Proto.dc_supports_writable_running p;
       supports_cli_fallback := existsb is_cli_backend backends |} in
  {| cap_vendor := vendor_from_i32 (Proto.dc_vendor p);
     cap_model := empty_to_none (Proto.dc_model p);
     cap_os_version := empty_to_none (Proto.dc_os_version p);
     raw_capabilities := Proto.dc_raw_capabilities p;
     cap_supports_netconf := Proto.dc_supports_netconf p;
     cap_supports_candidate := Proto.dc_supports_candidate p;
     cap_supports_validate := Proto.dc_supports_validate p;
     cap_supports_confirmed_commit := Proto.dc_supports_confirmed_commit p;
     cap_supports_persist_id := Proto.dc_supports_persist_id p;
     cap_supports_rollback_on_error := Proto.dc_supports_rollback_on_error p;
     cap_supports_writable_running := Proto.dc_supports_writable_running p;
     supported_backends := backends;
     cap_model_profile := fmap (M:=option) model_profile_from_proto (Proto.dc_model_profile p);
     recommended_strategy := choose_strategy flags AllowBestEffortCli;
     cap_warnings := warnings;
     yang_modules := fmap (M:=list) yang_module_from_proto (Proto.dc_yang_modules p) |}.

(** ** Sending a desired state *)

Definition port_mode_to_proto (mode : PortMode) : Proto.PortMode :=
  match mode with
  | Access vlan_id =>
      {| Proto.pm_kind := enum_number Proto.PORT_MODE_KIND_ACCESS;
         Proto.pm_access_vlan := Some vlan_id;
         Proto.pm_native_vlan := None; Proto.pm_allowed_vlans := [] |}
  | Trunk native_vlan allowed_vlans =>
      {| Proto.pm_kind := enum_number Proto.PORT_MODE_KIND_TRUNK;
         Proto.pm_access_vlan := None;
         Proto.pm_native_vlan := native_vlan; Proto.pm_allowed_vlans := allowed_vlans |}
  end.
Definition interface_to_proto (i : InterfaceConfig) : Proto.InterfaceConfig :=
  {| Proto.if_name := if_name i;
     Proto.if_admin_state := match if_admin_state i with
       | Up => enum_number Proto.ADMIN_STATE_UP
       | Down => enum_number Proto.ADMIN_STATE_DOWN
       end;
     Proto.if_description := if_description i;
     Proto.if_mode := Some (port_mode_to_proto (if_mode i)) |}.
(** The closure that [desired_state_to_proto] maps over the VLANs. *)
Definition vlan_to_proto (v : VlanConfig) : Proto.VlanConfig :=
  Proto.mkVlanConfig (vlan_id v) (vlan_name v) (vlan_description v).

Definition acl_action_to_proto (a : AclAction) : Proto.AclAction :=
  match a with Permit => Proto.ACL_ACTION_PERMIT | Deny => Proto.ACL_ACTION_DENY end.
Definition acl_protocol_to_proto (p : AclProtocol) : Proto.AclProtocol :=
  match p with
  | Ip => Proto.ACL_PROTOCOL_IP | Tcp => Proto.ACL_PROTOCOL_TCP
  | Udp => Proto.ACL_PROTOCOL_UDP | Icmp => Proto.ACL_PROTOCOL_ICMP
  end.
Definition acl_direction_to_proto (d : AclDirection) : Proto.AclDirection :=
  match d with
  | Inbound => Proto.ACL_DIRECTION_INBOUND | Outbound => Proto.ACL_DIRECTION_OUTBOUND
  end.
Definition acl_kind_to_proto (k : AclKind) : Proto.AclKind :=
  match k with
  | AdvancedIpv4 => Proto.ACL_KIND_ADVANCED_IPV4 | BasicIpv4 => Proto.ACL_KIND_BASIC_IPV4
  end.
Definition acl_endpoint_to_proto (e : AclEndpoint) : Proto.AclEndpoint :=
  Proto.mkAclEndpoint (ep_address e) (ep_wildcard e).
Definition acl_rule_to_proto (r : AclRule) : Proto.AclRule :=
  {| Proto.ar_sequence := sequence r;
     Proto.ar_action := enum_number (acl_action_to_proto (rule_action r));
     Proto.ar_protocol := enum_number (acl_protocol_to_proto (protocol r));
     Proto.ar_source := acl_endpoint_to_proto <$> source r;
     Proto.ar_destination := acl_endpoint_to_proto <$> destination r;
     Proto.ar_source_port_eq := source_port_eq r;
     Proto.ar_destination_port_eq := destination_port_eq r;
     Proto.ar_description := rule_description r |}.
Definition acl_to_proto (a : AclConfig) : Proto.AclConfig :=
  {| Proto.ac_acl_id := acl_id a;
     Proto.ac_name := acl_name a;
     Proto.ac_description := acl_description a;
     Proto.ac_rules := acl_rule_to_proto <$> acl_rules a;
     Proto.ac_kind := enum_number (acl_kind_to_proto (acl_kind a)) |}.
Definition acl_binding_to_proto (b : AclBinding) : Proto.AclBinding :=
  Proto.mkAclBinding (ab_interface_name b)
    (enum_number (acl_direction_to_proto (ab_direction b))) (ab_acl_id b).
Definition bgp_process_to_proto (p : BgpProcess) : Proto.BgpProcess :=
  Proto.mkBgpProcess (bp_vrf p) (bp_local_as p) (bp_router_id p).
Definition bgp_neighbor_to_proto (n : BgpNeighbor) : Proto.BgpNeighbor :=
  Proto.mkBgpNeighbor (bn_vrf n) (bn_address n) (bn_remote_as n) (bn_description n)
    (bn_import_policy n) (bn_export_policy n).

Definition desired_state_to_proto (d : DeviceDesiredState) : Proto.DesiredDeviceState :=
  {| Proto.dd_device_id := device_id_0 (ds_device_id d);
     Proto.dd_vlans := vlan_to_proto <$> bt_values (ds_vlans d);
     Proto.dd_interfaces := interface_to_proto <$> bt_values (ds_interfaces d);
     Proto.dd_acls := acl_to_proto <$> bt_values (ds_acls d);
     Proto.dd_acl_bindings := acl_binding_to_proto <$> bt_values (ds_acl_bindings d);
     Proto.dd_delete_vlan_ids := bs_elems (ds_delete_vlan_ids d);
     Proto.dd_delete_acl_ids := bs_elems (ds_delete_acl_ids d);
     Proto.dd_delete_acl_bindings := acl_binding_to_proto <$> bt_values (ds_delete_acl_bindings d);
     Proto.dd_delete_interface_names := bs_elems (ds_delete_interface_names d);
     Proto.dd_bgp_processes := bgp_process_to_proto <$> bt_values (ds_bgp_processes d);
     Proto.dd_bgp_neighbors := bgp_neighbor_to_proto <$> bt_values (ds_bgp_neighbors d);
     Proto.dd_delete_bgp_process_vrfs := bs_elems (ds_delete_bgp_process_vrfs d);
     Proto.dd_delete_bgp_neighbors :=
       bgp_neighbor_to_proto <$> bt_values (ds_delete_bgp_neighbors d) |}.

(** ** The scope of a read *)

Definition state_scope_from_desired (d : DeviceDesiredState) : Proto.StateScope :=
  let interface_names := bs_collect
    (bt_keys (ds_interfaces d) ++
     (ab_interface_name <$> bt_values (ds_acl_bindings d)) ++
     bs_elems (ds_delete_interface_names d) ++
     (ab_interface_name <$> bt_values (ds_delete_acl_bindings d))) in
  {| Proto.sc_full := false;
     Proto.sc_vlan_ids := bt_keys (ds_vlans d) ++ bs_elems (ds_delete_vlan_ids d);
     Proto.sc_interface_names := bs_elems interface_names;
     Proto.sc_acl_ids := bs_elems (bs_collect
       (bt_keys (ds_acls d) ++ (ab_acl_id <$> bt_values (ds_acl_bindings d)) ++
        bs_elems (ds_delete_acl_ids d) ++
        (ab_acl_id <$> bt_values (ds_delete_acl_bindings d)))) |}.

(** The three sets of [state_scope_from_change_set] and the body of its loop. *)
Record ScopeSets := mkScopeSets {
  scope_vlan_ids : gset N; scope_interface_names : gset string; scope_acl_ids : gset N;
}.
Definition scope_of_op (s : ScopeSets) (op : ChangeOp) : ScopeSets :=
  let 'mkScopeSets vlans names acls := s in
  match op with
  | CreateVlan v => mkScopeSets ({[vlan_id v]} ∪ vlans) names acls
  | UpdateVlan before after =>
      mkScopeSets ({[vlan_id after]} ∪ ({[vlan_id before]} ∪ vlans)) names acls
  | DeleteVlan id => mkScopeSets ({[id]} ∪ vlans) names acls
  | UpdateInterface before after =>
      let names := match before with Some b => {[if_name b]} ∪ names | None => names end in
      mkScopeSets vlans ({[if_name after]} ∪ names) acls
  | DeleteInterfaceConfig name => mkScopeSets vlans ({[name]} ∪ names) acls
  | CreateAcl a => mkScopeSets vlans names ({[acl_id a]} ∪ acls)
  | UpdateAcl before after =>
      mkScopeSets vlans names ({[acl_id after]} ∪ ({[acl_id before]} ∪ acls))
  | DeleteAcl id => mkScopeSets vlans names ({[id]} ∪ acls)
  | CreateAclBinding b =>
      mkScopeSets vlans ({[ab_interface_name b]} ∪ names) ({[ab_acl_id b]} ∪ acls)
  | UpdateAclBinding before after =>
      mkScopeSets vlans
        ({[ab_interface_name after]} ∪ ({[ab_interface_name before]} ∪ names))
        ({[ab_acl_id after]} ∪ ({[ab_acl_id before]} ∪ acls))
  | DeleteAclBinding name _ id => mkScopeSets vlans ({[name]} ∪ names) ({[id]} ∪ acls)
  | CreateBgpProcess _ | UpdateBgpProcess _ _ | DeleteBgpProcess _
  | CreateBgpNeighbor _ | UpdateBgpNeighbor _ _ | DeleteBgpNeighbor _ _ => s
  end.
Definition state_scope_from_change_set (c : ChangeSet) : Proto.StateScope :=
  let s := foldl scope_of_op (mkScopeSets ∅ ∅ ∅) (ops c) in
  {| Proto.sc_full := false;
     Proto.sc_vlan_ids := bs_elems (scope_vlan_ids s);
     Proto.sc_interface_names := bs_elems (scope_interface_names s);
     Proto.sc_acl_ids := bs_elems (scope_acl_ids s) |}.

(** ** Receiving a state *)

(** The body of the loop over the VLANs of [shadow_state_from_proto]. *)
Definition vlan_from_proto (p : Proto.VlanConfig) : UnderlayResult VlanConfig :=
  id ← u16_try_from (Proto.vl_vlan_id p)
    (malformed "INVALID_VLAN_ID"
       ("adapter returned invalid VLAN id " +:+ fmt_N (Proto.vl_vlan_id p)));
  _ ← reject_if ((id <? 1) || (4094 <? id))
    (malformed "INVALID_VLAN_ID"
       ("adapter returned out-of-range VLAN id " +:+ fmt_N id +:+ " (valid: 1–4094)"));
  Ok (mkVlanConfig id (Proto.vl_name p) (Proto.vl_description p)).

Definition port_mode_from_proto (p : Proto.PortMode) : UnderlayResult PortMode :=
  let invalid what vlan := malformed "INVALID_VLAN_ID"
    ("adapter returned invalid " +:+ what +:+ " VLAN id " +:+ fmt_N vlan) in
  match enum_or Proto.PORT_MODE_KIND_UNSPECIFIED (Proto.pm_kind p) with
  | Proto.PORT_MODE_KIND_ACCESS =>
      vlan ← ok_or (Proto.pm_access_vlan p)
        (malformed "MISSING_ACCESS_VLAN" "adapter returned access port without access vlan");
      id ← u16_try_from vlan (invalid "access" vlan);
      Ok (Access id)
  | Proto.PORT_MODE_KIND_TRUNK =>
      native ← transpose_map (λ vlan, u16_try_from vlan (invalid "native" vlan))
        (Proto.pm_native_vlan p);
      allowed ← traverse (λ vlan, u16_try_from vlan (invalid "allowed" vlan))
        (Proto.pm_allowed_vlans p);
      Ok (Trunk native allowed)
  | _ => Err (malformed "INVALID_PORT_MODE" "adapter returned invalid port mode")
  end.
Definition interface_from_proto (p : Proto.InterfaceConfig) : UnderlayResult InterfaceConfig :=
  mode ← ok_or (Proto.if_mode p)
    (malformed "MISSING_PORT_MODE"
       ("adapter returned interface " +:+ Proto.if_name p +:+ " without port mode"));
  admin ← match enum_or Proto.ADMIN_STATE_UNSPECIFIED (Proto.if_admin_state p) with
          | Proto.ADMIN_STATE_UP => Ok Up
          | Proto.ADMIN_STATE_DOWN => Ok Down
          | _ => Err (malformed "INVALID_ADMIN_STATE" "adapter returned invalid admin state")
          end;
  mode ← port_mode_from_proto mode;
  Ok (mkInterfaceConfig (Proto.if_name p) admin (Proto.if_description p) mode).

Definition acl_id_from_u32 (value : N) (message : string) : UnderlayResult N :=
  id ← u16_try_from value (malformed "INVALID_ACL_ID" (message +:+ " " +:+ fmt_N value));
  _ ← reject_if (negb ((2000 <=? id) && (id <=? 3999)))
    (malformed "INVALID_ACL_ID"
       ("adapter returned out-of-range numeric IPv4 ACL id " +:+ fmt_N id));
  Ok id.
Definition acl_port_from_u32 (value : N) (field : string) : UnderlayResult N :=
  port ← u16_try_from value
    (malformed "INVALID_ACL_PORT"
       ("adapter returned invalid ACL " +:+ field +:+ " " +:+ fmt_N value));
  _ ← reject_if (port =? 0)
    (malformed "INVALID_ACL_PORT" ("adapter returned invalid ACL " +:+ field +:+ " 0"));
  Ok port.
Definition acl_action_from_i32 (value : Z) : UnderlayResult AclAction :=
  match enum_or Proto.ACL_ACTION_UNSPECIFIED value with
  | Proto.ACL_ACTION_PERMIT => Ok Permit
  | Proto.ACL_ACTION_DENY => Ok Deny
  | _ => Err (malformed "INVALID_ACL_ACTION" "adapter returned invalid ACL action")
  end.
Definition acl_protocol_from_i32 (value : Z) : UnderlayResult AclProtocol :=
  match enum_or Proto.ACL_PROTOCOL_UNSPECIFIED value with
  | Proto.ACL_PROTOCOL_IP => Ok Ip
  | Proto.ACL_PROTOCOL_TCP => Ok Tcp
  | Proto.ACL_PROTOCOL_UDP => Ok Udp
  | Proto.ACL_PROTOCOL_ICMP => Ok Icmp
  | _ => Err (malformed "INVALID_ACL_PROTOCOL" "adapter returned invalid ACL protocol")
  end.
Definition acl_direction_from_i32 (value : Z) : UnderlayResult AclDirection :=
  match enum_or Proto.ACL_DIRECTION_UNSPECIFIED value with
  | Proto.ACL_DIRECTION_INBOUND => Ok Inbound
  | Proto.ACL_DIRECTION_OUTBOUND => Ok Outbound
  | _ => Err (malformed "INVALID_ACL_DIRECTION" "adapter returned invalid ACL direction")
  end.
Definition is_advanced_id (id : N) : bool := (3000 <=? id) && (id <=? 3999).
Definition is_basic_id (id : N) : bool := (2000 <=? id) && (id <=? 2999).
Definition acl_kind_from_i32 (value : Z) (id : N) : UnderlayResult AclKind :=
  let invalid := Err (malformed "INVALID_ACL_KIND" "adapter returned invalid ACL kind") in
  match enum_or Proto.ACL_KIND_UNSPECIFIED value with
  | Proto.ACL_KIND_ADVANCED_IPV4 => if is_advanced_id id then Ok AdvancedIpv4 else invalid
  | Proto.ACL_KIND_BASIC_IPV4 => if is_basic_id id then Ok BasicIpv4 else invalid
  | Proto.ACL_KIND_UNSPECIFIED =>
      if is_basic_id id then Ok BasicIpv4
      else if is_advanced_id id then Ok AdvancedIpv4 else invalid
  end.
Definition acl_endpoint_from_proto (p : Proto.AclEndpoint) : UnderlayResult AclEndpoint :=
  _ ← reject_if (str_is_empty (trim (Proto.ae_address p)) || str_is_empty (trim (Proto.ae_wildcard p)))
    (malformed "INVALID_ACL_ENDPOINT" "adapter returned ACL endpoint without address or wildcard");
  Ok (mkAclEndpoint (Proto.ae_address p) (Proto.ae_wildcard p)).
Definition acl_rule_from_proto (p : Proto.AclRule) : UnderlayResult AclRule :=
  seq ← u16_try_from (Proto.ar_sequence p)
    (malformed "INVALID_ACL_RULE_SEQUENCE"
       ("adapter returned invalid ACL rule sequence " +:+ fmt_N (Proto.ar_sequence p)));
  action ← acl_action_from_i32 (Proto.ar_action p);
  proto ← acl_protocol_from_i32 (Proto.ar_protocol p);
  src ← transpose_map acl_endpoint_from_proto (Proto.ar_source p);
  dst ← transpose_map acl_endpoint_from_proto (Proto.ar_destination p);
  sport ← transpose_map (λ port, acl_port_from_u32 port "source_port_eq")
    (Proto.ar_source_port_eq p);
  dport ← transpose_map (λ port, acl_port_from_u32 port "destination_port_eq")
    (Proto.ar_destination_port_eq p);
  Ok (mkAclRule seq action proto src dst sport dport (Proto.ar_description p)).
Definition acl_from_proto (p : Proto.AclConfig) : UnderlayResult AclConfig :=
  id ← acl_id_from_u32 (Proto.ac_acl_id p) "adapter returned invalid ACL id";
  kind ← acl_kind_from_i32 (Proto.ac_kind p) id;
  rules ← traverse acl_rule_from_proto (Proto.ac_rules p);
  Ok (mkAclConfig id kind (Proto.ac_name p) (Proto.ac_description p) rules).
Definition acl_binding_from_proto (p : Proto.AclBinding) : UnderlayResult AclBinding :=
  _ ← reject_if (str_is_empty (trim (Proto.ab_interface_name p)))
    (malformed "INVALID_ACL_BINDING" "adapter returned ACL binding without interface_name");
  direction ← acl_direction_from_i32 (Proto.ab_direction p);
  id ← acl_id_from_u32 (Proto.ab_acl_id p) "adapter returned invalid ACL binding ACL id";
  Ok (mkAclBinding (Proto.ab_interface_name p) direction id).
Definition bgp_process_from_proto (p : Proto.BgpProcess) : UnderlayResult BgpProcess :=
  _ ← reject_if (str_is_empty (trim (Proto.bp_vrf p)))
    (malformed "INVALID_BGP_PROCESS" "adapter returned BGP process without vrf");
  _ ← reject_if (Proto.bp_local_as p =? 0)
    (malformed "INVALID_BGP_PROCESS" "adapter returned BGP process with local_as 0");
  Ok (mkBgpProcess (Proto.bp_vrf p) (Proto.bp_local_as p) (Proto.bp_router_id p)).
Definition bgp_neighbor_from_proto (p : Proto.BgpNeighbor) : UnderlayResult BgpNeighbor :=
  _ ← reject_if (str_is_empty (trim (Proto.bn_vrf p)) || str_is_empty (trim (Proto.bn_address p)))
    (malformed "INVALID_BGP_NEIGHBOR" "adapter returned BGP neighbor without vrf or address");
  _ ← reject_if (Proto.bn_remote_as p =? 0)
    (malformed "INVALID_BGP_NEIGHBOR" "adapter returned BGP neighbor with remote_as 0");
  Ok (mkBgpNeighbor (Proto.bn_vrf p) (Proto.bn_address p) (Proto.bn_remote_as p)
        (Proto.bn_description p) (Proto.bn_import_policy p) (Proto.bn_export_policy p)).

(** The loops of [shadow_state_from_proto]: decode, then insert under the value's key. *)
Definition decode_map {P K V} `{Countable K} (decode : P → UnderlayResult V) (key : V → K)
    (l : list P) : UnderlayResult (gmap K V) :=
  foldM (λ m p, v ← decode p; Ok (<[key v := v]> m)) ∅ l.

Definition shadow_state_from_proto (p : Proto.ObservedDeviceState) (warnings : list string)
    : UnderlayResult DeviceShadowState :=
  vlans ← decode_map vlan_from_proto vlan_id (Proto.od_vlans p);
  interfaces ← decode_map interface_from_proto if_name (Proto.od_interfaces p);
  acls ← decode_map acl_from_proto acl_id (Proto.od_acls p);
  bindings ← decode_map acl_binding_from_proto AclBinding_key (Proto.od_acl_bindings p);
  processes ← decode_map bgp_process_from_proto bp_vrf (Proto.od_bgp_processes p);
  neighbors ← decode_map bgp_neighbor_from_proto BgpNeighbor_key (Proto.od_bgp_neighbors p);
  Ok (mkDeviceShadowState (mkDeviceId (Proto.od_device_id p)) 0 vlans interfaces acls bindings
        processes neighbors warnings).

(** ** Outcomes of operations *)

Definition adapter_status_from_i32 (value : Z) : AdapterOperationStatus :=
  match enum_or Proto.ADAPTER_OPERATION_STATUS_UNSPECIFIED value with
  | Proto.ADAPTER_OPERATION_STATUS_NO_CHANGE => OpNoChange
  | Proto.ADAPTER_OPERATION_STATUS_PREPARED => OpPrepared
  | Proto.ADAPTER_OPERATION_STATUS_COMMITTED => OpCommitted
  | Proto.ADAPTER_OPERATION_STATUS_ROLLED_BACK => OpRolledBack
  | Proto.ADAPTER_OPERATION_STATUS_FAILED => OpFailed
  | Proto.ADAPTER_OPERATION_STATUS_IN_DOUBT => OpInDoubt
  | Proto.ADAPTER_OPERATION_STATUS_CONFIRMED_COMMIT_PENDING => OpConfirmedCommitPending
  | Proto.ADAPTER_OPERATION_STATUS_UNSPECIFIED => OpUnspecified
  end.
Definition adapter_result_to_outcome (p : Proto.AdapterResult) : UnderlayResult AdapterOutcome :=
  match extract_adapter_errors (Proto.re_errors p) with
  | Some error => Err error
  | None =>
      state ← transpose_map (λ s, shadow_state_from_proto s []) (Proto.re_normalized_state p);
      Ok (mkAdapterOutcome (adapter_status_from_i32 (Proto.re_status p)) (Proto.re_changed p)
            (Proto.re_warnings p) (empty_to_none (Proto.re_prepared_candidate_checksum p)) state)
  end.
Definition strategy_to_proto (s : TransactionStrategy) : Proto.TransactionStrategy :=
  match s with
  | ConfirmedCommit => Proto.TRANSACTION_STRATEGY_CONFIRMED_COMMIT
  | CandidateCommit => Proto.TRANSACTION_STRATEGY_CANDIDATE_COMMIT
  | RunningRollbackOnError => Proto.TRANSACTION_STRATEGY_RUNNING_ROLLBACK_ON_ERROR
  | BestEffortCli => Proto.TRANSACTION_STRATEGY_BEST_EFFORT_CLI
  | Unsupported => Proto.TRANSACTION_STRATEGY_UNSUPPORTED
  end.
Definition recovery_action_to_proto (a : RecoveryAction) : Proto.RecoveryAction :=
  match a with
  | DiscardPreparedChanges => Proto.RECOVERY_ACTION_DISCARD_PREPARED_CHANGES
  | AdapterRecover => Proto.RECOVERY_ACTION_ADAPTER_RECOVER
  | Noop | ManualIntervention => Proto.RECOVERY_ACTION_UNSPECIFIED
  end.

(** ** What a message can carry

    The laws of one kind of item: what is carried survives the wire, what is
    accepted can be carried, and what is rejected is rejected with one of the
    errors of this file. *)
Definition malformed_codes : list string :=
  ["INVALID_VLAN_ID"; "MISSING_PORT_MODE"; "INVALID_ADMIN_STATE"; "MISSING_ACCESS_VLAN";
   "INVALID_PORT_MODE"; "INVALID_ACL_ID"; "INVALID_ACL_KIND"; "INVALID_ACL_RULE_SEQUENCE";
   "INVALID_ACL_ACTION"; "INVALID_ACL_PROTOCOL"; "INVALID_ACL_ENDPOINT"; "INVALID_ACL_PORT";
   "INVALID_ACL_BINDING"; "INVALID_ACL_DIRECTION"; "INVALID_BGP_PROCESS"; "INVALID_BGP_NEIGHBOR"].
Definition is_malformed (e : UnderlayError) : Prop :=
  ∃ code message, e = malformed code message ∧ code ∈ malformed_codes.

Class Wire (P V : Type) := {
  encode : V → P;
  decode : P → UnderlayResult V;
  fits : V → Prop;
  decode_encode v : fits v → decode (encode v) = Ok v;
  decode_fits p v : decode p = Ok v → fits v;
  decode_malformed p e : decode p = Err e → is_malformed e;
}.

(** Every way a decoder fails is one of its [Err]s. *)
Ltac solve_malformed :=
  repeat match goal with
  | H : Err _ = Err _ |- _ => injection H as <-
  | H : Ok _ = Err _ |- _ => discriminate H
  | H : (_ ≫= _) = Err _ |- _ => apply bind_Err in H as [H|(? & _ & H)]
  | H : u16_try_from _ _ = Err _ |- _ => unfold u16_try_from in H
  | H : reject_if _ _ = Err _ |- _ => unfold reject_if in H
  | H : ok_or _ _ = Err _ |- _ => unfold ok_or in H
  | H : context [match ?x with _ => _ end] |- _ => destruct x
  end;
  (eexists _, _; split; [reflexivity | by apply (bool_decide_unpack _)]).

Lemma u16_try_from_Ok n e v : u16_try_from n e = Ok v ↔ v = n ∧ n ≤ U16_MAX.
Proof. unfold u16_try_from. destruct (N.leb_spec n U16_MAX); naive_solver lia. Qed.
Lemma u16_try_from_le n e : n ≤ U16_MAX → u16_try_from n e = Ok n.
Proof. intros. by apply u16_try_from_Ok. Qed.
Lemma reject_if_false {E} c (e : E) : c = false → reject_if c e = Ok tt.
Proof. by intros ->. Qed.
Lemma str_is_empty_trim s : str_is_empty (trim s) = false ↔ nonblank s.
Proof. unfold str_is_empty, nonblank. by rewrite bool_decide_eq_false. Qed.

Lemma traverse_malformed {A B} (f : A → UnderlayResult B) l e :
  (∀ x e, f x = Err e → is_malformed e) → traverse f l = Err e → is_malformed e.
Proof.
  intros Hf. induction l as [|x l IH]; simpl; [done|].
  intros [?|(? & _ & [?|(? & _ & ?)]%bind_Err)]%bind_Err; naive_solver.
Qed.
Lemma transpose_malformed {A B} (f : A → UnderlayResult B) o e :
  (∀ x e, f x = Err e → is_malformed e) → transpose_map f o = Err e → is_malformed e.
Proof. intros Hf. destruct o; simpl; [|done]. intros [?|(? & _ & ?)]%bind_Err; naive_solver. Qed.
Lemma transpose_map_Ok {A B} (f : A → UnderlayResult B) o r :
  transpose_map f o = Ok r ↔
  match o with None => r = None | Some a => ∃ b, f a = Ok b ∧ r = Some b end.
Proof. destruct o; simpl; [rewrite bind_Ok|]; naive_solver. Qed.

(** *** VLANs *)
Lemma vlan_from_proto_Ok p v :
  vlan_from_proto p = Ok v ↔
  v = mkVlanConfig (Proto.vl_vlan_id p) (Proto.vl_name p) (Proto.vl_description p) ∧
  between 1 4094 (Proto.vl_vlan_id p).
Proof.
  unfold vlan_from_proto, between. rewrite bind_Ok. setoid_rewrite u16_try_from_Ok.
  setoid_rewrite bind_unit_Ok. setoid_rewrite reject_if_Ok. unfold U16_MAX. split.
  - intros (id & [-> _] & [?%N.ltb_ge ?%N.ltb_ge]%orb_false_iff & [= <-]). split; [done|lia].
  - intros [-> ?]. eexists. split; [by split; [|lia]|]. split; [|done].
    apply orb_false_iff. split; apply N.ltb_ge; lia.
Qed.
#[export] Program Instance VlanConfig_wire : Wire Proto.VlanConfig VlanConfig := {|
  encode := vlan_to_proto; decode := vlan_from_proto;
  fits v := between 1 4094 (vlan_id v) |}.
Next Obligation. intros v Hv. apply vlan_from_proto_Ok. by destruct v. Qed.
Next Obligation. by intros p v [-> ?]%vlan_from_proto_Ok. Qed.
Next Obligation. unfold vlan_from_proto. intros p e H. solve_malformed. Qed.

(** *** Interfaces: a port's VLANs need only fit in [u16] *)
Definition port_mode_u16 (m : PortMode) : Prop :=
  match m with
  | Access v => v ≤ U16_MAX
  | Trunk native allowed =>
      (∀ v, native = Some v → v ≤ U16_MAX) ∧ Forall (λ v, v ≤ U16_MAX) allowed
  end.

Lemma traverse_id {A} (f : A → UnderlayResult A) l :
  Forall (λ x, f x = Ok x) l → traverse f l = Ok l.
Proof. induction 1 as [|x l Hx Hl IH]; simpl; [done|]. by rewrite Hx; simpl; rewrite IH. Qed.
Lemma traverse_u16 (err : N → UnderlayError) l r :
  traverse (λ v, u16_try_from v (err v)) l = Ok r → r = l ∧ Forall (λ v, v ≤ U16_MAX) l.
Proof.
  revert r. induction l as [|x l IH]; simpl; intros r; [intros [= <-]; by split|].
  intros (y & [-> Hx]%u16_try_from_Ok & (ys & [-> Hys]%IH & [= <-])%bind_Ok)%bind_Ok.
  split; [done|]. by constructor.
Qed.

Lemma port_mode_round_trip m : port_mode_u16 m → port_mode_from_proto (port_mode_to_proto m) = Ok m.
Proof.
  destruct m as [v|native allowed]; unfold port_mode_from_proto, port_mode_to_proto; simpl.
  - intros Hv. by rewrite u16_try_from_le.
  - intros [Hn Ha].
    assert (transpose_map (λ vlan, u16_try_from vlan (malformed "INVALID_VLAN_ID"
      ("adapter returned invalid " +:+ "native" +:+ " VLAN id " +:+ fmt_N vlan))) native = Ok native)
      as ->. { destruct native; simpl; [|done]. by rewrite u16_try_from_le by auto. }
    simpl. rewrite traverse_id; [done|]. eapply Forall_impl; [exact Ha|].
    intros. by apply u16_try_from_le.
Qed.
Lemma port_mode_from_proto_u16 p m : port_mode_from_proto p = Ok m → port_mode_u16 m.
Proof.
  unfold port_mode_from_proto. destruct (enum_or _ _); [done| |].
  - intros (v & _ & (w & [-> Hv]%u16_try_from_Ok & [= <-])%bind_Ok)%bind_Ok. done.
  - intros (n & Hn%transpose_map_Ok & (a & [-> Ha]%traverse_u16 & [= <-])%bind_Ok)%bind_Ok.
    split; [|done]. intros v ->. destruct (Proto.pm_native_vlan p) as [u|]; [|done].
    destruct Hn as (? & [-> ?]%u16_try_from_Ok & [= ->]). done.
Qed.
Lemma port_mode_from_proto_malformed p e : port_mode_from_proto p = Err e → is_malformed e.
Proof.
  unfold port_mode_from_proto. destruct (enum_or _ _); [by intros; solve_malformed..|].
  intros [H|(? & _ & [H|(? & _ & [=])]%bind_Err)]%bind_Err;
    [eapply transpose_malformed; [|exact H]|eapply traverse_malformed; [|exact H]];
    clear; cbv beta; intros; solve_malformed.
Qed.
#[export] Program Instance InterfaceConfig_wire : Wire Proto.InterfaceConfig InterfaceConfig := {|
  encode := interface_to_proto; decode := interface_from_proto;
  fits i := port_mode_u16 (if_mode i) |}.
Next Obligation.
  intros [name admin desc mode] Hm. unfold interface_from_proto, interface_to_proto. simpl.
  destruct admin; simpl; by rewrite port_mode_round_trip.
Qed.
Next Obligation.
  intros p v. unfold interface_from_proto.
  intros (m & _ & (a & _ & (mode & Hm%port_mode_from_proto_u16 & [= <-])%bind_Ok)%bind_Ok)%bind_Ok.
  done.
Qed.
Next Obligation.
  intros p e. unfold interface_from_proto.
  intros [H|(m & _ & [H|(a & _ & [H%port_mode_from_proto_malformed|(? & _ & H)]%bind_Err)]
    %bind_Err)]%bind_Err; [solve_malformed..|done|done].
Qed.

(** *** ACLs *)
Lemma acl_action_round_trip a : acl_action_from_i32 (enum_number (acl_action_to_proto a)) = Ok a.
Proof. by destruct a. Qed.
Lemma acl_protocol_round_trip p :
  acl_protocol_from_i32 (enum_number (acl_protocol_to_proto p)) = Ok p.
Proof. by destruct p. Qed.
Lemma acl_direction_round_trip d :
  acl_direction_from_i32 (enum_number (acl_direction_to_proto d)) = Ok d.
Proof. by destruct d. Qed.

Lemma acl_id_from_u32_Ok n m v : acl_id_from_u32 n m = Ok v ↔ v = n ∧ between 2000 3999 n.
Proof.
  unfold acl_id_from_u32, between. rewrite bind_Ok. setoid_rewrite u16_try_from_Ok.
  setoid_rewrite bind_unit_Ok. setoid_rewrite reject_if_Ok. unfold U16_MAX.
  setoid_rewrite negb_false_iff. setoid_rewrite andb_true_iff. setoid_rewrite N.leb_le.
  naive_solver lia.
Qed.
Lemma acl_port_from_u32_Ok n f v : acl_port_from_u32 n f = Ok v ↔ v = n ∧ between 1 U16_MAX n.
Proof.
  unfold acl_port_from_u32, between. rewrite bind_Ok. setoid_rewrite u16_try_from_Ok.
  setoid_rewrite bind_unit_Ok. setoid_rewrite reject_if_Ok. setoid_rewrite N.eqb_neq.
  naive_solver lia.
Qed.
Lemma acl_kind_from_i32_Ok n id k :
  acl_kind_from_i32 n id = Ok k → valid_acl_id k id.
Proof.
  unfold acl_kind_from_i32, is_basic_id, is_advanced_id, valid_acl_id, between.
  repeat case_match; intros [=]; subst; rewrite andb_true_iff, !N.leb_le in *; lia.
Qed.
Lemma acl_kind_round_trip k id :
  valid_acl_id k id → acl_kind_from_i32 (enum_number (acl_kind_to_proto k)) id = Ok k.
Proof.
  unfold acl_kind_from_i32, valid_acl_id, between, is_basic_id, is_advanced_id. rewrite enum_or_number.
  destruct k; simpl; intros [H1%N.leb_le H2%N.leb_le]; by rewrite H1, H2.
Qed.

Definition endpoint_nonblank (e : AclEndpoint) : Prop :=
  nonblank (ep_address e) ∧ nonblank (ep_wildcard e).
Lemma acl_endpoint_from_proto_Ok p e :
  acl_endpoint_from_proto p = Ok e ↔ p = acl_endpoint_to_proto e ∧ endpoint_nonblank e.
Proof.
  unfold acl_endpoint_from_proto, endpoint_nonblank.
  rewrite bind_unit_Ok, reject_if_Ok, orb_false_iff, !str_is_empty_trim.
  destruct p, e; unfold acl_endpoint_to_proto; simpl. naive_solver.
Qed.

Definition port_ok (o : option N) : Prop := ∀ p, o = Some p → between 1 U16_MAX p.
Record rule_carried (r : AclRule) : Prop := {
  rule_sequence : sequence r ≤ U16_MAX;
  rule_source : ∀ e, source r = Some e → endpoint_nonblank e;
  rule_destination : ∀ e, destination r = Some e → endpoint_nonblank e;
  rule_sport : port_ok (source_port_eq r);
  rule_dport : port_ok (destination_port_eq r);
}.
Lemma endpoints_round_trip o :
  (∀ e, o = Some e → endpoint_nonblank e) →
  transpose_map acl_endpoint_from_proto (acl_endpoint_to_proto <$> o) = Ok o.
Proof.
  intros Ho. apply transpose_map_Ok. destruct o as [e|]; simpl; [|done].
  exists e. split; [|done]. apply acl_endpoint_from_proto_Ok. auto.
Qed.
Lemma ports_round_trip o f :
  port_ok o → transpose_map (λ p, acl_port_from_u32 p f) o = Ok o.
Proof.
  intros Ho. apply transpose_map_Ok. destruct o as [p|]; [|done].
  exists p. split; [|done]. apply acl_port_from_u32_Ok. auto.
Qed.
Lemma endpoints_nonblank o r e :
  transpose_map acl_endpoint_from_proto o = Ok r → r = Some e → endpoint_nonblank e.
Proof.
  intros Hr%transpose_map_Ok ->. destruct o; [|done].
  destruct Hr as (? & [_ ?]%acl_endpoint_from_proto_Ok & [= ->]). done.
Qed.
Lemma ports_ok o f r : transpose_map (λ p, acl_port_from_u32 p f) o = Ok r → port_ok r.
Proof.
  intros Hr%transpose_map_Ok p ->. destruct o; [|done].
  destruct Hr as (? & [-> ?]%acl_port_from_u32_Ok & [= ->]). done.
Qed.

#[local] Arguments acl_action_from_i32 : simpl never.
#[local] Arguments acl_protocol_from_i32 : simpl never.
#[local] Arguments acl_direction_from_i32 : simpl never.
#[local] Arguments acl_kind_from_i32 : simpl never.
#[local] Arguments enum_number : simpl never.
#[local] Arguments transpose_map : simpl never.
Lemma acl_rule_round_trip r : rule_carried r → acl_rule_from_proto (acl_rule_to_proto r) = Ok r.
Proof.
  intros []. unfold acl_rule_from_proto, acl_rule_to_proto. simpl.
  rewrite u16_try_from_le by done. simpl. rewrite acl_action_round_trip. simpl.
  rewrite acl_protocol_round_trip. simpl. rewrite !endpoints_round_trip by done. simpl.
  rewrite !ports_round_trip by done. by destruct r.
Qed.
Lemma acl_rule_carried p r : acl_rule_from_proto p = Ok r → rule_carried r.
Proof.
  unfold acl_rule_from_proto. intros H. inv_ok.
  match goal with H : u16_try_from _ _ = Ok _ |- _ => apply u16_try_from_Ok in H as [-> ?] end.
  split; simpl; eauto using endpoints_nonblank, ports_ok.
Qed.
Lemma acl_rule_malformed p e : acl_rule_from_proto p = Err e → is_malformed e.
Proof.
  unfold acl_rule_from_proto.
  assert (∀ p e, acl_endpoint_from_proto p = Err e → is_malformed e) as He.
  { unfold acl_endpoint_from_proto. intros ? ? ?. solve_malformed. }
  assert (∀ f p e, acl_port_from_u32 p f = Err e → is_malformed e) as Hp.
  { unfold acl_port_from_u32. intros ? ? ? ?. solve_malformed. }
  intros [H|(? & _ & [H|(? & _ & [H|(? & _ & [H|(? & _ & [H|(? & _ & [H|(? & _ & [H|(? & _ & H)]
    %bind_Err)]%bind_Err)]%bind_Err)]%bind_Err)]%bind_Err)]%bind_Err)]%bind_Err;
    [solve_malformed|unfold acl_action_from_i32 in H; solve_malformed
    |unfold acl_protocol_from_i32 in H; solve_malformed
    |(eapply transpose_malformed; [|exact H]; first [exact He | exact (Hp _)])..|done].
Qed.

Lemma traverse_encode {A B} (enc : B → A) (dec : A → UnderlayResult B) l :
  (∀ x, x ∈ l → dec (enc x) = Ok x) → traverse dec (enc <$> l) = Ok l.
Proof.
  induction l as [|x l IH]; intros Hl; [done|].
  rewrite fmap_cons. simpl. rewrite (Hl x) by set_solver. simpl.
  rewrite IH by set_solver. done.
Qed.
Lemma traverse_Forall {A B} (dec : A → UnderlayResult B) (P : B → Prop) l r :
  (∀ x y, dec x = Ok y → P y) → traverse dec l = Ok r → Forall P r.
Proof.
  intros Hd. revert r. induction l as [|x l IH]; simpl; intros r; [intros [= <-]; constructor|].
  intros (y & Hy & (ys & Hys & [= <-])%bind_Ok)%bind_Ok. constructor; eauto.
Qed.

#[export] Program Instance AclConfig_wire : Wire Proto.AclConfig AclConfig := {|
  encode := acl_to_proto; decode := acl_from_proto;
  fits a := valid_acl_id (acl_kind a) (acl_id a) ∧ Forall rule_carried (acl_rules a) |}.
Next Obligation.
  intros a [Hid Hr]. unfold acl_from_proto, acl_to_proto. simpl.
  rewrite (proj2 (acl_id_from_u32_Ok (acl_id a) _ (acl_id a))); simpl.
  - rewrite acl_kind_round_trip by done. simpl. rewrite traverse_encode; [by destruct a|].
    rewrite Forall_forall in Hr. intros r Hin. apply acl_rule_round_trip. auto.
  - split; [done|]. destruct (acl_kind a); simpl in Hid; unfold between in *; lia.
Qed.
Next Obligation.
  unfold acl_from_proto. intros p a H. inv_ok.
  match goal with H : acl_kind_from_i32 _ _ = _ |- _ => apply acl_kind_from_i32_Ok in H end.
  split; [done|]. eapply traverse_Forall; [|done]. apply acl_rule_carried.
Qed.
Next Obligation.
  unfold acl_from_proto, acl_id_from_u32. intros p e [H|(? & _ & [H|(? & _ & [H|(? & _ & H)]
    %bind_Err)]%bind_Err)]%bind_Err; [solve_malformed| | |done].
  - unfold acl_kind_from_i32 in H. solve_malformed.
  - eapply traverse_malformed; [|exact H]. apply acl_rule_malformed.
Qed.

#[export] Program Instance AclBinding_wire : Wire Proto.AclBinding AclBinding := {|
  encode := acl_binding_to_proto; decode := acl_binding_from_proto;
  fits b := nonblank (ab_interface_name b) ∧ between 2000 3999 (ab_acl_id b) |}.
Next Obligation.
  intros b [Hn Hid]. unfold acl_binding_from_proto, acl_binding_to_proto. simpl.
  rewrite reject_if_false by (by apply str_is_empty_trim). simpl.
  rewrite acl_direction_round_trip. simpl.
  rewrite (proj2 (acl_id_from_u32_Ok (ab_acl_id b) _ (ab_acl_id b))) by done. by destruct b.
Qed.
Next Obligation.
  unfold acl_binding_from_proto. intros p b H. inv_ok. simpl.
  rewrite str_is_empty_trim in Hok.
  match goal with H : acl_id_from_u32 _ _ = _ |- _ => apply acl_id_from_u32_Ok in H as [-> ?] end.
  done.
Qed.
Next Obligation.
  unfold acl_binding_from_proto, acl_direction_from_i32, acl_id_from_u32.
  intros p e H. solve_malformed.
Qed.

(** *** BGP *)
#[export] Program Instance BgpProcess_wire : Wire Proto.BgpProcess BgpProcess := {|
  encode := bgp_process_to_proto; decode := bgp_process_from_proto;
  fits p := nonblank (bp_vrf p) ∧ bp_local_as p ≠ 0 |}.
Next Obligation.
  intros p [Hn Ha]. unfold bgp_process_from_proto. simpl.
  rewrite (reject_if_false (_ =? _)) by (by apply N.eqb_neq).
  rewrite reject_if_false by (by apply str_is_empty_trim). by destruct p.
Qed.
Next Obligation.
  unfold bgp_process_from_proto. intros p b H. inv_ok. simpl.
  rewrite str_is_empty_trim in Hok. by rewrite N.eqb_neq in Hok0.
Qed.
Next Obligation. unfold bgp_process_from_proto. intros p e H. solve_malformed. Qed.

#[export] Program Instance BgpNeighbor_wire : Wire Proto.BgpNeighbor BgpNeighbor := {|
  encode := bgp_neighbor_to_proto; decode := bgp_neighbor_from_proto;
  fits n := nonblank (bn_vrf n) ∧ nonblank (bn_address n) ∧ bn_remote_as n ≠ 0 |}.
Next Obligation.
  intros n (Hn & Ha & Hr). unfold bgp_neighbor_from_proto. simpl.
  rewrite (reject_if_false (_ =? _)) by (by apply N.eqb_neq).
  rewrite reject_if_false by (apply orb_false_iff; by rewrite !str_is_empty_trim). by destruct n.
Qed.
Next Obligation.
  unfold bgp_neighbor_from_proto. intros p b H. inv_ok. simpl.
  rewrite orb_false_iff, !str_is_empty_trim in Hok. rewrite N.eqb_neq in Hok0. naive_solver.
Qed.
Next Obligation. unfold bgp_neighbor_from_proto. intros p e H. solve_malformed. Qed.
