(* ===== verification/MapperCorrect.v ===== *)
(** * What crosses the wire (src/adapter_client/mapper.rs)

    The decoder accepts exactly the messages all of whose items it accepts and
    what it returns is well-typed; a planned state survives the wire; and the
    part of a device's state that is asked for is the part a diff looks at. *)
From S2P Require Export Mapper.
Local Open Scope N_scope.

(** ** Families *)

(** [m] is what the items [l] stand for: every item is accepted, an entry is the
    last accepted item with its key, and every entry can be carried. *)
Record decoded {P K V} `{Wire P V, Countable K} (key : V → K) (l : list P) (m : gmap K V) : Prop := {
  dec_fits : map_Forall (λ _, fits) m;
  dec_items : ∃ vs, Forall2 (λ p v, decode p = Ok v) l vs ∧
    ∀ k, m !! k = last_with (λ v, key v = k) vs;
}.

Section families.
Context {P K V : Type} `{Wire P V, Ord K, Countable K} (key : V → K).

Lemma decode_map_collect (l : list P) :
  decode_map decode key l = (vs ← traverse decode l; Ok (bt_collect ((λ v, (key v, v)) <$> vs))).
Proof.
  unfold decode_map, bt_collect.
  generalize (∅ : gmap K V). induction l as [|p l IH]; intros m; simpl; [done|].
  destruct (decode p) as [v|e]; simpl; [|done]. rewrite IH. by destruct (traverse decode l).
Qed.

Lemma collect_values (m : gmap K V) :
  keyed key m → bt_collect ((λ v, (key v, v)) <$> bt_values m) = m.
Proof.
  intros Hm. apply map_eq. intros k. apply option_eq. intros v. split.
  - intros (x & Heq & (k' & Hk')%elem_of_bt_values)%bt_collect_Some%list_elem_of_fmap.
    simplify_eq. by rewrite (Hm _ _ Hk').
  - intros Hk. apply bt_collect_lookup.
    + intros v' (x & Heq & (k' & Hk')%elem_of_bt_values)%list_elem_of_fmap.
      simplify_eq. pose proof (Hm _ _ Hk'). simplify_eq/=. congruence.
    + apply list_elem_of_fmap. exists v. rewrite (Hm _ _ Hk). split; [done|].
      apply elem_of_bt_values. eauto.
Qed.

(** A map of what can be carried survives the wire. *)
Lemma decode_map_round_trip (m : gmap K V) :
  keyed key m → map_Forall (λ _, fits) m →
  decode_map decode key (encode <$> bt_values m) = Ok m.
Proof.
  intros Hk Hc. rewrite decode_map_collect, (traverse_encode encode).
  - simpl. by rewrite collect_values.
  - intros v (k & Hv)%elem_of_bt_values. apply decode_encode. by apply (Hc k).
Qed.

Lemma traverse_decode_Err (l : list P) e :
  traverse decode l = Err e → is_malformed e ∧ ∃ p, p ∈ l ∧ decode p = Err e.
Proof.
  induction l as [|p l IH]; simpl; [done|].
  intros [Hp|(v & _ & [Hl|(? & _ & ?)]%bind_Err)]%bind_Err; [|set_solver|done].
  split; [by eapply decode_malformed|]. set_solver.
Qed.
Lemma traverse_decode_Ok (l : list P) vs :
  traverse decode l = Ok vs → Forall2 (λ p v, decode p = Ok v) l vs.
Proof.
  revert vs. induction l as [|p l IH]; intros vs; simpl; [intros [= <-]; constructor|].
  intros (v & Hv & (vs' & Hvs%IH & [= <-])%bind_Ok)%bind_Ok. by constructor.
Qed.

Lemma decode_map_spec (l : list P) :
  match decode_map decode key l with
  | Ok m => decoded key l m
  | Err e => is_malformed e ∧ ∃ p, p ∈ l ∧ decode p = Err e
  end.
Proof.
  rewrite decode_map_collect. destruct (traverse decode l) as [vs|e] eqn:Ht; simpl;
    [|by apply traverse_decode_Err].
  apply traverse_decode_Ok in Ht. split.
  - intros k v (x & Heq & [n Hx]%list_elem_of_lookup)%bt_collect_Some%list_elem_of_fmap.
    simplify_eq. destruct (Forall2_lookup_r _ _ _ _ _ Ht Hx) as (p & _ & Hp).
    by eapply decode_fits.
  - exists vs. split; [done|]. intros k.
    rewrite (collect_last_with key id). apply option_fmap_id.
Qed.
End families.

(** ** What is accepted *)

Definition rejected (p : Proto.ObservedDeviceState) (e : UnderlayError) : Prop :=
  (∃ x, x ∈ Proto.od_vlans p ∧ vlan_from_proto x = Err e) ∨
  (∃ x, x ∈ Proto.od_interfaces p ∧ interface_from_proto x = Err e) ∨
  (∃ x, x ∈ Proto.od_acls p ∧ acl_from_proto x = Err e) ∨
  (∃ x, x ∈ Proto.od_acl_bindings p ∧ acl_binding_from_proto x = Err e) ∨
  (∃ x, x ∈ Proto.od_bgp_processes p ∧ bgp_process_from_proto x = Err e) ∨
  (∃ x, x ∈ Proto.od_bgp_neighbors p ∧ bgp_neighbor_from_proto x = Err e).

Record decoded_state (p : Proto.ObservedDeviceState) (w : list string) (s : DeviceShadowState)
    : Prop := {
  st_device : ss_device_id s = mkDeviceId (Proto.od_device_id p);
  st_revision : ss_revision s = 0;
  st_warnings : ss_warnings s = w;
  st_vlans : decoded vlan_id (Proto.od_vlans p) (ss_vlans s);
  st_interfaces : decoded if_name (Proto.od_interfaces p) (ss_interfaces s);
  st_acls : decoded acl_id (Proto.od_acls p) (ss_acls s);
  st_bindings : decoded AclBinding_key (Proto.od_acl_bindings p) (ss_acl_bindings s);
  st_processes : decoded bp_vrf (Proto.od_bgp_processes p) (ss_bgp_processes s);
  st_neighbors : decoded BgpNeighbor_key (Proto.od_bgp_neighbors p) (ss_bgp_neighbors s);
}.

Lemma shadow_state_spec p w :
  match shadow_state_from_proto p w with
  | Ok s => decoded_state p w s
  | Err e => is_malformed e ∧ rejected p e
  end.
Proof.
  unfold shadow_state_from_proto, rejected.
  pose proof (decode_map_spec vlan_id (Proto.od_vlans p)) as Hv.
  pose proof (decode_map_spec if_name (Proto.od_interfaces p)) as Hi.
  pose proof (decode_map_spec acl_id (Proto.od_acls p)) as Ha.
  pose proof (decode_map_spec AclBinding_key (Proto.od_acl_bindings p)) as Hb.
  pose proof (decode_map_spec bp_vrf (Proto.od_bgp_processes p)) as Hp.
  pose proof (decode_map_spec BgpNeighbor_key (Proto.od_bgp_neighbors p)) as Hn.
  cbn [decode VlanConfig_wire InterfaceConfig_wire AclConfig_wire AclBinding_wire
       BgpProcess_wire BgpNeighbor_wire] in *.
  destruct (decode_map vlan_from_proto _ _); simpl; [|tauto].
  destruct (decode_map interface_from_proto _ _); simpl; [|tauto].
  destruct (decode_map acl_from_proto _ _); simpl; [|tauto].
  destruct (decode_map acl_binding_from_proto _ _); simpl; [|tauto].
  destruct (decode_map bgp_process_from_proto _ _); simpl; [|tauto].
  destruct (decode_map bgp_neighbor_from_proto _ _); simpl; [by split|tauto].
Qed.

(** C30. What the adapter reports is typed before it is believed.  A report is
    turned into a shadow state exactly when each of its items is accepted.  Every
    map of the state then holds, under each key, the last item of the report with
    that key, and every entry is one the wire can carry ([fits]): a VLAN id in 1 to
    4094, an ACL id in the range of its kind with rules whose ids and ports are in
    range, a binding with an interface and an ACL id in 2000 to 3999, a BGP process
    or neighbor with a VRF, an address and an AS that is not 0, and port modes
    whose VLAN ids are 16-bit numbers (their range as VLAN ids is not checked, see
    [port_vlan_range_unchecked]).  Otherwise the error is that of an item of the
    report: an [AdapterOperation] with one of the sixteen codes of the decoder, not
    retryable and without details. *)
Theorem shadow_state_from_proto_typed p w :
  match shadow_state_from_proto p w with
  | Ok s => decoded_state p w s
  | Err e => is_malformed e ∧ rejected p e
  end.
Proof. apply shadow_state_spec. Qed.

(** ** A planned state survives the wire *)

(** The report of a device that has what it was sent. *)
Definition echo (d : Proto.DesiredDeviceState) : Proto.ObservedDeviceState :=
  {| Proto.od_device_id := Proto.dd_device_id d; Proto.od_vlans := Proto.dd_vlans d;
     Proto.od_interfaces := Proto.dd_interfaces d; Proto.od_acls := Proto.dd_acls d;
     Proto.od_acl_bindings := Proto.dd_acl_bindings d;
     Proto.od_bgp_processes := Proto.dd_bgp_processes d;
     Proto.od_bgp_neighbors := Proto.dd_bgp_neighbors d |}.

Record state_carried (s : DeviceDesiredState) : Prop := {
  sc_vlans : map_Forall (λ _, fits) (ds_vlans s);
  sc_interfaces : map_Forall (λ _, fits) (ds_interfaces s);
  sc_acls : map_Forall (λ _, fits) (ds_acls s);
  sc_bindings : map_Forall (λ _, fits) (ds_acl_bindings s);
  sc_processes : map_Forall (λ _, fits) (ds_bgp_processes s);
  sc_neighbors : map_Forall (λ _, fits) (ds_bgp_neighbors s);
}.

Ltac rewrite_round_trip key m :=
  let H := fresh in
  pose proof (decode_map_round_trip key m) as H;
  cbn [decode encode VlanConfig_wire InterfaceConfig_wire AclConfig_wire AclBinding_wire
       BgpProcess_wire BgpNeighbor_wire] in H;
  rewrite H by done; clear H; simpl.

Lemma echo_decoded s w :
  desired_wf s → state_carried s →
  shadow_state_from_proto (echo (desired_state_to_proto s)) w =
  Ok (mkDeviceShadowState (ds_device_id s) 0 (ds_vlans s) (ds_interfaces s) (ds_acls s)
        (ds_acl_bindings s) (ds_bgp_processes s) (ds_bgp_neighbors s) w).
Proof.
  intros [] []. unfold shadow_state_from_proto, echo, desired_state_to_proto. simpl.
  rewrite_round_trip vlan_id (ds_vlans s).
  rewrite_round_trip if_name (ds_interfaces s).
  rewrite_round_trip acl_id (ds_acls s).
  rewrite_round_trip AclBinding_key (ds_acl_bindings s).
  rewrite_round_trip bp_vrf (ds_bgp_processes s).
  rewrite_round_trip BgpNeighbor_key (ds_bgp_neighbors s).
  by destruct (ds_device_id s).
Qed.

(** The text of an IPv4 address is not blank: it is digits and dots. *)
Definition is_dotted (c : ascii) : bool := bool_decide (c = byte 46) || bool_decide (is_Some (digit_val c)).

Lemma split_dots_dotted l cur :
  Forall (Forall (λ c, is_Some (digit_val c))) (split_dots l cur) → Forall (λ c, is_dotted c = true) l.
Proof.
  revert cur. induction l as [|c l IH]; intros cur; simpl; [by constructor|].
  case_bool_decide as Hc; simpl.
  - rewrite Forall_cons. intros [_ Hl]. constructor; [by subst|by eapply IH].
  - intros Hl. constructor; [|by eapply IH]. apply orb_true_iff. right. apply bool_decide_eq_true.
    assert (∀ l cur, c ∈ cur → Forall (Forall (λ c, is_Some (digit_val c))) (split_dots l cur) →
      is_Some (digit_val c)) as Hcur; [|by apply (Hcur l (c :: cur)); [left|]].
    clear. induction l as [|d l IH]; intros cur Hin; simpl.
    + rewrite Forall_singleton, Forall_forall. intros Hall. apply Hall. by apply elem_of_reverse.
    + case_bool_decide; [|apply IH; by right]. rewrite Forall_cons, Forall_forall.
      intros [Hall _]. apply Hall. by apply elem_of_reverse.
Qed.
Lemma parse_octet_digits l n : parse_octet l = Some n → Forall (λ c, is_Some (digit_val c)) l.
Proof.
  unfold parse_octet. destruct (mapM digit_val l) as [ds|] eqn:Hm; [|done]. intros _.
  apply mapM_Some_1 in Hm. clear -Hm. induction Hm as [|c d l ds Hc _ IH]; constructor; [|done].
  by exists d.
Qed.

Lemma dotted_trimmed l : Forall (λ c, is_dotted c = true) l → trimmed_bytes l.
Proof.
  intros Hl. assert (Forall (λ w, Forall (λ c, is_dotted c = false) w ∧ w ≠ []) whitespace) as Hw.
  { by apply (bool_decide_unpack _). }
  rewrite Forall_forall in Hw. rewrite Forall_forall in Hl. split; intros w Hin [k ->]; destruct (Hw w Hin) as [Hd Hne];
    destruct w as [|c w]; try done; apply Forall_cons in Hd as [Hd _];
    rewrite (Hl c) in Hd by set_solver; done.
Qed.
Lemma ipv4_text_nonblank s : ipv4_text s → nonblank s.
Proof.
  unfold ipv4_text, parse_ipv4, nonblank. intros [r Hr] Ht.
  destruct (split_dots (bytes s) []) as [|a [|b [|c [|d [|]]]]] eqn:Hs; try done.
  apply bind_Some in Hr as (? & Ha & (? & Hb & (? & Hc & (? & Hd & _)%bind_Some)%bind_Some)%bind_Some).
  assert (trimmed s) as Htr.
  { apply dotted_trimmed, (split_dots_dotted _ []). rewrite Hs.
    repeat constructor; by eapply parse_octet_digits. }
  apply trimmed_trim in Htr. rewrite Htr in Ht. by subst.
Qed.

(** The width of the fields of an intent that validation leaves to their types:
    rule sequences and ports are [u16]. *)
Definition rule_u16 (r : AclRule) : Prop :=
  sequence r ≤ U16_MAX ∧ (∀ p, source_port_eq r = Some p → p ≤ U16_MAX) ∧
  (∀ p, destination_port_eq r = Some p → p ≤ U16_MAX).
Definition intent_u16 (i : UnderlayDomainIntent) : Prop :=
  Forall (λ a, Forall rule_u16 (ai_rules a)) (di_acls i).

Lemma valid_rule_carried k r : valid_acl_rule k r → rule_u16 r → rule_carried r.
Proof.
  intros (_ & Hs0 & Hd0 & _ & Hs & Hd) (Hseq & Hsp & Hdp).
  assert (∀ o : option N, o ≠ Some 0 → (∀ p, o = Some p → p ≤ U16_MAX) → port_ok o) as Hport.
  { intros o Ho Hle p ->. split; [|by apply Hle]. destruct p; [done|lia]. }
  split; [done| | |by apply Hport..]; intros e He;
    [destruct (Hs e He)|destruct (Hd e He)]; split; by apply ipv4_text_nonblank.
Qed.

Lemma valid_mode_u16 (vlans : list N) m :
  Forall (between 1 4094) vlans → valid_port_mode vlans m → port_mode_u16 m.
Proof.
  intros Hv. assert (∀ v, v ∈ vlans → v ≤ U16_MAX) as Hle.
  { rewrite Forall_forall in Hv. intros v [_ ?]%Hv. unfold U16_MAX. lia. }
  destruct m; simpl; [auto|]. intros (_ & Hn & Ha & _). split; [auto|].
  apply Forall_forall. auto.
Qed.

Section planned.
Context (i : UnderlayDomainIntent) (Hvalid : valid_domain_intent i) (Hu16 : intent_u16 i).

Lemma initial_state_carried e : state_carried (initial_state i e).
Proof.
  split; simpl; try apply map_Forall_empty.
  - intros k v (x & Heq & Hx)%bt_collect_Some%list_elem_of_fmap. simplify_eq/=.
    destruct (vd_vlans _ Hvalid) as [Hv _]. unfold vlan_ids_of in Hv.
    rewrite Forall_fmap, Forall_forall in Hv. by apply Hv.
  - intros k v (x & Heq & Hx)%bt_collect_Some%list_elem_of_fmap. simplify_eq/=.
    destruct (vd_acls _ Hvalid) as [Ha _]. rewrite Forall_forall in Ha.
    destruct (Ha x Hx) as (Hid & Hr & _). split; [done|].
    unfold intent_u16 in Hu16. rewrite Forall_forall in Hu16. specialize (Hu16 x Hx).
    rewrite Forall_forall in Hr. rewrite Forall_forall in Hu16. apply Forall_forall.
    intros r Hin. eapply valid_rule_carried; [by apply Hr|by apply Hu16].
Qed.

(** An item keeps the state carried: the one it adds can be, the rest it leaves. *)
Ltac carried_update := intros ? [] ? []; split; simpl in *; try done; try by apply map_Forall_insert_2.

Lemma endpoint_fold_carried e : state_carried (endpoint_fold i e).
Proof.
  unfold endpoint_fold.
  do 2 (apply (foldl_inv state_carried); [by carried_update|]).
  apply (foldl_inv state_carried); [|apply (foldl_inv state_carried)].
  { intros x [] [_ Hx]%elem_of_items_of []. split; simpl in *; try done.
    apply map_Forall_insert_2; [|done]. simpl. destruct (vd_bgp_neighbors _ Hvalid) as [Hb _].
    rewrite Forall_forall in Hb. destruct (Hb x Hx) as (_ & ? & ? & _ & _ & ?). done. }
  { intros x [] [_ Hx]%elem_of_items_of []. split; simpl in *; try done.
    apply map_Forall_insert_2; [|done]. simpl. destruct (vd_bgp_processes _ Hvalid) as [Hb _].
    rewrite Forall_forall in Hb. destruct (Hb x Hx) as (_ & ? & ? & _). done. }
  apply (foldl_inv state_carried); [by carried_update|].
  apply (foldl_inv state_carried); [|apply (foldl_inv state_carried); [by carried_update|]].
  { intros x [] [_ Hx]%elem_of_items_of []. split; simpl in *; try done.
    apply map_Forall_insert_2; [|done]. simpl. destruct (vd_bindings _ Hvalid) as [Hb _].
    rewrite Forall_forall in Hb. destruct (Hb x Hx) as (? & _ & Hid). split; [done|].
    apply list_elem_of_fmap in Hid as (a & -> & Ha). destruct (vd_acls _ Hvalid) as [Hac _].
    rewrite Forall_forall in Hac. destruct (Hac a Ha) as [Hid _].
    destruct (ai_kind a); simpl in Hid; unfold between in *; lia. }
  apply (foldl_inv state_carried); [|apply initial_state_carried].
  intros x [] [_ Hx]%elem_of_items_of []. split; simpl in *; try done.
  apply map_Forall_insert_2; [|done]. simpl. destruct (vd_interfaces _ Hvalid) as [Hb _].
  unfold interfaces_of in Hb. rewrite Forall_fmap in Hb. setoid_rewrite Forall_forall in Hb.
  destruct (Hb x Hx) as (_ & _ & Hm). eapply valid_mode_u16; [|exact Hm]. apply (vd_vlans _ Hvalid).
Qed.
End planned.

(** C29. What the planner asks for survives the wire: when a device reports having
    what it was sent, the shadow state the controller decodes from the report is
    the desired state it sent, every VLAN, interface, ACL with its rules, binding,
    BGP process and neighbour included, for every state planned from an intent that
    validation accepts and whose rule sequences and ports have their width. *)
Theorem planned_state_survives_wire i states s w :
  plan_underlay_domain i = Ok states → intent_u16 i → s ∈ states →
  shadow_state_from_proto (echo (desired_state_to_proto s)) w =
  Ok (mkDeviceShadowState (ds_device_id s) 0 (ds_vlans s) (ds_interfaces s) (ds_acls s)
        (ds_acl_bindings s) (ds_bgp_processes s) (ds_bgp_neighbors s) w).
Proof.
  intros Hplan Hu Hs.
  assert (valid_domain_intent i) as Hv.
  { apply validate_domain_Ok. unfold plan_underlay_domain in Hplan. inv_ok. done. }
  rewrite (plan_valid i Hv) in Hplan. inv_ok.
  apply list_elem_of_fmap in Hs as (e & -> & _).
  apply echo_decoded; [by apply (endpoint_fold_wf_step i e)|by apply endpoint_fold_carried].
Qed.

(** ** What is read is what a diff looks at *)

(** Two states that agree on the items in scope.  Interface names are compared in
    their canonical spelling; BGP has no scope, so it agrees as a whole. *)
Record same_in_scope (sc : Proto.StateScope) (s1 s2 : DeviceShadowState) : Prop := {
  same_vlans k v : vlan_id v ∈ Proto.sc_vlan_ids sc →
    ss_vlans s1 !! k = Some v ↔ ss_vlans s2 !! k = Some v;
  same_interfaces k i :
    canonical_interface_name (if_name i) ∈ canonical_interface_name <$> Proto.sc_interface_names sc →
    ss_interfaces s1 !! k = Some i ↔ ss_interfaces s2 !! k = Some i;
  same_acls k a : acl_id a ∈ Proto.sc_acl_ids sc →
    ss_acls s1 !! k = Some a ↔ ss_acls s2 !! k = Some a;
  same_bindings k b :
    canonical_interface_name (ab_interface_name b) ∈
      canonical_interface_name <$> Proto.sc_interface_names sc →
    ss_acl_bindings s1 !! k = Some b ↔ ss_acl_bindings s2 !! k = Some b;
  same_processes : ss_bgp_processes s1 = ss_bgp_processes s2;
  same_neighbors : ss_bgp_neighbors s1 = ss_bgp_neighbors s2;
}.

Section local.
Context {K V : Type} `{Ord K, Countable K}.

Lemma bt_collect_filter (l : list (K * V)) k :
  bt_collect l !! k = bt_collect (filter (λ kv, kv.1 = k) l) !! k.
Proof.
  induction l as [|[k' v] l IH] using rev_ind; [done|].
  rewrite filter_app, filter_cons, filter_nil, bt_collect_snoc. simpl. case_decide as Hk; simpl.
  - by rewrite bt_collect_snoc, Hk; simpl; rewrite !lookup_insert_eq.
  - by rewrite app_nil_r, lookup_insert_ne.
Qed.

Lemma bt_entries_filter (P : K * V → Prop) `{∀ x, Decision (P x)} (m : gmap K V) :
  bt_entries (filter P m) = filter P (bt_entries m).
Proof.
  apply bt_entries_unique.
  - apply StronglySorted_filter, bt_entries_sorted.
  - eapply NoDup_fmap_2_strong; [|apply NoDup_filter, (NoDup_fmap_1 fst), NoDup_bt_keys].
    intros [k1 v1] [k2 v2] [_ Hk1%elem_of_bt_entries]%list_elem_of_filter
      [_ Hk2%elem_of_bt_entries]%list_elem_of_filter Heq. simplify_eq/=. congruence.
  - intros k v. rewrite list_elem_of_filter, elem_of_bt_entries, map_lookup_filter_Some. tauto.
Qed.

Lemma filter_fmap {A B} (f : A → B) (P : B → Prop) `{∀ x, Decision (P x)} (l : list A) :
  filter P (f <$> l) = f <$> filter (λ x, P (f x)) l.
Proof.
  induction l as [|x l IH]; csimpl; [done|]. rewrite !filter_cons. case_decide; csimpl; congruence.
Qed.

(** What a normalized map holds under a key depends only on the entries whose
    normalized value has that key. *)
Lemma renormalize_local `{Normalize V} (key : V → K) (m1 m2 : gmap K V) k :
  (∀ k' v, key (normalize v) = k → m1 !! k' = Some v ↔ m2 !! k' = Some v) →
  renormalize key m1 !! k = renormalize key m2 !! k.
Proof.
  intros Hag.
  assert (∀ m, renormalize key m !! k =
    bt_collect ((λ kv, (key (normalize kv.2), normalize kv.2)) <$>
      bt_entries (filter (λ kv, key (normalize kv.2) = k) m)) !! k) as Hr.
  { intros m. unfold renormalize, bt_values. rewrite bt_collect_filter, bt_entries_filter.
    by rewrite !filter_fmap, <-list_fmap_compose. }
  rewrite !Hr. assert (filter (λ kv, key (normalize kv.2) = k) m1 =
    filter (λ kv, key (normalize kv.2) = k) m2) as ->; [|done].
  apply map_eq. intros k'. apply option_eq. intros v.
  rewrite !map_lookup_filter_Some. simpl. naive_solver.
Qed.

Lemma bind_ext {A B} (f g : A → list B) l : (∀ x, x ∈ l → f x = g x) → l ≫= f = l ≫= g.
Proof.
  induction l as [|x l IH]; intros Hl; csimpl; [done|].
  rewrite (Hl x) by set_solver. f_equal. apply IH. set_solver.
Qed.
Lemma diff_upserts_local `{EqDecision V} create update (d c1 c2 : gmap K V) :
  (∀ k, is_Some (d !! k) → c1 !! k = c2 !! k) →
  diff_upserts create update d c1 = diff_upserts create update d c2.
Proof.
  intros Hag. apply bind_ext. intros [k v] Hk%elem_of_bt_entries. by rewrite Hag by eauto.
Qed.
Lemma diff_deletes_local del (ids : gset K) (c1 c2 : gmap K V) :
  (∀ k, k ∈ ids → c1 !! k = c2 !! k) → diff_deletes del ids c1 = diff_deletes del ids c2.
Proof. intros Hag. apply bind_ext. intros k Hk%elem_of_bs_elems. by rewrite Hag. Qed.
Lemma diff_delete_entries_local del same (gs c1 c2 : gmap K V) :
  (∀ k, is_Some (gs !! k) → c1 !! k = c2 !! k) →
  diff_delete_entries del same gs c1 = diff_delete_entries del same gs c2.
Proof.
  intros Hag. apply bind_ext. intros [k v] Hk%elem_of_bt_entries. by rewrite Hag by eauto.
Qed.
End local.

Lemma elem_of_bt_keys {K V} `{Ord K, Countable K} (m : gmap K V) k :
  k ∈ bt_keys m ↔ is_Some (m !! k).
Proof.
  unfold bt_keys. rewrite list_elem_of_fmap. split.
  - intros ([k' v] & -> & Hk%elem_of_bt_entries). by exists v.
  - intros [v Hv]. exists (k, v). by rewrite elem_of_bt_entries.
Qed.

(** What the scope of a desired state lists. *)
Section scope.
Context (d : DeviceDesiredState) (Hwf : desired_wf d).
Notation sc := (state_scope_from_desired d).

Lemma scope_vlan v : v ∈ Proto.sc_vlan_ids sc ↔ is_Some (ds_vlans d !! v) ∨ v ∈ ds_delete_vlan_ids d.
Proof. simpl. by rewrite elem_of_app, elem_of_bt_keys, elem_of_bs_elems. Qed.
Lemma scope_interface n :
  n ∈ Proto.sc_interface_names sc ↔
  is_Some (ds_interfaces d !! n) ∨ n ∈ ds_delete_interface_names d ∨
  ∃ k b, (ds_acl_bindings d !! k = Some b ∨ ds_delete_acl_bindings d !! k = Some b) ∧
         n = ab_interface_name b.
Proof.
  simpl. rewrite elem_of_bs_elems, elem_of_bs_collect, !elem_of_app, elem_of_bt_keys,
    elem_of_bs_elems, !list_elem_of_fmap. setoid_rewrite elem_of_bt_values. naive_solver.
Qed.
Lemma scope_acl a :
  a ∈ Proto.sc_acl_ids sc ↔
  is_Some (ds_acls d !! a) ∨ a ∈ ds_delete_acl_ids d ∨
  ∃ k b, (ds_acl_bindings d !! k = Some b ∨ ds_delete_acl_bindings d !! k = Some b) ∧
         a = ab_acl_id b.
Proof.
  simpl. rewrite elem_of_bs_elems, elem_of_bs_collect, !elem_of_app, elem_of_bt_keys,
    elem_of_bs_elems, !list_elem_of_fmap. setoid_rewrite elem_of_bt_values. naive_solver.
Qed.

(** A binding's interface is in scope in its canonical spelling. *)
Lemma scope_binding k b w :
  ds_acl_bindings d !! k = Some b ∨ ds_delete_acl_bindings d !! k = Some b →
  AclBinding_key (normalize w) = AclBinding_key (normalize b) →
  canonical_interface_name (ab_interface_name w) ∈
    canonical_interface_name <$> Proto.sc_interface_names sc.
Proof.
  intros Hb [Heq _]%(inj2 acl_binding_key). simpl in Heq. rewrite Heq.
  apply list_elem_of_fmap_2, scope_interface. right; right. by exists k, b.
Qed.
End scope.

(** C28. Reading only the state a change concerns loses nothing of it: two device
    states that agree on what the scope of a desired state lists (VLANs, ACLs,
    interfaces in any spelling, bindings of those interfaces) and on BGP, which is
    always read whole, have the same change set against that desired state. *)
Theorem scoped_state_decides_diff d s1 s2 :
  desired_wf d → same_in_scope (state_scope_from_desired d) s1 s2 →
  compute_diff d s1 = compute_diff d s2.
Proof.
  intros Hwf [Hv Hi Ha Hb Hp Hn]. unfold compute_diff, diff_ops. f_equal. simpl.
  rewrite Hp, Hn.
  assert (∀ k, is_Some (renormalize vlan_id (ds_vlans d) !! k) ∨ k ∈ ds_delete_vlan_ids d →
    renormalize vlan_id (ss_vlans s1) !! k = renormalize vlan_id (ss_vlans s2) !! k) as Hvl.
  { intros k Hk. apply renormalize_local. intros k' v <-. apply Hv, scope_vlan. revert Hk.
    rewrite renormalize_is_Some. intros [(k1 & v1 & H1 & Heq)|]; [left|by right].
    simpl in Heq. rewrite <-Heq, (wf_vlans _ Hwf _ _ H1). eauto. }
  assert (∀ k, is_Some (renormalize acl_id (ds_acls d) !! k) ∨ k ∈ ds_delete_acl_ids d →
    renormalize acl_id (ss_acls s1) !! k = renormalize acl_id (ss_acls s2) !! k) as Hac.
  { intros k Hk. apply renormalize_local. intros k' v <-. apply Ha, scope_acl. revert Hk.
    rewrite renormalize_is_Some. intros [(k1 & v1 & H1 & Heq)|]; [left|by right; left].
    simpl in Heq. rewrite <-Heq, (wf_acls _ Hwf _ _ H1). eauto. }
  assert (∀ k, is_Some (renormalize if_name (ds_interfaces d) !! k) ∨
      k ∈ (bs_collect (canonical_interface_name <$> bs_elems (ds_delete_interface_names d)) : gset string) →
    renormalize if_name (ss_interfaces s1) !! k = renormalize if_name (ss_interfaces s2) !! k) as Hif.
  { intros k Hk. apply renormalize_local. intros k' v <-. apply Hi. revert Hk.
    rewrite renormalize_is_Some, elem_of_bs_collect.
    intros [(k1 & v1 & H1 & Heq)|(n & Heq & H1%elem_of_bs_elems)%list_elem_of_fmap]; simpl in Heq.
    - rewrite <-Heq. apply list_elem_of_fmap_2, scope_interface. left.
      rewrite (wf_interfaces _ Hwf _ _ H1). eauto.
    - rewrite Heq. apply list_elem_of_fmap_2, scope_interface. by right; left. }
  assert (∀ k, is_Some (renormalize AclBinding_key (ds_acl_bindings d) !! k) ∨
      is_Some (renormalize AclBinding_key (ds_delete_acl_bindings d) !! k) →
    renormalize AclBinding_key (ss_acl_bindings s1) !! k =
    renormalize AclBinding_key (ss_acl_bindings s2) !! k) as Hbi.
  { intros k Hk. apply renormalize_local. intros k' v <-. apply Hb. revert Hk.
    rewrite !renormalize_is_Some.
    intros [(k1 & v1 & H1 & Heq)|(k1 & v1 & H1 & Heq)]; eapply scope_binding; eauto. }
  repeat match goal with |- _ ++ _ = _ ++ _ => apply (f_equal2 (++)) end; try reflexivity;
    first [apply diff_upserts_local | apply diff_deletes_local | apply diff_delete_entries_local];
    auto.
Qed.

(** ** Witnesses *)
Module WireSample.
Definition rule : AclRule :=
  mkAclRule 10 Permit Tcp (Some (mkAclEndpoint "10.0.0.0" "0.0.0.255")) None None (Some 443)
    (Some "https").
Definition intent : UnderlayDomainIntent :=
  let i := Sample.intent in
  {| domain_id := domain_id i; topology := topology i; endpoints := endpoints i;
     members := members i; di_vlans := di_vlans i;
     di_interfaces := di_interfaces i ++
       [mkInterfaceIntent (mkDeviceId "leaf-a") "GE1/0/2" Down (Some "uplink")
          (Trunk (Some 10) [10; 20])];
     di_acls := [mkAclIntent 3000 AdvancedIpv4 (Some "web") None [rule]];
     di_acl_bindings := di_acl_bindings i; di_delete_vlan_ids := di_delete_vlan_ids i;
     di_delete_interfaces := di_delete_interfaces i; di_delete_acl_ids := di_delete_acl_ids i;
     di_delete_acl_bindings := di_delete_acl_bindings i; di_bgp_processes := di_bgp_processes i;
     di_bgp_neighbors := di_bgp_neighbors i;
     di_delete_bgp_processes := di_delete_bgp_processes i;
     di_delete_bgp_neighbors := di_delete_bgp_neighbors i |}.
Definition state : DeviceDesiredState := endpoint_fold intent (mkDeviceId "stack-1").
Definition device (vlans : gmap N VlanConfig) : DeviceShadowState :=
  mkDeviceShadowState (mkDeviceId "stack-1") 0 vlans ∅ ∅ ∅ ∅ ∅ [].
End WireSample.

Lemma planned_state_survives_wire_witness :
  shadow_state_from_proto (echo (desired_state_to_proto WireSample.state)) ["w"] =
  Ok (mkDeviceShadowState (ds_device_id WireSample.state) 0 (ds_vlans WireSample.state)
        (ds_interfaces WireSample.state) (ds_acls WireSample.state)
        (ds_acl_bindings WireSample.state) (ds_bgp_processes WireSample.state)
        (ds_bgp_neighbors WireSample.state) ["w"]).
Proof.
  apply (planned_state_survives_wire WireSample.intent [WireSample.state]).
  - vm_compute. reflexivity.
  - repeat constructor; simpl; unfold U16_MAX; intros; simplify_eq; lia.
  - by left.
Defined.

(** A VLAN the desired state does not mention makes no difference. *)
Lemma scoped_state_decides_diff_witness :
  compute_diff WireSample.state (WireSample.device ∅) =
  compute_diff WireSample.state (WireSample.device {[ 999 := mkVlanConfig 999 None None ]}).
Proof.
  apply scoped_state_decides_diff.
  - apply (endpoint_fold_wf_step WireSample.intent (mkDeviceId "stack-1")).
    apply validate_domain_Ok. vm_compute. reflexivity.
  - split; try done. intros k v Hv. cbn [WireSample.device ss_vlans].
    rewrite lookup_empty, lookup_singleton_Some. split; [done|]. intros [<- <-].
    exfalso. revert Hv. apply (bool_decide_unpack (_ ∉ _)). vm_compute. exact I.
Defined.

(** The decoder checks the range of a VLAN's id but not of a port's VLANs: a report
    whose access port is in VLAN 65535, or in VLAN 0, is accepted. *)
Example port_vlan_range_unchecked :
  vlan_from_proto (Proto.mkVlanConfig 4095 None None) =
    Err (malformed "INVALID_VLAN_ID" "adapter returned out-of-range VLAN id 4095 (valid: 1–4094)") ∧
  port_mode_from_proto (Proto.mkPortMode 1 (Some 65535) None []) = Ok (Access 65535) ∧
  port_mode_from_proto (Proto.mkPortMode 2 None (Some 0) []) = Ok (Trunk (Some 0) []) ∧
  port_mode_from_proto (Proto.mkPortMode 1 (Some 65536) None []) =
    Err (malformed "INVALID_VLAN_ID" "adapter returned invalid access VLAN id 65536").
Proof. by vm_compute. Qed.
