(* ===== verification/Client.v ===== *)
(** * The adapter's client and its connections (src/adapter_client/client.rs)

    The generated gRPC stub is a parameter: [Transport] answers each request with a
    response or with the text of a status.  The client builds the requests, takes
    the responses apart and turns what is missing or reported as an error into an
    [UnderlayError].  The pool keeps one channel per endpoint. *)
From S2P Require Export MapperCorrect ApplyCorrect.
Local Open Scope N_scope.

Definition DEFAULT_CONFIRMED_COMMIT_TIMEOUT_SECS : N := 120.

(** [UnderlayAdapterClient]; the [nat] is the number of the call. *)
Record Transport := mkTransport {
  rpc_get_capabilities : nat → Proto.GetCapabilitiesRequest → result string Proto.GetCapabilitiesResponse;
  rpc_get_current_state : nat → Proto.GetCurrentStateRequest → result string Proto.GetCurrentStateResponse;
  rpc_prepare : nat → Proto.PrepareRequest → result string Proto.ResultResponse;
  rpc_commit : nat → Proto.CommitRequest → result string Proto.ResultResponse;
  rpc_final_confirm : nat → Proto.FinalConfirmRequest → result string Proto.ResultResponse;
  rpc_rollback : nat → Proto.RollbackRequest → result string Proto.ResultResponse;
  rpc_verify : nat → Proto.VerifyRequest → result string Proto.ResultResponse;
  rpc_recover : nat → Proto.RecoverRequest → result string Proto.ResultResponse;
  rpc_force_unlock : nat → Proto.ForceUnlockRequest → result string Proto.ResultResponse;
}.

Module AdapterClient.
Section client.
(** The stub, [Uuid::new_v4] and the number of the call. *)
Context (t : Transport) (uuid : nat → string) (n : nat).

Definition request_context (device : DeviceInfo) : RequestContext :=
  mkRequestContext (uuid (2 * n)) "" (uuid (2 * n + 1)) (info_tenant_id device) (info_site_id device).

Definition get_capabilities (device : DeviceInfo) : UnderlayResult DeviceCapabilityProfile :=
  let request := Proto.mkGetCapabilitiesRequest (Some (request_context device))
    (Some (device_ref_from_info device)) in
  response ← map_err AdapterTransport (rpc_get_capabilities t n request);
  match extract_adapter_errors (Proto.gcr_errors response) with
  | Some error => Err error
  | None =>
      capability ← ok_or (Proto.gcr_capability response)
        (malformed "MISSING_CAPABILITY" "adapter returned no capability");
      Ok (capability_from_proto capability (Proto.gcr_warnings response))
  end.

Definition get_current_state_with_scope (device : DeviceInfo) (scope : Proto.StateScope)
    : UnderlayResult DeviceShadowState :=
  response ← map_err AdapterTransport (rpc_get_current_state t n
    (Proto.mkGetCurrentStateRequest (Some (request_context device))
       (Some (device_ref_from_info device)) (Some scope)));
  match extract_adapter_errors (Proto.gsr_errors response) with
  | Some error => Err error
  | None =>
      state ← ok_or (Proto.gsr_state response)
        (malformed "MISSING_STATE" "adapter returned no current state");
      shadow_state_from_proto state (Proto.gsr_warnings response)
  end.
Definition get_current_state (device : DeviceInfo) : UnderlayResult DeviceShadowState :=
  get_current_state_with_scope device (Proto.mkStateScope true [] [] []).
Definition get_current_state_for_desired (device : DeviceInfo) (desired : DeviceDesiredState)
    : UnderlayResult DeviceShadowState :=
  get_current_state_with_scope device (state_scope_from_desired desired).

(** The tail of every operation: the transport's status, a missing result, or the
    outcome of the result. *)
Definition outcome_of (what : string) (answer : result string Proto.ResultResponse)
    : UnderlayResult AdapterOutcome :=
  response ← map_err AdapterTransport answer;
  result ← ok_or (Proto.rr_result response)
    (malformed "MISSING_ADAPTER_RESULT" ("adapter returned no " +:+ what +:+ " result"));
  adapter_result_to_outcome result.

Definition prepare_request (device : DeviceInfo) (context : RequestContext)
    (desired : DeviceDesiredState) : Proto.PrepareRequest :=
  Proto.mkPrepareRequest (Some context) (Some (device_ref_from_info device))
    (Some (desired_state_to_proto desired)).
Definition prepare_with_context (device : DeviceInfo) (context : RequestContext)
    (desired : DeviceDesiredState) : UnderlayResult AdapterOutcome :=
  outcome_of "prepare" (rpc_prepare t n (prepare_request device context desired)).
Definition prepare (device : DeviceInfo) (desired : DeviceDesiredState) : UnderlayResult AdapterOutcome :=
  prepare_with_context device (request_context device) desired.

Definition commit_request (device : DeviceInfo) (context : RequestContext)
    (strategy : TransactionStrategy) (confirm_timeout_secs : N) (checksum : option string)
    : Proto.CommitRequest :=
  Proto.mkCommitRequest (Some context) (Some (device_ref_from_info device))
    (enum_number (strategy_to_proto strategy)) confirm_timeout_secs (default "" checksum).
Definition commit_with_context (device : DeviceInfo) (context : RequestContext)
    (strategy : TransactionStrategy) (confirm_timeout_secs : N) (checksum : option string)
    : UnderlayResult AdapterOutcome :=
  outcome_of "commit"
    (rpc_commit t n (commit_request device context strategy confirm_timeout_secs checksum)).
Definition commit (device : DeviceInfo) (strategy : TransactionStrategy) : UnderlayResult AdapterOutcome :=
  commit_with_context device (request_context device) strategy
    DEFAULT_CONFIRMED_COMMIT_TIMEOUT_SECS None.

Definition final_confirm_with_context (device : DeviceInfo) (context : RequestContext)
    : UnderlayResult AdapterOutcome :=
  outcome_of "final confirm" (rpc_final_confirm t n
    (Proto.mkFinalConfirmRequest (Some context) (Some (device_ref_from_info device)))).

(** [strategy.map(strategy_to_proto).unwrap_or(Unspecified) as i32] *)
Definition strategy_number (strategy : option TransactionStrategy) : Z :=
  enum_number (default Proto.TRANSACTION_STRATEGY_UNSPECIFIED (strategy_to_proto <$> strategy)).
Definition rollback_with_context (device : DeviceInfo) (context : RequestContext)
    (strategy : option TransactionStrategy) : UnderlayResult AdapterOutcome :=
  outcome_of "rollback" (rpc_rollback t n
    (Proto.mkRollbackRequest (Some context) (Some (device_ref_from_info device))
       (strategy_number strategy))).
Definition rollback (device : DeviceInfo) : UnderlayResult AdapterOutcome :=
  rollback_with_context device (request_context device) None.

Definition recover_with_context (device : DeviceInfo) (context : RequestContext)
    (strategy : option TransactionStrategy) (action : RecoveryAction) : UnderlayResult AdapterOutcome :=
  outcome_of "recover" (rpc_recover t n
    (Proto.mkRecoverRequest (Some context) (Some (device_ref_from_info device))
       (strategy_number strategy) (enum_number (recovery_action_to_proto action)))).
Definition recover (device : DeviceInfo) (tx : TxContext) (strategy : option TransactionStrategy)
    (action : RecoveryAction) : UnderlayResult AdapterOutcome :=
  recover_with_context device (tx_request_context device tx) strategy action.

Definition verify_with_context_and_scope (device : DeviceInfo) (context : RequestContext)
    (desired : DeviceDesiredState) (scope : Proto.StateScope) : UnderlayResult AdapterOutcome :=
  outcome_of "verify" (rpc_verify t n
    (Proto.mkVerifyRequest (Some context) (Some (device_ref_from_info device))
       (Some (desired_state_to_proto desired)) (Some scope))).
Definition verify_with_context (device : DeviceInfo) (context : RequestContext)
    (desired : DeviceDesiredState) : UnderlayResult AdapterOutcome :=
  verify_with_context_and_scope device context desired (state_scope_from_desired desired).
Definition verify_with_context_for_change_set (device : DeviceInfo) (context : RequestContext)
    (desired : DeviceDesiredState) (change_set : ChangeSet) : UnderlayResult AdapterOutcome :=
  verify_with_context_and_scope device context desired (state_scope_from_change_set change_set).
Definition verify (device : DeviceInfo) (desired : DeviceDesiredState) : UnderlayResult AdapterOutcome :=
  verify_with_context device (request_context device) desired.

Definition force_unlock (device : DeviceInfo) (context : RequestContext)
    (lock_owner reason : string) (break_glass_enabled : bool) : UnderlayResult AdapterOutcome :=
  outcome_of "force unlock" (rpc_force_unlock t n
    (Proto.mkForceUnlockRequest (Some context) (Some (device_ref_from_info device))
       lock_owner reason break_glass_enabled)).

(** The call an apply or a recovery makes, as the coordinators make it. *)
Definition call (c : AdapterCall) : UnderlayResult AdapterOutcome :=
  match c with
  | CallPrepare device context desired => prepare_with_context device context desired
  | CallCommit device context strategy secs checksum =>
      commit_with_context device context strategy secs checksum
  | CallVerify device context desired change_set =>
      verify_with_context_for_change_set device context desired change_set
  | CallFinalConfirm device context => final_confirm_with_context device context
  | CallRollback device context strategy => rollback_with_context device context strategy
  | CallRecover device context strategy action =>
      recover_with_context device context strategy action
  end.
End client.
End AdapterClient.

(** The environment of a coordinator whose adapter is the client over a transport. *)
Definition client_env (t : Transport) (uuid : nat → string) (env : Env) : Env :=
  {| now_unix_secs := now_unix_secs env; new_tx_id := new_tx_id env;
     acquire_endpoint := acquire_endpoint env; acquire_many := acquire_many env;
     pool_client := pool_client env;
     get_current_state_for_desired := AdapterClient.get_current_state_for_desired t uuid;
     get_capabilities := AdapterClient.get_capabilities t uuid;
     adapter := AdapterClient.call t |}.

(** ** Errors *)

(** What the result of a call may be, given the answer of the transport to its request:
    [errors] and [usable] are the errors a response reports and whether it has what the
    call is for, in a form that decodes. *)
Inductive explains {R A} (errors : R → list Proto.AdapterError) (usable : R → Prop)
    : result string R → UnderlayResult A → Prop :=
  | no_response text :
      explains errors usable (Err text) (Err (AdapterTransport text))
  | reported_error response first rest :
      errors response = first :: rest →
      explains errors usable (Ok response)
        (Err (AdapterOperation (Proto.er_code first) (Proto.er_message first)
           (Proto.er_retryable first)
           ((λ e, mkAdapterErrorDetail (Proto.er_code e) (Proto.er_message e)) <$> rest)))
  | unusable_response response code message :
      errors response = [] → ¬ usable response →
      explains errors usable (Ok response) (Err (AdapterOperation code message false []))
  | usable_response response a :
      errors response = [] → usable response →
      explains errors usable (Ok response) (Ok a).

Definition result_errors (response : Proto.ResultResponse) : list Proto.AdapterError :=
  match Proto.rr_result response with Some r => Proto.re_errors r | None => [] end.
(** A state that is sent along must decode. *)
Definition decodes (warnings : list string) (state : Proto.ObservedDeviceState) : Prop :=
  ∃ shadow, shadow_state_from_proto state warnings = Ok shadow.
Definition usable_result (response : Proto.ResultResponse) : Prop :=
  ∃ r, Proto.rr_result response = Some r ∧
    ∀ state, Proto.re_normalized_state r = Some state → decodes [] state.
Definition explains_result : result string Proto.ResultResponse → UnderlayResult AdapterOutcome → Prop :=
  explains result_errors usable_result.

(** The transport's answer to the request of a call. *)
Definition call_answer (t : Transport) (n : nat) (c : AdapterCall) : result string Proto.ResultResponse :=
  match c with
  | CallPrepare device context desired =>
      rpc_prepare t n (Proto.mkPrepareRequest (Some context) (Some (device_ref_from_info device))
        (Some (desired_state_to_proto desired)))
  | CallCommit device context strategy secs checksum =>
      rpc_commit t n (Proto.mkCommitRequest (Some context) (Some (device_ref_from_info device))
        (enum_number (strategy_to_proto strategy)) secs
        (match checksum with Some sum => sum | None => "" end))
  | CallVerify device context desired change_set =>
      rpc_verify t n (Proto.mkVerifyRequest (Some context) (Some (device_ref_from_info device))
        (Some (desired_state_to_proto desired)) (Some (state_scope_from_change_set change_set)))
  | CallFinalConfirm device context =>
      rpc_final_confirm t n
        (Proto.mkFinalConfirmRequest (Some context) (Some (device_ref_from_info device)))
  | CallRollback device context strategy =>
      rpc_rollback t n (Proto.mkRollbackRequest (Some context) (Some (device_ref_from_info device))
        (match strategy with
         | Some s => enum_number (strategy_to_proto s)
         | None => enum_number Proto.TRANSACTION_STRATEGY_UNSPECIFIED
         end))
  | CallRecover device context strategy action =>
      rpc_recover t n (Proto.mkRecoverRequest (Some context) (Some (device_ref_from_info device))
        (match strategy with
         | Some s => enum_number (strategy_to_proto s)
         | None => enum_number Proto.TRANSACTION_STRATEGY_UNSPECIFIED
         end) (enum_number (recovery_action_to_proto action)))
  end.

Lemma shadow_state_error p w e :
  shadow_state_from_proto p w = Err e → ∃ code message, e = AdapterOperation code message false [].
Proof.
  intros He. pose proof (shadow_state_spec p w) as H. rewrite He in H.
  destruct H as [(code & message & -> & _) _]. by eexists _, _.
Qed.

Lemma outcome_of_explained what answer :
  explains_result answer (AdapterClient.outcome_of what answer).
Proof.
  unfold AdapterClient.outcome_of, explains_result. destruct answer as [[[r|]]|text]; simpl;
    [| |by constructor].
  2: by constructor; [|intros (? & ? & _)].
  unfold adapter_result_to_outcome.
  destruct (Proto.re_errors r) as [|first rest] eqn:Hr; simpl; [|by constructor].
  destruct (Proto.re_normalized_state r) as [st|] eqn:Hst; simpl.
  2:{ constructor; [done|]. exists r. split; [done|]. intros state. by rewrite Hst. }
  destruct (shadow_state_from_proto st []) as [shadow|e] eqn:Hs; simpl.
  - constructor; [done|]. exists r. split; [done|]. intros state. rewrite Hst. intros [= <-].
    by exists shadow.
  - apply shadow_state_error in Hs as He. destruct He as (code & message & ->).
    constructor; [done|]. intros (r' & [= <-] & Hd). destruct (Hd st Hst) as [shadow Hok]. congruence.
Qed.

(** C31. Every result of the client says where it comes from.  For each of its nine calls
    ([get_capabilities], [get_current_state_with_scope], the six phase calls and
    [force_unlock]) and whatever the generated stub answers to the request the call
    sends: when it answers with a status, which may be the connection's or one the
    adapter sent, the error is [AdapterTransport] with its text; when the response
    reports errors, the error is the [AdapterOperation] of the first one with the others
    as its details; when the response reports none but lacks its result or carries a state
    that does not decode, the error is a non-retryable [AdapterOperation]; and the call
    succeeds exactly on the responses that report no errors and have a usable result. *)
Theorem client_errors_classified t uuid n :
  (∀ device, ∃ context,
     explains Proto.gcr_errors (λ r, is_Some (Proto.gcr_capability r))
       (rpc_get_capabilities t n
          (Proto.mkGetCapabilitiesRequest (Some context) (Some (device_ref_from_info device))))
       (AdapterClient.get_capabilities t uuid n device)) ∧
  (∀ device scope, ∃ context,
     explains Proto.gsr_errors
       (λ r, ∃ state, Proto.gsr_state r = Some state ∧ decodes (Proto.gsr_warnings r) state)
       (rpc_get_current_state t n (Proto.mkGetCurrentStateRequest (Some context)
          (Some (device_ref_from_info device)) (Some scope)))
       (AdapterClient.get_current_state_with_scope t uuid n device scope)) ∧
  (∀ c, explains_result (call_answer t n c) (AdapterClient.call t n c)) ∧
  (∀ device context lock_owner reason break_glass_enabled,
     explains_result
       (rpc_force_unlock t n (Proto.mkForceUnlockRequest (Some context)
          (Some (device_ref_from_info device)) lock_owner reason break_glass_enabled))
       (AdapterClient.force_unlock t n device context lock_owner reason break_glass_enabled)).
Proof.
  split_and!.
  - intros device. exists (AdapterClient.request_context uuid n device).
    unfold AdapterClient.get_capabilities.
    destruct (rpc_get_capabilities _ _ _) as [response|text]; simpl; [|by constructor].
    destruct (Proto.gcr_errors response) eqn:He; simpl; [|by constructor].
    destruct (Proto.gcr_capability response) as [c|] eqn:Hc; constructor;
      rewrite ?Hc; done || by intros [].
  - intros device scope. exists (AdapterClient.request_context uuid n device).
    unfold AdapterClient.get_current_state_with_scope.
    destruct (rpc_get_current_state _ _ _) as [response|text]; simpl; [|by constructor].
    destruct (Proto.gsr_errors response) eqn:He; simpl; [|by constructor].
    destruct (Proto.gsr_state response) as [st|] eqn:Hs; simpl.
    2:{ constructor; [done|]. intros (state & Hst & _). congruence. }
    destruct (shadow_state_from_proto _ _) as [shadow|e] eqn:Hd;
      [constructor; [done|by exists st; split; [|exists shadow]]|].
    apply shadow_state_error in Hd as He'. destruct He' as (code & message & ->).
    constructor; [done|]. intros (state & Hst & shadow & Hok). congruence.
  - intros c.
    assert (∀ s, AdapterClient.strategy_number s =
      match s with Some s => enum_number (strategy_to_proto s)
      | None => enum_number Proto.TRANSACTION_STRATEGY_UNSPECIFIED end) as Hst by by intros [].
    destruct c; simpl; rewrite <-?Hst; apply outcome_of_explained.
  - intros. apply outcome_of_explained.
Qed.

(** The checksum of a candidate: absent is the empty string on the wire. *)
Lemma checksum_round_trip s : default "" (empty_to_none s) = s.
Proof. unfold empty_to_none, str_is_empty. by case_bool_decide; subst. Qed.

Lemma outcome_fields r o :
  adapter_result_to_outcome r = Ok o →
  Proto.re_errors r = [] ∧ out_status o = adapter_status_from_i32 (Proto.re_status r) ∧
  prepared_candidate_checksum o = empty_to_none (Proto.re_prepared_candidate_checksum r).
Proof.
  unfold adapter_result_to_outcome.
  destruct (Proto.re_errors r); simpl; [|done]. intros (st & _ & [= <-])%bind_Ok. done.
Qed.

(** The step that rolls back after a failure returns the failure, never [Ok]. *)
Lemma preserving_never_ok {J S A} `{!TxJournalStore J} `{!ShadowStateStore S} env device context e
    (k : unit → ST UnderlayError (World (J:=J) (S:=S) * TxJournalRecord) A) s a s' :
  (rollback_after_endpoint_failure_preserving_primary env device context e ≫= k) s = (Ok a, s') →
  False.
Proof.
  intros (u & s1 & Hr & _)%ST_bind_Ok. unfold rollback_after_endpoint_failure_preserving_primary in Hr.
  apply ST_bind_Ok in Hr as ([] & s2 & _ & Hr); by destruct u.
Qed.

(** What is committed is what was prepared: when the coordinator's prepare step
    succeeds through the client, the commit request built from what it returns
    carries the checksum of the candidate that the adapter put in its answer to the
    prepare request for that device, context and desired state. *)
Theorem commit_carries_prepared_checksum {J S} `{!TxJournalStore J} `{!ShadowStateStore S}
    t uuid env device context desired strategy secs checksum
    (w w' : World (J:=J) (S:=S)) r r' :
  prepare_endpoint (client_env t uuid env) device context desired (w, r) = (Ok checksum, (w', r')) →
  ∃ response result,
    rpc_prepare t (w_tick w) (AdapterClient.prepare_request device context desired) = Ok response ∧
    Proto.rr_result response = Some result ∧ Proto.re_errors result = [] ∧
    adapter_status_from_i32 (Proto.re_status result) = OpPrepared ∧
    Proto.cmq_prepared_candidate_checksum
      (AdapterClient.commit_request device context strategy secs checksum) =
    Proto.re_prepared_candidate_checksum result.
Proof.
  unfold prepare_endpoint. unfold mbind at 1, ST_bind at 1, st_try, lift. simpl.
  unfold AdapterClient.prepare_with_context, AdapterClient.outcome_of.
  destruct (rpc_prepare t (w_tick w) _) as [response|text]; simpl;
    [|by intros []%preserving_never_ok].
  destruct (Proto.rr_result response) as [result|] eqn:Hres; simpl;
    [|by intros []%preserving_never_ok].
  destruct (adapter_result_to_outcome result) as [o|e] eqn:Ho; simpl;
    [|by intros []%preserving_never_ok].
  destruct (decide _) as [|Hst%dec_stable]; [by intros []%preserving_never_ok|].
  intros (u & s1 & _ & (u' & s2 & _ & [= <- _])%ST_bind_Ok)%ST_bind_Ok.
  apply outcome_fields in Ho as (Herr & Hstat & Hsum).
  exists response, result. rewrite Hst in Hstat. split_and!; [done..|]. simpl.
  by rewrite Hsum, checksum_round_trip.
Qed.

(** ** The pool of connections *)

Record TlsConfig := mkTlsConfig {
  client_cert_pem : string; client_key_pem : string; ca_cert_pem : option string;
}.

Module AdapterClientPool.
Section pool.
(** [tonic::transport]: [Channel::from_shared], [Endpoint::tls_config] of the
    certificate authority and the identity, [Endpoint::connect_lazy]. *)
Context {Endpoint Channel : Type}.
Context (from_shared : string → result string Endpoint).
Context (endpoint_tls_config : Endpoint → option string → string * string → result string Endpoint).
Context (connect_lazy : Endpoint → Channel).

Record Pool := mkPool { channels : gmap string Channel; tls_config : option TlsConfig }.

Definition default_pool : Pool := mkPool ∅ None.
Definition with_tls (tls : TlsConfig) : Pool := mkPool ∅ (Some tls).

(** The arm [Entry::Vacant] up to the insertion. *)
Definition open_channel (tls : option TlsConfig) (endpoint : string) : UnderlayResult Channel :=
  builder ← map_err AdapterTransport (from_shared endpoint);
  builder ← (if starts_with endpoint "https://" then
    tls ← ok_or tls (AdapterTransport "TLS config is required for https adapter endpoint");
    map_err AdapterTransport
      (endpoint_tls_config builder (ca_cert_pem tls) (client_cert_pem tls, client_key_pem tls))
    else Ok builder);
  Ok (connect_lazy builder).

Definition client (endpoint : string) : ST UnderlayError Pool Channel := λ p,
  match channels p !! endpoint with
  | Some channel => (Ok channel, p)
  | None =>
      match open_channel (tls_config p) endpoint with
      | Ok channel => (Ok channel, mkPool (<[endpoint := channel]> (channels p)) (tls_config p))
      | Err e => (Err e, p)
      end
  end.
Definition invalidate (endpoint : string) (p : Pool) : Pool :=
  mkPool (delete endpoint (channels p)) (tls_config p).
Definition cached_endpoint_count (p : Pool) : nat := size (channels p).
Definition contains_endpoint (endpoint : string) (p : Pool) : bool :=
  bool_decide (is_Some (channels p !! endpoint)).
Definition has_tls (p : Pool) : bool := bool_decide (is_Some (tls_config p)).

(** Every cached channel is one the pool would open. *)
Definition pool_ok (p : Pool) : Prop :=
  map_Forall (λ endpoint channel, open_channel (tls_config p) endpoint = Ok channel) (channels p).

(** The operations that change a pool. *)
Inductive pool_step : Pool → Pool → Prop :=
  | step_client p endpoint : pool_step p (client endpoint p).2
  | step_invalidate p endpoint : pool_step p (invalidate endpoint p).

Lemma client_spec endpoint p :
  pool_ok p →
  let '(r, p') := client endpoint p in
  r = open_channel (tls_config p) endpoint ∧ pool_ok p' ∧ tls_config p' = tls_config p ∧
  channels p' = match r with Ok c => <[endpoint := c]> (channels p) | Err _ => channels p end.
Proof.
  intros Hp. unfold client. destruct (channels p !! endpoint) as [c|] eqn:Hc.
  - rewrite (Hp _ _ Hc). split_and!; [done..|]. by rewrite insert_id.
  - destruct (open_channel (tls_config p) endpoint) as [c|e] eqn:Ho; [|done].
    split_and!; [done| |done..]. by apply map_Forall_insert_2.
Qed.

Lemma pool_steps_ok p p' :
  rtc pool_step p p' → pool_ok p → pool_ok p' ∧ tls_config p' = tls_config p.
Proof.
  induction 1 as [p|p1 p2 p3 Hstep _ IH]; [done|]. intros Hok.
  assert (pool_ok p2 ∧ tls_config p2 = tls_config p1) as [Hok2 Htls].
  { destruct Hstep as [p endpoint|p endpoint].
    - pose proof (client_spec endpoint p Hok) as H. destruct (client endpoint p). naive_solver.
    - split; [|done]. by apply map_Forall_delete. }
  destruct (IH Hok2) as [? ->]. done.
Qed.

(** Caching is invisible: whatever was asked of a pool and invalidated in it before,
    [client] answers as if it opened the channel now, so an [https] endpoint is
    never reached without the pool's TLS identity; a refusal caches nothing, and an
    endpoint that was answered is cached until it is invalidated. *)
Theorem pool_transparent (p0 p : Pool) endpoint :
  channels p0 = ∅ → rtc pool_step p0 p →
  let '(r, p') := client endpoint p in
  r = open_channel (tls_config p0) endpoint ∧
  channels p' = (match r with Ok c => <[endpoint := c]> (channels p) | Err _ => channels p end) ∧
  contains_endpoint endpoint p' = is_ok r ∧
  contains_endpoint endpoint (invalidate endpoint p') = false.
Proof.
  intros H0 Hrun. destruct (pool_steps_ok p0 p Hrun) as [Hok Htls].
  { unfold pool_ok. rewrite H0. apply map_Forall_empty. }
  pose proof (client_spec endpoint p Hok) as Hc. destruct (client endpoint p) as [r p'] eqn:Hcl.
  destruct Hc as (Hr & _ & _ & Hch). rewrite Htls in Hr. split_and!; [done..| |].
  - unfold contains_endpoint. rewrite Hch. destruct r as [c|e]; simpl.
    + by rewrite lookup_insert_eq.
    + unfold client in Hcl. by destruct (channels p !! endpoint).
  - unfold contains_endpoint, invalidate. simpl. by rewrite lookup_delete_eq.
Qed.

Lemma https_needs_tls endpoint :
  starts_with endpoint "https://" = true → ∀ c, open_channel None endpoint ≠ Ok c.
Proof.
  intros Hs c. unfold open_channel. rewrite Hs.
  destruct (from_shared endpoint); simpl; congruence.
Qed.
End pool.
End AdapterClientPool.

(** ** Witnesses *)
Module ClientSample.
Definition answer (status : Z) (checksum : string) : result string Proto.ResultResponse :=
  Ok (Proto.mkResultResponse (Some (Proto.mkAdapterResult status true [] [] None None checksum))).
(** An adapter that does what it is told. *)
Definition transport : Transport :=
  {| rpc_get_capabilities _ _ := Err "unavailable";
     rpc_get_current_state _ _ := Ok (Proto.mkGetCurrentStateResponse
       (Some (Proto.mkObservedDeviceState "stack-1" [] [] [] [] [] [])) [] []);
     rpc_prepare _ _ := answer 2 "sha256:abc";
     rpc_commit _ q := answer 7 "";
     rpc_final_confirm _ _ := answer 3 "";
     rpc_rollback _ _ := answer 4 "";
     rpc_verify _ _ := answer 1 "";
     rpc_recover _ _ := Err "deadline exceeded";
     rpc_force_unlock _ _ := Ok (Proto.mkResultResponse None) |}.
Definition env : Env := client_env transport (λ n, fmt_N (N.of_nat n)) (ApplySample.env_of ApplySample.obey).
Definition record : TxJournalRecord :=
  with_phase 7 (started 5 (mkTxContext "tx-0" "req-0" "trace-0") [ApplySample.device]) Preparing.
Definition context : RequestContext :=
  tx_request_context ApplySample.info (mkTxContext "tx-0" "req-0" "trace-0").
End ClientSample.

Lemma commit_carries_prepared_checksum_witness :
  ∃ response result,
    rpc_prepare ClientSample.transport 0
      (AdapterClient.prepare_request ApplySample.info ClientSample.context ApplySample.desired)
      = Ok response ∧
    Proto.rr_result response = Some result ∧ Proto.re_errors result = [] ∧
    adapter_status_from_i32 (Proto.re_status result) = OpPrepared ∧
    Proto.cmq_prepared_candidate_checksum
      (AdapterClient.commit_request ApplySample.info ClientSample.context ConfirmedCommit 120
         (Some "sha256:abc")) = Proto.re_prepared_candidate_checksum result.
Proof.
  eapply (commit_carries_prepared_checksum ClientSample.transport
    (λ n, fmt_N (N.of_nat n)) (ApplySample.env_of ApplySample.obey)
    ApplySample.info ClientSample.context ApplySample.desired ConfirmedCommit 120
    (Some "sha256:abc") (ApplySample.world []) _ ClientSample.record).
  vm_compute. reflexivity.
Defined.

(** An apply through the client, from the plan to the final confirmation. *)
Example apply_through_client :
  let '(res, w) := ApplySample.run ClientSample.env [] in
  res_status res = Success ∧ length (w_trace w) = 12%nat.
Proof. vm_compute. split; reflexivity. Qed.
