(* ===== verification/ProductOps.v ===== *)
(** * Product operations (src/api/product_ops.rs, src/api/worker_config_admin.rs)

    What an operator of the product may ask for: listings of the operation log and of
    the audit log, the state of the reloading daemon, a bundle of all of it, and three
    changes of the daemon's configuration file.  Every operation is authorized first;
    a change, and an export of the audit log, is written to the product audit log
    before it happens.

    The state is the files (configuration, checkpoint, alerts), the store of operation
    summaries and the product audit log. *)
From S2P Require Export Service Alerts Daemon.

Module Ops.
Import Alerts.

(** ** Requests (src/api/worker_config_admin.rs) *)

Inductive WorkerScheduleTarget :=
  | TOperationSummaryRetention | TOperationAlert | TJournalGc | TApplyIdempotencyGc | TDriftAudit.
Record ChangeSummaryRetentionRequest := mkChangeSummaryRetentionRequest {
  csr_request_id : string; csr_trace_id : option string; csr_config_path : string;
  csr_operator : string; csr_reason : string; csr_retention : RetentionPolicy;
}.
Record ChangeJournalGcRetentionRequest := mkChangeJournalGcRetentionRequest {
  cgr_request_id : string; cgr_trace_id : option string; cgr_config_path : string;
  cgr_operator : string; cgr_reason : string; cgr_retention : Collect.Retention;
}.
Record ChangeWorkerScheduleRequest := mkChangeWorkerScheduleRequest {
  cws_request_id : string; cws_trace_id : option string; cws_config_path : string;
  cws_operator : string; cws_reason : string; cws_target : WorkerScheduleTarget;
  cws_schedule : Schedule;
}.
Record WorkerConfigAdminResponse := mkWorkerConfigAdminResponse {
  wc_config_path : string; wc_target : string; wc_changed : bool; wc_warnings : list string;
}.

Definition target_label (t : WorkerScheduleTarget) : string :=
  match t with
  | TOperationSummaryRetention => "operation_summary_retention"
  | TOperationAlert => "operation_alert"
  | TJournalGc => "journal_gc"
  | TApplyIdempotencyGc => "apply_idempotency_gc"
  | TDriftAudit => "drift_audit"
  end.

Definition ensure_non_empty (field value : string) : UnderlayResult unit :=
  reject_if (str_is_empty (trim value))
    (InvalidIntent ("worker config admin " +:+ field +:+ " must not be empty")).
Definition validate_base_request (request_id operator reason : string) : UnderlayResult unit :=
  _ ← ensure_non_empty "request_id" request_id;
  _ ← ensure_non_empty "operator" operator;
  _ ← ensure_non_empty "reason" reason;
  Ok tt.
Definition validate_schedule (schedule : Schedule) : UnderlayResult unit :=
  reject_if (interval_secs schedule =? 0)%N
    (InvalidIntent "worker schedule interval_secs must be greater than zero").
Definition missing_config_section (section : string) : UnderlayError :=
  InvalidIntent ("worker daemon config missing " +:+ section +:+ " section").
Definition trace_id_or_request_id (trace_id : option string) (request_id : string) : string :=
  default request_id trace_id.

(** [bool::to_string] *)
Definition fmt_bool (b : bool) : string := if b then "true" else "false".

Definition base_fields (config_path target : string) : gmap string string :=
  <["target" := target]> {[ "config_path" := config_path ]}.
Definition summary_retention_fields (p : RetentionPolicy) : gmap string string :=
  <["max_rotated_files" := fmt_usize (max_rotated_files p)]>
  (<["max_bytes" := default "none" (fmt_N <$> max_bytes p)]>
  {[ "max_records" := default "none" (fmt_usize <$> max_records p) ]}).
Definition journal_gc_retention_fields (p : Collect.Retention) : gmap string string :=
  <["max_artifacts_per_device" := fmt_N (Collect.max_artifacts_per_device p)]>
  (<["rollback_artifact_retention_days" := fmt_N (Collect.rollback_artifact_retention_days p)]>
  (<["failed_journal_retention_days" := fmt_N (Collect.failed_journal_retention_days p)]>
  (<["rolled_back_journal_retention_days" := fmt_N (Collect.rolled_back_journal_retention_days p)]>
  {[ "committed_journal_retention_days" := fmt_N (Collect.committed_journal_retention_days p) ]}))).
Definition schedule_fields (s : Schedule) (fields : gmap string string) : gmap string string :=
  <["run_immediately" := fmt_bool (run_immediately s)]>
  (<["interval_secs" := fmt_N (interval_secs s)]> fields).
Definition response (config_path target : string) : WorkerConfigAdminResponse :=
  mkWorkerConfigAdminResponse config_path target true [].

(** ** The changes of a configuration *)

(** [operation_summary.retention = ..] in a configuration that has the section *)
Definition set_summary_retention (p : RetentionPolicy) (c : UnderlayWorkerDaemonConfig)
    : UnderlayResult UnderlayWorkerDaemonConfig :=
  match cfg_operation_summary c with
  | None => Err (missing_config_section "operation_summary")
  | Some s => Ok (mkDaemonConfig (cfg_reload c)
      (Some (mkLogConfig (lg_path s) p (lg_retention_schedule s)))
      (cfg_operation_audit c) (cfg_operation_alert c) (cfg_journal_gc c)
      (cfg_apply_idempotency_gc c) (cfg_drift_audit c))
  end.
(** [journal_gc.retention = ..] *)
Definition set_journal_gc_retention (p : Collect.Retention) (c : UnderlayWorkerDaemonConfig)
    : UnderlayResult UnderlayWorkerDaemonConfig :=
  match cfg_journal_gc c with
  | None => Err (missing_config_section "journal_gc")
  | Some g => Ok (mkDaemonConfig (cfg_reload c) (cfg_operation_summary c) (cfg_operation_audit c)
      (cfg_operation_alert c)
      (Some (mkJournalGcConfig (jc_journal_root g) (jc_artifact_root g) (jc_schedule g) p))
      (cfg_apply_idempotency_gc c) (cfg_drift_audit c))
  end.
(** [*schedule_slot(&mut config, &target)? = schedule] *)
Definition set_schedule (target : WorkerScheduleTarget) (schedule : Schedule)
    (c : UnderlayWorkerDaemonConfig) : UnderlayResult UnderlayWorkerDaemonConfig :=
  let 'mkDaemonConfig reload summary audit alert gc idem drift := c in
  match target with
  | TOperationSummaryRetention =>
      s ← ok_or summary (missing_config_section "operation_summary");
      Ok (mkDaemonConfig reload (Some (mkLogConfig (lg_path s) (lg_retention s) schedule))
            audit alert gc idem drift)
  | TOperationAlert =>
      a ← ok_or alert (missing_config_section "operation_alert");
      Ok (mkDaemonConfig reload summary audit
            (Some (mkAlertConfig (ac_path a) (ac_checkpoint_path a) schedule)) gc idem drift)
  | TJournalGc =>
      g ← ok_or gc (missing_config_section "journal_gc");
      Ok (mkDaemonConfig reload summary audit alert
            (Some (mkJournalGcConfig (jc_journal_root g) (jc_artifact_root g) schedule
                     (jc_retention g))) idem drift)
  | TApplyIdempotencyGc =>
      i ← ok_or idem (missing_config_section "apply_idempotency_gc");
      Ok (mkDaemonConfig reload summary audit alert gc
            (Some (mkIdempotencyGcConfig (ic_root i) schedule (ic_retention_days i))) drift)
  | TDriftAudit =>
      d ← ok_or drift (missing_config_section "drift_audit");
      Ok (mkDaemonConfig reload summary audit alert gc idem
            (Some (mkDriftConfig (dc_expected_shadow_root d) (dc_observed_shadow_root d) schedule)))
  end.

(** ** Requests and answers (src/api/product_ops.rs) *)

Record ProductOperatorContext := mkProductOperatorContext {
  po_request_id : string; po_trace_id : option string; po_operator : string;
}.
Record ExportProductAuditRequest := mkExportProductAuditRequest {
  ea_reason : string; ea_action : option string; ea_result : option string;
  ea_operator_id : option string; ea_limit : option nat;
}.
Record ProductAuditExportOverview := mkProductAuditExportOverview {
  ax_matched_records : nat;
  ax_returned_records : nat;
  ax_attention_required : nat;
  ax_by_action : gmap string nat;
  ax_by_result : gmap string nat;
  ax_by_operator : gmap string nat;
}.
Record ExportProductAuditResponse := mkExportProductAuditResponse {
  ex_records : list ProductAuditRecord; ex_overview : ProductAuditExportOverview;
}.
Record ListOperationSummariesResponse := mkListOperationSummariesResponse {
  lr_summaries : list OperationSummary; lr_overview : OperationSummaryOverview;
}.
Record ProductChangeSummaryRetentionRequest := mkProductChangeSummaryRetentionRequest {
  pcs_config_path : string; pcs_reason : string; pcs_retention : RetentionPolicy;
}.
Record ProductChangeJournalGcRetentionRequest := mkProductChangeJournalGcRetentionRequest {
  pcg_config_path : string; pcg_reason : string; pcg_retention : Collect.Retention;
}.
Record ProductChangeWorkerScheduleRequest := mkProductChangeWorkerScheduleRequest {
  pcw_config_path : string; pcw_reason : string; pcw_target : WorkerScheduleTarget;
  pcw_schedule : Schedule;
}.
Record ProductGetWorkerReloadStatusRequest := mkProductGetWorkerReloadStatusRequest {
  pgr_checkpoint_path : string;
}.
Record ProductStatusBundleRequest := mkProductStatusBundleRequest {
  sb_operation_summary : ListOperationSummariesRequest;
  sb_operation_alert_path : option string;
  sb_alert_state_path : option string;
  sb_alert_severity : option OperationAlertSeverity;
  sb_alert_limit : option nat;
  sb_worker_reload_checkpoint_path : option string;
}.
Inductive ProductStatusBundleHealthStatus := Healthy | AttentionRequired.
Record ProductStatusBundleHealth := mkProductStatusBundleHealth {
  hl_status : ProductStatusBundleHealthStatus;
  hl_attention_required : bool;
  hl_operation_attention_required : nat;
  hl_critical_alerts : nat;
  hl_open_alerts : nat;
  hl_rejected_worker_reload : bool;
}.
Record ProductStatusBundleResponse := mkProductStatusBundleResponse {
  br_operation_summary : OperationSummaryOverview;
  br_alert_summary : option OperationAlertOverview;
  br_worker_reload : option WorkerReloadCheckpoint;
  br_health : ProductStatusBundleHealth;
}.

(** [Default] of the requests *)
Definition default_list_request : ListOperationSummariesRequest :=
  mkListOperationSummariesRequest false None None None None None.
Definition default_export_request : ExportProductAuditRequest :=
  mkExportProductAuditRequest "" None None None None.
Definition default_change_summary_retention : ProductChangeSummaryRetentionRequest :=
  mkProductChangeSummaryRetentionRequest "" "" default_retention_policy.
Definition default_change_journal_gc_retention : ProductChangeJournalGcRetentionRequest :=
  mkProductChangeJournalGcRetentionRequest "" "" Collect.default_retention.
Definition default_change_worker_schedule : ProductChangeWorkerScheduleRequest :=
  mkProductChangeWorkerScheduleRequest "" "" TOperationSummaryRetention default_schedule.
Definition default_get_reload_status : ProductGetWorkerReloadStatusRequest :=
  mkProductGetWorkerReloadStatusRequest "".
Definition default_status_bundle : ProductStatusBundleRequest :=
  mkProductStatusBundleRequest default_list_request None None None None None.

Definition validate_non_empty (field value : string) : UnderlayResult unit :=
  reject_if (str_is_empty (trim value)) (InvalidIntent (field +:+ " must not be empty")).
Definition validate_path (field value : string) : UnderlayResult unit :=
  reject_if (str_is_empty value) (InvalidIntent (field +:+ " must not be empty")).

Definition limit_newest {A} (items : list A) (limit : nat) : list A :=
  if (length items <=? limit)%nat then items else reverse (take limit (reverse items)).
Definition limited {A} (items : list A) (limit : option nat) : list A :=
  match limit with Some limit => limit_newest items limit | None => items end.
Definition filtered_operation_summaries (summaries : list OperationSummary)
    (request : ListOperationSummariesRequest) : list OperationSummary :=
  let summaries := retain_if (ls_action request) os_action summaries in
  let summaries := retain_if (ls_result request) os_result summaries in
  let summaries := retain_if (Some <$> ls_device_id request) os_device_id summaries in
  retain_if (Some <$> ls_tx_id request) os_tx_id summaries.
Definition filtered_audit_records (records : list ProductAuditRecord)
    (request : ExportProductAuditRequest) : list ProductAuditRecord :=
  let records := retain_if (ea_action request) pa_action records in
  let records := retain_if (ea_result request) pa_result records in
  retain_if (Some <$> ea_operator_id request) pa_operator_id records.

Definition insert_opt (key : string) (value : option string) (m : gmap string string)
    : gmap string string :=
  match value with Some v => <[key := v]> m | None => m end.
Definition export_filter_fields (q : ExportProductAuditRequest) : gmap string string :=
  insert_opt "limit" (fmt_usize <$> ea_limit q) (insert_opt "filter_operator_id" (ea_operator_id q)
    (insert_opt "filter_result" (ea_result q) (insert_opt "filter_action" (ea_action q) ∅))).

Definition count_audit_record (ov : ProductAuditExportOverview) (r : ProductAuditRecord)
    : ProductAuditExportOverview :=
  mkProductAuditExportOverview (ax_matched_records ov) (ax_returned_records ov)
    (if pa_attention_required r then S (ax_attention_required ov) else ax_attention_required ov)
    (Alerts.increment (ax_by_action ov) (pa_action r)) (Alerts.increment (ax_by_result ov) (pa_result r))
    (match pa_operator_id r with
     | Some operator => Alerts.increment (ax_by_operator ov) operator
     | None => ax_by_operator ov
     end).
Definition from_records (records : list ProductAuditRecord) (returned : nat)
    : ProductAuditExportOverview :=
  foldl count_audit_record (mkProductAuditExportOverview (length records) returned 0 ∅ ∅ ∅) records.

Definition from_parts (summary : OperationSummaryOverview) (alerts : option OperationAlertOverview)
    (reload : option WorkerReloadCheckpoint) : ProductStatusBundleHealth :=
  let critical := default 0%nat (Alerts.critical <$> alerts) in
  let open := default 0%nat (Alerts.open <$> alerts) in
  let rejected := default false ((λ c, bool_decide (cp_status c = RRejected)) <$> reload) in
  let attention := (0 <? ov_attention_required summary)%nat || (0 <? critical)%nat
                   || (0 <? open)%nat || rejected in
  {| hl_status := if attention then AttentionRequired else Healthy;
     hl_attention_required := attention;
     hl_operation_attention_required := ov_attention_required summary;
     hl_critical_alerts := critical; hl_open_alerts := open;
     hl_rejected_worker_reload := rejected |}.

(** ** The three changes as one *)

Inductive ConfigChange :=
  | SummaryRetention (q : ChangeSummaryRetentionRequest)
  | JournalGcRetention (q : ChangeJournalGcRetentionRequest)
  | WorkerSchedule (q : ChangeWorkerScheduleRequest).
Definition change_path (c : ConfigChange) : string :=
  match c with
  | SummaryRetention q => csr_config_path q
  | JournalGcRetention q => cgr_config_path q
  | WorkerSchedule q => cws_config_path q
  end.
(** Who asks for what, and why. *)
Definition change_request (c : ConfigChange) : AuthorizationRequest :=
  let trace (trace_id : option string) (request_id : string) :=
    match trace_id with Some t => t | None => request_id end in
  match c with
  | SummaryRetention q => mkAuthorizationRequest (csr_request_id q)
      (trace (csr_trace_id q) (csr_request_id q)) (csr_operator q) ChangeRetentionPolicy
  | JournalGcRetention q => mkAuthorizationRequest (cgr_request_id q)
      (trace (cgr_trace_id q) (cgr_request_id q)) (cgr_operator q) ChangeRetentionPolicy
  | WorkerSchedule q => mkAuthorizationRequest (cws_request_id q)
      (trace (cws_trace_id q) (cws_request_id q)) (cws_operator q) ChangeDaemonSchedule
  end.
Definition change_reason (c : ConfigChange) : string :=
  match c with
  | SummaryRetention q => csr_reason q
  | JournalGcRetention q => cgr_reason q
  | WorkerSchedule q => cws_reason q
  end.
(** The code's check of the new value, and the configuration it makes of another. *)
Definition change_check (c : ConfigChange) : UnderlayResult unit :=
  match c with
  | SummaryRetention q => retention_validate "operation summary" (csr_retention q)
  | JournalGcRetention q => Collect.validate (cgr_retention q)
  | WorkerSchedule q => validate_schedule (cws_schedule q)
  end.
Definition change_edit (c : ConfigChange) : UnderlayWorkerDaemonConfig → UnderlayResult UnderlayWorkerDaemonConfig :=
  match c with
  | SummaryRetention q => set_summary_retention (csr_retention q)
  | JournalGcRetention q => set_journal_gc_retention (cgr_retention q)
  | WorkerSchedule q => set_schedule (cws_target q) (cws_schedule q)
  end.

(** *** What a change is meant to do

    Stated on the configurations, the request and the audit record themselves. *)

(** A request that says who asks and why, and for a value that can be used. *)
Definition complete_request (ch : ConfigChange) : Prop :=
  nonblank (az_request_id (change_request ch)) ∧ nonblank (az_operator_id (change_request ch)) ∧
  nonblank (change_reason ch) ∧
  match ch with
  | SummaryRetention q => max_records (csr_retention q) ≠ Some 0%nat ∧ max_bytes (csr_retention q) ≠ Some 0%N
  | JournalGcRetention q => Collect.max_artifacts_per_device (cgr_retention q) ≠ 0%N
  | WorkerSchedule q => interval_secs (cws_schedule q) ≠ 0%N
  end.

Inductive ConfigSection :=
  | SecReload | SecSummary | SecAudit | SecAlert | SecJournalGc | SecIdempotencyGc | SecDrift.
(** Two configurations that agree but for one section. *)
Definition same_but (x : ConfigSection) (c c' : UnderlayWorkerDaemonConfig) : Prop :=
  (x ≠ SecReload → cfg_reload c' = cfg_reload c) ∧
  (x ≠ SecSummary → cfg_operation_summary c' = cfg_operation_summary c) ∧
  (x ≠ SecAudit → cfg_operation_audit c' = cfg_operation_audit c) ∧
  (x ≠ SecAlert → cfg_operation_alert c' = cfg_operation_alert c) ∧
  (x ≠ SecJournalGc → cfg_journal_gc c' = cfg_journal_gc c) ∧
  (x ≠ SecIdempotencyGc → cfg_apply_idempotency_gc c' = cfg_apply_idempotency_gc c) ∧
  (x ≠ SecDrift → cfg_drift_audit c' = cfg_drift_audit c).

(** [c'] is [c] with the value the change asks for in place of the old one, in a section
    [c] has, and everything else as it was. *)
Definition only_changed (ch : ConfigChange) (c c' : UnderlayWorkerDaemonConfig) : Prop :=
  match ch with
  | SummaryRetention q => same_but SecSummary c c' ∧
      ∃ s s', cfg_operation_summary c = Some s ∧ cfg_operation_summary c' = Some s' ∧
        lg_retention s' = csr_retention q ∧ lg_path s' = lg_path s ∧
        lg_retention_schedule s' = lg_retention_schedule s
  | JournalGcRetention q => same_but SecJournalGc c c' ∧
      ∃ s s', cfg_journal_gc c = Some s ∧ cfg_journal_gc c' = Some s' ∧
        jc_retention s' = cgr_retention q ∧ jc_journal_root s' = jc_journal_root s ∧
        jc_artifact_root s' = jc_artifact_root s ∧ jc_schedule s' = jc_schedule s
  | WorkerSchedule q =>
      match cws_target q with
      | TOperationSummaryRetention => same_but SecSummary c c' ∧
          ∃ s s', cfg_operation_summary c = Some s ∧ cfg_operation_summary c' = Some s' ∧
            lg_retention_schedule s' = cws_schedule q ∧ lg_path s' = lg_path s ∧
            lg_retention s' = lg_retention s
      | TOperationAlert => same_but SecAlert c c' ∧
          ∃ s s', cfg_operation_alert c = Some s ∧ cfg_operation_alert c' = Some s' ∧
            ac_schedule s' = cws_schedule q ∧ ac_path s' = ac_path s ∧
            ac_checkpoint_path s' = ac_checkpoint_path s
      | TJournalGc => same_but SecJournalGc c c' ∧
          ∃ s s', cfg_journal_gc c = Some s ∧ cfg_journal_gc c' = Some s' ∧
            jc_schedule s' = cws_schedule q ∧ jc_journal_root s' = jc_journal_root s ∧
            jc_artifact_root s' = jc_artifact_root s ∧ jc_retention s' = jc_retention s
      | TApplyIdempotencyGc => same_but SecIdempotencyGc c c' ∧
          ∃ s s', cfg_apply_idempotency_gc c = Some s ∧ cfg_apply_idempotency_gc c' = Some s' ∧
            ic_schedule s' = cws_schedule q ∧ ic_root s' = ic_root s ∧
            ic_retention_days s' = ic_retention_days s
      | TDriftAudit => same_but SecDrift c c' ∧
          ∃ s s', cfg_drift_audit c = Some s ∧ cfg_drift_audit c' = Some s' ∧
            dc_schedule s' = cws_schedule q ∧
            dc_expected_shadow_root s' = dc_expected_shadow_root s ∧
            dc_observed_shadow_root s' = dc_observed_shadow_root s
      end
  end.

Lemma change_edit_only ch c c' : change_edit ch c = Ok c' → only_changed ch c c'.
Proof.
  destruct ch as [q|q|q], c as [reload summary audit alert gc idem drift]; simpl.
  - unfold set_summary_retention. destruct summary as [x|]; [|done]. intros [= <-].
    split; [by split_and!|]. by eexists _, _.
  - unfold set_journal_gc_retention. destruct gc as [x|]; [|done]. intros [= <-].
    split; [by split_and!|]. by eexists _, _.
  - destruct (cws_target q); simpl; intros He; inv_ok; subst; unfold ok_or in *; simplify_option_eq;
      (split; [by split_and!|]); by eexists _, _.
Qed.

Lemma complete_request_checked ch :
  validate_base_request (az_request_id (change_request ch)) (az_operator_id (change_request ch))
    (change_reason ch) = Ok tt →
  change_check ch = Ok tt → complete_request ch.
Proof.
  unfold validate_base_request, ensure_non_empty, complete_request.
  rewrite !bind_unit_Ok, !reject_if_Ok.
  intros (H1 & H2 & H3 & _) Hc. split_and!; [by apply str_is_empty_false..|].
  destruct ch; simpl in Hc; unfold retention_validate, Collect.validate, validate_schedule in Hc;
    rewrite ?bind_unit_Ok, !reject_if_Ok in Hc.
  - by rewrite !bool_decide_eq_false in Hc.
  - by apply N.eqb_neq in Hc.
  - by apply N.eqb_neq in Hc.
Qed.

Lemma validate_config_Ok c :
  validate_worker_config_for_runtime c = Ok tt ↔
  reject_if (bool_decide (is_Some (cfg_operation_alert c)) &&
             bool_decide (cfg_operation_summary c = None))
    (InvalidIntent "operation_alert requires operation_summary.path") = Ok tt ∧
  validate_opt (λ c, _ ← retention_validate "operation summary" (lg_retention c);
    validate_worker_schedule "operation_summary.retention_schedule" (lg_retention_schedule c))
    (cfg_operation_summary c) = Ok tt ∧
  validate_opt (λ c, _ ← retention_validate "operation audit" (lg_retention c);
    validate_worker_schedule "operation_audit.retention_schedule" (lg_retention_schedule c))
    (cfg_operation_audit c) = Ok tt ∧
  validate_opt (λ c, validate_worker_schedule "operation_alert.schedule" (ac_schedule c))
    (cfg_operation_alert c) = Ok tt ∧
  validate_opt (λ c, _ ← Collect.validate (jc_retention c);
    validate_worker_schedule "journal_gc.schedule" (jc_schedule c)) (cfg_journal_gc c) = Ok tt ∧
  validate_opt (λ c, _ ← Collect.idempotency_validate (ic_retention_days c);
    validate_worker_schedule "apply_idempotency_gc.schedule" (ic_schedule c))
    (cfg_apply_idempotency_gc c) = Ok tt ∧
  validate_opt (λ c, validate_worker_schedule "drift_audit.schedule" (dc_schedule c))
    (cfg_drift_audit c) = Ok tt ∧
  validate_opt validate_reload_config (cfg_reload c) = Ok tt.
Proof. unfold validate_worker_config_for_runtime. by rewrite !bind_unit_Ok. Qed.

(** A change keeps a configuration that the daemon runs one that the daemon runs. *)
Lemma change_edit_valid ch c c' :
  change_check ch = Ok tt → change_edit ch c = Ok c' →
  validate_worker_config_for_runtime c = Ok tt → validate_worker_config_for_runtime c' = Ok tt.
Proof.
  destruct ch as [q|q|q], c as [reload summary audit alert gc idem drift]; simpl.
  all: rewrite !validate_config_Ok; simpl.
  - unfold set_summary_retention. destruct summary as [s|]; [|done].
    intros Hc [= <-] (? & Hs & ?). simpl in *. rewrite bind_unit_Ok in *. naive_solver.
  - unfold set_journal_gc_retention. destruct gc as [g|]; [|done].
    intros Hc [= <-] (? & ? & ? & ? & Hg & ?). simpl in *. rewrite bind_unit_Ok in *. naive_solver.
  - unfold validate_schedule, validate_worker_schedule. intros Hc%reject_if_Ok He Hv.
    destruct (cws_target q); simpl in He; inv_ok; subst; simpl in *;
      rewrite ?bind_unit_Ok in *; setoid_rewrite reject_if_Ok in Hv; setoid_rewrite reject_if_Ok;
      naive_solver.
Qed.

(** ** The manager *)

Section manager.
Context {Z S P : Type} `{!AuthorizationPolicy Z} `{!OperationSummaryStore S} `{!ProductAuditStore P}.
Context (policy : Z) (o : FsOracle) (audit_time : N).
Context (config_codec : Codec UnderlayWorkerDaemonConfig) (checkpoint_codec : Codec WorkerReloadCheckpoint).
Context (alert_codec : Codec OperationAlert) (state_codec : Codec Records).

Record Product := mkProduct { pr_fs : Fs; pr_summaries : S; pr_audit : P }.
Notation M := (ST UnderlayError Product).

Definition on_fs {A} (f : ST UnderlayError Fs A) : M A := λ w,
  let '(x, fs) := f (pr_fs w) in (x, mkProduct fs (pr_summaries w) (pr_audit w)).
Definition on_summaries {A} (f : ST UnderlayError S A) : M A := λ w,
  let '(x, s) := f (pr_summaries w) in (x, mkProduct (pr_fs w) s (pr_audit w)).
Definition on_audit {A} (f : ST UnderlayError P A) : M A := λ w,
  let '(x, p) := f (pr_audit w) in (x, mkProduct (pr_fs w) (pr_summaries w) p).

(** *** src/api/worker_config_admin.rs *)

(** [UnderlayWorkerDaemonConfig::from_path], [write_to_path] *)
Definition config_from_path (path : string) : ST UnderlayError Fs UnderlayWorkerDaemonConfig :=
  payload ← map_io worker_config_io_error (read_file o path);
  st_lift (parse_worker_config_payload (decode config_codec) path payload).
Definition write_to_path (config : UnderlayWorkerDaemonConfig) (path : string)
    : ST UnderlayError Fs unit :=
  write_value o config_codec path worker_config_io_error
    (λ e, Internal ("serialize worker daemon config: " +:+ e)) config.

(** [self.product_audit_store.append(..).map_err(product_audit_error)?] *)
Definition append_audit (record : ProductAuditRecord) : M unit :=
  on_audit (λ p, let '(x, p') := product_append record p in (map_err product_audit_error x, p')).

Definition admin_authorize (request_id trace_id operator : string) (action : AdminAction)
    : M AuthorizationDecision :=
  st_lift (authorize policy (mkAuthorizationRequest request_id trace_id operator action)).

Definition admin_change_summary_retention (q : ChangeSummaryRetentionRequest)
    : M WorkerConfigAdminResponse :=
  _ ← st_lift (validate_base_request (csr_request_id q) (csr_operator q) (csr_reason q));
  _ ← st_lift (retention_validate "operation summary" (csr_retention q));
  config ← on_fs (config_from_path (csr_config_path q));
  config ← st_lift (set_summary_retention (csr_retention q) config);
  let trace_id := trace_id_or_request_id (csr_trace_id q) (csr_request_id q) in
  _ ← admin_authorize (csr_request_id q) trace_id (csr_operator q) ChangeRetentionPolicy;
  let target := "operation_summary" in
  let fields := summary_retention_fields (csr_retention q) ∪ base_fields (csr_config_path q) target in
  _ ← append_audit (worker_config_change_requested audit_time (csr_request_id q) trace_id
        "daemon.retention_change_requested" target (csr_operator q) (csr_reason q) fields);
  _ ← on_fs (write_to_path config (csr_config_path q));
  mret (response (csr_config_path q) target).

Definition admin_change_journal_gc_retention (q : ChangeJournalGcRetentionRequest)
    : M WorkerConfigAdminResponse :=
  _ ← st_lift (validate_base_request (cgr_request_id q) (cgr_operator q) (cgr_reason q));
  _ ← st_lift (Collect.validate (cgr_retention q));
  config ← on_fs (config_from_path (cgr_config_path q));
  config ← st_lift (set_journal_gc_retention (cgr_retention q) config);
  let trace_id := trace_id_or_request_id (cgr_trace_id q) (cgr_request_id q) in
  _ ← admin_authorize (cgr_request_id q) trace_id (cgr_operator q) ChangeRetentionPolicy;
  let target := "journal_gc" in
  let fields := journal_gc_retention_fields (cgr_retention q) ∪ base_fields (cgr_config_path q) target in
  _ ← append_audit (worker_config_change_requested audit_time (cgr_request_id q) trace_id
        "daemon.retention_change_requested" target (cgr_operator q) (cgr_reason q) fields);
  _ ← on_fs (write_to_path config (cgr_config_path q));
  mret (response (cgr_config_path q) target).

Definition admin_change_worker_schedule (q : ChangeWorkerScheduleRequest)
    : M WorkerConfigAdminResponse :=
  _ ← st_lift (validate_base_request (cws_request_id q) (cws_operator q) (cws_reason q));
  _ ← st_lift (validate_schedule (cws_schedule q));
  config ← on_fs (config_from_path (cws_config_path q));
  let target := target_label (cws_target q) in
  config ← st_lift (set_schedule (cws_target q) (cws_schedule q) config);
  let trace_id := trace_id_or_request_id (cws_trace_id q) (cws_request_id q) in
  _ ← admin_authorize (cws_request_id q) trace_id (cws_operator q) ChangeDaemonSchedule;
  let fields := schedule_fields (cws_schedule q) (base_fields (cws_config_path q) target) in
  _ ← append_audit (worker_config_change_requested audit_time (cws_request_id q) trace_id
        "daemon.schedule_change_requested" target (cws_operator q) (cws_reason q) fields);
  _ ← on_fs (write_to_path config (cws_config_path q));
  mret (response (cws_config_path q) target).

(** *** src/api/product_ops.rs *)

Definition authorize_context (context : ProductOperatorContext) (action : AdminAction) (label : string)
    : M (string * AuthorizationDecision) :=
  _ ← st_lift (validate_non_empty (label +:+ " request_id") (po_request_id context));
  _ ← st_lift (validate_non_empty (label +:+ " operator") (po_operator context));
  let trace_id := default (po_request_id context) (po_trace_id context) in
  decision ← admin_authorize (po_request_id context) trace_id (po_operator context) action;
  mret (trace_id, decision).

Definition product_list_operation_summaries (context : ProductOperatorContext)
    (request : ListOperationSummariesRequest) : M ListOperationSummariesResponse :=
  _ ← authorize_context context ListOperationSummaries "product ops list operation summaries";
  listed ← on_summaries (if ls_attention_required_only request then list_attention_required
                         else summary_list);
  let summaries := filtered_operation_summaries listed request in
  let returned := limited summaries (ls_limit request) in
  mret (mkListOperationSummariesResponse returned
          (overview_from_summaries summaries (length returned))).

Definition export_product_audit (context : ProductOperatorContext) (request : ExportProductAuditRequest)
    : M ExportProductAuditResponse :=
  _ ← st_lift (validate_non_empty "product audit export reason" (ea_reason request));
  '(trace_id, decision) ← authorize_context context ExportAuditHistory "product audit export";
  _ ← append_audit (product_audit_export_requested audit_time (po_request_id context) trace_id
        (ad_operator_id decision) (ea_reason request) (export_filter_fields request));
  listed ← on_audit product_list;
  let records := filtered_audit_records listed request in
  let returned := limited records (ea_limit request) in
  mret (mkExportProductAuditResponse returned (from_records records (length returned))).

Definition change_summary_retention (context : ProductOperatorContext)
    (request : ProductChangeSummaryRetentionRequest) : M WorkerConfigAdminResponse :=
  admin_change_summary_retention (mkChangeSummaryRetentionRequest (po_request_id context)
    (po_trace_id context) (pcs_config_path request) (po_operator context) (pcs_reason request)
    (pcs_retention request)).
Definition change_journal_gc_retention (context : ProductOperatorContext)
    (request : ProductChangeJournalGcRetentionRequest) : M WorkerConfigAdminResponse :=
  admin_change_journal_gc_retention (mkChangeJournalGcRetentionRequest (po_request_id context)
    (po_trace_id context) (pcg_config_path request) (po_operator context) (pcg_reason request)
    (pcg_retention request)).
Definition change_worker_schedule (context : ProductOperatorContext)
    (request : ProductChangeWorkerScheduleRequest) : M WorkerConfigAdminResponse :=
  admin_change_worker_schedule (mkChangeWorkerScheduleRequest (po_request_id context)
    (po_trace_id context) (pcw_config_path request) (po_operator context) (pcw_reason request)
    (pcw_target request) (pcw_schedule request)).

(** [WorkerReloadCheckpoint::from_path] *)
Definition checkpoint_from_path (path : string) : ST UnderlayError Fs WorkerReloadCheckpoint :=
  payload ← map_io (λ e, InvalidIntent ("read worker reload checkpoint " +:+ debug_str path +:+ ": " +:+ e))
              (read_file o path);
  st_lift (map_err (λ e, InvalidIntent ("parse worker reload checkpoint " +:+ debug_str path +:+ ": " +:+ e))
             (decode checkpoint_codec payload)).
Definition get_worker_reload_status (context : ProductOperatorContext)
    (request : ProductGetWorkerReloadStatusRequest) : M WorkerReloadCheckpoint :=
  _ ← st_lift (validate_path "worker reload checkpoint path" (pgr_checkpoint_path request));
  _ ← authorize_context context GetWorkerReloadStatus "product ops get worker reload status";
  on_fs (checkpoint_from_path (pgr_checkpoint_path request)).

Definition get_product_status_bundle (context : ProductOperatorContext)
    (request : ProductStatusBundleRequest) : M ProductStatusBundleResponse :=
  _ ← authorize_context context GetProductStatusBundle "product ops get status bundle";
  listed ← product_list_operation_summaries context (sb_operation_summary request);
  let summary := lr_overview listed in
  alerts ← match sb_operation_alert_path request with
    | Some path =>
        _ ← st_lift (validate_path "operation alert path" path);
        '(_, overview) ← on_fs (list_operation_alerts o alert_codec state_codec
          (mkListOperationAlertsRequest path (sb_alert_state_path request)
             (sb_alert_severity request) (sb_alert_limit request)));
        mret (Some overview)
    | None => mret None
    end;
  reload ← match sb_worker_reload_checkpoint_path request with
    | Some path =>
        _ ← st_lift (validate_path "worker reload checkpoint path" path);
        checkpoint ← on_fs (checkpoint_from_path path);
        mret (Some checkpoint)
    | None => mret None
    end;
  mret (mkProductStatusBundleResponse summary alerts reload (from_parts summary alerts reload)).

(** ** A change is authorized, audited, and nothing else *)

Definition run_change (c : ConfigChange) : M WorkerConfigAdminResponse :=
  match c with
  | SummaryRetention q => admin_change_summary_retention q
  | JournalGcRetention q => admin_change_journal_gc_retention q
  | WorkerSchedule q => admin_change_worker_schedule q
  end.

(** What the audit log is told of a change. *)
Definition change_target (c : ConfigChange) : string :=
  match c with
  | SummaryRetention _ => "operation_summary"
  | JournalGcRetention _ => "journal_gc"
  | WorkerSchedule q => target_label (cws_target q)
  end.
Definition change_record (c : ConfigChange) : ProductAuditRecord :=
  let z := change_request c in
  let base := base_fields (change_path c) (change_target c) in
  worker_config_change_requested audit_time (az_request_id z) (az_trace_id z)
    (match c with
     | WorkerSchedule _ => "daemon.schedule_change_requested"
     | _ => "daemon.retention_change_requested"
     end) (change_target c) (az_operator_id z) (change_reason c)
    (match c with
     | SummaryRetention q => summary_retention_fields (csr_retention q) ∪ base
     | JournalGcRetention q => journal_gc_retention_fields (cgr_retention q) ∪ base
     | WorkerSchedule q => schedule_fields (cws_schedule q) base
     end).

(** What the audit log must be told: who asked, why, for what, and the new value. *)
Definition change_audited (ch : ConfigChange) (record : ProductAuditRecord) : Prop :=
  pa_request_id record = az_request_id (change_request ch) ∧
  pa_trace_id record = az_trace_id (change_request ch) ∧
  pa_operator_id record = Some (az_operator_id (change_request ch)) ∧
  pa_reason record = Some (change_reason ch) ∧ pa_result record = "authorized" ∧
  pa_action record =
    (match ch with
     | WorkerSchedule _ => "daemon.schedule_change_requested"
     | _ => "daemon.retention_change_requested"
     end) ∧
  pa_appended_at_unix_secs record = audit_time ∧
  pa_fields record !! "config_path" = Some (change_path ch) ∧
  match ch with
  | SummaryRetention q =>
      pa_fields record !! "target" = Some "operation_summary" ∧
      pa_fields record !! "max_records" =
        Some (match max_records (csr_retention q) with Some n => fmt_usize n | None => "none" end) ∧
      pa_fields record !! "max_bytes" =
        Some (match max_bytes (csr_retention q) with Some n => fmt_N n | None => "none" end) ∧
      pa_fields record !! "max_rotated_files" = Some (fmt_usize (max_rotated_files (csr_retention q)))
  | JournalGcRetention q =>
      pa_fields record !! "target" = Some "journal_gc" ∧
      pa_fields record !! "committed_journal_retention_days" =
        Some (fmt_N (Collect.committed_journal_retention_days (cgr_retention q))) ∧
      pa_fields record !! "rolled_back_journal_retention_days" =
        Some (fmt_N (Collect.rolled_back_journal_retention_days (cgr_retention q))) ∧
      pa_fields record !! "failed_journal_retention_days" =
        Some (fmt_N (Collect.failed_journal_retention_days (cgr_retention q))) ∧
      pa_fields record !! "rollback_artifact_retention_days" =
        Some (fmt_N (Collect.rollback_artifact_retention_days (cgr_retention q))) ∧
      pa_fields record !! "max_artifacts_per_device" =
        Some (fmt_N (Collect.max_artifacts_per_device (cgr_retention q)))
  | WorkerSchedule q =>
      pa_fields record !! "target" =
        Some (match cws_target q with
              | TOperationSummaryRetention => "operation_summary_retention"
              | TOperationAlert => "operation_alert" | TJournalGc => "journal_gc"
              | TApplyIdempotencyGc => "apply_idempotency_gc" | TDriftAudit => "drift_audit"
              end) ∧
      pa_fields record !! "interval_secs" = Some (fmt_N (interval_secs (cws_schedule q))) ∧
      pa_fields record !! "run_immediately" =
        Some (if run_immediately (cws_schedule q) then "true" else "false")
  end.
Lemma change_record_audited ch : change_audited ch (change_record ch).
Proof using Type.
  destruct ch as [q|q|q]; split_and!; try done; simpl;
    unfold summary_retention_fields, journal_gc_retention_fields, schedule_fields, base_fields.
  all: rewrite ?lookup_insert, ?lookup_union, ?lookup_insert, ?lookup_singleton; simpl.
  all: first [done | by destruct (max_records _) | by destruct (max_bytes _)
             | by destruct (cws_target _)].
Qed.

(** The steps all three share. *)
Definition change_steps (c : ConfigChange) : M WorkerConfigAdminResponse :=
  let z := change_request c in
  _ ← st_lift (validate_base_request (az_request_id z) (az_operator_id z) (change_reason c));
  _ ← st_lift (change_check c);
  config ← on_fs (config_from_path (change_path c));
  config ← st_lift (change_edit c config);
  _ ← admin_authorize (az_request_id z) (az_trace_id z) (az_operator_id z) (az_action z);
  _ ← append_audit (change_record c);
  _ ← on_fs (write_to_path config (change_path c));
  mret (response (change_path c) (change_target c)).
Lemma run_change_steps c : run_change c = change_steps c.
Proof using Type. by destruct c. Qed.

Lemma config_from_path_spec path s text c r s' :
  fs_files s !! path = Some text → decode config_codec text = Ok c →
  config_from_path path s = (r, s') → fs_files s' = fs_files s ∧ ∀ c', r = Ok c' → c' = c.
Proof using Type.
  unfold config_from_path, parse_worker_config_payload, read_file. intros Ht Hd.
  unfold map_io, syscall, mbind, ST_bind, st_lift. simpl.
  destruct (io_fault o (fs_calls s)); simpl; [intros [= <- <-]; simpl; naive_solver|].
  rewrite Ht. simpl. rewrite Hd. intros [= <- <-]. simpl. naive_solver.
Qed.

Context (logged : P → list ProductAuditRecord → Prop) `{!ProductAuditLaws P logged}.
Context (Hcodec : codec_round_trip config_codec).

(** What a change leaves, whatever it answers: the file as it was, or, for a complete
    request, the configuration with only its value changed, authorized and audited. *)
Definition change_outcome (ch : ConfigChange) (w : Product) (text : string)
    (c : UnderlayWorkerDaemonConfig) (log : list ProductAuditRecord)
    (r : UnderlayResult WorkerConfigAdminResponse) (w' : Product) : Prop :=
  pr_summaries w' = pr_summaries w ∧
  (∃ tmp, FileSystem.untouched
     [change_path ch; "." +:+ change_path ch +:+ "." +:+ tmp +:+ ".tmp"] (pr_fs w) (pr_fs w')) ∧
  ∃ text', fs_files (pr_fs w') !! change_path ch = Some text' ∧
  (is_ok r = false ∧ text' = text ∨
   complete_request ch ∧ ∃ c' decision record,
     decode config_codec text' = Ok c' ∧ only_changed ch c c' ∧
     (validate_worker_config_for_runtime c = Ok tt → validate_worker_config_for_runtime c' = Ok tt) ∧
     authorize policy (change_request ch) = Ok decision ∧
     change_audited ch record ∧ logged (pr_audit w') (log ++ [record])).

Lemma change_refused ch w text c log e w1 :
  fs_files (pr_fs w) !! change_path ch = Some text →
  fs_files (pr_fs w1) = fs_files (pr_fs w) → pr_summaries w1 = pr_summaries w →
  change_outcome ch w text c log (Err e) w1.
Proof using Type.
  intros Ht Hf Hs. split; [done|]. split; [exists ""; intros k _; by rewrite Hf|].
  exists text. rewrite Hf. auto.
Qed.

(** The last step, after the log has the record. *)
Lemma change_written ch w text c log c' decision fs1 p1 r w' :
  fs_files (pr_fs w) !! change_path ch = Some text → fs_files fs1 = fs_files (pr_fs w) →
  complete_request ch → change_check ch = Ok tt → change_edit ch c = Ok c' →
  authorize policy (change_request ch) = Ok decision → logged p1 (log ++ [change_record ch]) →
  (_ ← on_fs (write_to_path c' (change_path ch));
   mret (response (change_path ch) (change_target ch))) (mkProduct fs1 (pr_summaries w) p1) = (r, w') →
  change_outcome ch w text c log r w'.
Proof using Hcodec.
  intros Ht Hf Hcomplete Hcheck Hedit Hz Hlog.
  unfold mbind at 1, ST_bind at 1, on_fs, write_to_path, write_value, mbind, ST_bind, st_lift. simpl.
  destruct (encode config_codec c') as [text1|e] eqn:Henc; simpl;
    [|intros [= <- <-]; by apply change_refused].
  apply Hcodec in Henc.
  destruct (atomic_write o (change_path ch) text1 worker_config_io_error fs1) as [x fs2] eqn:Hw.
  apply atomic_write_spec in Hw as ((tmp & Hu) & _ & Hx).
  assert (FileSystem.untouched [change_path ch; "." +:+ change_path ch +:+ "." +:+ tmp +:+ ".tmp"]
    (pr_fs w) fs2) as Hu' by (intros k Hk; by rewrite (Hu k Hk), Hf).
  assert (∀ rr ww, pr_fs ww = fs2 → pr_summaries ww = pr_summaries w → pr_audit ww = p1 →
    fs_files fs2 !! change_path ch = Some text1 → change_outcome ch w text c log rr ww) as Hdone.
  { intros rr ww H1 H2 H3 H4. split; [done|]. rewrite H1, H3. split; [by exists tmp|].
    exists text1. split; [done|]. right. split; [done|].
    exists c', decision, (change_record ch). split_and!; try done.
    - by apply change_edit_only.
    - by apply (change_edit_valid ch).
    - apply change_record_audited. }
  destruct x as [[]|e]; intros [= <- <-]; [by apply Hdone; try apply Hx|].
  destruct Hx as [Hx|Hx]; [by apply Hdone|]. split; [done|]. split; [by exists tmp|].
  exists text. simpl. rewrite Hx, Hf. auto.
Qed.

(** C32. A change of the daemon's configuration is authorized, audited and nothing
    else.  The file keeps its bytes unless the request names itself, its operator and
    its reason and asks for a usable value, the policy permits the operator the action,
    and the product audit log ends in a record of who asked for what and why; then it
    holds the old configuration with only the value asked for in place of the old one,
    every other section and every other field of that section as it was, which the
    daemon runs if it ran the old one.  A request that succeeds did so, and no other
    file is written (but for a temporary one). *)
Theorem config_change_audited ch w text c log r w' :
  fs_files (pr_fs w) !! change_path ch = Some text → decode config_codec text = Ok c →
  logged (pr_audit w) log → run_change ch w = (r, w') →
  change_outcome ch w text c log r w'.
Proof using Hcodec ProductAuditLaws0.
  intros Ht Hd Hlog. rewrite run_change_steps. unfold change_steps.
  unfold mbind at 1, ST_bind at 1, st_lift at 1.
  destruct (validate_base_request _ _ _) as [[]|e] eqn:Hbase; [|intros [= <- <-]; by apply change_refused].
  unfold mbind at 1, ST_bind at 1, st_lift at 1.
  destruct (change_check ch) as [[]|e] eqn:Hcheck; [|intros [= <- <-]; by apply change_refused].
  unfold mbind at 1, ST_bind at 1, on_fs at 1.
  destruct (config_from_path (change_path ch) (pr_fs w)) as [x fs1] eqn:Hread.
  destruct (config_from_path_spec _ _ _ _ _ _ Ht Hd Hread) as [Hf1 Hx].
  destruct x as [c1|e]; [rewrite (Hx c1 eq_refl)|intros [= <- <-]; by apply change_refused].
  unfold mbind at 1, ST_bind at 1, st_lift at 1.
  destruct (change_edit ch c) as [c'|e] eqn:Hedit; [|intros [= <- <-]; by apply change_refused].
  unfold mbind at 1, ST_bind at 1, admin_authorize at 1, st_lift at 1.
  replace (mkAuthorizationRequest _ _ _ _) with (change_request ch) by (by destruct (change_request ch)).
  destruct (authorize policy (change_request ch)) as [decision|e] eqn:Hz;
    [|intros [= <- <-]; by apply change_refused].
  unfold mbind at 1, ST_bind at 1, append_audit at 1, on_audit at 1. cbn [pr_audit pr_fs pr_summaries].
  destruct (product_append (change_record ch) (pr_audit w)) as [[[]|e] p1] eqn:Ha; cbn [map_err];
    [|intros [= <- <-]; by apply change_refused].
  apply (product_append_law _ _ _ _ Hlog) in Ha.
  eapply change_written; by eauto using complete_request_checked.
Qed.
End manager.
End Ops.

(** ** A change on one configuration *)

Module OpsSample.
Import Ops.
#[local] Instance RetentionPolicy_eq_dec : EqDecision RetentionPolicy.
Proof. solve_decision. Defined.
#[local] Instance Schedule_eq_dec : EqDecision Schedule.
Proof. solve_decision. Defined.
#[local] Instance Retention_eq_dec : EqDecision Collect.Retention.
Proof. solve_decision. Defined.
#[local] Instance LogDaemonConfig_eq_dec : EqDecision LogDaemonConfig.
Proof. solve_decision. Defined.
#[local] Instance WorkerReloadDaemonConfig_eq_dec : EqDecision WorkerReloadDaemonConfig.
Proof. solve_decision. Defined.
#[local] Instance OperationAlertDaemonConfig_eq_dec : EqDecision OperationAlertDaemonConfig.
Proof. solve_decision. Defined.
#[local] Instance JournalGcDaemonConfig_eq_dec : EqDecision JournalGcDaemonConfig.
Proof. solve_decision. Defined.
#[local] Instance ApplyIdempotencyGcDaemonConfig_eq_dec : EqDecision ApplyIdempotencyGcDaemonConfig.
Proof. solve_decision. Defined.
#[local] Instance DriftAuditDaemonConfig_eq_dec : EqDecision DriftAuditDaemonConfig.
Proof. solve_decision. Defined.
#[local] Instance UnderlayWorkerDaemonConfig_eq_dec : EqDecision UnderlayWorkerDaemonConfig.
Proof. solve_decision. Defined.

Definition every (interval : N) : UnderlayWorkerDaemonConfig :=
  mkDaemonConfig None
    (Some (mkLogConfig "ops.jsonl" default_retention_policy (mkSchedule interval true)))
    None None None None None.
(** A codec of two configurations. *)
Definition codec : Codec UnderlayWorkerDaemonConfig := mkCodec
  (λ c, if decide (c = every 60) then Ok "60" else if decide (c = every 30) then Ok "30"
        else Err "unsupported")
  (λ text, if String.eqb text "60" then Ok (every 60) else if String.eqb text "30" then Ok (every 30)
           else Err "parse").
Lemma ops_codec_ok : codec_round_trip codec.
Proof. intros c text. simpl. repeat case_decide; intros [= <-]; by subst. Qed.

Definition policy : StaticPolicy.Policy :=
  StaticPolicy.with_allowed_actions "alice" [ChangeDaemonSchedule] StaticPolicy.new.
Definition change (operator : string) : ConfigChange :=
  WorkerSchedule (mkChangeWorkerScheduleRequest "req-1" None "daemon.json" operator "faster"
    TOperationSummaryRetention (mkSchedule 30 true)).
Definition product : @Product InMemoryOperationSummaries.Store InMemoryProductAudit.Store :=
  mkProduct (mkFs true {[ "daemon.json" := "60" ]} 0) (InMemoryOperationSummaries.mkStore [])
    (InMemoryProductAudit.mkStore []).
Definition run (operator : string) :=
  run_change policy sample_oracle 7 codec (change operator) product.
End OpsSample.

Lemma config_change_audited_witness :
  let '(r, w') := OpsSample.run "alice" in
  is_ok r = true ∧ fs_files (Ops.pr_fs w') !! "daemon.json" = Some "30" ∧
  InMemoryProductAudit.records (Ops.pr_audit w') = [Ops.change_record 7 (OpsSample.change "alice")] ∧
  Ops.change_outcome OpsSample.policy 7 OpsSample.codec (λ s rs, InMemoryProductAudit.records s = rs)
    (OpsSample.change "alice") OpsSample.product "60" (OpsSample.every 60) [] r w'.
Proof.
  destruct (OpsSample.run "alice") as [r w'] eqn:Hrun.
  split; [|split; [|split]].
  1-3: revert Hrun; vm_compute; by intros [= <- <-].
  by apply (Ops.config_change_audited OpsSample.policy sample_oracle 7 OpsSample.codec
    (λ s rs, InMemoryProductAudit.records s = rs) OpsSample.ops_codec_ok).
Defined.
