(* ===== verification/ProductApi.v ===== *)
(** * The product API (src/api/product_identity.rs, product_api.rs, product_http.rs,
      product_server_config.rs)

    A request is routed by its path, its body is decoded, the bearer token in its
    headers is looked up, and the operation runs under a policy that grants the token's
    principal the actions the principal has, and nobody else anything.

    The decoders of bodies and the encoder of answers are parameters. *)
From S2P Require Export ProductOps.

(** ** Strings *)

(** [str::eq_ignore_ascii_case] *)
Definition eq_ignore_ascii_case (a b : string) : bool :=
  bool_decide (to_ascii_lowercase a = to_ascii_lowercase b).

(** [str::split_whitespace]: the maximal runs of bytes that are not white space. *)
Fixpoint split_ws (fuel : nat) (l cur : list ascii) : list (list ascii) :=
  let flush rest := match cur with [] => rest | _ => reverse cur :: rest end in
  match fuel with
  | O => flush []
  | S fuel =>
      match strip_one whitespace l with
      | Some l' => flush (split_ws fuel l' [])
      | None => match l with [] => flush [] | c :: l => split_ws fuel l (c :: cur) end
      end
  end.
Definition split_whitespace (s : string) : list string :=
  of_bytes <$> split_ws (S (length (bytes s))) (bytes s) [].

Example split_whitespace_examples :
  split_whitespace "Bearer  abc" = ["Bearer"; "abc"] ∧ split_whitespace "  " = [] ∧
  split_whitespace " a b c " = ["a"; "b"; "c"] ∧ split_whitespace "token" = ["token"].
Proof. by vm_compute. Qed.

Module Api.
Import Alerts Ops.

(** ** src/api/product_identity.rs *)

Notation Headers := (gmap string string).

Record ProductAuthenticatedPrincipal := mkPrincipal {
  pp_operator_id : string;
  pp_allowed_actions : gset AdminAction;
}.
Definition new_principal (operator_id : string) : ProductAuthenticatedPrincipal :=
  mkPrincipal operator_id all_actions.
Definition principal_with_allowed_actions (actions : list AdminAction)
    (p : ProductAuthenticatedPrincipal) : ProductAuthenticatedPrincipal :=
  mkPrincipal (pp_operator_id p) (list_to_set actions).

Definition validate_non_empty (field value : string) : UnderlayResult unit :=
  reject_if (str_is_empty (trim value)) (InvalidIntent (field +:+ " must not be empty")).
Definition validate_principal (p : ProductAuthenticatedPrincipal) : UnderlayResult unit :=
  _ ← validate_non_empty "product authenticated principal operator_id" (pp_operator_id p);
  reject_if (bool_decide (pp_allowed_actions p = ∅))
    (InvalidIntent "product authenticated principal allowed_actions must not be empty").
Definition auth_error (e : UnderlayError) : UnderlayError :=
  match e with
  | AuthenticationFailed _ => e
  | other => AuthenticationFailed (error_text other)
  end.

(** [dyn ProductIdentityVerifier] *)
Class ProductIdentityVerifier (V : Type) := {
  verify_bearer_token : V → string → UnderlayResult ProductAuthenticatedPrincipal;
}.
Record StaticProductIdentityVerifier := mkStaticVerifier {
  principals_by_token : gmap string ProductAuthenticatedPrincipal;
}.
Definition new_verifier : StaticProductIdentityVerifier := mkStaticVerifier ∅.
Definition with_token (token : string) (principal : ProductAuthenticatedPrincipal)
    (v : StaticProductIdentityVerifier) : StaticProductIdentityVerifier :=
  mkStaticVerifier (<[token := principal]> (principals_by_token v)).
Definition static_verify (v : StaticProductIdentityVerifier) (token : string)
    : UnderlayResult ProductAuthenticatedPrincipal :=
  _ ← map_err auth_error (validate_non_empty "product bearer token" token);
  principal ← ok_or (principals_by_token v !! token)
    (AuthenticationFailed "product bearer token is not trusted");
  _ ← map_err auth_error (validate_principal principal);
  Ok principal.
#[export] Instance static_verifier : ProductIdentityVerifier StaticProductIdentityVerifier :=
  {| verify_bearer_token := static_verify |}.

(** [headers.iter().find(|(key, _)| key.eq_ignore_ascii_case(name))..] *)
Definition header_value (headers : Headers) (name : string) : option string :=
  '(_, value) ← List.find (λ kv, eq_ignore_ascii_case kv.1 name) (bt_entries headers);
  if str_is_empty (trim value) then None else Some (trim value).

Definition AUTHORIZATION_HEADER : string := "authorization".
Definition bearer_token (headers : Headers) : UnderlayResult string :=
  value ← ok_or (header_value headers AUTHORIZATION_HEADER)
    (AuthenticationFailed "missing required product Authorization bearer token");
  match split_whitespace value with
  | [] => Err (AuthenticationFailed "missing required product Authorization bearer token")
  | scheme :: parts =>
      if negb (eq_ignore_ascii_case scheme "Bearer")
      then Err (AuthenticationFailed "product Authorization header must use Bearer scheme")
      else match parts with
      | [] => Err (AuthenticationFailed "product Authorization bearer token must not be empty")
      | [token] =>
          _ ← map_err auth_error (validate_non_empty "product bearer token" token);
          Ok token
      | _ => Err (AuthenticationFailed
               "product Authorization bearer token must not contain whitespace")
      end
  end.

(** ** src/api/product_api.rs *)

Record ProductApiRequest (T : Type) := mkProductApiRequest {
  pq_request_id : string;
  pq_trace_id : option string;
  pq_idempotency_key : option string;
  pq_headers : Headers;
  pq_body : T;
}.
Arguments mkProductApiRequest {T}. Arguments pq_request_id {T}. Arguments pq_trace_id {T}.
Arguments pq_idempotency_key {T}. Arguments pq_headers {T}. Arguments pq_body {T}.
Record ProductApiResponse (T : Type) := mkProductApiResponse {
  pr_request_id : string; pr_trace_id : string; pr_operator_id : string; pr_body : T;
}.
Arguments mkProductApiResponse {T}.
Record ProductApiRequestMetadata := mkMetadata {
  mt_request_id : string;
  mt_trace_id : option string;
  mt_idempotency_key : option string;
  mt_headers : Headers;
}.
Record ProductSession := mkSession {
  ps_operator_id : string;
  ps_allowed_actions : gset AdminAction;
}.
Definition metadata {T} (q : ProductApiRequest T) : ProductApiRequestMetadata :=
  mkMetadata (pq_request_id q) (pq_trace_id q) (pq_idempotency_key q) (pq_headers q).

(** [dyn ProductSessionExtractor] *)
Class ProductSessionExtractor (E : Type) := {
  extract : E → ProductApiRequestMetadata → UnderlayResult ProductSession;
}.
Record HeaderProductSessionExtractor := mkHeaderExtractor { operator_header : string }.
Definition default_header_extractor : HeaderProductSessionExtractor :=
  mkHeaderExtractor "x-aria-operator-id".
Definition missing_header_error (header : string) : UnderlayError :=
  InvalidIntent ("missing required product API header " +:+ header).
Definition header_extract (e : HeaderProductSessionExtractor) (m : ProductApiRequestMetadata)
    : UnderlayResult ProductSession :=
  _ ← validate_non_empty "product api request_id" (mt_request_id m);
  operator_id ← ok_or (header_value (mt_headers m) (operator_header e))
    (missing_header_error (operator_header e));
  Ok (mkSession operator_id all_actions).
#[export] Instance header_extractor : ProductSessionExtractor HeaderProductSessionExtractor :=
  {| extract := header_extract |}.

Record BearerTokenProductSessionExtractor (V : Type) := mkBearerExtractor { be_verifier : V }.
Arguments mkBearerExtractor {V}. Arguments be_verifier {V}.
Definition bearer_extract {V} `{!ProductIdentityVerifier V}
    (e : BearerTokenProductSessionExtractor V) (m : ProductApiRequestMetadata)
    : UnderlayResult ProductSession :=
  _ ← validate_non_empty "product api request_id" (mt_request_id m);
  token ← bearer_token (mt_headers m);
  principal ← verify_bearer_token (be_verifier e) token;
  Ok (mkSession (pp_operator_id principal) (pp_allowed_actions principal)).
#[export] Instance bearer_extractor {V} `{!ProductIdentityVerifier V} :
    ProductSessionExtractor (BearerTokenProductSessionExtractor V) :=
  {| extract := bearer_extract |}.

Definition operator_context (m : ProductApiRequestMetadata) (s : ProductSession)
    : ProductOperatorContext :=
  mkProductOperatorContext (mt_request_id m) (mt_trace_id m) (ps_operator_id s).
Definition trace_id_or_request_id (m : ProductApiRequestMetadata) : string :=
  default (mt_request_id m) (mt_trace_id m).
Definition api_response {T} (m : ProductApiRequestMetadata) (s : ProductSession) (trace_id : string)
    (body : T) : ProductApiResponse T :=
  mkProductApiResponse (mt_request_id m) trace_id (ps_operator_id s) body.
(** The policy of [manager_for_session]. *)
Definition session_policy (s : ProductSession) : StaticPolicy.Policy :=
  StaticPolicy.with_allowed_actions (ps_operator_id s) (elements (ps_allowed_actions s))
    StaticPolicy.new.

(** ** src/api/product_http.rs: messages *)

Inductive ProductHttpMethod := Get | Post | Put | Patch | Delete | Other (name : string).
#[global] Instance ProductHttpMethod_eq_dec : EqDecision ProductHttpMethod.
Proof. solve_decision. Defined.
Record ProductHttpRequest := mkProductHttpRequest {
  hq_method : ProductHttpMethod; hq_path : string; hq_headers : Headers; hq_body : string;
}.
Record ProductHttpResponse := mkProductHttpResponse {
  hr_status : N; hr_headers : Headers; hr_body : string;
}.
Record ProductHttpErrorResponse := mkProductHttpErrorResponse {
  he_request_id : option string; he_trace_id : option string;
  he_error_code : string; he_message : string;
}.

Definition OPERATION_SUMMARIES_QUERY_PATH : string := "/product/v1/operations/summaries:query".
Definition PRODUCT_AUDIT_EXPORT_PATH : string := "/product/v1/product-audit:export".
Definition WORKER_CONFIG_SUMMARY_RETENTION_CHANGE_PATH : string :=
  "/product/v1/worker-config/operation-summary-retention:change".
Definition WORKER_CONFIG_JOURNAL_GC_RETENTION_CHANGE_PATH : string :=
  "/product/v1/worker-config/journal-gc-retention:change".
Definition WORKER_CONFIG_SCHEDULE_CHANGE_PATH : string :=
  "/product/v1/worker-config/schedule:change".
Definition WORKER_RELOAD_STATUS_GET_PATH : string := "/product/v1/worker-reload/status:get".
Definition PRODUCT_STATUS_BUNDLE_GET_PATH : string := "/product/v1/status:bundle".
Definition REQUEST_ID_HEADER : string := "x-aria-request-id".
Definition TRACE_ID_HEADER : string := "x-aria-trace-id".
Definition IDEMPOTENCY_KEY_HEADER : string := "x-aria-idempotency-key".

(** [{:?}] of a method *)
Definition debug_ProductHttpMethod (m : ProductHttpMethod) : string :=
  match m with
  | Get => "Get" | Post => "Post" | Put => "Put" | Patch => "Patch" | Delete => "Delete"
  | Other name => "Other(" +:+ debug_str name +:+ ")"
  end.

Definition optional_header : Headers → string → option string := header_value.
Definition required_header (headers : Headers) (name : string) : UnderlayResult string :=
  ok_or (optional_header headers name)
    (InvalidIntent ("missing required product HTTP header " +:+ name)).
Definition trace_id_for_error (headers : Headers) : option string :=
  match optional_header headers TRACE_ID_HEADER with
  | Some trace_id => Some trace_id
  | None => optional_header headers REQUEST_ID_HEADER
  end.
Definition product_api_request {T} (request : ProductHttpRequest) (body : T)
    : UnderlayResult (ProductApiRequest T) :=
  request_id ← required_header (hq_headers request) REQUEST_ID_HEADER;
  Ok (mkProductApiRequest request_id (optional_header (hq_headers request) TRACE_ID_HEADER)
        (optional_header (hq_headers request) IDEMPOTENCY_KEY_HEADER) (hq_headers request) body).

(** The traits of bodies: [Default], and serde's two. *)
Class HasDefault (T : Type) := { default_value : T }.
Class DeserializeOwned (T : Type) := { from_slice : string → result string T }.
Class Serialize (T : Type) := { to_vec : T → result string string }.
#[export] Instance list_request_default : HasDefault ListOperationSummariesRequest :=
  {| default_value := default_list_request |}.
#[export] Instance export_request_default : HasDefault ExportProductAuditRequest :=
  {| default_value := default_export_request |}.
#[export] Instance summary_retention_default : HasDefault ProductChangeSummaryRetentionRequest :=
  {| default_value := default_change_summary_retention |}.
#[export] Instance journal_gc_retention_default : HasDefault ProductChangeJournalGcRetentionRequest :=
  {| default_value := default_change_journal_gc_retention |}.
#[export] Instance worker_schedule_default : HasDefault ProductChangeWorkerScheduleRequest :=
  {| default_value := default_change_worker_schedule |}.
#[export] Instance reload_status_default : HasDefault ProductGetWorkerReloadStatusRequest :=
  {| default_value := default_get_reload_status |}.
#[export] Instance status_bundle_default : HasDefault ProductStatusBundleRequest :=
  {| default_value := default_status_bundle |}.

Definition decode_body {T} `{!HasDefault T} `{!DeserializeOwned T} (request : ProductHttpRequest)
    : UnderlayResult T :=
  if str_is_empty (hq_body request) then Ok default_value
  else map_err (λ err, InvalidIntent ("invalid JSON body for " +:+ hq_path request +:+ ": " +:+ err))
         (from_slice (hq_body request)).

(** The body of an answer that cannot be serialized; [debug_str] quotes a name. *)
Definition fallback_body (message : string) : string :=
  "{" +:+ debug_str "request_id" +:+ ":null," +:+ debug_str "trace_id" +:+ ":null," +:+
  debug_str "error_code" +:+ ":" +:+ debug_str "internal_error" +:+ "," +:+
  debug_str "message" +:+ ":" +:+ debug_str message +:+ "}".
Definition json_response {T} `{!Serialize T} (status : N) (body : T) : ProductHttpResponse :=
  mkProductHttpResponse status {[ "content-type" := "application/json" ]}
    (match to_vec body with Ok payload => payload | Err _ =>
       fallback_body "failed to serialize product HTTP response" end).

Definition error_status (e : UnderlayError) : N * string :=
  match e with
  | AuthenticationFailed _ => (401, "authentication_failed")
  | InvalidIntent _ => (400, "invalid_request")
  | AuthorizationDenied _ => (403, "authorization_denied")
  | DeviceNotFound _ => (404, "not_found")
  | ProductAuditWriteFailed _ => (500, "product_audit_write_failed")
  | AdapterTransport _ | AdapterOperation _ _ _ _ => (502, "adapter_error")
  | _ => (500, "internal_error")
  end%N.

Section http.
Context {E S P : Type} `{!ProductSessionExtractor E} `{!OperationSummaryStore S}.
Context `{!ProductAuditStore P}.
Context (session_extractor : E) (o : FsOracle) (audit_time : N).
Context (config_codec : Codec UnderlayWorkerDaemonConfig) (checkpoint_codec : Codec WorkerReloadCheckpoint).
Context (alert_codec : Codec OperationAlert) (state_codec : Codec Records).
Notation Product := (@Ops.Product S P).
Notation M := (ST UnderlayError Product).

(** ** src/api/product_api.rs: [ProductOpsApi]

    [self.manager_for_session(&session)] is the operation under the policy of the
    session. *)

(** What every method does around the manager's operation. *)
Definition with_session {A B} (request : ProductApiRequest A)
    (operation : StaticPolicy.Policy → ProductOperatorContext → A → M B) : M (ProductApiResponse B) :=
  let metadata := metadata request in
  session ← st_lift (extract session_extractor metadata);
  let trace_id := trace_id_or_request_id metadata in
  body ← operation (session_policy session) (operator_context metadata session) (pq_body request);
  mret (api_response metadata session trace_id body).

Definition list_operation_summaries (request : ProductApiRequest ListOperationSummariesRequest)
    : M (ProductApiResponse ListOperationSummariesResponse) :=
  with_session request product_list_operation_summaries.
Definition export_product_audit (request : ProductApiRequest ExportProductAuditRequest)
    : M (ProductApiResponse ExportProductAuditResponse) :=
  with_session request (λ policy, Ops.export_product_audit policy audit_time).
Definition change_summary_retention (request : ProductApiRequest ProductChangeSummaryRetentionRequest)
    : M (ProductApiResponse WorkerConfigAdminResponse) :=
  with_session request (λ policy, Ops.change_summary_retention policy o audit_time config_codec).
Definition change_journal_gc_retention
    (request : ProductApiRequest ProductChangeJournalGcRetentionRequest)
    : M (ProductApiResponse WorkerConfigAdminResponse) :=
  with_session request (λ policy, Ops.change_journal_gc_retention policy o audit_time config_codec).
Definition change_worker_schedule (request : ProductApiRequest ProductChangeWorkerScheduleRequest)
    : M (ProductApiResponse WorkerConfigAdminResponse) :=
  with_session request (λ policy, Ops.change_worker_schedule policy o audit_time config_codec).
Definition get_worker_reload_status (request : ProductApiRequest ProductGetWorkerReloadStatusRequest)
    : M (ProductApiResponse WorkerReloadCheckpoint) :=
  with_session request (λ policy, Ops.get_worker_reload_status policy o checkpoint_codec).
Definition get_product_status_bundle (request : ProductApiRequest ProductStatusBundleRequest)
    : M (ProductApiResponse ProductStatusBundleResponse) :=
  with_session request
    (λ policy, Ops.get_product_status_bundle policy o checkpoint_codec alert_codec state_codec).

(** ** src/api/product_http.rs: the router *)

Context `{!DeserializeOwned ListOperationSummariesRequest}.
Context `{!DeserializeOwned ExportProductAuditRequest}.
Context `{!DeserializeOwned ProductChangeSummaryRetentionRequest}.
Context `{!DeserializeOwned ProductChangeJournalGcRetentionRequest}.
Context `{!DeserializeOwned ProductChangeWorkerScheduleRequest}.
Context `{!DeserializeOwned ProductGetWorkerReloadStatusRequest}.
Context `{!DeserializeOwned ProductStatusBundleRequest}.
Context `{!Serialize ProductHttpErrorResponse}.
Context `{!Serialize (ProductApiResponse ListOperationSummariesResponse)}.
Context `{!Serialize (ProductApiResponse ExportProductAuditResponse)}.
Context `{!Serialize (ProductApiResponse WorkerConfigAdminResponse)}.
Context `{!Serialize (ProductApiResponse WorkerReloadCheckpoint)}.
Context `{!Serialize (ProductApiResponse ProductStatusBundleResponse)}.

Definition error_response (request : ProductHttpRequest) (status : N) (error_code message : string)
    : ProductHttpResponse :=
  json_response status (mkProductHttpErrorResponse
    (optional_header (hq_headers request) REQUEST_ID_HEADER)
    (trace_id_for_error (hq_headers request)) error_code message).
Definition insert_header (name value : string) (r : ProductHttpResponse) : ProductHttpResponse :=
  mkProductHttpResponse (hr_status r) (<[name := value]> (hr_headers r)) (hr_body r).
Definition underlay_error_response (request : ProductHttpRequest) (error : UnderlayError)
    : ProductHttpResponse :=
  let '(status, error_code) := error_status error in
  let response := error_response request status error_code (error_text error) in
  if (status =? 401)%N then insert_header "www-authenticate" "Bearer" response else response.
Definition not_found_response (request : ProductHttpRequest) : ProductHttpResponse :=
  error_response request 404 "not_found" ("unknown product HTTP path " +:+ hq_path request).
Definition method_not_allowed_response (request : ProductHttpRequest) (allow : string)
    : ProductHttpResponse :=
  insert_header "allow" allow (error_response request 405 "method_not_allowed"
    ("method " +:+ debug_ProductHttpMethod (hq_method request) +:+ " is not allowed for " +:+
     hq_path request)).

(** [match decode_body(..).and_then(product_api_request).and_then(operation)] *)
Definition handle_with {A B} `{!HasDefault A} `{!DeserializeOwned A} `{!Serialize (ProductApiResponse B)}
    (operation : ProductApiRequest A → M (ProductApiResponse B)) (request : ProductHttpRequest)
    (w : Product) : ProductHttpResponse * Product :=
  let '(r, w) :=
    (body ← st_lift (decode_body request);
     api_request ← st_lift (product_api_request request body);
     operation api_request) w in
  (match r with
   | Ok response => json_response 200 response
   | Err error => underlay_error_response request error
   end, w).
Definition handle_operation_summaries_query := handle_with list_operation_summaries.
Definition handle_product_audit_export := handle_with export_product_audit.
Definition handle_summary_retention_change := handle_with change_summary_retention.
Definition handle_journal_gc_retention_change := handle_with change_journal_gc_retention.
Definition handle_worker_schedule_change := handle_with change_worker_schedule.
Definition handle_worker_reload_status_get := handle_with get_worker_reload_status.
Definition handle_product_status_bundle_get := handle_with get_product_status_bundle.

Definition handle (request : ProductHttpRequest) (w : Product) : ProductHttpResponse * Product :=
  let post h := match hq_method request with
    | Post => h request w
    | _ => (method_not_allowed_response request "POST", w)
    end in
  let path := hq_path request in
  if String.eqb path OPERATION_SUMMARIES_QUERY_PATH then post handle_operation_summaries_query
  else if String.eqb path PRODUCT_AUDIT_EXPORT_PATH then post handle_product_audit_export
  else if String.eqb path WORKER_CONFIG_SUMMARY_RETENTION_CHANGE_PATH
    then post handle_summary_retention_change
  else if String.eqb path WORKER_CONFIG_JOURNAL_GC_RETENTION_CHANGE_PATH
    then post handle_journal_gc_retention_change
  else if String.eqb path WORKER_CONFIG_SCHEDULE_CHANGE_PATH
    then post handle_worker_schedule_change
  else if String.eqb path WORKER_RELOAD_STATUS_GET_PATH
    then post handle_worker_reload_status_get
  else if String.eqb path PRODUCT_STATUS_BUNDLE_GET_PATH
    then post handle_product_status_bundle_get
  else (not_found_response request, w).

(** ** Nothing happens but what the session permits *)

(** The actions a path asks for. *)
Definition route_actions (path : string) : option (list AdminAction) :=
  if String.eqb path OPERATION_SUMMARIES_QUERY_PATH then Some [ListOperationSummaries]
  else if String.eqb path PRODUCT_AUDIT_EXPORT_PATH then Some [ExportAuditHistory]
  else if String.eqb path WORKER_CONFIG_SUMMARY_RETENTION_CHANGE_PATH
    then Some [ChangeRetentionPolicy]
  else if String.eqb path WORKER_CONFIG_JOURNAL_GC_RETENTION_CHANGE_PATH
    then Some [ChangeRetentionPolicy]
  else if String.eqb path WORKER_CONFIG_SCHEDULE_CHANGE_PATH then Some [ChangeDaemonSchedule]
  else if String.eqb path WORKER_RELOAD_STATUS_GET_PATH then Some [GetWorkerReloadStatus]
  else if String.eqb path PRODUCT_STATUS_BUNDLE_GET_PATH
    then Some [GetProductStatusBundle; ListOperationSummaries]
  else None.

(** The files and both stores are as they were. *)
Definition unchanged (w w' : Product) : Prop :=
  fs_files (pr_fs w') = fs_files (pr_fs w) ∧ pr_summaries w' = pr_summaries w ∧
  pr_audit w' = pr_audit w.
Definition refused {A} (w : Product) (x : UnderlayResult A * Product) : Prop :=
  is_ok x.1 = false ∧ unchanged w x.2.
(** An operation that a session without one of the actions gets nothing from. *)
Definition guarded {A B} (actions : list AdminAction)
    (op : StaticPolicy.Policy → ProductOperatorContext → A → M B) : Prop :=
  ∀ s m body w, ¬ Forall (.∈ ps_allowed_actions s) actions →
    refused w (op (session_policy s) (operator_context m s) body w).

Lemma unchanged_refl w : unchanged w w.
Proof using Type. done. Qed.
Lemma refused_Err {A} w e w' : unchanged w w' → @refused A w (Err e, w').
Proof using Type. by split. Qed.
Hint Resolve unchanged_refl refused_Err : core.
Lemma refused_trans {A} w w1 (x : UnderlayResult A * Product) :
  unchanged w w1 → refused w1 x → refused w x.
Proof using Type.
  unfold refused, unchanged. intros (-> & -> & ->). done.
Qed.

Lemma refused_bind {A B} w (m : M A) (f : A → M B) :
  refused w (m w) → refused w ((m ≫= f) w).
Proof using Type.
  unfold mbind, ST_bind. destruct (m w) as [[a|e] w1]; intros [Hok Hu]; [done|]. by split.
Qed.
(** A step that changes nothing but the number of calls comes before the refusal. *)
Lemma refused_after {A B} w (m : M A) (f : A → M B) :
  unchanged w (m w).2 → (∀ a w1, unchanged w w1 → refused w (f a w1)) → refused w ((m ≫= f) w).
Proof using Type.
  unfold mbind, ST_bind. destruct (m w) as [[a|e] w1]; intros Hu Hf; [by apply Hf|]. auto.
Qed.
Lemma refused_lift_bind {A B} w w0 (x : UnderlayResult A) (f : A → M B) :
  unchanged w w0 → (∀ a, refused w (f a w0)) → refused w ((st_lift x ≫= f) w0).
Proof using Type. intros Hu Hf. destruct x; [apply Hf|by apply refused_Err]. Qed.

Lemma session_denies s m action req tr :
  action ∉ ps_allowed_actions s →
  is_ok (AdminOps.authorize (session_policy s)
    (mkAuthorizationRequest req tr (po_operator (operator_context m s)) action)) = false.
Proof using Type.
  intros Ha. apply not_true_iff_false. intros Hok. apply Ha.
  apply StaticPolicy.authorize_granted in Hok. by apply elem_of_elements.
Qed.
Lemma authorize_refused {A} s m action req tr w w0 (f : AuthorizationDecision → M A) :
  action ∉ ps_allowed_actions s → unchanged w w0 →
  refused w ((admin_authorize (session_policy s) req tr (po_operator (operator_context m s)) action ≫= f) w0).
Proof using Type.
  intros Ha Hu. apply (session_denies s m action req tr) in Ha.
  unfold admin_authorize, mbind, ST_bind, st_lift.
  destruct (AdminOps.authorize _ _); [done|]. by apply refused_Err.
Qed.
Lemma context_refused {A} s m action label w (f : string * AuthorizationDecision → M A) :
  action ∉ ps_allowed_actions s →
  refused w ((authorize_context (session_policy s) (operator_context m s) action label ≫= f) w).
Proof using Type.
  intros Ha. apply refused_bind. unfold authorize_context.
  do 2 (apply refused_lift_bind; [done|intros _]). by apply authorize_refused.
Qed.

Lemma config_read_unchanged path w : unchanged w (on_fs (config_from_path o config_codec path) w).2.
Proof using Type.
  unfold on_fs, config_from_path, read_file, map_io, syscall, mbind, ST_bind, st_lift, unchanged.
  destruct (io_fault o (fs_calls (pr_fs w))); simpl; [done|].
  by destruct (fs_files (pr_fs w) !! path); simpl.
Qed.
Lemma change_refused_for s m ch w :
  az_operator_id (change_request ch) = po_operator (operator_context m s) →
  az_action (change_request ch) ∉ ps_allowed_actions s →
  refused w (run_change (session_policy s) o audit_time config_codec ch w).
Proof using Type.
  intros Hop Ha. rewrite run_change_steps. unfold change_steps. rewrite Hop.
  do 2 (apply refused_lift_bind; [done|intros _]).
  apply refused_after; [apply config_read_unchanged|]. intros config w1 Hu.
  apply refused_lift_bind; [done|]. intros config'. by apply authorize_refused.
Qed.

Lemma guarded_one {A B} action (op : StaticPolicy.Policy → ProductOperatorContext → A → M B) :
  (∀ s m body w, action ∉ ps_allowed_actions s →
    refused w (op (session_policy s) (operator_context m s) body w)) → guarded [action] op.
Proof using Type.
  intros H s m body w Hn. apply H. intros Ha. apply Hn. by constructor.
Qed.
Lemma list_guarded : guarded [ListOperationSummaries] product_list_operation_summaries.
Proof using Type. apply guarded_one. intros. by apply context_refused. Qed.
Lemma export_guarded :
  guarded [ExportAuditHistory] (λ policy, Ops.export_product_audit policy audit_time).
Proof using Type.
  apply guarded_one. intros. apply refused_lift_bind; [done|intros _]. by apply context_refused.
Qed.
Lemma summary_retention_guarded : guarded [ChangeRetentionPolicy]
  (λ policy, Ops.change_summary_retention policy o audit_time config_codec).
Proof using Type.
  apply guarded_one. intros s m body w Ha. by apply (change_refused_for s m (SummaryRetention _)).
Qed.
Lemma journal_gc_retention_guarded : guarded [ChangeRetentionPolicy]
  (λ policy, Ops.change_journal_gc_retention policy o audit_time config_codec).
Proof using Type.
  apply guarded_one. intros s m body w Ha. by apply (change_refused_for s m (JournalGcRetention _)).
Qed.
Lemma worker_schedule_guarded : guarded [ChangeDaemonSchedule]
  (λ policy, Ops.change_worker_schedule policy o audit_time config_codec).
Proof using Type.
  apply guarded_one. intros s m body w Ha. by apply (change_refused_for s m (WorkerSchedule _)).
Qed.
Lemma reload_status_guarded : guarded [GetWorkerReloadStatus]
  (λ policy, Ops.get_worker_reload_status policy o checkpoint_codec).
Proof using Type.
  apply guarded_one. intros. apply refused_lift_bind; [done|intros _]. by apply context_refused.
Qed.
Lemma status_bundle_guarded : guarded [GetProductStatusBundle; ListOperationSummaries]
  (λ policy, Ops.get_product_status_bundle policy o checkpoint_codec alert_codec state_codec).
Proof using Type.
  intros s m body w Hn. destruct (decide (GetProductStatusBundle ∈ ps_allowed_actions s)) as [Hb|Hb];
    [|by apply context_refused].
  assert (ListOperationSummaries ∉ ps_allowed_actions s) as Ha
    by (intros Ha; apply Hn; by repeat constructor).
  unfold Ops.get_product_status_bundle. apply refused_after.
  - unfold authorize_context, admin_authorize, mbind, ST_bind, st_lift, mret, ST_ret.
    repeat (case_match; simplify_eq/=; try done).
  - intros a w1 Hu. apply (refused_trans w w1); [done|]. apply refused_bind.
    by apply context_refused.
Qed.

(** The request is a POST with an identity, and the identity has the actions. *)
Definition permitted (request : ProductHttpRequest) (actions : list AdminAction) : Prop :=
  hq_method request = Post ∧
  ∃ request_id s,
    required_header (hq_headers request) REQUEST_ID_HEADER = Ok request_id ∧
    extract session_extractor (mkMetadata request_id
      (optional_header (hq_headers request) TRACE_ID_HEADER)
      (optional_header (hq_headers request) IDEMPOTENCY_KEY_HEADER) (hq_headers request)) = Ok s ∧
    Forall (.∈ ps_allowed_actions s) actions.
Definition guarded_answer (actions : list AdminAction) (request : ProductHttpRequest) (w : Product)
    (x : ProductHttpResponse * Product) : Prop :=
  permitted request actions ∨ hr_status x.1 ≠ 200%N ∧ unchanged w x.2.

Lemma error_status_not_ok request e : hr_status (underlay_error_response request e) ≠ 200%N.
Proof using Type. by destruct e. Qed.
Lemma handle_with_guarded {A B} `{!HasDefault A} `{!DeserializeOwned A}
    `{!Serialize (ProductApiResponse B)} actions
    (op : StaticPolicy.Policy → ProductOperatorContext → A → M B) request w :
  hq_method request = Post → guarded actions op →
  guarded_answer actions request w (handle_with (λ q, with_session q op) request w).
Proof using Type.
  intros Hm Hop. unfold guarded_answer, handle_with, product_api_request, with_session.
  unfold mbind, ST_bind, result_bind, st_lift, mret, ST_ret.
  destruct (decode_body request) as [body|e]; [|right; split; [apply error_status_not_ok|done]].
  destruct (required_header _ _) as [rid|e] eqn:Hr; [|right; split; [apply error_status_not_ok|done]].
  cbn [metadata pq_request_id pq_trace_id pq_idempotency_key pq_headers pq_body].
  destruct (extract _ _) as [s|e] eqn:Hs; [|right; split; [apply error_status_not_ok|done]].
  destruct (decide (Forall (.∈ ps_allowed_actions s) actions)) as [Hf|Hf].
  - left. split; [done|]. by exists rid, s.
  - right. specialize (Hop s (mkMetadata rid (optional_header (hq_headers request) TRACE_ID_HEADER)
      (optional_header (hq_headers request) IDEMPOTENCY_KEY_HEADER) (hq_headers request)) body w Hf).
    destruct (op _ _ _ w) as [[b|e] w']; destruct Hop as [Hok Hu]; [done|].
    split; [apply error_status_not_ok|done].
Qed.

Lemma handle_guarded request w :
  match route_actions (hq_path request) with
  | Some actions => guarded_answer actions request w (handle request w)
  | None => handle request w = (not_found_response request, w)
  end.
Proof using Type.
  assert (∀ actions h, (hq_method request = Post → guarded_answer actions request w h) →
    guarded_answer actions request w
      (match hq_method request with
       | Post => h | _ => (method_not_allowed_response request "POST", w) end)) as Hpost.
  { intros actions h Hh. destruct (hq_method request) eqn:Hm; auto; by right. }
  unfold handle, route_actions.
  repeat match goal with |- context [String.eqb (hq_path request) ?p] =>
    destruct (String.eqb (hq_path request) p);
      [apply Hpost; intros Hm; apply handle_with_guarded; [done|]|] end; [..|done].
  all: auto using list_guarded, export_guarded, summary_retention_guarded,
    journal_gc_retention_guarded, worker_schedule_guarded, reload_status_guarded,
    status_bundle_guarded.
Qed.
End http.

(** ** src/api/product_server_config.rs *)

(** [std::net::SocketAddr] *)
Inductive IpAddr := V4 (a b c d : N) | V6 (address : N).
Definition is_loopback (ip : IpAddr) : bool :=
  match ip with V4 a _ _ _ => (a =? 127)%N | V6 n => (n =? 1)%N end.
Record SocketAddr := mkSocketAddr { ip : IpAddr; port : N }.

(** [ProductHttpListenerConfig] of src/api/product_http_server.rs *)
Record ProductHttpListenerConfig := mkListenerConfig {
  li_bind_addr : SocketAddr; li_max_body_bytes : N;
}.
Definition DEFAULT_MAX_BODY_BYTES : N := 1024 * 1024.
Definition default_listener_config : ProductHttpListenerConfig :=
  mkListenerConfig (mkSocketAddr (V4 127 0 0 1) 8088) DEFAULT_MAX_BODY_BYTES.
Definition loopback (port : N) : ProductHttpListenerConfig :=
  mkListenerConfig (mkSocketAddr (V4 127 0 0 1) port) (li_max_body_bytes default_listener_config).
Definition listener_validate (c : ProductHttpListenerConfig) : UnderlayResult unit :=
  reject_if (li_max_body_bytes c =? 0)%N
    (InvalidIntent "product HTTP max_body_bytes must be greater than zero").

Record ProductApiServerConfig := mkServerConfig {
  sc_bind_addr : SocketAddr;
  sc_max_body_bytes : N;
  sc_operation_summary_path : string;
  sc_product_audit_path : string;
  sc_static_tokens : gmap string ProductAuthenticatedPrincipal;
}.
Definition default_max_body_bytes : N := 1024 * 1024.
Definition listener_config (c : ProductApiServerConfig) : ProductHttpListenerConfig :=
  mkListenerConfig (sc_bind_addr c) (sc_max_body_bytes c).
Definition validate_non_empty_path (field path : string) : UnderlayResult unit :=
  reject_if (str_is_empty path) (InvalidIntent ("product API " +:+ field +:+ " must not be empty")).
Definition server_config_validate (c : ProductApiServerConfig) : UnderlayResult unit :=
  _ ← listener_validate (listener_config c);
  _ ← validate_non_empty_path "operation_summary_path" (sc_operation_summary_path c);
  _ ← validate_non_empty_path "product_audit_path" (sc_product_audit_path c);
  _ ← reject_if (bool_decide (sc_static_tokens c = ∅))
        (InvalidIntent "product API config static_tokens must not be empty");
  _ ← reject_if (negb (is_loopback (ip (sc_bind_addr c))))
        (InvalidIntent "product API must bind to a loopback address");
  forM_ (λ '(token, principal),
    _ ← validate_non_empty "product API static token" token;
    validate_principal principal) (bt_entries (sc_static_tokens c)).
Definition identity_verifier (c : ProductApiServerConfig) : StaticProductIdentityVerifier :=
  foldl (λ v '(token, principal), with_token token principal v) new_verifier
    (bt_entries (sc_static_tokens c)).
(** The session extractor of the router; the stores are those of the state. *)
Definition router (c : ProductApiServerConfig)
    : UnderlayResult (BearerTokenProductSessionExtractor StaticProductIdentityVerifier) :=
  _ ← server_config_validate c;
  Ok (mkBearerExtractor (identity_verifier c)).

Lemma with_tokens_lookup l v token principal :
  principals_by_token (foldl (λ v '(token, principal), with_token token principal v) v l) !! token
    = Some principal →
  (token, principal) ∈ l ∨ principals_by_token v !! token = Some principal.
Proof.
  revert v. induction l as [|[t p] l IH]; intros v; simpl; [auto|]. intros H%IH.
  destruct H as [H|H]; [left; by right|]. simpl in H.
  destruct (decide (t = token)) as [->|Ht].
  - rewrite lookup_insert_eq in H. left. rewrite elem_of_cons. naive_solver.
  - rewrite lookup_insert_ne in H by done. auto.
Qed.
Lemma identity_verifier_lookup c token principal :
  principals_by_token (identity_verifier c) !! token = Some principal →
  sc_static_tokens c !! token = Some principal.
Proof.
  intros [H|H]%with_tokens_lookup; [by apply elem_of_bt_entries|]. simpl in H; by rewrite lookup_empty in H.
Qed.

Section product_server.
Context {S P : Type} `{!OperationSummaryStore S} `{!ProductAuditStore P}.
Context (o : FsOracle) (audit_time : N).
Context (config_codec : Codec UnderlayWorkerDaemonConfig) (checkpoint_codec : Codec WorkerReloadCheckpoint).
Context (alert_codec : Codec OperationAlert) (state_codec : Codec Records).
Context `{!DeserializeOwned ListOperationSummariesRequest}.
Context `{!DeserializeOwned ExportProductAuditRequest}.
Context `{!DeserializeOwned ProductChangeSummaryRetentionRequest}.
Context `{!DeserializeOwned ProductChangeJournalGcRetentionRequest}.
Context `{!DeserializeOwned ProductChangeWorkerScheduleRequest}.
Context `{!DeserializeOwned ProductGetWorkerReloadStatusRequest}.
Context `{!DeserializeOwned ProductStatusBundleRequest}.
Context `{!Serialize ProductHttpErrorResponse}.
Context `{!Serialize (ProductApiResponse ListOperationSummariesResponse)}.
Context `{!Serialize (ProductApiResponse ExportProductAuditResponse)}.
Context `{!Serialize (ProductApiResponse WorkerConfigAdminResponse)}.
Context `{!Serialize (ProductApiResponse WorkerReloadCheckpoint)}.
Context `{!Serialize (ProductApiResponse ProductStatusBundleResponse)}.

(** The token of the request is one of the configuration, and its principal has every
    action the path asks for. *)
Definition trusted (c : ProductApiServerConfig) (request : ProductHttpRequest) : Prop :=
  hq_method request = Post ∧
  ∃ actions token principal,
    route_actions (hq_path request) = Some actions ∧
    bearer_token (hq_headers request) = Ok token ∧
    sc_static_tokens c !! token = Some principal ∧
    Forall (.∈ pp_allowed_actions principal) actions.

Lemma permitted_trusted c request actions :
  route_actions (hq_path request) = Some actions →
  permitted (mkBearerExtractor (identity_verifier c)) request actions → trusted c request.
Proof using Type.
  intros Hroute (Hm & rid & s & _ & Hs & Hf). split; [done|]. exists actions.
  cbn [extract bearer_extractor] in Hs. unfold bearer_extract in Hs.
  cbn [verify_bearer_token static_verifier be_verifier mt_headers mt_request_id] in Hs.
  unfold static_verify in Hs. inv_ok; simplify_eq/=.
  match goal with H : _ !! _ = _ |- _ => apply identity_verifier_lookup in H end. eauto 10.
Qed.

(** The product server acts for nobody it does not trust.  With the router of a
    configuration, a request that is not a POST to a known path with a bearer token
    listed in the configuration, whose principal has every action the path asks for (the
    status bundle asks for two), is not answered 200, and leaves the configuration and
    alert files, the operation summaries and the product audit log as they were. *)
Theorem http_only_trusted c e request w :
  router c = Ok e →
  let x := handle e o audit_time config_codec checkpoint_codec alert_codec state_codec request w in
  trusted c request ∨ hr_status x.1 ≠ 200%N ∧ @unchanged S P w x.2.
Proof using Type.
  intros He. unfold router in He. inv_ok. subst. simpl.
  pose proof (handle_guarded (mkBearerExtractor (identity_verifier c)) o audit_time config_codec
    checkpoint_codec alert_codec state_codec request w) as Hg.
  destruct (route_actions (hq_path request)) as [actions|] eqn:Hroute.
  - destruct Hg as [Hp|Hr]; [left; by eapply permitted_trusted|by right].
  - right. by rewrite Hg.
Qed.
End product_server.
End Api.

(** ** A server with one token *)

Module ApiSample.
Import Api Ops.
(** Every body decodes to one request; answers print as their names. *)
#[export] Instance d1 : DeserializeOwned ListOperationSummariesRequest :=
  {| from_slice _ := Ok default_list_request |}.
#[export] Instance d2 : DeserializeOwned ExportProductAuditRequest :=
  {| from_slice _ := Ok (mkExportProductAuditRequest "review" None None None None) |}.
#[export] Instance d3 : DeserializeOwned ProductChangeSummaryRetentionRequest :=
  {| from_slice _ := Err "unsupported" |}.
#[export] Instance d4 : DeserializeOwned ProductChangeJournalGcRetentionRequest :=
  {| from_slice _ := Err "unsupported" |}.
#[export] Instance d5 : DeserializeOwned ProductChangeWorkerScheduleRequest :=
  {| from_slice path := Ok (mkProductChangeWorkerScheduleRequest path "faster"
       TOperationSummaryRetention (mkSchedule 30 true)) |}.
#[export] Instance d6 : DeserializeOwned ProductGetWorkerReloadStatusRequest :=
  {| from_slice _ := Err "unsupported" |}.
#[export] Instance d7 : DeserializeOwned ProductStatusBundleRequest :=
  {| from_slice _ := Ok default_status_bundle |}.
#[export] Instance s0 : Serialize ProductHttpErrorResponse := {| to_vec e := Ok (he_error_code e) |}.
#[export] Instance s1 {T} : Serialize (ProductApiResponse T) :=
  {| to_vec r := Ok (pr_operator_id T r) |}.
Definition checkpoints : Codec WorkerReloadCheckpoint := mkCodec (λ _, Err "unsupported") (λ _, Err "parse").
Definition alerts : Codec Alerts.OperationAlert := mkCodec (λ _, Err "unsupported") (λ _, Err "parse").
Definition states : Codec Alerts.Records := mkCodec (λ _, Err "unsupported") (λ _, Err "parse").

Definition config : ProductApiServerConfig :=
  mkServerConfig (mkSocketAddr (V4 127 0 0 1) 8088) default_max_body_bytes "ops.jsonl" "audit.jsonl"
    {[ "t0ken" := mkPrincipal "alice" {[ ChangeDaemonSchedule ]} ]}.
Definition request (token path body : string) : ProductHttpRequest :=
  mkProductHttpRequest Post path
    (<["authorization" := "Bearer " +:+ token]> {[ "x-aria-request-id" := "req-1" ]}) body.
Definition serve_for (e : BearerTokenProductSessionExtractor StaticProductIdentityVerifier)
    (q : ProductHttpRequest) :=
  handle e sample_oracle 7 OpsSample.codec checkpoints
    alerts states q OpsSample.product.
Definition serve := serve_for (mkBearerExtractor (identity_verifier config)).
Definition unprivileged : BearerTokenProductSessionExtractor StaticProductIdentityVerifier :=
  mkBearerExtractor (with_token "t0ken"
    (mkPrincipal "bob" {[ ListOperationSummaries ]}) new_verifier).
End ApiSample.

(** What the server answers: the trusted token may change a schedule and not export the
    audit log; another token may do nothing. *)
Example api_sample :
  let change token := ApiSample.serve
    (ApiSample.request token Api.WORKER_CONFIG_SCHEDULE_CHANGE_PATH "daemon.json") in
  Api.hr_status (change "t0ken").1 = 200%N ∧
  fs_files (Ops.pr_fs (change "t0ken").2) !! "daemon.json" = Some "30" ∧
  Api.hr_status (change "guess").1 = 401%N ∧
  Api.hr_headers (change "guess").1 !! "www-authenticate" = Some "Bearer" ∧
  Api.hr_status (ApiSample.serve (ApiSample.request "t0ken" Api.PRODUCT_AUDIT_EXPORT_PATH "x")).1
    = 403%N.
Proof. vm_compute. auto 10. Qed.

Lemma http_only_trusted_witness :
  let q := ApiSample.request "t0ken" Api.PRODUCT_AUDIT_EXPORT_PATH "x" in
  Api.trusted ApiSample.config q ∨
  Api.hr_status (ApiSample.serve q).1 ≠ 200%N ∧ Api.unchanged OpsSample.product (ApiSample.serve q).2.
Proof.
  intros q. apply (Api.http_only_trusted sample_oracle 7 OpsSample.codec ApiSample.checkpoints
    ApiSample.alerts ApiSample.states ApiSample.config); reflexivity.
Defined.

(** The configuration file is read before the operator is authorized: an operator with
    no right to change anything learns from the answer whether a file exists. *)
Example config_read_before_authorization :
  let status path := Api.hr_status (ApiSample.serve_for ApiSample.unprivileged
    (ApiSample.request "t0ken" Api.WORKER_CONFIG_SCHEDULE_CHANGE_PATH path)).1 in
  status "daemon.json" = 403%N ∧ status "missing.json" = 500%N.
Proof. vm_compute. auto. Qed.
