(* ===== verification/HttpServer.v ===== *)
(** * The HTTP front end of the product API (src/api/product_http_server.rs)

    One request per connection: bytes are read in chunks until the header block and a
    body of the announced length have arrived, the request is parsed and routed, and the
    answer is written with its own length.

    A stream is the list of what [read] returns on it, an empty chunk at its end; a
    stream whose list is used up has a peer that sends nothing more and does not close.
    A buffer holds at most [isize::MAX] bytes, so that the additions of its length to a
    length the configuration allows are exact when the latter is below [isize::MAX]. *)
From S2P Require Export ProductApi.

Module Http.
Import Api.

Notation Buf := (list ascii).

Definition MAX_HEADER_BYTES : N := 16 * 1024.
Definition CRLF : Buf := [byte 13; byte 10].
Definition HEADER_END : Buf := [byte 13; byte 10; byte 13; byte 10].
Definition len (l : Buf) : N := N.of_nat (length l).
Definition usize_add (a b : N) : N := (a + b) mod 2 ^ 64.

(** ** Bytes and strings *)

(** [payload.windows(HEADER_END.len()).position(|window| window == HEADER_END)] *)
Fixpoint position (p l : Buf) : option nat :=
  if bool_decide (p `prefix_of` l) then Some O
  else match l with [] => None | _ :: l => S <$> position p l end.
Definition header_end_offset (payload : Buf) : option nat := position HEADER_END payload.

(** [str::split("\r\n")] *)
Fixpoint split_crlf (l cur : Buf) : list Buf :=
  match l with
  | [] => [reverse cur]
  | c :: l' =>
      match l' with
      | d :: l'' =>
          if bool_decide (c = byte 13 ∧ d = byte 10) then reverse cur :: split_crlf l'' []
          else split_crlf l' (c :: cur)
      | [] => [reverse (c :: cur)]
      end
  end.

(** [str::split_once(c)] and the first part of [str::split(c)] *)
Fixpoint split_once (sep : ascii) (l : Buf) : option (Buf * Buf) :=
  match l with
  | [] => None
  | c :: l => if bool_decide (c = sep) then Some ([], l)
              else '(a, b) ← split_once sep l; Some (c :: a, b)
  end.
Definition before (sep : ascii) (l : Buf) : Buf :=
  match split_once sep l with Some (a, _) => a | None => l end.

Section server.
Context `{!Serialize ProductHttpErrorResponse}.
(** The text of the error of [str::from_utf8]. *)
Context (utf8_error : Buf → string).

Definition from_utf8 (l : Buf) : result string string :=
  if is_utf8 l then Ok (of_bytes l) else Err (utf8_error l).

(** ** Parsing *)

Definition server_error_response (headers : Headers) (status : N) (error_code message : string)
    : ProductHttpResponse :=
  let request_id := header_value headers "x-aria-request-id" in
  let trace_id := match header_value headers "x-aria-trace-id" with
                  | Some trace_id => Some trace_id | None => request_id end in
  mkProductHttpResponse status {[ "content-type" := "application/json" ]}
    (match to_vec (mkProductHttpErrorResponse request_id trace_id error_code message) with
     | Ok payload => payload
     | Err _ => fallback_body "failed to serialize product HTTP server error"
     end).

Definition method_of (name : string) : ProductHttpMethod :=
  if String.eqb name "GET" then Get
  else if String.eqb name "POST" then Post
  else if String.eqb name "PUT" then Put
  else if String.eqb name "PATCH" then Patch
  else if String.eqb name "DELETE" then Delete
  else Other name.
Definition parse_request_line (line : string) : result ProductHttpResponse (ProductHttpMethod * string) :=
  let malformed message := Err (server_error_response ∅ 400 "malformed_http" message) in
  match split_whitespace line with
  | [] => malformed "product HTTP request line is missing method"
  | [_] => malformed "product HTTP request line is missing target"
  | [_; _] => malformed "product HTTP request line is missing HTTP version"
  | method :: target :: version :: parts =>
      if negb (bool_decide (parts = [])) || negb (String.eqb version "HTTP/1.1")
      then malformed "product HTTP server accepts only HTTP/1.1 request lines"
      else Ok (method_of method, of_bytes (before "?" (bytes target)))
  end.

Definition parse_header (headers : Headers) (line : Buf) : result ProductHttpResponse Headers :=
  if str_is_empty (trim (of_bytes line)) then Ok headers else
  match split_once ":" line with
  | None => Err (server_error_response headers 400 "malformed_http"
      ("product HTTP header is missing ':' separator: " +:+ of_bytes line))
  | Some (name, value) =>
      let name := to_ascii_lowercase (trim (of_bytes name)) in
      if str_is_empty name
      then Err (server_error_response headers 400 "malformed_http"
                  "product HTTP header name must not be empty")
      else Ok (<[name := trim (of_bytes value)]> headers)
  end.
Definition parse_headers (lines : list Buf) : result ProductHttpResponse Headers :=
  foldM parse_header ∅ lines.
Definition parse_header_block (payload : Buf) : result string Headers :=
  header_text ← map_err (λ err, "invalid header utf-8: " +:+ err) (from_utf8 payload);
  map_err (λ response, match from_utf8 (bytes (hr_body response)) with
                       | Ok text => text | Err _ => "invalid product HTTP headers" end)
    (parse_headers (tail (split_crlf (bytes header_text) []))).

Definition content_length (headers : Headers) : result string N :=
  match header_value headers "content-length" with
  | None => Ok 0%N
  | Some value => map_err
      (λ err, "product HTTP Content-Length must be a non-negative integer: " +:+ err)
      (parse_u64 value)
  end.

Definition parse_http_request (payload : Buf) (max_body_bytes : N)
    : result ProductHttpResponse ProductHttpRequest :=
  header_end ← ok_or (header_end_offset payload)
    (server_error_response ∅ 400 "malformed_http"
       "product HTTP request is missing header terminator");
  _ ← reject_if (MAX_HEADER_BYTES <? N.of_nat header_end)%N
    (server_error_response ∅ 400 "headers_too_large"
       "product HTTP headers exceed the configured safety limit");
  header_text ← map_err (λ err, server_error_response ∅ 400 "malformed_http"
      ("product HTTP headers must be utf-8: " +:+ err)) (from_utf8 (take header_end payload));
  let lines := split_crlf (bytes header_text) [] in
  '(method, path) ← parse_request_line (of_bytes (default [] (head lines)));
  headers ← parse_headers (tail lines);
  _ ← match header_value headers "transfer-encoding" with
      | Some transfer_encoding => reject_if (negb (eq_ignore_ascii_case transfer_encoding "identity"))
          (server_error_response headers 400 "unsupported_transfer_encoding"
             "product HTTP server requires Content-Length and does not accept transfer-encoding")
      | None => Ok tt
      end;
  content_length ← map_err (λ message, server_error_response headers 400 "invalid_content_length" message)
    (content_length headers);
  _ ← reject_if (max_body_bytes <? content_length)%N
    (server_error_response headers 413 "payload_too_large"
       ("product HTTP body exceeds " +:+ fmt_N max_body_bytes +:+ " bytes"));
  let body_start := usize_add (N.of_nat header_end) 4 in
  let body_end := usize_add body_start content_length in
  _ ← reject_if (len payload <? body_end)%N
    (server_error_response headers 400 "incomplete_body"
       "product HTTP body is shorter than Content-Length");
  Ok (mkProductHttpRequest method path headers
        (of_bytes (drop (N.to_nat body_start) (take (N.to_nat body_end) payload)))).

(** ** Reading *)

Definition product_http_io_error (err : string) : UnderlayError :=
  Internal ("product HTTP server io error: " +:+ err).

(** Whether the reader is done with a buffer. *)
Definition enough (buffer : Buf) (max_body_bytes : N) : bool :=
  match header_end_offset buffer with
  | None => (MAX_HEADER_BYTES <? len buffer)%N
  | Some header_end =>
      let headers := match parse_header_block (take header_end buffer) with
                     | Ok headers => headers | Err _ => ∅ end in
      let content_length := match content_length headers with Ok n => n | Err _ => 0%N end in
      (max_body_bytes <? content_length)%N
      || (usize_add (usize_add (N.of_nat header_end) 4) content_length <=? len buffer)%N
  end.
Fixpoint read_loop (max_body_bytes : N) (reads : list (result string Buf)) (buffer : Buf)
    : option (UnderlayResult Buf) :=
  match reads with
  | [] => None
  | Err e :: _ => Some (Err (product_http_io_error e))
  | Ok [] :: _ => Some (Ok buffer)
  | Ok chunk :: reads =>
      let buffer := buffer ++ chunk in
      if enough buffer max_body_bytes then Some (Ok buffer)
      else read_loop max_body_bytes reads buffer
  end.
Definition read_http_request (reads : list (result string Buf)) (max_body_bytes : N)
    : option (UnderlayResult Buf) := read_loop max_body_bytes reads [].

(** ** Answers *)

Definition reason_phrase (status : N) : string :=
  match status with
  | 200 => "OK" | 400 => "Bad Request" | 401 => "Unauthorized" | 403 => "Forbidden"
  | 404 => "Not Found" | 405 => "Method Not Allowed" | 413 => "Payload Too Large"
  | 500 => "Internal Server Error" | 502 => "Bad Gateway" | _ => "Unknown"
  end%N.
Definition encode_header (h : string * string) : Buf :=
  bytes (h.1 +:+ ": " +:+ h.2) ++ CRLF.
Definition encode_http_response (response : ProductHttpResponse) : Buf :=
  let headers := <["content-length" := fmt_N (len (bytes (hr_body response)))]>
                 (<["connection" := "close"]> (hr_headers response)) in
  bytes ("HTTP/1.1 " +:+ fmt_N (hr_status response) +:+ " " +:+ reason_phrase (hr_status response))
  ++ CRLF ++ (bt_entries headers ≫= encode_header) ++ CRLF ++ bytes (hr_body response).

(** ** Framing: how the bytes arrive does not matter *)

Lemma prefix_app_cut (p l l' : Buf) :
  (length p ≤ length l)%nat → p `prefix_of` l ++ l' ↔ p `prefix_of` l.
Proof using Type.
  intros Hl. split; [|apply prefix_app_r]. intros [k Hk]. exists (drop (length p) l).
  apply (f_equal (take (length l))) in Hk. rewrite take_app_length, take_app in Hk.
  rewrite Hk at 1. rewrite (take_ge p) by done. f_equal.
  apply (f_equal (drop (length p))) in Hk. rewrite drop_app_length' in Hk; [done|].
  rewrite length_take. lia.
Qed.
Lemma prefix_cons_cut (p : Buf) c l l' :
  (length p ≤ S (length l))%nat →
  bool_decide (p `prefix_of` c :: l ++ l') = bool_decide (p `prefix_of` c :: l).
Proof using Type. intros Hl. apply bool_decide_ext. by apply (prefix_app_cut p (c :: l)). Qed.
Lemma position_Some p l n : position p l = Some n → (n + length p ≤ length l)%nat.
Proof using Type.
  revert n. induction l as [|c l IH]; intros n; simpl; case_bool_decide as Hp; intros H; simplify_eq;
    try (apply prefix_length in Hp; simpl in *; lia).
  apply fmap_Some in H as (m & Hm & ->). apply IH in Hm. lia.
Qed.
(** The first occurrence is the same in whatever prefix holds it. *)
Lemma position_app p l l' n :
  position p l = Some n ↔ position p (l ++ l') = Some n ∧ (n + length p ≤ length l)%nat.
Proof using Type.
  split.
  - intros H. pose proof (position_Some _ _ _ H) as Hn. split; [|done]. revert n H Hn.
    induction l as [|c l IH]; intros n; simpl.
    + case_bool_decide as Hp; intros [= <-] _. apply prefix_nil_inv in Hp as ->. by destruct l'.
    + intros H Hn. rewrite prefix_cons_cut by lia.
      case_bool_decide; [done|]. apply fmap_Some in H as (m & Hm & ->).
      rewrite (IH m) by (done || lia). done.
  - intros [H Hn]. revert n H Hn. induction l as [|c l IH]; intros n; simpl.
    + intros H Hn. assert (n = O) as -> by lia. destruct p; [|simpl in Hn; lia]. done.
    + intros H Hn. rewrite prefix_cons_cut in H by lia.
      case_bool_decide; [done|]. apply fmap_Some in H as (m & Hm & ->).
      rewrite (IH m) by (done || lia). done.
Qed.

(** What the parser takes from the header block. *)
Definition parse_block (head : Buf) (max_body_bytes : N)
    : result ProductHttpResponse (ProductHttpMethod * string * Headers * N) :=
  header_text ← map_err (λ err, server_error_response ∅ 400 "malformed_http"
      ("product HTTP headers must be utf-8: " +:+ err)) (from_utf8 head);
  let lines := split_crlf (bytes header_text) [] in
  '(method, path) ← parse_request_line (of_bytes (default [] (list.head lines)));
  headers ← parse_headers (tail lines);
  _ ← match header_value headers "transfer-encoding" with
      | Some transfer_encoding => reject_if (negb (eq_ignore_ascii_case transfer_encoding "identity"))
          (server_error_response headers 400 "unsupported_transfer_encoding"
             "product HTTP server requires Content-Length and does not accept transfer-encoding")
      | None => Ok tt
      end;
  n ← map_err (λ message, server_error_response headers 400 "invalid_content_length" message)
    (content_length headers);
  _ ← reject_if (max_body_bytes <? n)%N
    (server_error_response headers 413 "payload_too_large"
       ("product HTTP body exceeds " +:+ fmt_N max_body_bytes +:+ " bytes"));
  Ok (method, path, headers, n).

Definition fits (payload : Buf) (max_body_bytes : N) : Prop :=
  (len payload < 2 ^ 63 ∧ max_body_bytes < 2 ^ 63 - 2 ^ 16)%N.

Lemma parse_block_length head max m path headers n :
  parse_block head max = Ok (m, path, headers, n) →
  parse_header_block head = Ok headers ∧ content_length headers = Ok n ∧ (n ≤ max)%N.
Proof using Type.
  unfold parse_block, parse_header_block, from_utf8. destruct (is_utf8 head); [|done]. simpl.
  destruct (parse_request_line _) as [[m' path']|]; [|done]. simpl.
  destruct (parse_headers _) as [hs|]; [|done]. simpl. intros H. inv_ok. simplify_eq.
  split_and!; try done.
  match goal with H : (_ <? _)%N = false |- _ => apply N.ltb_ge in H end. done.
Qed.

Lemma parse_by_block payload max :
  parse_http_request payload max =
  (head_end ← ok_or (header_end_offset payload) (server_error_response ∅ 400 "malformed_http"
     "product HTTP request is missing header terminator");
   _ ← reject_if (MAX_HEADER_BYTES <? N.of_nat head_end)%N
    (server_error_response ∅ 400 "headers_too_large"
       "product HTTP headers exceed the configured safety limit");
   '(m, path, headers, n) ← parse_block (take head_end payload) max;
   let body_start := usize_add (N.of_nat head_end) 4 in
   let body_end := usize_add body_start n in
   _ ← reject_if (len payload <? body_end)%N
    (server_error_response headers 400 "incomplete_body"
       "product HTTP body is shorter than Content-Length");
   Ok (mkProductHttpRequest m path headers
        (of_bytes (drop (N.to_nat body_start) (take (N.to_nat body_end) payload))))).
Proof using Type.
  unfold parse_http_request, parse_block. unfold mbind, result_bind.
  destruct (header_end_offset payload) as [he|]; [|done]. cbn [ok_or].
  destruct (reject_if _ _) as [[]|]; [|done]. destruct (map_err _ _); [|done].
  destruct (parse_request_line _) as [[m path]|]; [|done]. destruct (parse_headers _) as [hs|]; [|done].
  destruct (match header_value hs _ with Some _ => _ | None => _ end) as [[]|]; [|done].
  destruct (map_err _ _); [|done]. by destruct (reject_if _ _) as [[]|].
Qed.

Lemma body_bounds payload max head_end n :
  fits payload max → header_end_offset payload = Some head_end → (n ≤ max)%N →
  (N.of_nat head_end ≤ MAX_HEADER_BYTES)%N →
  usize_add (N.of_nat head_end) 4 = (N.of_nat head_end + 4)%N ∧
  usize_add (usize_add (N.of_nat head_end) 4) n = (N.of_nat head_end + 4 + n)%N.
Proof using Type.
  unfold fits, MAX_HEADER_BYTES, usize_add. intros [Hp Hm] He Hn Hmax.
  rewrite (N.mod_small (N.of_nat head_end + 4)) by lia. split; [done|]. apply N.mod_small. lia.
Qed.

Lemma parse_Ok payload max q :
  fits payload max →
  parse_http_request payload max = Ok q ↔
  ∃ head_end m path headers n,
    header_end_offset payload = Some head_end ∧ (N.of_nat head_end ≤ MAX_HEADER_BYTES)%N ∧
    parse_block (take head_end payload) max = Ok (m, path, headers, n) ∧
    (N.of_nat head_end + 4 + n ≤ len payload)%N ∧
    q = mkProductHttpRequest m path headers
          (of_bytes (take (N.to_nat n) (drop (head_end + 4) payload))).
Proof using Type.
  intros Hfits. rewrite parse_by_block. split.
  - intros H. apply bind_Ok in H as (he & He & H). apply ok_or_Ok in He.
    apply bind_unit_Ok in H as [Hr H]. apply reject_if_Ok, N.ltb_ge in Hr.
    apply bind_Ok in H as ([[[m path] headers] n] & Hb & H). cbv beta iota zeta in H.
    destruct (parse_block_length _ _ _ _ _ _ Hb) as (_ & _ & Hn).
    destruct (body_bounds _ _ _ _ Hfits He Hn Hr) as [E1 E2]. rewrite E2, E1 in H.
    apply bind_unit_Ok in H as [Hl H]. apply reject_if_Ok, N.ltb_ge in Hl.
    exists he, m, path, headers, n. split_and!; try done. injection H as <-. do 2 f_equal.
    rewrite take_drop_commute. do 2 f_equal; lia.
  - intros (he & m & path & headers & n & He & Hr & Hb & Hl & ->). rewrite He. simpl.
    rewrite (proj2 (N.ltb_ge _ _) Hr). simpl. rewrite Hb. simpl.
    destruct (parse_block_length _ _ _ _ _ _ Hb) as (_ & _ & Hn).
    destruct (body_bounds _ _ _ _ Hfits He Hn Hr) as [E1 E2]. rewrite E2, E1.
    rewrite (proj2 (N.ltb_ge _ _) Hl). simpl. do 3 f_equal.
    rewrite take_drop_commute. do 2 f_equal; lia.
Qed.

Lemma fits_prefix buf rest max : fits (buf ++ rest) max → fits buf max.
Proof using Type. unfold fits, len. rewrite length_app. lia. Qed.
Lemma header_end_bound payload head_end :
  header_end_offset payload = Some head_end → (head_end + 4 ≤ length payload)%nat.
Proof using Type. apply position_Some. Qed.

(** What the reader makes of a block that the parser accepts. *)
Lemma enough_of_block buf max head_end m path headers n :
  fits buf max → header_end_offset buf = Some head_end → (N.of_nat head_end ≤ MAX_HEADER_BYTES)%N →
  parse_block (take head_end buf) max = Ok (m, path, headers, n) →
  enough buf max = (N.of_nat head_end + 4 + n <=? len buf)%N.
Proof using Type.
  intros Hfits He Hr Hb. unfold enough. rewrite He.
  destruct (parse_block_length _ _ _ _ _ _ Hb) as (-> & -> & Hn).
  destruct (body_bounds _ _ _ _ Hfits He Hn Hr) as [_ ->].
  by rewrite (proj2 (N.ltb_ge _ _) Hn).
Qed.
Lemma parse_enough payload max q :
  fits payload max → parse_http_request payload max = Ok q → enough payload max = true.
Proof using Type.
  intros Hfits (he & m & path & headers & n & He & Hr & Hb & Hl & _)%parse_Ok; [|done].
  erewrite enough_of_block by done. by apply N.leb_le.
Qed.

(** A prefix at which the reader stops is parsed as the whole. *)
Lemma parse_restrict buf rest max q :
  fits (buf ++ rest) max → parse_http_request (buf ++ rest) max = Ok q →
  (∀ head_end, header_end_offset (buf ++ rest) = Some head_end →
    N.of_nat head_end + 3 ≤ MAX_HEADER_BYTES)%N →
  enough buf max = true → parse_http_request buf max = Ok q.
Proof using Type.
  intros Hfits Hq Hsmall Henough.
  apply parse_Ok in Hq as (he & m & path & headers & n & He & Hr & Hb & Hl & ->); [|done].
  apply fits_prefix in Hfits. specialize (Hsmall he He).
  destruct (decide (he + 4 ≤ length buf)%nat) as [Hle|Hgt].
  - assert (header_end_offset buf = Some he) as He' by by apply (position_app _ buf rest).
    rewrite take_app_le in Hb by lia. erewrite enough_of_block in Henough by done.
    apply N.leb_le in Henough. unfold len in *. apply parse_Ok; [done|].
    exists he, m, path, headers, n. split_and!; try done.
    rewrite drop_app_le, take_app_le by (rewrite ?length_drop; lia). done.
  - exfalso. destruct (header_end_offset buf) as [he'|] eqn:He'.
    + pose proof (header_end_bound _ _ He'). apply (position_app _ buf rest) in He' as [He' _].
      unfold header_end_offset in He. rewrite He in He'. simplify_eq. lia.
    + unfold enough in Henough. rewrite He' in Henough. apply N.ltb_lt in Henough.
      unfold len, MAX_HEADER_BYTES in *. lia.
Qed.

Lemma read_loop_framed chunks rest max q buffer :
  let payload := buffer ++ concat chunks in
  fits payload max → Forall (.≠ []) chunks → chunks ≠ [] →
  (∀ head_end, header_end_offset payload = Some head_end →
    N.of_nat head_end + 3 ≤ MAX_HEADER_BYTES)%N →
  parse_http_request payload max = Ok q →
  ∃ buf, read_loop max ((Ok <$> chunks) ++ rest) buffer = Some (Ok buf) ∧
    buf `prefix_of` payload ∧ parse_http_request buf max = Ok q.
Proof using Type.
  revert buffer. induction chunks as [|chunk chunks IH]; [done|].
  intros buffer. cbv zeta. simpl concat. rewrite app_assoc. intros Hfits Hne _ Hsmall Hq.
  apply Forall_cons in Hne as [Hc Hne]. simpl. destruct chunk as [|c chunk]; [done|].
  destruct (enough (buffer ++ c :: chunk) max) eqn:Henough.
  - exists (buffer ++ c :: chunk). split; [done|]. split; [by apply prefix_app_r|].
    by eapply parse_restrict.
  - apply IH; try done. intros ->. simpl in *. rewrite app_nil_r in *.
    by rewrite (parse_enough _ _ _ Hfits Hq) in Henough.
Qed.

(** C33. The server acts on the same request however its bytes arrive.  When a payload is
    a request the parser accepts, possibly with bytes after its body, whose header block
    is at least three bytes shorter than [MAX_HEADER_BYTES] (16384), and when the payload
    is shorter than 2^63 bytes and the listener allows bodies of less than 2^63 - 2^16
    bytes ([fits]), then for every division of the payload into non-empty chunks, and whatever
    the connection does after them, the reader ends without waiting for more and what it
    read is parsed as that request.  For a longer header block the answer does depend on
    the division ([header_limit_depends_on_chunks]). *)
Theorem request_read_in_chunks chunks rest max q :
  fits (concat chunks) max → Forall (.≠ []) chunks →
  (∀ head_end, header_end_offset (concat chunks) = Some head_end →
    N.of_nat head_end + 3 ≤ MAX_HEADER_BYTES)%N →
  parse_http_request (concat chunks) max = Ok q →
  ∃ buf, read_http_request ((Ok <$> chunks) ++ rest) max = Some (Ok buf) ∧
    parse_http_request buf max = Ok q.
Proof using Type.
  intros Hfits Hne Hsmall Hq.
  destruct (read_loop_framed chunks rest max q []) as (buf & Hread & _ & Hbuf); try done; [|eauto].
  intros ->. rewrite parse_by_block in Hq. done.
Qed.

(** ** The server: a router on a state, and the listener's configuration *)

Context {W : Type} (router_handle : ProductHttpRequest → W → ProductHttpResponse * W).
Context (config : ProductHttpListenerConfig).

Definition handle_http_bytes (payload : Buf) (w : W) : Buf * W :=
  let '(response, w) := match parse_http_request payload (li_max_body_bytes config) with
    | Ok request => router_handle request w
    | Err response => (response, w)
    end in
  (encode_http_response response, w).

(** What the system does with a connection. *)
Record TcpStream := mkTcpStream {
  tcp_reads : list (result string Buf);
  tcp_write_all : result string unit;
  tcp_shutdown : result string unit;
}.
(** The result, what was written, and the state; [None] while the peer keeps the server
    waiting. *)
Definition serve_stream (stream : TcpStream) (w : W)
    : option (UnderlayResult unit * option Buf * W) :=
  match read_http_request (tcp_reads stream) (li_max_body_bytes config) with
  | None => None
  | Some (Err e) => Some (Err e, None, w)
  | Some (Ok request) =>
      let '(response, w) := handle_http_bytes request w in
      Some (_ ← map_err product_http_io_error (tcp_write_all stream);
            map_err product_http_io_error (tcp_shutdown stream), Some response, w)
  end.

(** The accept loop: the connections it spawns a task for, and its result when it ends. *)
Inductive ListenerEvent := Shutdown | Accepted (stream : result string TcpStream).
Fixpoint serve_listener_until_shutdown (events : list ListenerEvent)
    : list TcpStream * option (UnderlayResult unit) :=
  match events with
  | [] => ([], None)
  | Shutdown :: _ => ([], Some (Ok tt))
  | Accepted (Err e) :: _ => ([], Some (Err (product_http_io_error e)))
  | Accepted (Ok stream) :: events =>
      let '(spawned, r) := serve_listener_until_shutdown events in (stream :: spawned, r)
  end.
End server.
End Http.

(** ** Requests in chunks *)

Import ApiSample.

Module HttpSample.
Import Http Api.
Definition parse := parse_http_request (λ _, "invalid utf-8").
Definition read := read_http_request (λ _, "invalid utf-8").
Definition line (s : string) : list ascii := bytes s ++ CRLF.
Definition chunks : list (list ascii) :=
  [line "POST /product/v1/status:bundle?x=1 HTTP/1.1" ++ bytes "Content-Len";
   bytes "gth: 2" ++ [byte 13]; [byte 10; byte 13; byte 10] ++ bytes "{"; bytes "}GET"].
(** A header block of [MAX_HEADER_BYTES] bytes. *)
Definition largest : list ascii :=
  line "GET / HTTP/1.1" ++ bytes "x: " ++ replicate (16384 - 19) "a"%char ++ HEADER_END.
Definition cut (n : nat) : list (result string (list ascii)) :=
  [Ok (take n largest); Ok (drop n largest); Ok []].
Definition accepted (reads : list (result string (list ascii))) : bool :=
  match read reads 1024 with
  | Some (Ok buf) => is_ok (parse buf 1024)
  | _ => false
  end.
End HttpSample.

Lemma request_read_in_chunks_witness :
  ∃ q buf, HttpSample.parse (concat HttpSample.chunks) 1024 = Ok q ∧ Api.hq_body q = "{}" ∧
    HttpSample.read ((Ok <$> HttpSample.chunks) ++ []) 1024 = Some (Ok buf) ∧
    HttpSample.parse buf 1024 = Ok q.
Proof.
  destruct (HttpSample.parse (concat HttpSample.chunks) 1024) as [q|] eqn:Hq;
    [|vm_compute in Hq; discriminate].
  destruct (Http.request_read_in_chunks (λ _, "invalid utf-8") HttpSample.chunks [] 1024 q)
    as (buf & Hread & Hbuf).
  - split; by vm_compute.
  - by repeat constructor.
  - intros n. vm_compute. by intros [= <-].
  - exact Hq.
  - exists q, buf. split; [reflexivity|]. split; [|by split].
    revert Hq. vm_compute. by intros [= <-].
Defined.

(** At the limit the division into chunks decides: the same header block is accepted in
    one piece and rejected when the read ends inside its terminator. *)
Example header_limit_depends_on_chunks :
  Http.header_end_offset HttpSample.largest = Some 16384%nat ∧
  HttpSample.accepted (HttpSample.cut 16388) = true ∧ HttpSample.accepted (HttpSample.cut 16384) = true ∧
  HttpSample.accepted (HttpSample.cut 16385) = false ∧ HttpSample.accepted (HttpSample.cut 16387) = false.
Proof. by vm_compute. Qed.
