(* ===== verification/Sot.v ===== *)
(** * Source-of-truth snapshots (src/sot/snapshot.rs)

    What an external inventory says of devices, interfaces, VLANs, access lists, policies
    and neighbours, and the check that it is consistent before anything is planned from it. *)
From S2P Require Export Validation.

Module Sot.

Record SotSource := mkSotSource { so_system : string; so_reference : string }.
Record SotDevice := mkSotDevice {
  sd_device_id : string; sd_vendor : string; sd_model : string; sd_os_version : string;
  sd_model_profile_ref : option string; sd_source : SotSource;
}.
Record SotInterface := mkSotInterface {
  si_device_id : string; si_name : string; si_description : option string; si_source : SotSource;
}.
Record SotVlan := mkSotVlan {
  sv_device_id : string; sv_vlan_id : N; sv_name : option string; sv_owner : string;
  sv_source : SotSource;
}.
Record SotAcl := mkSotAcl {
  sa_device_id : string; sa_acl_id : N; sa_owner : string; sa_source : SotSource;
}.
Record SotPolicyIntent := mkSotPolicyIntent {
  sp_device_id : string; sp_policy_id : string; sp_owner : string; sp_source : SotSource;
}.
Record SotPrefixList := mkSotPrefixList {
  sl_device_id : string; sl_name : string; sl_address_family : string; sl_owner : string;
  sl_source : SotSource;
}.
Record SotRoutePolicy := mkSotRoutePolicy {
  sr_device_id : string;
  sr_name : string;
  sr_owner : string;
  sr_referenced_acl_ids : list N;
  sr_referenced_prefix_lists : list string;
  sr_referenced_community_lists : list string;
  sr_source : SotSource;
}.
Record SotBgpNeighbor := mkSotBgpNeighbor {
  sn_device_id : string; sn_vrf : string; sn_neighbor_address : string; sn_remote_as : N;
  sn_owner : string; sn_source : SotSource;
}.
Record SotSnapshot := mkSotSnapshot {
  ss_devices : list SotDevice;
  ss_interfaces : list SotInterface;
  ss_vlans : list SotVlan;
  ss_acls : list SotAcl;
  ss_policy_intents : list SotPolicyIntent;
  ss_prefix_lists : list SotPrefixList;
  ss_route_policies : list SotRoutePolicy;
  ss_bgp_neighbors : list SotBgpNeighbor;
}.

Notation R := (result string).

Definition require_non_empty (field value : string) : R string :=
  let trimmed := trim value in
  if str_is_empty trimmed then Err (field +:+ " must not be empty") else Ok trimmed.
Definition validate_source (source : SotSource) (field : string) : R unit :=
  _ ← require_non_empty (field +:+ " system") (so_system source);
  _ ← require_non_empty (field +:+ " reference") (so_reference source);
  Ok tt.
Definition ensure_known_device (device_ids : gset string) (device_id subject : string) : R unit :=
  if decide (device_id ∈ device_ids) then Ok tt
  else Err (subject +:+ " references unknown device_id " +:+ device_id).
Definition validate_devices (s : SotSnapshot) : R (gset string) :=
  foldM (λ device_ids device,
    device_id ← require_non_empty "SoT device_id" (sd_device_id device);
    _ ← validate_source (sd_source device) ("SoT device " +:+ device_id +:+ " source");
    insert_unique device_ids device_id ("duplicate SoT device_id " +:+ device_id)) ∅ (ss_devices s).

Definition validate_interfaces (device_ids : gset string) (s : SotSnapshot) : R unit :=
  _ ← foldM (λ seen interface,
    _ ← ensure_known_device device_ids (si_device_id interface)
          ("SoT interface " +:+ si_name interface);
    name ← require_non_empty "SoT interface name" (si_name interface);
    _ ← validate_source (si_source interface)
          ("SoT interface " +:+ si_device_id interface +:+ "/" +:+ name +:+ " source");
    insert_unique seen (si_device_id interface, name)
      ("duplicate SoT interface " +:+ si_device_id interface +:+ "/" +:+ name))
    ∅ (ss_interfaces s);
  Ok tt.

Definition validate_vlans (device_ids : gset string) (s : SotSnapshot) : R unit :=
  _ ← foldM (λ seen vlan,
    let id := fmt_N (sv_vlan_id vlan) in
    _ ← ensure_known_device device_ids (sv_device_id vlan) ("SoT vlan " +:+ id);
    _ ← require_non_empty ("SoT vlan " +:+ id +:+ " owner") (sv_owner vlan);
    _ ← validate_source (sv_source vlan)
          ("SoT vlan " +:+ sv_device_id vlan +:+ "/" +:+ id +:+ " source");
    insert_unique seen (sv_device_id vlan, sv_vlan_id vlan)
      ("duplicate SoT vlan " +:+ sv_device_id vlan +:+ "/" +:+ id))
    ∅ (ss_vlans s);
  Ok tt.

Definition validate_acls (device_ids : gset string) (s : SotSnapshot) : R (gset (string * N)) :=
  foldM (λ seen acl,
    let id := fmt_N (sa_acl_id acl) in
    _ ← ensure_known_device device_ids (sa_device_id acl) ("SoT acl " +:+ id);
    _ ← require_non_empty ("SoT acl " +:+ id +:+ " owner") (sa_owner acl);
    _ ← validate_source (sa_source acl)
          ("SoT acl " +:+ sa_device_id acl +:+ "/" +:+ id +:+ " source");
    insert_unique seen (sa_device_id acl, sa_acl_id acl)
      ("duplicate SoT acl " +:+ sa_device_id acl +:+ "/" +:+ id))
    ∅ (ss_acls s).

Definition validate_policy_intents (device_ids : gset string) (s : SotSnapshot) : R unit :=
  _ ← foldM (λ seen policy,
    _ ← ensure_known_device device_ids (sp_device_id policy) ("SoT policy " +:+ sp_policy_id policy);
    policy_id ← require_non_empty "SoT policy_id" (sp_policy_id policy);
    _ ← require_non_empty ("SoT policy " +:+ policy_id +:+ " owner") (sp_owner policy);
    _ ← validate_source (sp_source policy)
          ("SoT policy " +:+ sp_device_id policy +:+ "/" +:+ policy_id +:+ " source");
    insert_unique seen (sp_device_id policy, policy_id)
      ("duplicate SoT policy " +:+ sp_device_id policy +:+ "/" +:+ policy_id))
    ∅ (ss_policy_intents s);
  Ok tt.

Definition validate_prefix_lists (device_ids : gset string) (s : SotSnapshot)
    : R (gset (string * string)) :=
  foldM (λ seen prefix_list,
    _ ← ensure_known_device device_ids (sl_device_id prefix_list)
          ("SoT prefix-list " +:+ sl_name prefix_list);
    name ← require_non_empty "SoT prefix-list name" (sl_name prefix_list);
    _ ← require_non_empty ("SoT prefix-list " +:+ name +:+ " address_family")
          (sl_address_family prefix_list);
    _ ← require_non_empty ("SoT prefix-list " +:+ name +:+ " owner") (sl_owner prefix_list);
    _ ← validate_source (sl_source prefix_list)
          ("SoT prefix-list " +:+ sl_device_id prefix_list +:+ "/" +:+ name +:+ " source");
    insert_unique seen (sl_device_id prefix_list, name)
      ("duplicate SoT prefix-list " +:+ sl_device_id prefix_list +:+ "/" +:+ name))
    ∅ (ss_prefix_lists s).

(** The references of a policy, checked after its key is known to be new. *)
Definition validate_references (acl_keys : gset (string * N)) (prefix_list_keys : gset (string * string))
    (policy : SotRoutePolicy) (name : string) : R unit :=
  let what := "SoT route policy " +:+ sr_device_id policy +:+ "/" +:+ name in
  _ ← forM_ (λ acl_id,
        if decide ((sr_device_id policy, acl_id) ∈ acl_keys) then Ok tt
        else Err (what +:+ " references unknown ACL " +:+ fmt_N acl_id))
      (sr_referenced_acl_ids policy);
  _ ← forM_ (λ prefix_list,
        prefix_list ← require_non_empty "SoT route policy referenced_prefix_list" prefix_list;
        if decide ((sr_device_id policy, prefix_list) ∈ prefix_list_keys) then Ok tt
        else Err (what +:+ " references unknown prefix-list " +:+ prefix_list))
      (sr_referenced_prefix_lists policy);
  forM_ (λ community_list,
      _ ← require_non_empty "SoT route policy referenced_community_list" community_list; Ok tt)
    (sr_referenced_community_lists policy).
Definition validate_route_policies (device_ids : gset string) (acl_keys : gset (string * N))
    (prefix_list_keys : gset (string * string)) (s : SotSnapshot) : R unit :=
  _ ← foldM (λ seen policy,
    _ ← ensure_known_device device_ids (sr_device_id policy) ("SoT route policy " +:+ sr_name policy);
    name ← require_non_empty "SoT route policy name" (sr_name policy);
    _ ← require_non_empty ("SoT route policy " +:+ name +:+ " owner") (sr_owner policy);
    _ ← validate_source (sr_source policy)
          ("SoT route policy " +:+ sr_device_id policy +:+ "/" +:+ name +:+ " source");
    seen ← insert_unique seen (sr_device_id policy, name)
      ("duplicate SoT route policy " +:+ sr_device_id policy +:+ "/" +:+ name);
    _ ← validate_references acl_keys prefix_list_keys policy name;
    Ok seen)
    ∅ (ss_route_policies s);
  Ok tt.

Definition validate_bgp_neighbors (device_ids : gset string) (s : SotSnapshot) : R unit :=
  _ ← foldM (λ seen neighbor,
    _ ← ensure_known_device device_ids (sn_device_id neighbor)
          ("SoT bgp neighbor " +:+ sn_neighbor_address neighbor);
    vrf ← require_non_empty "SoT bgp vrf" (sn_vrf neighbor);
    address ← require_non_empty "SoT bgp neighbor_address" (sn_neighbor_address neighbor);
    _ ← require_non_empty ("SoT bgp neighbor " +:+ address +:+ " owner") (sn_owner neighbor);
    _ ← validate_source (sn_source neighbor)
          ("SoT bgp neighbor " +:+ sn_device_id neighbor +:+ "/" +:+ vrf +:+ "/" +:+ address +:+ " source");
    insert_unique seen (sn_device_id neighbor, vrf, address)
      ("duplicate SoT bgp neighbor " +:+ sn_device_id neighbor +:+ "/" +:+ vrf +:+ "/" +:+ address))
    ∅ (ss_bgp_neighbors s);
  Ok tt.

Definition validate (s : SotSnapshot) : R unit :=
  device_ids ← validate_devices s;
  _ ← validate_interfaces device_ids s;
  _ ← validate_vlans device_ids s;
  acl_keys ← validate_acls device_ids s;
  _ ← validate_policy_intents device_ids s;
  prefix_list_keys ← validate_prefix_lists device_ids s;
  _ ← validate_route_policies device_ids acl_keys prefix_list_keys s;
  _ ← validate_bgp_neighbors device_ids s;
  Ok tt.

(** ** A consistent snapshot *)

Definition blank (s : string) : Prop := trim s = "".
Definition sourced (s : SotSource) : Prop := ¬ blank (so_system s) ∧ ¬ blank (so_reference s).
Definition device_key (d : SotDevice) : string := trim (sd_device_id d).
Definition known (s : SotSnapshot) (device_id : string) : Prop := device_id ∈ device_key <$> ss_devices s.
Definition acl_key (a : SotAcl) : string * N := (sa_device_id a, sa_acl_id a).
Definition prefix_list_key (l : SotPrefixList) : string * string := (sl_device_id l, trim (sl_name l)).

Definition resolves (s : SotSnapshot) (p : SotRoutePolicy) : Prop :=
  Forall (λ id, (sr_device_id p, id) ∈ acl_key <$> ss_acls s) (sr_referenced_acl_ids p) ∧
  Forall (λ name, ¬ blank name ∧ (sr_device_id p, trim name) ∈ prefix_list_key <$> ss_prefix_lists s)
    (sr_referenced_prefix_lists p) ∧
  Forall (λ name, ¬ blank name) (sr_referenced_community_lists p).

Record consistent (s : SotSnapshot) : Prop := {
  co_devices : Forall (λ d, ¬ blank (sd_device_id d) ∧ sourced (sd_source d)) (ss_devices s) ∧
    NoDup (device_key <$> ss_devices s);
  co_interfaces : Forall (λ i, known s (si_device_id i) ∧ ¬ blank (si_name i) ∧ sourced (si_source i))
      (ss_interfaces s) ∧
    NoDup ((λ i, (si_device_id i, trim (si_name i))) <$> ss_interfaces s);
  co_vlans : Forall (λ v, known s (sv_device_id v) ∧ ¬ blank (sv_owner v) ∧ sourced (sv_source v))
      (ss_vlans s) ∧
    NoDup ((λ v, (sv_device_id v, sv_vlan_id v)) <$> ss_vlans s);
  co_acls : Forall (λ a, known s (sa_device_id a) ∧ ¬ blank (sa_owner a) ∧ sourced (sa_source a))
      (ss_acls s) ∧
    NoDup (acl_key <$> ss_acls s);
  co_policies : Forall (λ p, known s (sp_device_id p) ∧ ¬ blank (sp_policy_id p) ∧
      ¬ blank (sp_owner p) ∧ sourced (sp_source p)) (ss_policy_intents s) ∧
    NoDup ((λ p, (sp_device_id p, trim (sp_policy_id p))) <$> ss_policy_intents s);
  co_prefix_lists : Forall (λ l, known s (sl_device_id l) ∧ ¬ blank (sl_name l) ∧
      ¬ blank (sl_address_family l) ∧ ¬ blank (sl_owner l) ∧ sourced (sl_source l))
      (ss_prefix_lists s) ∧
    NoDup (prefix_list_key <$> ss_prefix_lists s);
  co_route_policies : Forall (λ p, known s (sr_device_id p) ∧ ¬ blank (sr_name p) ∧
      ¬ blank (sr_owner p) ∧ sourced (sr_source p) ∧ resolves s p) (ss_route_policies s) ∧
    NoDup ((λ p, (sr_device_id p, trim (sr_name p))) <$> ss_route_policies s);
  co_neighbors : Forall (λ n, known s (sn_device_id n) ∧ ¬ blank (sn_vrf n) ∧
      ¬ blank (sn_neighbor_address n) ∧ ¬ blank (sn_owner n) ∧ sourced (sn_source n))
      (ss_bgp_neighbors s) ∧
    NoDup ((λ n, (sn_device_id n, trim (sn_vrf n), trim (sn_neighbor_address n))) <$>
      ss_bgp_neighbors s);
}.

Lemma require_non_empty_Ok field value v :
  require_non_empty field value = Ok v ↔ ¬ blank value ∧ v = trim value.
Proof.
  unfold require_non_empty, blank, str_is_empty. case_bool_decide; naive_solver.
Qed.
Lemma validate_source_Ok source field u :
  validate_source source field = Ok u ↔ sourced source.
Proof.
  unfold validate_source, sourced. destruct u. rewrite bind_Ok. setoid_rewrite bind_Ok.
  setoid_rewrite require_non_empty_Ok. naive_solver.
Qed.
Lemma ensure_known_device_Ok ids d subject u :
  ensure_known_device ids d subject = Ok u ↔ d ∈ ids.
Proof. unfold ensure_known_device. destruct u. case_decide; naive_solver. Qed.
Lemma bind_require_Ok {B} field value (f : string → R B) b :
  (require_non_empty field value ≫= f) = Ok b ↔ ¬ blank value ∧ f (trim value) = Ok b.
Proof. rewrite bind_Ok. setoid_rewrite require_non_empty_Ok. naive_solver. Qed.
Lemma decide_Ok {P : Prop} `{Decision P} (e : string) u : (if decide P then Ok tt else Err e) = Ok u ↔ P.
Proof. destruct u. case_decide; naive_solver. Qed.
Create HintDb sot.
#[local] Hint Rewrite @bind_require_Ok @bind_insert_unique_Ok @insert_unique_Ok @bind_unit_Ok @Ok_eq
  validate_source_Ok ensure_known_device_Ok @decide_Ok : sot.
#[local] Ltac sot := autorewrite with sot.

Lemma sot_devices_Ok s ids :
  validate_devices s = Ok ids ↔
  (Forall (λ d, ¬ blank (sd_device_id d) ∧ sourced (sd_source d)) (ss_devices s) ∧
   NoDup (device_key <$> ss_devices s)) ∧ ids = list_to_set (device_key <$> ss_devices s).
Proof.
  unfold validate_devices. rewrite (foldM_unique_empty
    (λ d, ¬ blank (sd_device_id d) ∧ sourced (sd_source d)) device_key); [naive_solver|].
  intros seen d s'. sot. unfold device_key. naive_solver.
Qed.

Section known_devices.
Context (s : SotSnapshot).
Notation ids := (list_to_set (device_key <$> ss_devices s) : gset string).

Lemma elem_of_ids d : d ∈ ids ↔ known s d.
Proof. apply elem_of_list_to_set. Qed.
#[local] Hint Rewrite elem_of_ids : sot.

Lemma sot_interfaces_Ok u :
  validate_interfaces ids s = Ok u ↔
  Forall (λ i, known s (si_device_id i) ∧ ¬ blank (si_name i) ∧ sourced (si_source i))
      (ss_interfaces s) ∧
  NoDup ((λ i, (si_device_id i, trim (si_name i))) <$> ss_interfaces s).
Proof. apply loop_unique. intros seen i s'. sot. naive_solver. Qed.
Lemma sot_vlans_Ok u :
  validate_vlans ids s = Ok u ↔
  Forall (λ v, known s (sv_device_id v) ∧ ¬ blank (sv_owner v) ∧ sourced (sv_source v))
      (ss_vlans s) ∧
  NoDup ((λ v, (sv_device_id v, sv_vlan_id v)) <$> ss_vlans s).
Proof. apply loop_unique. intros seen i s'. sot. naive_solver. Qed.
Lemma sot_acls_Ok keys :
  validate_acls ids s = Ok keys ↔
  (Forall (λ a, known s (sa_device_id a) ∧ ¬ blank (sa_owner a) ∧ sourced (sa_source a))
      (ss_acls s) ∧
   NoDup (acl_key <$> ss_acls s)) ∧ keys = list_to_set (acl_key <$> ss_acls s).
Proof.
  unfold validate_acls. rewrite (foldM_unique_empty
    (λ a, known s (sa_device_id a) ∧ ¬ blank (sa_owner a) ∧ sourced (sa_source a)) acl_key);
    [naive_solver|]. intros seen i s'. sot. unfold acl_key. naive_solver.
Qed.
Lemma sot_policy_intents_Ok u :
  validate_policy_intents ids s = Ok u ↔
  Forall (λ p, known s (sp_device_id p) ∧ ¬ blank (sp_policy_id p) ∧
      ¬ blank (sp_owner p) ∧ sourced (sp_source p)) (ss_policy_intents s) ∧
  NoDup ((λ p, (sp_device_id p, trim (sp_policy_id p))) <$> ss_policy_intents s).
Proof. apply loop_unique. intros seen i s'. sot. naive_solver. Qed.
Lemma sot_prefix_lists_Ok keys :
  validate_prefix_lists ids s = Ok keys ↔
  (Forall (λ l, known s (sl_device_id l) ∧ ¬ blank (sl_name l) ∧
      ¬ blank (sl_address_family l) ∧ ¬ blank (sl_owner l) ∧ sourced (sl_source l))
      (ss_prefix_lists s) ∧
   NoDup (prefix_list_key <$> ss_prefix_lists s)) ∧
  keys = list_to_set (prefix_list_key <$> ss_prefix_lists s).
Proof.
  unfold validate_prefix_lists. rewrite (foldM_unique_empty
    (λ l, known s (sl_device_id l) ∧ ¬ blank (sl_name l) ∧
      ¬ blank (sl_address_family l) ∧ ¬ blank (sl_owner l) ∧ sourced (sl_source l)) prefix_list_key);
    [naive_solver|]. intros seen i s'. sot. unfold prefix_list_key. naive_solver.
Qed.
Lemma sot_references_Ok p name u :
  validate_references (list_to_set (acl_key <$> ss_acls s))
    (list_to_set (prefix_list_key <$> ss_prefix_lists s)) p name = Ok u ↔ resolves s p.
Proof.
  unfold validate_references, resolves. rewrite !bind_unit_Ok, !forM_Ok.
  setoid_rewrite decide_Ok. setoid_rewrite bind_require_Ok. setoid_rewrite decide_Ok.
  setoid_rewrite elem_of_list_to_set.
  rewrite !Forall_forall. naive_solver.
Qed.
Lemma sot_route_policies_Ok u :
  validate_route_policies ids (list_to_set (acl_key <$> ss_acls s))
    (list_to_set (prefix_list_key <$> ss_prefix_lists s)) s = Ok u ↔
  Forall (λ p, known s (sr_device_id p) ∧ ¬ blank (sr_name p) ∧
      ¬ blank (sr_owner p) ∧ sourced (sr_source p) ∧ resolves s p) (ss_route_policies s) ∧
  NoDup ((λ p, (sr_device_id p, trim (sr_name p))) <$> ss_route_policies s).
Proof.
  apply loop_unique. intros seen i s'. sot. rewrite sot_references_Ok. naive_solver.
Qed.
Lemma sot_bgp_neighbors_Ok u :
  validate_bgp_neighbors ids s = Ok u ↔
  Forall (λ n, known s (sn_device_id n) ∧ ¬ blank (sn_vrf n) ∧
      ¬ blank (sn_neighbor_address n) ∧ ¬ blank (sn_owner n) ∧ sourced (sn_source n))
      (ss_bgp_neighbors s) ∧
  NoDup ((λ n, (sn_device_id n, trim (sn_vrf n), trim (sn_neighbor_address n))) <$>
      ss_bgp_neighbors s).
Proof. apply loop_unique. intros seen i s'. sot. naive_solver. Qed.
End known_devices.

(** A snapshot of the source of truth is accepted exactly when it is consistent: no
    name, owner or source is blank, every object is on a device of the snapshot, no two
    objects of a kind have the same key (compared without surrounding white space), and
    every access list and prefix list a route policy refers to is in the snapshot, on the
    same device. *)
Theorem snapshot_validated s : validate s = Ok tt ↔ consistent s.
Proof.
  unfold validate. rewrite bind_Ok. setoid_rewrite sot_devices_Ok. split.
  - intros (ids & (Hd & ->) & H).
    apply bind_unit_Ok in H as [Hi%sot_interfaces_Ok H].
    apply bind_unit_Ok in H as [Hv%sot_vlans_Ok H].
    apply bind_Ok in H as (acls & (Ha & ->)%sot_acls_Ok & H).
    apply bind_unit_Ok in H as [Hp%sot_policy_intents_Ok H].
    apply bind_Ok in H as (lists & (Hl & ->)%sot_prefix_lists_Ok & H).
    apply bind_unit_Ok in H as [Hr%sot_route_policies_Ok H].
    apply bind_unit_Ok in H as [Hn%sot_bgp_neighbors_Ok _]. by split.
  - intros [Hd Hi Hv Ha Hp Hl Hr Hn]. eexists. split; [by split|].
    rewrite !bind_unit_Ok, sot_interfaces_Ok, sot_vlans_Ok.
    split; [done|]. split; [done|]. rewrite bind_Ok. eexists. rewrite sot_acls_Ok.
    split; [by split|]. rewrite bind_unit_Ok, sot_policy_intents_Ok. split; [done|].
    rewrite bind_Ok. eexists. rewrite sot_prefix_lists_Ok. split; [by split|].
    by rewrite !bind_unit_Ok, sot_route_policies_Ok, sot_bgp_neighbors_Ok.
Qed.
End Sot.

(** A policy that refers to an access list of another device is refused. *)
Module SotSample.
Import Sot.
Definition src : SotSource := mkSotSource "netbox" "site-1".
Definition snapshot (on : string) : SotSnapshot :=
  mkSotSnapshot [mkSotDevice " leaf-a " "H3C" "S6800" "7.1" None src;
                 mkSotDevice "leaf-b" "H3C" "S6800" "7.1" None src]
    [mkSotInterface "leaf-a" "Eth1/0/1" None src] [mkSotVlan "leaf-a" 100 None "net" src]
    [mkSotAcl "leaf-a" 3000 "net" src] [] []
    [mkSotRoutePolicy on "export" "net" [3000%N] [] [] src] [].
End SotSample.
Example sot_sample :
  Sot.validate (SotSample.snapshot "leaf-a") = Ok tt ∧
  Sot.validate (SotSample.snapshot "leaf-b") =
    Err "SoT route policy leaf-b/export references unknown ACL 3000" ∧
  Sot.validate (SotSample.snapshot " leaf-a ") =
    Err "SoT route policy export references unknown device_id  leaf-a ".
Proof. by vm_compute. Qed.
