(* ===== verification/Preflight.v ===== *)
(** * The check before a deployment (src/worker/deployment.rs)

    A configuration of the worker daemon is checked without starting it: the same rules
    the daemon applies when it starts, and, in strict mode, the directories it will use.

    The report is passed through the checks, each of which adds to it.  The system is what
    [is_file], [is_dir] and the creation of a file answer. *)
From S2P Require Export ProductOps.

Module Preflight.

(** ** [Path::parent] *)

Definition slash : ascii := "/".
Definition dot : ascii := ".".
(** The end of a path, reversed, without the separators and [.] components behind its last
    component; the root stays. *)
Fixpoint trim_back (fuel : nat) (r : list ascii) : list ascii :=
  match fuel with
  | O => r
  | S fuel =>
      match r with
      | c :: d :: r' =>
          if bool_decide (c = slash) then trim_back fuel (d :: r')
          else if bool_decide (c = dot ∧ d = slash) then trim_back fuel (d :: r')
          else r
      | _ => r
      end
  end.
Fixpoint drop_component (r : list ascii) : list ascii :=
  match r with
  | [] => []
  | c :: r' => if bool_decide (c = slash) then r else drop_component r'
  end.
Definition parent (path : string) : option string :=
  let n := length (bytes path) in
  match trim_back n (reverse (bytes path)) with
  | [] => None
  | [c] => if bool_decide (c = slash) then None else Some ""
  | r => Some (of_bytes (reverse (trim_back n (drop_component r))))
  end.
Example parent_examples :
  parent "/" = None ∧ parent "" = None ∧ parent "a" = Some "" ∧ parent "/a" = Some "/" ∧
  parent "var/log/x" = Some "var/log" ∧ parent "var/log/x/" = Some "var/log" ∧
  parent "a/./b" = Some "a" ∧ parent "./b" = Some "." ∧ parent "a//b" = Some "a" ∧
  parent "//" = None.
Proof. by vm_compute. Qed.

(** ** Reports *)

Record WorkerDeploymentPathCheck := mkPathCheck {
  pc_path : string; pc_kind : string; pc_required : bool; pc_exists : bool;
  pc_writable : option bool;
}.
Record WorkerDeploymentPreflightReport := mkReport {
  rp_valid : bool;
  rp_strict_paths : bool;
  rp_errors : list string;
  rp_warnings : list string;
  rp_checked_paths : list WorkerDeploymentPathCheck;
}.
Notation Report := WorkerDeploymentPreflightReport.
Definition new_report (strict_paths : bool) : Report := mkReport true strict_paths [] [] [].
Definition error (message : string) (r : Report) : Report :=
  mkReport false (rp_strict_paths r) (rp_errors r ++ [message]) (rp_warnings r) (rp_checked_paths r).
Definition warning (message : string) (r : Report) : Report :=
  mkReport (rp_valid r) (rp_strict_paths r) (rp_errors r) (rp_warnings r ++ [message])
    (rp_checked_paths r).
Definition push_check (c : WorkerDeploymentPathCheck) (r : Report) : Report :=
  mkReport (rp_valid r) (rp_strict_paths r) (rp_errors r) (rp_warnings r) (rp_checked_paths r ++ [c]).

(** [if c { report.error(message) }], and a section that may be absent *)
Definition error_if (c : bool) (message : string) (r : Report) : Report :=
  if c then error message r else r.
Definition check_result (what : string) (x : UnderlayResult unit) (r : Report) : Report :=
  match x with Ok _ => r | Err err => error (what +:+ ": " +:+ error_text err) r end.
Definition check_opt {A} (f : A → Report → Report) (o : option A) (r : Report) : Report :=
  match o with Some a => f a r | None => r end.

Definition check_schedule (field : string) (schedule : Schedule) (r : Report) : Report :=
  error_if (interval_secs schedule =? 0)%N (field +:+ ".interval_secs must be greater than zero") r.

(** The system: what exists, and whether a file can be created where there is none. *)
Record Host := mkHost {
  is_file : string → bool; is_dir : string → bool; create_new : string → bool;
  new_v4 : string → string;   (* the uuid of the marker for a directory *)
}.
(** [path.join(name)] for a relative name *)
Definition path_join (path name : string) : string :=
  if bool_decide (path = "") || bool_decide (list.last (bytes path) = Some slash)
  then path +:+ name else path +:+ "/" +:+ name.

Section preflight.
Context (strict_paths : bool) (host : Host).

(** A marker file is created and removed again; a failure to remove it is ignored. *)
Definition can_write_to_directory (path : string) : bool :=
  create_new host (path_join path (".aria-underlay-preflight-" +:+ new_v4 host path +:+ ".tmp")).

Definition check_directory (path kind : string) (required : bool) (r : Report) : Report :=
  let exists_ := is_dir host path in
  let writable := if strict_paths && exists_ then Some (can_write_to_directory path) else None in
  let r := push_check (mkPathCheck path kind required exists_ writable) r in
  let r := error_if (strict_paths && required && negb exists_)
             (kind +:+ ": missing required directory " +:+ debug_str path) r in
  error_if (strict_paths && bool_decide (writable = Some false))
    (kind +:+ ": directory is not writable " +:+ debug_str path) r.
Definition check_file_exists (path kind : string) (required : bool) (r : Report) : Report :=
  let exists_ := is_file host path in
  let r := push_check (mkPathCheck path kind required exists_ None) r in
  error_if (required && negb exists_) (kind +:+ ": missing required file " +:+ debug_str path) r.
Definition check_file_parent (path kind : string) (required : bool) (r : Report) : Report :=
  match parent path with
  | None => error (kind +:+ ": path " +:+ debug_str path +:+ " has no parent directory") r
  | Some p => check_directory (if str_is_empty p then "." else p) kind required r
  end.

Definition check_operation_summary (c : LogDaemonConfig) (r : Report) : Report :=
  let r := check_result "operation_summary.retention"
             (retention_validate "operation summary" (lg_retention c)) r in
  let r := check_schedule "operation_summary.retention_schedule" (lg_retention_schedule c) r in
  check_file_parent (lg_path c) "operation_summary.path.parent" true r.
Definition check_operation_audit (c : LogDaemonConfig) (r : Report) : Report :=
  let r := check_result "operation_audit.retention"
             (retention_validate "operation audit" (lg_retention c)) r in
  let r := check_schedule "operation_audit.retention_schedule" (lg_retention_schedule c) r in
  check_file_parent (lg_path c) "operation_audit.path.parent" true r.
Definition check_operation_alert (c : OperationAlertDaemonConfig) (r : Report) : Report :=
  let r := check_schedule "operation_alert.schedule" (ac_schedule c) r in
  let r := check_file_parent (ac_path c) "operation_alert.path.parent" true r in
  check_file_parent (ac_checkpoint_path c) "operation_alert.checkpoint_path.parent" true r.
Definition check_journal_gc (c : JournalGcDaemonConfig) (r : Report) : Report :=
  let r := check_result "journal_gc.retention" (Collect.validate (jc_retention c)) r in
  let r := check_schedule "journal_gc.schedule" (jc_schedule c) r in
  let r := check_directory (jc_journal_root c) "journal_gc.journal_root" true r in
  check_opt (λ root, check_directory root "journal_gc.artifact_root" true) (jc_artifact_root c) r.
Definition check_apply_idempotency_gc (c : ApplyIdempotencyGcDaemonConfig) (r : Report) : Report :=
  let r := check_result "apply_idempotency_gc.retention"
             (Collect.idempotency_validate (ic_retention_days c)) r in
  let r := check_schedule "apply_idempotency_gc.schedule" (ic_schedule c) r in
  check_directory (ic_root c) "apply_idempotency_gc.root" true r.
Definition check_drift_audit (c : DriftAuditDaemonConfig) (r : Report) : Report :=
  let r := check_schedule "drift_audit.schedule" (dc_schedule c) r in
  let r := check_directory (dc_expected_shadow_root c) "drift_audit.expected_shadow_root" true r in
  check_directory (dc_observed_shadow_root c) "drift_audit.observed_shadow_root" true r.
Definition check_reload (c : WorkerReloadDaemonConfig) (r : Report) : Report :=
  if negb (rl_enabled c) then r else
  let r := error_if (rl_poll_interval_secs c =? 0)%N
             "reload.poll_interval_secs must be greater than zero" r in
  match rl_checkpoint_path c with
  | None => error "reload.checkpoint_path is required when reload is enabled" r
  | Some path => check_file_parent path "reload.checkpoint_path.parent" true r
  end.

Definition no_sections (c : UnderlayWorkerDaemonConfig) : bool :=
  bool_decide (cfg_operation_summary c = None) && bool_decide (cfg_operation_audit c = None)
  && bool_decide (cfg_operation_alert c = None) && bool_decide (cfg_journal_gc c = None)
  && bool_decide (cfg_apply_idempotency_gc c = None) && bool_decide (cfg_drift_audit c = None).
Definition check_config_into (c : UnderlayWorkerDaemonConfig) (r : Report) : Report :=
  let r := if no_sections c then warning "worker config has no enabled sections" r else r in
  let r := error_if (bool_decide (is_Some (cfg_operation_alert c)) &&
                     bool_decide (cfg_operation_summary c = None))
             "operation_alert requires operation_summary.path" r in
  let r := check_opt check_operation_summary (cfg_operation_summary c) r in
  let r := check_opt check_operation_audit (cfg_operation_audit c) r in
  let r := check_opt check_operation_alert (cfg_operation_alert c) r in
  let r := check_opt check_journal_gc (cfg_journal_gc c) r in
  let r := check_opt check_apply_idempotency_gc (cfg_apply_idempotency_gc c) r in
  let r := check_opt check_drift_audit (cfg_drift_audit c) r in
  check_opt check_reload (cfg_reload c) r.
Definition check_config (c : UnderlayWorkerDaemonConfig) : Report :=
  check_config_into c (new_report strict_paths).

(** [loaded] is what [UnderlayWorkerDaemonConfig::from_path] returns. *)
Definition check_config_path (path : string) (loaded : UnderlayResult UnderlayWorkerDaemonConfig)
    : Report :=
  let r := check_file_exists path "worker_config.path" true (new_report strict_paths) in
  match loaded with
  | Ok config => check_config_into config r
  | Err err => error ("worker_config: " +:+ error_text err) r
  end.

(** ** The check agrees with the daemon *)

(** A directory the daemon can use, when the paths are checked at all. *)
Definition usable (path : string) : Prop :=
  strict_paths = true → is_dir host path = true ∧ can_write_to_directory path = true.
Definition placed (path : string) : Prop :=
  ∃ p, parent path = Some p ∧ usable (if str_is_empty p then "." else p).
Definition opt_all {A} (P : A → Prop) (o : option A) : Prop :=
  match o with Some a => P a | None => True end.
Definition places_ok (c : UnderlayWorkerDaemonConfig) : Prop :=
  opt_all (λ s, placed (lg_path s)) (cfg_operation_summary c) ∧
  opt_all (λ s, placed (lg_path s)) (cfg_operation_audit c) ∧
  opt_all (λ a, placed (ac_path a) ∧ placed (ac_checkpoint_path a)) (cfg_operation_alert c) ∧
  opt_all (λ g, usable (jc_journal_root g) ∧ opt_all usable (jc_artifact_root g)) (cfg_journal_gc c) ∧
  opt_all (λ i, usable (ic_root i)) (cfg_apply_idempotency_gc c) ∧
  opt_all (λ d, usable (dc_expected_shadow_root d) ∧ usable (dc_observed_shadow_root d))
    (cfg_drift_audit c) ∧
  opt_all placed (reload ← enabled_reload_config c; rl_checkpoint_path reload).

(** A check that leaves a report valid exactly when a condition holds. *)
Definition passes (f : Report → Report) (P : Prop) : Prop :=
  ∀ r, rp_valid (f r) = true ↔ rp_valid r = true ∧ P.
Lemma passes_at f P r : passes f P → rp_valid (f r) = true ↔ rp_valid r = true ∧ P.
Proof using Type. intros Hf. apply Hf. Qed.
Lemma passes_then f g P Q : passes f P → passes g Q → passes (λ r, g (f r)) (P ∧ Q).
Proof using Type. intros Hf Hg r. rewrite (Hg (f r)), (Hf r). tauto. Qed.
Lemma passes_iff f P Q : passes f P → (P ↔ Q) → passes f Q.
Proof using Type. intros Hf HPQ r. by rewrite <- HPQ. Qed.
Lemma passes_error_if c message : passes (error_if c message) (c = false).
Proof using Type. intros r. destruct c; simpl; naive_solver. Qed.
Lemma passes_result what x : passes (check_result what x) (x = Ok tt).
Proof using Type. intros r. destruct x as [[]|]; simpl; naive_solver. Qed.
Lemma passes_opt {A} (f : A → Report → Report) (P : A → Prop) o :
  (∀ a, passes (f a) (P a)) → passes (check_opt f o) (opt_all P o).
Proof using Type. intros Hf. destruct o; simpl; [apply Hf|]. intros r. tauto. Qed.
Lemma passes_schedule field s : passes (check_schedule field s) ((interval_secs s =? 0)%N = false).
Proof using Type. apply passes_error_if. Qed.

Lemma passes_directory path kind : passes (check_directory path kind true) (usable path).
Proof using Type.
  intros r. unfold check_directory, usable.
  destruct strict_paths, (is_dir host path), (can_write_to_directory path); simpl;
    naive_solver.
Qed.
Lemma passes_file_parent path kind : passes (check_file_parent path kind true) (placed path).
Proof using Type.
  unfold check_file_parent, placed. destruct (parent path) as [p|].
  - eapply passes_iff; [apply passes_directory|]. naive_solver.
  - intros r. simpl. naive_solver.
Qed.

(** What each section is checked for. *)
Definition log_passes (what : string) (c : LogDaemonConfig) : Prop :=
  (retention_validate what (lg_retention c) = Ok tt ∧
   (interval_secs (lg_retention_schedule c) =? 0)%N = false) ∧ placed (lg_path c).
Lemma passes_operation_summary c : passes (check_operation_summary c) (log_passes "operation summary" c).
Proof using Type.
  apply (passes_then _ (check_file_parent _ _ _)); [|apply passes_file_parent].
  apply (passes_then (check_result _ _) (check_schedule _ _));
    [apply passes_result|apply passes_schedule].
Qed.
Lemma passes_operation_audit c : passes (check_operation_audit c) (log_passes "operation audit" c).
Proof using Type.
  apply (passes_then _ (check_file_parent _ _ _)); [|apply passes_file_parent].
  apply (passes_then (check_result _ _) (check_schedule _ _));
    [apply passes_result|apply passes_schedule].
Qed.
Lemma passes_operation_alert c :
  passes (check_operation_alert c)
    (((interval_secs (ac_schedule c) =? 0)%N = false ∧ placed (ac_path c)) ∧
     placed (ac_checkpoint_path c)).
Proof using Type.
  apply (passes_then _ (check_file_parent _ _ _)); [|apply passes_file_parent].
  apply (passes_then (check_schedule _ _)); [apply passes_schedule|apply passes_file_parent].
Qed.
Lemma passes_journal_gc c :
  passes (check_journal_gc c)
    (((Collect.validate (jc_retention c) = Ok tt ∧ (interval_secs (jc_schedule c) =? 0)%N = false) ∧
      usable (jc_journal_root c)) ∧ opt_all usable (jc_artifact_root c)).
Proof using Type.
  apply (passes_then _ (check_opt _ _)); [|apply passes_opt; intros; apply passes_directory].
  apply (passes_then _ (check_directory _ _ _)); [|apply passes_directory].
  apply (passes_then (check_result _ _) (check_schedule _ _));
    [apply passes_result|apply passes_schedule].
Qed.
Lemma passes_apply_idempotency_gc c :
  passes (check_apply_idempotency_gc c)
    ((Collect.idempotency_validate (ic_retention_days c) = Ok tt ∧
      (interval_secs (ic_schedule c) =? 0)%N = false) ∧ usable (ic_root c)).
Proof using Type.
  apply (passes_then _ (check_directory _ _ _)); [|apply passes_directory].
  apply (passes_then (check_result _ _) (check_schedule _ _));
    [apply passes_result|apply passes_schedule].
Qed.
Lemma passes_drift_audit c :
  passes (check_drift_audit c)
    (((interval_secs (dc_schedule c) =? 0)%N = false ∧ usable (dc_expected_shadow_root c)) ∧
     usable (dc_observed_shadow_root c)).
Proof using Type.
  apply (passes_then _ (check_directory _ _ _)); [|apply passes_directory].
  apply (passes_then (check_schedule _ _)); [apply passes_schedule|apply passes_directory].
Qed.
Lemma passes_reload c :
  passes (check_reload c)
    (validate_reload_config c = Ok tt ∧
     opt_all placed (if rl_enabled c then rl_checkpoint_path c else None)).
Proof using Type.
  unfold check_reload, validate_reload_config. destruct (rl_enabled c); simpl; [|intros r; tauto].
  destruct (rl_checkpoint_path c) as [path|]; simpl.
  - eapply passes_iff; [apply (passes_then (error_if _ _) (check_file_parent _ _ _));
      [apply passes_error_if|apply passes_file_parent]|].
    rewrite bind_unit_Ok, !reject_if_Ok. naive_solver.
  - intros r. simpl. rewrite bind_unit_Ok, !reject_if_Ok. naive_solver.
Qed.

Lemma opt_all_validate {A} (f : A → UnderlayResult unit) (P Q : A → Prop) o :
  (∀ a, P a ↔ f a = Ok tt ∧ Q a) → opt_all P o ↔ validate_opt f o = Ok tt ∧ opt_all Q o.
Proof using Type. intros H. destruct o; simpl; [apply H|]. naive_solver. Qed.

(** What a section passes is what the daemon validates, and its places. *)
#[local] Ltac by_section :=
  apply opt_all_validate; intros a; unfold log_passes, validate_worker_schedule;
  rewrite ?bind_unit_Ok, ?reject_if_Ok; tauto.
Lemma log_section what field o :
  opt_all (log_passes what) o ↔
  validate_opt (λ c, _ ← retention_validate what (lg_retention c);
    validate_worker_schedule field (lg_retention_schedule c)) o = Ok tt ∧
  opt_all (λ s, placed (lg_path s)) o.
Proof using Type.
  apply opt_all_validate. intros a. unfold log_passes, validate_worker_schedule.
  rewrite bind_unit_Ok, (reject_if_Ok (_ =? _)%N). tauto.
Qed.
Lemma alert_section field o :
  opt_all (λ c, ((interval_secs (ac_schedule c) =? 0)%N = false ∧ placed (ac_path c)) ∧
     placed (ac_checkpoint_path c)) o ↔
  validate_opt (λ c, validate_worker_schedule field (ac_schedule c)) o = Ok tt ∧
  opt_all (λ a, placed (ac_path a) ∧ placed (ac_checkpoint_path a)) o.
Proof using Type. by_section. Qed.
Lemma journal_gc_section field o :
  opt_all (λ c, ((Collect.validate (jc_retention c) = Ok tt ∧
    (interval_secs (jc_schedule c) =? 0)%N = false) ∧ usable (jc_journal_root c)) ∧
    opt_all usable (jc_artifact_root c)) o ↔
  validate_opt (λ c, _ ← Collect.validate (jc_retention c);
    validate_worker_schedule field (jc_schedule c)) o = Ok tt ∧
  opt_all (λ g, usable (jc_journal_root g) ∧ opt_all usable (jc_artifact_root g)) o.
Proof using Type. unfold Collect.validate. by_section. Qed.
Lemma idempotency_gc_section field o :
  opt_all (λ c, (Collect.idempotency_validate (ic_retention_days c) = Ok tt ∧
      (interval_secs (ic_schedule c) =? 0)%N = false) ∧ usable (ic_root c)) o ↔
  validate_opt (λ c, _ ← Collect.idempotency_validate (ic_retention_days c);
    validate_worker_schedule field (ic_schedule c)) o = Ok tt ∧
  opt_all (λ i, usable (ic_root i)) o.
Proof using Type. unfold Collect.idempotency_validate. by_section. Qed.
Lemma drift_section field o :
  opt_all (λ c, ((interval_secs (dc_schedule c) =? 0)%N = false ∧ usable (dc_expected_shadow_root c)) ∧
     usable (dc_observed_shadow_root c)) o ↔
  validate_opt (λ c, validate_worker_schedule field (dc_schedule c)) o = Ok tt ∧
  opt_all (λ d, usable (dc_expected_shadow_root d) ∧ usable (dc_observed_shadow_root d)) o.
Proof using Type. by_section. Qed.
Lemma reload_section c :
  opt_all (λ c, validate_reload_config c = Ok tt ∧
     opt_all placed (if rl_enabled c then rl_checkpoint_path c else None)) (cfg_reload c) ↔
  validate_opt validate_reload_config (cfg_reload c) = Ok tt ∧
  opt_all placed (reload ← enabled_reload_config c; rl_checkpoint_path reload).
Proof using Type.
  unfold enabled_reload_config. destruct (cfg_reload c) as [l|]; simpl; [|naive_solver].
  by destruct (rl_enabled l).
Qed.

Lemma check_config_into_valid c r :
  rp_valid (check_config_into c r) = true ↔
  rp_valid r = true ∧ validate_worker_config_for_runtime c = Ok tt ∧ places_ok c.
Proof using Type.
  unfold check_config_into, places_ok. rewrite Ops.validate_config_Ok, reject_if_Ok.
  rewrite (passes_at _ _ _ (passes_opt _ _ (cfg_reload c) passes_reload)).
  rewrite (passes_at _ _ _ (passes_opt _ _ (cfg_drift_audit c) passes_drift_audit)).
  rewrite (passes_at _ _ _ (passes_opt _ _ (cfg_apply_idempotency_gc c) passes_apply_idempotency_gc)).
  rewrite (passes_at _ _ _ (passes_opt _ _ (cfg_journal_gc c) passes_journal_gc)).
  rewrite (passes_at _ _ _ (passes_opt _ _ (cfg_operation_alert c) passes_operation_alert)).
  rewrite (passes_at _ _ _ (passes_opt _ _ (cfg_operation_audit c) passes_operation_audit)).
  rewrite (passes_at _ _ _ (passes_opt _ _ (cfg_operation_summary c) passes_operation_summary)).
  rewrite (passes_at _ _ _ (passes_error_if _ _)).
  replace (rp_valid (if no_sections c then _ else _)) with (rp_valid r) by (by destruct (no_sections c)).
  rewrite (log_section "operation summary" "operation_summary.retention_schedule").
  rewrite (log_section "operation audit" "operation_audit.retention_schedule").
  rewrite (alert_section "operation_alert.schedule"), (journal_gc_section "journal_gc.schedule").
  rewrite (idempotency_gc_section "apply_idempotency_gc.schedule").
  rewrite (drift_section "drift_audit.schedule"), reload_section. tauto.
Qed.

(** C34. A deployment that passes the check is one the daemon starts.  The report on a
    configuration file is valid exactly when a regular file is there and loads, the daemon's own
    validation accepts the configuration, every file the workers write has a directory to
    be in and, in strict mode, each such directory and each root exists and can be
    written. *)
Theorem preflight_agrees path loaded :
  rp_valid (check_config_path path loaded) = true ↔
  is_file host path = true ∧
  ∃ c, loaded = Ok c ∧ validate_worker_config_for_runtime c = Ok tt ∧ places_ok c.
Proof using Type.
  unfold check_config_path, check_file_exists.
  destruct loaded as [c|e]; simpl; [|naive_solver].
  rewrite check_config_into_valid. destruct (is_file host path); simpl; naive_solver.
Qed.

End preflight.
End Preflight.

(** A strict check of a configuration with one log, on a host with and without the
    directory. *)
Module PreflightSample.
Definition config : UnderlayWorkerDaemonConfig :=
  mkDaemonConfig None
    (Some (mkLogConfig "/var/log/aria/ops.jsonl" default_retention_policy (mkSchedule 60 true)))
    None None None None None.
Definition host (dir : string) : Preflight.Host :=
  Preflight.mkHost (String.eqb "daemon.json") (String.eqb dir) (λ _, true) (λ _, "1").
Definition report (dir : string) : Preflight.WorkerDeploymentPreflightReport :=
  Preflight.check_config_path true (host dir) "daemon.json" (Ok config).
End PreflightSample.
Example preflight_sample :
  Preflight.rp_valid (PreflightSample.report "/var/log/aria") = true ∧
  Preflight.rp_valid (PreflightSample.report "/var/log") = false ∧
  length (Preflight.rp_checked_paths (PreflightSample.report "/var/log")) = 2%nat.
Proof. by vm_compute. Qed.
