(* ===== verification/Cli.v ===== *)
(** * The operators' command line (src/ops_cli.rs)

    What [aria-underlay-ops] makes of its arguments: every command reads all its options
    before it opens a store or calls an operation, so that a command line is a command, or
    an error that has touched nothing.  The operations a command calls are those of
    AdminOps, Service, Alerts, ProductOps and Preflight. *)
From S2P Require Export ProductOps Preflight.

Module Cli.
Import Alerts Ops.

Notation R := (result string).

(** ** Options *)

(** [args.windows(2).find(|window| window[0] == name).map(|window| window[1].clone())] *)
Fixpoint option_value (args : list string) (name : string) : option string :=
  match args with
  | a :: ((b :: _) as rest) => if String.eqb a name then Some b else option_value rest name
  | _ => None
  end.
Definition has_flag (args : list string) (name : string) : bool := existsb (String.eqb name) args.
Definition required_option (args : list string) (name : string) : R string :=
  ok_or (option_value args name) ("missing required " +:+ name).
(** [Option<T>::map(f).transpose()] *)
Definition transpose {A B} (f : A → R B) (o : option A) : R (option B) :=
  match o with Some a => b ← f a; Ok (Some b) | None => Ok None end.
Definition parse_unsigned (value name : string) : R N :=
  map_err (λ _, name +:+ " must be an unsigned integer") (parse_u64 value).
Definition optional_usize (args : list string) (name : string) : R (option nat) :=
  transpose (λ value, n ← parse_unsigned value name; Ok (N.to_nat n)) (option_value args name).
Definition optional_u64 (args : list string) (name : string) : R (option N) :=
  transpose (λ value, parse_unsigned value name) (option_value args name).
Definition required_u64 (args : list string) (name : string) : R N :=
  value ← required_option args name; parse_unsigned value name.
Definition required_u32 (args : list string) (name : string) : R N :=
  value ← required_u64 args name;
  if (value <? 2 ^ 32)%N then Ok value else Err (name +:+ " must fit in u32").
Definition required_bool (args : list string) (name : string) : R bool :=
  value ← required_option args name;
  if existsb (String.eqb value) ["true"; "True"; "1"] then Ok true
  else if existsb (String.eqb value) ["false"; "False"; "0"] then Ok false
  else Err (name +:+ " must be true or false").
Definition optional_alert_severity (args : list string) (name : string)
    : R (option OperationAlertSeverity) :=
  transpose (λ value,
    if existsb (String.eqb value) ["Critical"; "critical"] then Ok Critical
    else if existsb (String.eqb value) ["Warning"; "warning"] then Ok Warning
    else Err (name +:+ " must be Critical or Warning")) (option_value args name).
Definition required_worker_schedule_target (args : list string) (name : string)
    : R WorkerScheduleTarget :=
  value ← required_option args name;
  if existsb (String.eqb value) ["operation-summary-retention"; "operation_summary_retention"]
    then Ok TOperationSummaryRetention
  else if existsb (String.eqb value) ["operation-alert"; "operation_alert"] then Ok TOperationAlert
  else if existsb (String.eqb value) ["journal-gc"; "journal_gc"] then Ok TJournalGc
  else if existsb (String.eqb value) ["apply-idempotency-gc"; "apply_idempotency_gc"]
    then Ok TApplyIdempotencyGc
  else if existsb (String.eqb value) ["drift-audit"; "drift_audit"] then Ok TDriftAudit
  else Err (name +:+ " must be operation-summary-retention, operation-alert, journal-gc, apply-idempotency-gc, or drift-audit").

(** ** Commands *)

Inductive Command :=
  | ListInDoubt (journal_root : string) (device_id : option DeviceId)
  | ForceResolve (journal_root operation_summary_path : string) (q : ForceResolveTransactionRequest)
  | ListOperations (operation_summary_path : string) (q : ListOperationSummariesRequest)
  | OperationSummaryOverviewOf (operation_summary_path : string) (q : ListOperationSummariesRequest)
  | ListAlerts (q : ListOperationAlertsRequest)
  | AlertSummary (q : ListOperationAlertsRequest)
  | TransitionAlert (alert_state_path product_audit_path : string) (q : AlertLifecycleTransitionRequest)
  | ChangeConfig (operator product_audit_path : string) (c : ConfigChange)
  | CheckWorkerConfig (worker_config_path : string) (strict_paths : bool)
  | WorkerReloadStatus (checkpoint_path : string)
  | Usage.

Section parse.
(** [uuid::Uuid::new_v4()] *)
Context (uuid : string).

Definition request_id (args : list string) (prefix : string) : string :=
  default (prefix +:+ "-" +:+ uuid) (option_value args "--request-id").

Definition list_in_doubt (args : list string) : R Command :=
  journal_root ← required_option args "--journal-root";
  Ok (ListInDoubt journal_root (mkDeviceId <$> option_value args "--device-id")).
Definition force_resolve (args : list string) : R Command :=
  journal_root ← required_option args "--journal-root";
  operation_summary_path ← required_option args "--operation-summary-path";
  tx_id ← required_option args "--tx-id";
  operator ← required_option args "--operator";
  reason ← required_option args "--reason";
  Ok (ForceResolve journal_root operation_summary_path
        (mkForceResolveTransactionRequest (request_id args "force-resolve")
           (option_value args "--trace-id") tx_id operator reason (has_flag args "--break-glass"))).

Definition operation_summary_request (args : list string) : R ListOperationSummariesRequest :=
  limit ← optional_usize args "--limit";
  Ok (mkListOperationSummariesRequest (has_flag args "--attention-required")
        (option_value args "--action") (option_value args "--result")
        (mkDeviceId <$> option_value args "--device-id") (option_value args "--tx-id") limit).
Definition list_operations (args : list string) : R Command :=
  operation_summary_path ← required_option args "--operation-summary-path";
  request ← operation_summary_request args;
  Ok (ListOperations operation_summary_path request).
Definition operation_summary (args : list string) : R Command :=
  operation_summary_path ← required_option args "--operation-summary-path";
  request ← operation_summary_request args;
  Ok (OperationSummaryOverviewOf operation_summary_path request).

Definition operation_alerts_request (args : list string) : R ListOperationAlertsRequest :=
  operation_alert_path ← required_option args "--operation-alert-path";
  severity ← optional_alert_severity args "--severity";
  limit ← optional_usize args "--limit";
  Ok (mkListOperationAlertsRequest operation_alert_path (option_value args "--alert-state-path")
        severity limit).
Definition list_alerts (args : list string) : R Command :=
  request ← operation_alerts_request args; Ok (ListAlerts request).
Definition alert_summary (args : list string) : R Command :=
  request ← operation_alerts_request args; Ok (AlertSummary request).
Definition transition_alert (target_status : OperationAlertLifecycleStatus) (args : list string)
    : R Command :=
  alert_state_path ← required_option args "--alert-state-path";
  product_audit_path ← required_option args "--product-audit-path";
  dedupe_key ← required_option args "--dedupe-key";
  operator ← required_option args "--operator";
  reason ← required_option args "--reason";
  Ok (TransitionAlert alert_state_path product_audit_path
        (mkAlertTransitionRequest (request_id args "alert-lifecycle")
           (option_value args "--trace-id") dedupe_key operator reason target_status)).

(** The operator and the audit log of [worker_config_admin_manager]. *)
Definition worker_config_admin_manager (args : list string) : R (string * string) :=
  operator ← required_option args "--operator";
  product_audit_path ← required_option args "--product-audit-path";
  Ok (operator, product_audit_path).
Definition set_summary_retention (args : list string) : R Command :=
  '(policy_operator, product_audit_path) ← worker_config_admin_manager args;
  config_path ← required_option args "--worker-config-path";
  operator ← required_option args "--operator";
  reason ← required_option args "--reason";
  max_records ← optional_usize args "--max-records";
  max_bytes ← optional_u64 args "--max-bytes";
  max_rotated_files ← optional_usize args "--max-rotated-files";
  Ok (ChangeConfig policy_operator product_audit_path (SummaryRetention
        (mkChangeSummaryRetentionRequest (request_id args "set-summary-retention")
           (option_value args "--trace-id") config_path operator reason
           (mkRetentionPolicy max_records max_bytes
              (default (JsonLines.max_rotated_files default_retention_policy) max_rotated_files))))).
Definition set_gc_retention (args : list string) : R Command :=
  '(policy_operator, product_audit_path) ← worker_config_admin_manager args;
  config_path ← required_option args "--worker-config-path";
  operator ← required_option args "--operator";
  reason ← required_option args "--reason";
  committed ← required_u32 args "--committed-days";
  rolled_back ← required_u32 args "--rolled-back-days";
  failed ← required_u32 args "--failed-days";
  artifacts ← required_u32 args "--rollback-artifact-days";
  max_artifacts ← required_u32 args "--max-artifacts-per-device";
  Ok (ChangeConfig policy_operator product_audit_path (JournalGcRetention
        (mkChangeJournalGcRetentionRequest (request_id args "set-gc-retention")
           (option_value args "--trace-id") config_path operator reason
           (Collect.mkRetention committed rolled_back failed artifacts max_artifacts)))).
Definition set_worker_schedule (args : list string) : R Command :=
  '(policy_operator, product_audit_path) ← worker_config_admin_manager args;
  config_path ← required_option args "--worker-config-path";
  operator ← required_option args "--operator";
  reason ← required_option args "--reason";
  target ← required_worker_schedule_target args "--target";
  interval ← required_u64 args "--interval-secs";
  immediately ← required_bool args "--run-immediately";
  Ok (ChangeConfig policy_operator product_audit_path (WorkerSchedule
        (mkChangeWorkerScheduleRequest (request_id args "set-worker-schedule")
           (option_value args "--trace-id") config_path operator reason target
           (mkSchedule interval immediately)))).
Definition check_worker_config (args : list string) : R Command :=
  worker_config_path ← required_option args "--worker-config-path";
  Ok (CheckWorkerConfig worker_config_path (has_flag args "--strict-paths")).
Definition worker_reload_status (args : list string) : R Command :=
  checkpoint_path ← required_option args "--checkpoint-path";
  Ok (WorkerReloadStatus checkpoint_path).

Definition handler (command : string) : option (list string → R Command) :=
  let named := String.eqb command in
  if named "list-in-doubt" then Some list_in_doubt
  else if named "force-resolve" then Some force_resolve
  else if named "list-operations" then Some list_operations
  else if named "operation-summary" then Some operation_summary
  else if named "list-alerts" then Some list_alerts
  else if named "alert-summary" then Some alert_summary
  else if named "ack-alert" then Some (transition_alert Acknowledged)
  else if named "resolve-alert" then Some (transition_alert Resolved)
  else if named "suppress-alert" then Some (transition_alert Suppressed)
  else if named "expire-alert" then Some (transition_alert Expired)
  else if named "set-summary-retention" then Some set_summary_retention
  else if named "set-gc-retention" then Some set_gc_retention
  else if named "set-worker-schedule" then Some set_worker_schedule
  else if named "check-worker-config" then Some check_worker_config
  else if named "worker-reload-status" then Some worker_reload_status
  else if named "-h" || named "--help" || named "help" then Some (λ _, Ok Usage)
  else None.
Definition run (args : list string) : R Command :=
  match args with
  | [] => Err "missing command"
  | command :: args =>
      match handler command with
      | Some h => h args
      | None => Err ("unknown command " +:+ command)
      end
  end.

(** ** Options in any order *)

(** A command line of options with a value each, then of flags. *)
Definition command_line (opts : list (string * string)) (flags : list string) : list string :=
  (opts ≫= λ '(name, value), [name; value]) ++ flags.
Definition FLAGS : list string := ["--break-glass"; "--attention-required"; "--strict-paths"].
(** No value looks like an option, and no option is a flag. *)
Definition plain (opts : list (string * string)) : Prop :=
  Forall (λ '(name, value), starts_with name "--" = true ∧ starts_with value "--" = false ∧
    name ∉ FLAGS) opts.

Lemma option_value_skip a args name : a ≠ name → option_value (a :: args) name = option_value args name.
Proof using Type.
  intros Hne. simpl. destruct args as [|b args]; [done|].
  by rewrite (proj2 (String.eqb_neq a name) Hne).
Qed.
Lemma option_value_flags flags name :
  flags ⊆ FLAGS → name ∉ FLAGS → option_value flags name = None.
Proof using Type.
  induction flags as [|f flags IH]; [done|]. intros Hf Hn. simpl. destruct flags as [|g flags]; [done|].
  destruct (String.eqb_spec f name) as [->|_]; [destruct Hn; apply Hf; by left|].
  apply IH; [|done]. intros x Hx. apply Hf. by right.
Qed.
Lemma option_value_line opts flags name :
  plain opts → flags ⊆ FLAGS → starts_with name "--" = true → name ∉ FLAGS →
  option_value (command_line opts flags) name = (list_to_map opts : gmap string string) !! name.
Proof using Type.
  intros Hp Hf Hs Hn. induction opts as [|[n v] opts IH].
  - rewrite list_to_map_nil, lookup_empty. by apply option_value_flags.
  - apply Forall_cons in Hp as [(Hn1 & Hv & _) Hp]. specialize (IH Hp).
    change (command_line ((n, v) :: opts) flags) with (n :: v :: command_line opts flags).
    rewrite list_to_map_cons.
    destruct (decide (n = name)) as [->|Hne].
    { rewrite lookup_insert_eq. simpl. by rewrite String.eqb_refl. }
    rewrite (option_value_skip n) by done.
    rewrite lookup_insert_ne by done. rewrite <- IH.
    rewrite option_value_skip; [done|]. intros ->. by rewrite Hs in Hv.
Qed.
Lemma has_flag_line opts flags name :
  plain opts → name ∈ FLAGS → has_flag (command_line opts flags) name = has_flag flags name.
Proof using Type.
  intros Hp Hn. induction opts as [|[n v] opts IH]; [done|].
  apply Forall_cons in Hp as [(_ & Hv & Hflag) Hp]. rewrite <- (IH Hp).
  unfold has_flag, command_line. simpl.
  destruct (String.eqb_spec name n) as [->|_]; [done|].
  destruct (String.eqb_spec name v) as [->|_]; [|done]. exfalso. revert Hv.
  unfold FLAGS in Hn. repeat (apply elem_of_cons in Hn as [->|Hn]; [by vm_compute|]).
  by apply elem_of_nil in Hn.
Qed.

(** Commands read their arguments through these two alone. *)
Lemma handler_ext command h args args' :
  handler command = Some h →
  (∀ name, starts_with name "--" = true → name ∉ FLAGS → option_value args name = option_value args' name) →
  (∀ name, name ∈ FLAGS → has_flag args name = has_flag args' name) →
  h args = h args'.
Proof using Type.
  intros Hh Ho Hf.
  assert (∀ name, bool_decide (starts_with name "--" = true ∧ name ∉ FLAGS) = true →
    option_value args name = option_value args' name) as Ho'
    by (intros name Hd; apply bool_decide_eq_true in Hd as [? ?]; auto).
  assert (∀ name, bool_decide (name ∈ FLAGS) = true → has_flag args name = has_flag args' name) as Hf'
    by (intros name Hd; apply bool_decide_eq_true in Hd; auto).
  clear Ho Hf. unfold handler in Hh.
  repeat match type of Hh with (if ?c then _ else _) = _ => destruct c end; simplify_eq.
  all: unfold list_in_doubt, force_resolve, list_operations, operation_summary, list_alerts,
    alert_summary, transition_alert, set_summary_retention, set_gc_retention, set_worker_schedule,
    check_worker_config, worker_reload_status, worker_config_admin_manager, operation_alerts_request,
    operation_summary_request, required_worker_schedule_target, required_bool, required_u32,
    required_u64, optional_u64, optional_usize, optional_alert_severity, request_id, required_option.
  all: repeat rewrite Ho' by (by vm_compute); repeat rewrite Hf' by (by vm_compute); reflexivity.
Qed.
Lemma run_ext command args args' :
  (∀ name, starts_with name "--" = true → name ∉ FLAGS → option_value args name = option_value args' name) →
  (∀ name, name ∈ FLAGS → has_flag args name = has_flag args' name) →
  run (command :: args) = run (command :: args').
Proof using Type.
  intros Ho Hf. unfold run. destruct (handler command) as [h|] eqn:Hh; [|done].
  by eapply handler_ext.
Qed.

(** The order of the options does not matter: a command line whose options are
    distinct and whose values do not look like options is read the same however the
    options, and the flags behind them, are ordered. *)
Theorem options_in_any_order command opts opts' flags flags' :
  plain opts → NoDup opts.*1 → flags ⊆ FLAGS → opts ≡ₚ opts' → flags ≡ₚ flags' →
  run (command :: command_line opts flags) = run (command :: command_line opts' flags').
Proof using Type.
  intros Hp Hnd Hf Ho Hfl. assert (plain opts') as Hp' by (unfold plain; by rewrite <- Ho).
  assert (flags' ⊆ FLAGS) as Hf' by (intros x; rewrite <- Hfl; apply Hf).
  apply run_ext.
  - intros name Hs Hn. rewrite !option_value_line by done. f_equal.
    by apply list_to_map_proper.
  - intros name Hn. rewrite !has_flag_line by done. unfold has_flag.
    apply eq_bool_prop_intro. rewrite !Is_true_true, !existsb_exists. by setoid_rewrite Hfl.
Qed.
End parse.
End Cli.

(** ** Command lines *)

Module CliSample.
Definition opts : list (string * string) :=
  [("--journal-root", "/var/lib/journal"); ("--operation-summary-path", "ops.jsonl");
   ("--tx-id", "tx-1"); ("--operator", "alice"); ("--reason", "checked on the console")].
Definition parsed : Cli.Command :=
  Cli.ForceResolve "/var/lib/journal" "ops.jsonl"
    (mkForceResolveTransactionRequest "force-resolve-1" None "tx-1" "alice" "checked on the console" true).
End CliSample.

Lemma options_in_any_order_witness :
  Cli.run "1" ("force-resolve" :: Cli.command_line CliSample.opts ["--break-glass"]) = Ok CliSample.parsed ∧
  Cli.run "1" ("force-resolve" :: Cli.command_line CliSample.opts ["--break-glass"]) =
  Cli.run "1" ("force-resolve" :: Cli.command_line (reverse CliSample.opts) ["--break-glass"]).
Proof.
  split; [by vm_compute|].
  apply (Cli.options_in_any_order "1" "force-resolve" CliSample.opts (reverse CliSample.opts)
    ["--break-glass"] ["--break-glass"]).
  - repeat constructor; try (vm_compute; congruence); apply (bool_decide_unpack _); by vm_compute.
  - apply (bool_decide_unpack _). by vm_compute.
  - intros x ->%list_elem_of_singleton. by left.
  - by rewrite reverse_Permutation.
  - reflexivity.
Defined.

(** A value may be anything, another option or a flag too: an operator named [--reason],
    and a break-glass command without the flag. *)
Example value_taken_for_option :
  Cli.option_value ["--operator"; "--reason"; "outage"] "--operator" = Some "--reason" ∧
  Cli.has_flag ["--reason"; "--break-glass"] "--break-glass" = true.
Proof. by vm_compute. Qed.
