(* ===== verification/Metrics.v ===== *)
(** * Counters (src/telemetry/metrics.rs)

    The counters a process keeps of finished transactions and of operation events, and their
    samples as floating-point numbers. *)
From S2P Require Export Telemetry.

Module Metrics.

Inductive MetricName :=
  | TransactionTotal | TransactionFailedTotal | TransactionRollbackTotal | TransactionInDoubtTotal
  | OperationForceResolveTotal | OperationRecoveryTotal | OperationRecoveryInDoubtTotal
  | OperationDriftAuditTotal | OperationDriftDetectedTotal | OperationJournalGcTotal
  | OperationJournalGcDeletedTotal | OperationApplyIdempotencyGcTotal
  | OperationApplyIdempotencyGcDeletedTotal | OperationAuditWriteFailedTotal | NetconfRpcLatencyMs
  | DeviceSessionReconnectTotal.
#[export] Instance MetricName_eq_dec : EqDecision MetricName.
Proof. solve_decision. Defined.

(** The counters; a name that was never counted has none. *)
Record Metrics := mkMetrics { counters : list (MetricName * N) }.
Definition new : Metrics := mkMetrics [].
Definition counter (name : MetricName) (m : Metrics) : N :=
  default 0%N (snd <$> List.find (λ kv, bool_decide (kv.1 = name)) (counters m)).
(** [*self.counters.entry(name).or_insert(0) += 1] *)
Fixpoint bump (name : MetricName) (l : list (MetricName * N)) : list (MetricName * N) :=
  match l with
  | [] => [(name, 1%N)]
  | (k, n) :: l => if bool_decide (k = name) then (k, (n + 1)%N) :: l else (k, n) :: bump name l
  end.
Definition increment (name : MetricName) (m : Metrics) : Metrics := mkMetrics (bump name (counters m)).

Definition record_transaction_status (status : ApplyStatus) (m : Metrics) : Metrics :=
  let m := increment TransactionTotal m in
  match status with
  | PartialSuccess | ApplyFailed => increment TransactionFailedTotal m
  | ApplyRolledBack => increment TransactionRollbackTotal m
  | ApplyInDoubt => increment TransactionInDoubtTotal m
  | NoOpSuccess | Success | SuccessWithWarning => m
  end.

Definition increment_if (c : bool) (name : MetricName) (m : Metrics) : Metrics :=
  if c then increment name m else m.
Definition record_event (e : UnderlayEvent) (m : Metrics) : Metrics :=
  match ue_kind e with
  | UnderlayTransactionForceResolved => increment OperationForceResolveTotal m
  | UnderlayRecoveryCompleted =>
      increment_if (0 <? field_value e "in_doubt")%N OperationRecoveryInDoubtTotal
        (increment OperationRecoveryTotal m)
  | UnderlayDriftAuditCompleted =>
      increment_if (0 <? field_value e "drifted_device_count")%N OperationDriftDetectedTotal
        (increment OperationDriftAuditTotal m)
  | UnderlayJournalGcCompleted =>
      increment_if (0 <? field_value e "journals_deleted" + field_value e "artifacts_deleted")%N
        OperationJournalGcDeletedTotal (increment OperationJournalGcTotal m)
  | UnderlayApplyIdempotencyGcCompleted =>
      increment_if (0 <? field_value e "records_deleted")%N OperationApplyIdempotencyGcDeletedTotal
        (increment OperationApplyIdempotencyGcTotal m)
  | UnderlayAuditWriteFailed => increment OperationAuditWriteFailedTotal m
  | _ => m
  end.

Lemma counter_increment name name' m :
  counter name (increment name' m) = (counter name m + if bool_decide (name' = name) then 1 else 0)%N.
Proof.
  unfold counter, increment. simpl. destruct m as [l]. simpl.
  induction l as [|[k n] l IH]; simpl; [by repeat case_bool_decide|].
  destruct (decide (k = name')) as [->|Hk]; simpl.
  - rewrite (bool_decide_true (name' = name')) by done. simpl.
    destruct (decide (name' = name)) as [->|Hn].
    + by rewrite !bool_decide_true.
    + rewrite !bool_decide_false by done. lia.
  - rewrite (bool_decide_false (k = name')) by done. simpl.
    destruct (decide (k = name)) as [->|Hn].
    + rewrite !bool_decide_true, !bool_decide_false by done. simpl. lia.
    + by rewrite !(bool_decide_false (k = name)).
Qed.

(** Every finished transaction is counted, once in the total and once more when it did
    not simply succeed. *)
Lemma transactions_counted statuses :
  let m := foldl (λ m s, record_transaction_status s m) new statuses in
  let count p := N.of_nat (length (filter (λ s, p s = true) statuses)) in
  counter TransactionTotal m = N.of_nat (length statuses) ∧
  counter TransactionFailedTotal m = count (λ s, bool_decide (s = PartialSuccess ∨ s = ApplyFailed)) ∧
  counter TransactionRollbackTotal m = count (λ s, bool_decide (s = ApplyRolledBack)) ∧
  counter TransactionInDoubtTotal m = count (λ s, bool_decide (s = ApplyInDoubt)).
Proof.
  cbv zeta. induction statuses as [|s statuses IH] using rev_ind; [done|].
  rewrite foldl_snoc, length_app, !filter_app, !length_app.
  revert IH. generalize (foldl (λ m s, record_transaction_status s m) new statuses).
  intros m (H1 & H2 & H3 & H4).
  destruct s; unfold record_transaction_status;
    rewrite ?counter_increment, H1, H2, H3, H4; simpl; split_and!; lia.
Qed.

(** ** Samples *)

(** The names in the order of the enumeration, which is the order of the map. *)
Definition metric_names : list MetricName :=
  [TransactionTotal; TransactionFailedTotal; TransactionRollbackTotal; TransactionInDoubtTotal;
   OperationForceResolveTotal; OperationRecoveryTotal; OperationRecoveryInDoubtTotal;
   OperationDriftAuditTotal; OperationDriftDetectedTotal; OperationJournalGcTotal;
   OperationJournalGcDeletedTotal; OperationApplyIdempotencyGcTotal;
   OperationApplyIdempotencyGcDeletedTotal; OperationAuditWriteFailedTotal; NetconfRpcLatencyMs;
   DeviceSessionReconnectTotal].

(** [value as f64]: 53 significant bits, rounded to the nearest and to even; the value is an
    integer again. *)
Definition u64_as_f64 (n : N) : N :=
  let shift := (N.size n - 53)%N in
  let unit := (2 ^ shift)%N in
  let q := (n / unit)%N in
  let r := (n mod unit)%N in
  let up := (unit <? 2 * r)%N || ((2 * r =? unit)%N && N.odd q) in
  ((if up then q + 1 else q) * unit)%N.

Record MetricSample := mkSample {
  ms_name : MetricName;
  ms_value : N;
  ms_labels : gmap string string;
}.
Definition samples (m : Metrics) : list MetricSample :=
  omap (λ name, (λ kv, mkSample name (u64_as_f64 kv.2) ∅) <$>
    List.find (λ kv, bool_decide (kv.1 = name)) (counters m)) metric_names.

Lemma u64_as_f64_exact n : (n < 2 ^ 53)%N → u64_as_f64 n = n.
Proof.
  intros Hn. unfold u64_as_f64.
  assert (N.size n <= 53)%N as Hs.
  { destruct (decide (n = 0)%N) as [->|Hz]; [vm_compute; discriminate|].
    rewrite N.size_log2 by done. apply N.le_succ_l, N.log2_lt_pow2; lia. }
  replace (N.size n - 53)%N with 0%N by lia. rewrite N.pow_0_r, N.div_1_r, N.mod_1_r. simpl. lia.
Qed.

(** The samples name each counter that was ever incremented once, and give its value as
    long as it fits a float. *)
Lemma samples_exact m :
  Forall (λ kv, (kv.2 < 2 ^ 53)%N) (counters m) →
  (∀ s, s ∈ samples m → ms_value s = counter (ms_name s) m) ∧
  (∀ name, (0 < counter name m)%N → ∃ s, s ∈ samples m ∧ ms_name s = name).
Proof.
  intros Hm. split.
  - intros s. unfold samples, counter. rewrite list_elem_of_omap.
    intros (name & _ & Hs). destruct (List.find _ (counters m)) as [kv|] eqn:Hf; [|done].
    simplify_eq/=. rewrite Hf. simpl. apply u64_as_f64_exact.
    apply List.find_some in Hf as [Hin _]. rewrite Forall_forall in Hm. by apply Hm, list_elem_of_In.
  - intros name Hpos. unfold counter in Hpos.
    destruct (List.find _ (counters m)) as [kv|] eqn:Hf; [|simpl in Hpos; lia].
    exists (mkSample name (u64_as_f64 kv.2) ∅). split; [|done].
    unfold samples. apply list_elem_of_omap. exists name. rewrite Hf. split; [|done].
    destruct name; by apply (bool_decide_unpack _).
Qed.
(** Past that a sample rounds. *)
Example samples_round : u64_as_f64 (2 ^ 53 + 1) = (2 ^ 53)%N ∧ u64_as_f64 (2 ^ 53 + 3) = (2 ^ 53 + 4)%N.
Proof. by vm_compute. Qed.
End Metrics.
