(* ===== verification/KeyLocks.v ===== *)
(** * The locks of the file stores (src/state/shadow.rs, src/tx/journal.rs)

    Both file stores keep a table of mutexes, one per key, that is made on demand and
    pruned: a writer takes the mutex of its key from the table ([lock_for]), does its
    read-modify-write under it, and afterwards removes the table's entry if nobody else has
    it ([prune_idle_lock], which looks at the reference count).

    Threads interleave between these steps.  A thread's step is a function of the state
    ([fire]); the theorem is that however they interleave, the files change as if each
    operation happened at once: what the sequential models of the stores assume. *)
From S2P Require Export Shadow.

Module KeyLocks.
Section locks.
Context {K V : Type} `{Countable K}.

(** What an operation writes, from what it read: [None] is no file. *)
Notation Op := (option V → option V).

Inductive Pc :=
  | Waiting                    (* has the mutex of its key, not locked *)
  | Inside                     (* holds the guard *)
  | HasRead (v : option V)
  | Finished                   (* the closure's result is known; the guard is still held *)
  | Released                   (* before [prune_idle_lock] *)
  | Pruned.                    (* still has its reference to the mutex *)
Record Thread := mkThread { th_key : K; th_lock : nat; th_op : Op; th_pc : Pc }.

(** Mutexes are numbered; [owner] says which are locked, by whom. *)
Record State := mkState {
  table : gmap K nat;
  owner : gmap nat nat;
  poisoned : gset nat;
  fresh : nat;
  threads : gmap nat Thread;
  files : gmap K V;
  history : list (K * Op);     (* the operations that wrote, in that order *)
}.
Definition init (files : gmap K V) : State := mkState ∅ ∅ ∅ 0 ∅ files [].

(** [self.locks.entry(key).or_insert_with(..).value().clone()] *)
Definition lock_for (k : K) (s : State) : nat * State :=
  match table s !! k with
  | Some p => (p, s)
  | None => (fresh s, mkState (<[k := fresh s]> (table s)) (owner s) (poisoned s) (S (fresh s))
                        (threads s) (files s) (history s))
  end.
(** [Arc::strong_count]: the table and the threads hold references. *)
Definition strong_count (p : nat) (s : State) : nat :=
  size (filter (λ kp, kp.2 = p) (table s)) + size (filter (λ tt, th_lock tt.2 = p) (threads s)).
Definition prune_idle_lock (k : K) (p : nat) (s : State) : State :=
  if bool_decide (table s !! k = Some p) && (strong_count p s =? 2)%nat
  then mkState (delete k (table s)) (owner s) (poisoned s) (fresh s) (threads s) (files s) (history s)
  else s.

Definition set_threads (f : gmap nat Thread → gmap nat Thread) (s : State) : State :=
  mkState (table s) (owner s) (poisoned s) (fresh s) (f (threads s)) (files s) (history s).
Definition goto (t : nat) (th : Thread) (pc : Pc) (s : State) : State :=
  set_threads <[t := mkThread (th_key th) (th_lock th) (th_op th) pc]> s.
Definition set_owner (f : gmap nat nat → gmap nat nat) (s : State) : State :=
  mkState (table s) (f (owner s)) (poisoned s) (fresh s) (threads s) (files s) (history s).
Definition poison (p : nat) (s : State) : State :=
  mkState (table s) (owner s) ({[p]} ∪ poisoned s) (fresh s) (threads s) (files s) (history s).
(** An operation on the files, at once. *)
Definition commit (fs : gmap K V) (ko : K * Op) : gmap K V :=
  partial_alter (λ _, ko.2 (fs !! ko.1)) ko.1 fs.
Definition write_file (k : K) (op : Op) (v : option V) (s : State) : State :=
  mkState (table s) (owner s) (poisoned s) (fresh s) (threads s)
    (partial_alter (λ _, op v) k (files s)) (history s ++ [(k, op)]).

Inductive Act := Call (k : K) (op : Op) | Lock | Read | Write | Fail | Unlock | Panic | Prune | Return.

Definition fire (t : nat) (a : Act) (s : State) : option State :=
  match a, threads s !! t with
  | Call k op, None =>
      let '(p, s) := lock_for k s in Some (set_threads <[t := mkThread k p op Waiting]> s)
  | _, None => None
  | _, Some th =>
      let p := th_lock th in
      match a, th_pc th with
      | Lock, Waiting =>
          match owner s !! p with
          | Some _ => None
          | None => if decide (p ∈ poisoned s) then Some (goto t th Released s)
                    else Some (goto t th Inside (set_owner <[p := t]> s))
          end
      | Read, Inside => Some (goto t th (HasRead (files s !! th_key th)) s)
      | Write, HasRead v => Some (goto t th Finished (write_file (th_key th) (th_op th) v s))
      | Fail, (Inside | HasRead _) => Some (goto t th Finished s)
      | Unlock, Finished => Some (goto t th Released (set_owner (delete p) s))
      | Panic, (Inside | HasRead _) =>
          Some (set_threads (delete t) (poison p (set_owner (delete p) s)))
      | Prune, Released => Some (goto t th Pruned (prune_idle_lock (th_key th) p s))
      | Return, Pruned => Some (set_threads (delete t) s)
      | _, _ => None
      end
  end.
Fixpoint run (steps : list (nat * Act)) (s : State) : option State :=
  match steps with
  | [] => Some s
  | (t, a) :: steps => s' ← fire t a s; run steps s'
  end.
(** Whatever the threads do from a store at rest. *)
Definition reachable (fs : gmap K V) (s : State) : Prop := ∃ steps, run steps (init fs) = Some s.

(** ** The invariant *)

Definition guarded (pc : Pc) : Prop :=
  match pc with Inside | HasRead _ | Finished => True | _ => False end.
Record inv (fs : gmap K V) (s : State) : Prop := {
  in_table t th : threads s !! t = Some th → th_pc th ≠ Pruned →
    table s !! th_key th = Some (th_lock th);
  owner_guarded t th : threads s !! t = Some th → guarded (th_pc th) → owner s !! th_lock th = Some t;
  read_current t th v : threads s !! t = Some th → th_pc th = HasRead v → files s !! th_key th = v;
  files_history : files s = foldl commit fs (history s);
}.

Lemma inv_init fs : inv fs (init fs).
Proof. split; simpl; [intros t th..|done]; by rewrite lookup_empty. Qed.

(** No two threads are in the critical section of a key. *)
Lemma inv_exclusive fs s t1 th1 t2 th2 :
  inv fs s → threads s !! t1 = Some th1 → threads s !! t2 = Some th2 →
  guarded (th_pc th1) → guarded (th_pc th2) → th_key th1 = th_key th2 → t1 = t2.
Proof.
  intros [Ht Ho _ _] H1 H2 G1 G2 Hk.
  assert (th_lock th1 = th_lock th2) as Hl.
  { pose proof (Ht _ _ H1). pose proof (Ht _ _ H2). rewrite Hk in *.
    destruct (th_pc th1), (th_pc th2); naive_solver. }
  pose proof (Ho _ _ H1 G1). pose proof (Ho _ _ H2 G2). rewrite Hl in *. naive_solver.
Qed.

Lemma filter_size_ge {A B} `{Countable A} (P : A * B → Prop) `{∀ x, Decision (P x)}
    (m : gmap A B) (X : gset A) :
  (∀ x, x ∈ X → ∃ b, m !! x = Some b ∧ P (x, b)) → (size X ≤ size (filter P m))%nat.
Proof.
  intros HX. rewrite <- (size_dom (filter P m)). apply subseteq_size. intros x Hx.
  destruct (HX x Hx) as (b & Hb & HP). apply elem_of_dom. exists b. by apply map_lookup_filter_Some.
Qed.
(** A reference count of two leaves no room for a third. *)
Lemma strong_count_two s k p t th :
  table s !! k = Some p → threads s !! t = Some th → th_lock th = p → strong_count p s = 2 →
  ∀ t' th', threads s !! t' = Some th' → th_lock th' = p → t' = t.
Proof.
  unfold strong_count. intros Hk Ht Hp Hc t' th' Ht' Hp'.
  destruct (decide (t' = t)) as [|Hne]; [done|exfalso].
  assert (size ({[k]} : gset K) ≤ size (filter (λ kp, kp.2 = p) (table s)))%nat as H1
    by (apply filter_size_ge; intros x ->%elem_of_singleton; eauto).
  assert (size ({[t; t']} : gset nat) ≤ size (filter (λ tt, th_lock tt.2 = p) (threads s)))%nat as H2
    by (apply filter_size_ge; intros x [->%elem_of_singleton| ->%elem_of_singleton]%elem_of_union; eauto).
  rewrite size_union, !size_singleton in H2 by set_solver. rewrite size_singleton in H1. lia.
Qed.

(** ** Every step keeps it *)

Lemma inv_goto fs s t th pc :
  inv fs s → threads s !! t = Some th → (pc = Pruned ∨ th_pc th ≠ Pruned) →
  (guarded pc → guarded (th_pc th)) → (∀ v, pc = HasRead v → files s !! th_key th = v) →
  inv fs (goto t th pc s).
Proof.
  intros [Ht Ho Hr Hh] Hth Hp Hg Hv. split; simpl; [| | |done].
  - intros t' th' [[<- <-]|[_ H']]%lookup_insert_Some; simpl; [|by eapply Ht].
    intros Hpc. apply Ht with t; naive_solver.
  - intros t' th' [[<- <-]|[_ H']]%lookup_insert_Some; simpl; [|by eapply Ho].
    intros G. apply Ho; auto.
  - intros t' th' v [[<- <-]|[_ H']]%lookup_insert_Some; simpl; [apply Hv|by eapply Hr].
Qed.

Lemma inv_lock_for fs s k p s1 :
  inv fs s → lock_for k s = (p, s1) →
  inv fs s1 ∧ table s1 !! k = Some p ∧ threads s1 = threads s.
Proof.
  intros Hinv. unfold lock_for. destruct (table s !! k) as [q|] eqn:Hk; intros [= <- <-]; [done|].
  destruct Hinv as [Ht Ho Hr Hh]. split; [|simpl; by rewrite lookup_insert_eq]. split; simpl; [|done..].
  intros t th Hth Hpc. pose proof (Ht t th Hth Hpc) as Hin.
  rewrite lookup_insert_ne; [done|]. intros ->. congruence.
Qed.
Lemma inv_call fs s t k op p s1 :
  inv fs s → threads s !! t = None → lock_for k s = (p, s1) →
  inv fs (set_threads <[t := mkThread k p op Waiting]> s1).
Proof.
  intros Hinv Hth Hl. destruct (inv_lock_for _ _ _ _ _ Hinv Hl) as ([Ht Ho Hr Hh] & Hk & Heq).
  split; simpl; [| | |done].
  - intros t' th' [[<- <-]|[_ H']]%lookup_insert_Some; simpl; [done|by eapply Ht].
  - intros t' th' [[<- <-]|[_ H']]%lookup_insert_Some; simpl; [done|by eapply Ho].
  - intros t' th' v [[<- <-]|[_ H']]%lookup_insert_Some; simpl; [done|by eapply Hr].
Qed.

(** The guard is taken when nobody has it, and given back. *)
Lemma inv_locked fs s t th :
  inv fs s → threads s !! t = Some th → th_pc th = Waiting → owner s !! th_lock th = None →
  inv fs (goto t th Inside (set_owner <[th_lock th := t]> s)).
Proof.
  intros [Ht Ho Hr Hh] Hth Hpc Hfree. split; simpl; [| | |done].
  - intros t' th' [[<- <-]|[_ H']]%lookup_insert_Some; simpl; [|by eapply Ht].
    intros _. apply Ht with t; [done|]. by rewrite Hpc.
  - intros t' th' [[<- <-]|[_ H']]%lookup_insert_Some; simpl; [by rewrite lookup_insert_eq|].
    intros G. pose proof (Ho _ _ H' G). rewrite lookup_insert_ne; [done|]. congruence.
  - intros t' th' v [[<- <-]|[_ H']]%lookup_insert_Some; simpl; [done|by eapply Hr].
Qed.
(** Without its guard a thread owns nothing; no other thread owned it. *)
Lemma inv_disown fs s t th :
  inv fs s → threads s !! t = Some th → guarded (th_pc th) →
  ∀ t' th', t' ≠ t → threads s !! t' = Some th' → guarded (th_pc th') →
    delete (th_lock th) (owner s) !! th_lock th' = Some t'.
Proof.
  intros [_ Ho _ _] Hth G t' th' Hne H' G'. pose proof (Ho _ _ Hth G). pose proof (Ho _ _ H' G').
  rewrite lookup_delete_ne; [done|]. congruence.
Qed.
Lemma inv_unlock fs s t th :
  inv fs s → threads s !! t = Some th → th_pc th = Finished →
  inv fs (goto t th Released (set_owner (delete (th_lock th)) s)).
Proof.
  intros Hinv Hth Hpc. assert (guarded (th_pc th)) as G by by rewrite Hpc.
  pose proof (inv_disown _ _ _ _ Hinv Hth G) as Hd. destruct Hinv as [Ht Ho Hr Hh].
  split; simpl; [| | |done].
  - intros t' th' [[<- <-]|[_ H']]%lookup_insert_Some; simpl; [|by eapply Ht].
    intros _. apply Ht with t; [done|]. by rewrite Hpc.
  - intros t' th' [[<- <-]|[Hne H']]%lookup_insert_Some; simpl; [done|]. by apply Hd.
  - intros t' th' v [[<- <-]|[_ H']]%lookup_insert_Some; simpl; [done|by eapply Hr].
Qed.
Lemma inv_drop fs s t :
  inv fs s → inv fs (set_threads (delete t) s).
Proof.
  intros [Ht Ho Hr Hh]. split; simpl; [| | |done];
    intros t' th' *; intros [_ H']%lookup_delete_Some; eauto.
Qed.
Lemma inv_panic fs s t th :
  inv fs s → threads s !! t = Some th → guarded (th_pc th) →
  inv fs (set_threads (delete t) (poison (th_lock th) (set_owner (delete (th_lock th)) s))).
Proof.
  intros Hinv Hth G. pose proof (inv_disown _ _ _ _ Hinv Hth G) as Hd. destruct Hinv as [Ht Ho Hr Hh].
  split; simpl; [| | |done].
  - intros t' th' [_ H']%lookup_delete_Some. by eapply Ht.
  - intros t' th' [Hne H']%lookup_delete_Some. by apply Hd.
  - intros t' th' v [_ H']%lookup_delete_Some. by eapply Hr.
Qed.

(** The write: nobody else has read the file, since it is under the same mutex. *)
Lemma inv_write fs s t th v :
  inv fs s → threads s !! t = Some th → th_pc th = HasRead v →
  inv fs (goto t th Finished (write_file (th_key th) (th_op th) v s)).
Proof.
  intros Hinv Hth Hpc. assert (guarded (th_pc th)) as G by by rewrite Hpc.
  pose proof (λ t' th', inv_exclusive _ _ t' th' t th Hinv) as Hex. destruct Hinv as [Ht Ho Hr Hh].
  split; simpl.
  - intros t' th' [[<- <-]|[_ H']]%lookup_insert_Some; simpl; [|by eapply Ht].
    intros _. apply Ht with t; [done|]. by rewrite Hpc.
  - intros t' th' [[<- <-]|[Hne H']]%lookup_insert_Some; simpl; [intros _; by eapply Ho|by eapply Ho].
  - intros t' th' v' [[<- <-]|[Hne H']]%lookup_insert_Some; simpl; [done|]. intros Hv'.
    rewrite lookup_partial_alter_ne; [by eapply Hr|]. intros Hk. apply Hne. symmetry.
    apply (Hex t' th'); try done. by rewrite Hv'.
  - rewrite foldl_snoc, <- Hh. unfold commit. simpl. by rewrite (Hr _ _ _ Hth Hpc).
Qed.

(** The entry is removed only when no other thread relies on it. *)
Lemma inv_prune fs s t th :
  inv fs s → threads s !! t = Some th → th_pc th = Released →
  inv fs (goto t th Pruned (prune_idle_lock (th_key th) (th_lock th) s)).
Proof.
  intros Hinv Hth Hpc. unfold prune_idle_lock.
  destruct (bool_decide _ && _) eqn:Hc; [|by apply inv_goto; auto; naive_solver].
  apply andb_true_iff in Hc as [Hk%bool_decide_eq_true Hn%Nat.eqb_eq].
  pose proof (strong_count_two _ _ _ _ _ Hk Hth eq_refl Hn) as Honly. destruct Hinv as [Ht Ho Hr Hh].
  split; simpl; [| | |done].
  - intros t' th' [[<- <-]|[Hne H']]%lookup_insert_Some; simpl; [done|]. intros Hpc'.
    pose proof (Ht _ _ H' Hpc') as Hin. rewrite lookup_delete_ne; [done|]. intros Heq.
    apply Hne. symmetry. apply (Honly t' th' H'). congruence.
  - intros t' th' [[<- <-]|[Hne H']]%lookup_insert_Some; simpl; [done|by eapply Ho].
  - intros t' th' v [[<- <-]|[Hne H']]%lookup_insert_Some; simpl; [done|by eapply Hr].
Qed.

Lemma inv_fire fs s t a s' : inv fs s → fire t a s = Some s' → inv fs s'.
Proof.
  intros Hinv. unfold fire. destruct (threads s !! t) as [th|] eqn:Hth.
  - destruct a; try done; destruct (th_pc th) eqn:Hpc; try done; try (intros [= <-]).
    + destruct (owner s !! th_lock th) eqn:Ho; [done|].
      case_decide; intros [= <-]; [|by apply inv_locked].
      apply inv_goto; auto; rewrite ?Hpc; naive_solver.
    + apply inv_goto; auto; rewrite ?Hpc; naive_solver.
    + by apply inv_write.
    + apply inv_goto; auto; rewrite ?Hpc; naive_solver.
    + apply inv_goto; auto; rewrite ?Hpc; naive_solver.
    + by apply inv_unlock.
    + apply inv_panic; auto. by rewrite Hpc.
    + apply inv_panic; auto. by rewrite Hpc.
    + by apply inv_prune.
    + by apply inv_drop.
  - destruct a; try done. destruct (lock_for k s) as [p s1] eqn:Hl. intros [= <-].
    by eapply inv_call.
Qed.
Lemma inv_reachable fs s : reachable fs s → inv fs s.
Proof.
  intros [steps Hrun]. assert (inv fs (init fs)) as Hi by apply inv_init. revert Hi Hrun.
  generalize (init fs). induction steps as [|[t a] steps IH]; simpl; [naive_solver|].
  intros s0 Hi Hrun. destruct (fire t a s0) as [s1|] eqn:Hf; [|done]. simpl in Hrun.
  eapply IH; [|done]. by eapply inv_fire.
Qed.

(** C14. However the writers of a file store interleave, and whichever fail or panic, no
    two of them are ever inside the critical section of a key, although the mutexes are
    dropped from the table and made anew, and the files are what the operations make of
    them one after the other, each at once, in the order of their writes: no update is
    lost. *)
Theorem writers_are_atomic fs s :
  reachable fs s →
  (∀ t1 th1 t2 th2, threads s !! t1 = Some th1 → threads s !! t2 = Some th2 →
    guarded (th_pc th1) → guarded (th_pc th2) → th_key th1 = th_key th2 → t1 = t2) ∧
  files s = foldl commit fs (history s).
Proof.
  intros Hr%inv_reachable. split; [|apply Hr]. intros. by eapply inv_exclusive.
Qed.
End locks.
End KeyLocks.

(** ** The operations of the two stores *)

(** [JsonFileShadowStateStore::put] and [remove] under the mutex of the device *)
Definition shadow_put_op (state : DeviceShadowState) (current : option DeviceShadowState)
    : option DeviceShadowState :=
  Some (with_revision state (next_revision current state)).
Definition shadow_remove_op (current : option DeviceShadowState) : option DeviceShadowState := None.

(** At once, they are the operations of the contract of the store. *)
Lemma shadow_put_commit fs state :
  KeyLocks.commit fs (ss_device_id state, shadow_put_op state) =
  <[ss_device_id state := stored fs state]> fs.
Proof. unfold KeyLocks.commit, shadow_put_op, stored. simpl. apply partial_alter_ext. done. Qed.
Lemma shadow_remove_commit (fs : gmap DeviceId DeviceShadowState) d :
  KeyLocks.commit fs (d, shadow_remove_op) = delete d fs.
Proof. done. Qed.

Module KeyLocksSample.
Import KeyLocks.
Definition leaf : DeviceId := mkDeviceId "leaf-a".
Definition put : Act := Call leaf (shadow_put_op ShadowSample.state).
(** Two writers of one device that overlap in every way the mutex allows. *)
Definition steps : list (nat * Act) :=
  [(0, put); (1, put); (0, Lock); (0, Read); (0, Write); (0, Unlock); (1, Lock); (0, Prune);
   (1, Read); (1, Write); (1, Unlock); (1, Prune); (0, Return); (1, Return)].
Definition final : option (State (K:=DeviceId) (V:=DeviceShadowState)) := run steps (init ∅).
End KeyLocksSample.

Lemma writers_are_atomic_witness :
  ∃ s, KeyLocksSample.final = Some s ∧
    ss_revision <$> KeyLocks.files s !! KeyLocksSample.leaf = Some 2%N ∧
    KeyLocks.files s = foldl KeyLocks.commit ∅ (KeyLocks.history s).
Proof.
  assert ((λ s, ss_revision <$> KeyLocks.files s !! KeyLocksSample.leaf) <$> KeyLocksSample.final
    = Some (Some 2%N)) as Hrev by (vm_compute; reflexivity).
  apply fmap_Some in Hrev as (s & Hs & Hrev). exists s. split; [exact Hs|].
  split; [exact (eq_sym Hrev)|].
  apply (KeyLocks.writers_are_atomic ∅ s). exists KeyLocksSample.steps. exact Hs.
Defined.

(** The reference count spares an entry that nobody needs: when both writers look while
    the other still has its reference, the mutex stays in the table after both are gone. *)
Example idle_lock_left_behind :
  KeyLocks.threads <$> KeyLocksSample.final = Some ∅ ∧
  (λ s, size (KeyLocks.table s)) <$> KeyLocksSample.final = Some 1%nat.
Proof. by vm_compute. Qed.
