(* ===== verification/Decimal.v ===== *)
(** * Decimal numbers: [format!("{n}")] and [str::parse]

    The digits [fmt_N] prints and the number [parse_u64] reads from them. *)
From S2P Require Export RustString.

Definition is_digit (c : ascii) : Prop := is_Some (digit_val c).

(** The number a list of digits denotes. *)
Definition digits_val (l : list ascii) : option N :=
  foldl (λ a d, a * 10 + d)%N 0%N <$> mapM digit_val l.

Lemma digit_val_char x : (x < 10)%N → digit_val (pretty_N_char x) = Some x.
Proof.
  intros Hx. destruct (decide (x = 0 ∨ x = 1 ∨ x = 2 ∨ x = 3 ∨ x = 4)%N) as [Hlow|Hlow].
  - by destruct_or! Hlow; subst.
  - assert (x = 5 ∨ x = 6 ∨ x = 7 ∨ x = 8 ∨ x = 9)%N as Hhigh by lia. by destruct_or! Hhigh; subst.
Qed.

Lemma digits_val_snoc l c n d :
  digits_val l = Some n → digit_val c = Some d → digits_val (l ++ [c]) = Some (n * 10 + d)%N.
Proof.
  unfold digits_val. rewrite !fmap_Some. intros (ds & Hds & ->) Hd.
  exists (ds ++ [d]). split; [|by rewrite foldl_app].
  apply mapM_Some in Hds. apply mapM_Some, Forall2_app; [done|]. by repeat constructor.
Qed.

Lemma pretty_N_go_digits x s :
  ∃ l, bytes (pretty_N_go x s) = l ++ bytes s ∧ digits_val l = Some x ∧ (l = [] → x = 0%N).
Proof.
  revert s. induction (N.lt_wf_0 x) as [x _ IH]; intros s.
  destruct (decide (x = 0)%N) as [->|Hx].
  - exists []. by rewrite pretty_N_go_0.
  - rewrite pretty_N_go_step by lia.
    destruct (IH (x `div` 10)%N ltac:(apply N.div_lt; lia)
      (String (pretty_N_char (x `mod` 10)) s)) as (l & Hl & Hval & _).
    exists (l ++ [pretty_N_char (x `mod` 10)]). split_and!.
    + rewrite Hl. by rewrite <-app_assoc.
    + rewrite (digits_val_snoc l _ _ (x `mod` 10) Hval).
      * f_equal. pose proof (N.div_mod x 10). lia.
      * apply digit_val_char, N.mod_lt. lia.
    + by destruct l.
Qed.

Lemma fmt_N_digits n : bytes (fmt_N n) ≠ [] ∧ digits_val (bytes (fmt_N n)) = Some n.
Proof.
  unfold fmt_N, pretty, pretty_N. case_decide as Hn; [by subst|].
  destruct (pretty_N_go_digits n "") as (l & -> & Hval & Hne). rewrite app_nil_r.
  split; [|done]. naive_solver.
Qed.

Lemma fmt_N_is_digit n : Forall is_digit (bytes (fmt_N n)).
Proof.
  destruct (fmt_N_digits n) as [_ Hval]. unfold digits_val in Hval.
  apply fmap_Some in Hval as (ds & Hds & _). apply mapM_Some in Hds.
  eapply Forall2_Forall_l in Hds; [exact Hds|]. apply Forall_forall. intros d _ c Hc. by eexists.
Qed.

(** Parsing what was printed gives the number back. *)
Lemma parse_u64_fmt n : (n < 2 ^ 64)%N → parse_u64 (fmt_N n) = Ok n.
Proof.
  intros Hn. destruct (fmt_N_digits n) as [Hne Hval]. pose proof (fmt_N_is_digit n) as Hd.
  unfold parse_u64.
  assert (parse_digits (bytes (fmt_N n)) = Ok n) as Hp.
  { unfold parse_digits, digits_val in *. destruct (mapM digit_val _); simplify_eq/=.
    apply N.ltb_lt in Hn. by rewrite Hn. }
  destruct Hd as [|c l [d Hc] Hl]; [done|]. destruct l; [done|].
  rewrite bool_decide_eq_false_2; [done|]. by intros ->.
Qed.

Lemma digit_byte c : is_digit c → (48 ≤ N_of_ascii c ≤ 57)%N.
Proof.
  unfold is_digit, digit_val. destruct (_ && _)%N eqn:Hc; [|by intros []].
  apply andb_prop in Hc as [H1%N.leb_le H2%N.leb_le]. lia.
Qed.
