(* ===== verification/LogLine.v ===== *)
(** * Log lines (src/telemetry/sink.rs, src/api/product_http_server.rs)

    An event goes to standard error as one line of [key=value] fields; a value that is not
    plain is written as a JSON string.  This file models the lines, gives the reader a log
    collector would use, and shows that the reader finds the fields of the event again:
    whatever text a request, a device or an error message carries, it cannot end the line,
    start a field of its own or change another one.

    [serde_json::to_string] of a string is a parameter; what the lines rely on is that it
    succeeds and writes a JSON string. *)
From S2P Require Export Gc Decimal.

(** ** The remaining constructors of events (src/telemetry/events.rs) *)

Definition transaction_phase (req tr tx : string) (device : option DeviceId) (phase : TxPhase)
    (strategy : option TransactionStrategy) : UnderlayEvent :=
  mkUnderlayEvent UnderlayTransactionPhaseChanged req tr (Some tx) device (Some phase) strategy
    None None None ∅.
Definition with_error (e : UnderlayEvent) (code message : string) : UnderlayEvent :=
  mkUnderlayEvent (ue_kind e) (ue_request_id e) (ue_trace_id e) (ue_tx_id e) (ue_device_id e)
    (ue_phase e) (ue_strategy e) (ue_result e) (Some code) (Some message) (ue_fields e).

Definition quote_char : ascii := byte 34.
Definition blank : ascii := byte 32.
Definition equals : ascii := byte 61.

(** A control character, which a JSON string holds only escaped. *)
Definition is_control (c : ascii) : bool := (N_of_ascii c <? 32)%N.

(** ** JSON strings *)

(** [serde_json::to_string] of a [&str]. *)
Class JsonString := json_to_string : string → result string string.

(** It succeeds, on a text in quotes without control characters from which a reader of JSON
    strings gets the string back, whatever follows. *)
Class JsonStringLaws (J : JsonString) (read_json : list ascii → option (string * list ascii)) := {
  json_written s : ∃ t, json_to_string s = Ok t ∧ head (bytes t) = Some quote_char ∧
    Forall (λ c, is_control c = false) (bytes t) ∧
    ∀ rest, read_json (bytes t ++ rest) = Some (s, rest);
}.

(** ** Lines *)

Definition is_unquoted_log_char (ch : ascii) : bool :=
  is_ascii_alphanumeric ch || bool_decide (ch ∈ bytes "_-./:,@").

Section lines.
Context `{!JsonString}.

Definition format_log_value (value : string) : string :=
  if forallb is_unquoted_log_char (bytes value) then value
  else match json_to_string value with
       | Ok text => text
       | Err _ => of_bytes ([quote_char] ++ bytes "<unprintable>" ++ [quote_char])
       end.

Definition format_field (field : string * string) : string :=
  field.1 +:+ "=" +:+ format_log_value field.2.

(** The fields of a line, in order. *)
Definition log_fields (now : N) (e : UnderlayEvent) : list (string * string) :=
  let audit := AuditRecord_from_event e in
  let optional {A} (key : string) (show : A → string) (o : option A) : list (string * string) :=
    match o with Some a => [(key, show a)] | None => [] end in
  [("ts", fmt_N now); ("level", event_log_level e); ("action", au_action audit);
   ("result", au_result audit); ("request_id", au_request_id audit);
   ("trace_id", au_trace_id audit)]
  ++ optional "tx_id" id (au_tx_id audit)
  ++ optional "device_id" device_id_0 (au_device_id audit)
  ++ optional "phase" debug_TxPhase (ue_phase e)
  ++ optional "strategy" debug_TransactionStrategy (ue_strategy e)
  ++ optional "error_code" id (au_error_code audit)
  ++ optional "error_message" id (au_error_message audit)
  ++ ((λ field, ("field." +:+ field.1, field.2)) <$> bt_entries (ue_fields e)).

Definition format_underlay_event_log_line (now : N) (e : UnderlayEvent) : string :=
  join " " (format_field <$> log_fields now e).

(** [StderrEventSink::emit]: the line and its end. *)
Definition stderr_emit (now : N) (e : UnderlayEvent) (stderr : list ascii) : list ascii :=
  stderr ++ bytes (format_underlay_event_log_line now e) ++ [newline].

(** The line of a connection that failed. *)
Definition is_unquoted_product_http_log_char (ch : ascii) : bool :=
  is_ascii_alphanumeric ch || bool_decide (ch ∈ bytes "_-./:,@").
Definition format_product_http_log_value (value : string) : string :=
  if forallb is_unquoted_product_http_log_char (bytes value) then value
  else match json_to_string value with
       | Ok text => text
       | Err _ => of_bytes ([quote_char] ++ bytes "<unprintable>" ++ [quote_char])
       end.
Definition connection_failed_line (now : N) (peer_addr : string) (error : UnderlayError) : string :=
  "ts=" +:+ fmt_N now
  +:+ " level=warn component=product_http action=connection_failed peer_addr=" +:+ peer_addr
  +:+ " error=" +:+ format_product_http_log_value (error_text error).

(** ** Reading a line *)

Context (read_json : list ascii → option (string * list ascii)).

Fixpoint span (p : ascii → bool) (l : list ascii) : list ascii * list ascii :=
  match l with
  | [] => ([], [])
  | c :: l' => if p c then let '(a, b) := span p l' in (c :: a, b) else ([], l)
  end.
Definition not_blank (c : ascii) : bool := negb (bool_decide (c = blank)).

(** A value that starts with a quote is a JSON string, any other one ends at a blank. *)
Definition read_field_value (l : list ascii) : option (string * list ascii) :=
  if bool_decide (head l = Some quote_char) then read_json l
  else let '(value, rest) := span not_blank l in Some (of_bytes value, rest).
Definition read_field (l : list ascii) : option (string * string * list ascii) :=
  let '(key, rest) := span is_unquoted_log_char l in
  match rest with
  | c :: rest => if bool_decide (c = equals)
                 then '(value, rest) ← read_field_value rest; Some (of_bytes key, value, rest) else None
  | [] => None
  end.
Fixpoint read_fields (fuel : nat) (l : list ascii) : option (list (string * string)) :=
  match fuel with
  | O => None
  | S fuel =>
      match read_field l with
      | Some (field, []) => Some [field]
      | Some (field, c :: rest) =>
          if bool_decide (c = blank) then (field ::.) <$> read_fields fuel rest else None
      | None => None
      end
  end.
(** A line has fewer fields than bytes. *)
Definition read_log_line (line : string) : option (list (string * string)) :=
  read_fields (length (bytes line)) (bytes line).

(** ** What the reader finds *)

Definition plain (s : string) : Prop := Forall (λ c, is_unquoted_log_char c = true) (bytes s).
(** The rest of a line after a value. *)
Definition at_field_end (rest : list ascii) : Prop := rest = [] ∨ head rest = Some blank.

Lemma span_app p l rest :
  Forall (λ c, p c = true) l → (∀ c, head rest = Some c → p c = false) → span p (l ++ rest) = (l, rest).
Proof using Type.
  intros Hl Hrest. induction Hl as [|c l Hc _ IH]; simpl.
  - destruct rest as [|c rest]; [done|]. simpl. by rewrite (Hrest c).
  - by rewrite Hc, IH.
Qed.

Lemma unquoted_bytes c :
  is_unquoted_log_char c = true → not_blank c = true ∧ c ≠ quote_char ∧ is_control c = false.
Proof using Type. destruct c as [[] [] [] [] [] [] [] []]; by vm_compute. Qed.

Context `{HJ : !JsonStringLaws _ read_json}.

Lemma formatted_value v :
  (plain v ∧ format_log_value v = v) ∨
  ∃ t, format_log_value v = t ∧ head (bytes t) = Some quote_char ∧
    Forall (λ c, is_control c = false) (bytes t) ∧ ∀ rest, read_json (bytes t ++ rest) = Some (v, rest).
Proof using HJ.
  unfold format_log_value. destruct (forallb _ _) eqn:Hp.
  - left. split; [|done]. apply Forall_forall. intros c Hc. rewrite forallb_forall in Hp.
    by apply Hp, list_elem_of_In.
  - right. destruct (json_written (read_json := read_json) v) as (t & -> & Ht). eauto.
Qed.

Lemma read_value_formatted v rest :
  at_field_end rest → read_field_value (bytes (format_log_value v) ++ rest) = Some (v, rest).
Proof using HJ.
  intros Hend. unfold read_field_value.
  destruct (formatted_value v) as [[Hv ->]|(t & -> & Hhd & _ & Hread)].
  - rewrite bool_decide_eq_false_2, span_app.
    + by rewrite of_bytes_bytes.
    + eapply Forall_impl; [exact Hv|]. intros c Hc. by apply unquoted_bytes.
    + by destruct Hend as [-> | ->]; [|intros c [= <-]].
    + destruct Hv as [|c l Hc]; simpl.
      * by destruct Hend as [-> | ->].
      * intros [= ->]. by destruct (unquoted_bytes _ Hc) as (_ & [] & _).
  - rewrite bool_decide_eq_true_2; [done|]. by destruct (bytes t).
Qed.

Lemma bytes_field key value :
  bytes (format_field (key, value)) = bytes key ++ equals :: bytes (format_log_value value).
Proof using Type. unfold format_field. by rewrite !bytes_app. Qed.

Lemma read_field_formatted field rest :
  plain field.1 → at_field_end rest →
  read_field (bytes (format_field field) ++ rest) = Some (field, rest).
Proof using HJ.
  intros Hkey Hend. destruct field as [key value]. rewrite bytes_field, <-app_assoc.
  unfold read_field. rewrite span_app; [|done|by intros c [= <-]]. simpl.
  by rewrite read_value_formatted, of_bytes_bytes.
Qed.

Lemma formatted_plain v : plain v → format_log_value v = v.
Proof using Type.
  intros Hv. unfold format_log_value. rewrite (proj2 (forallb_forall _ _)); [done|].
  intros c Hc%list_elem_of_In. by eapply Forall_forall in Hv.
Qed.

Lemma fmt_N_plain n : plain (fmt_N n).
Proof using Type.
  eapply Forall_impl; [apply fmt_N_is_digit|]. intros c Hc%digit_byte.
  unfold is_unquoted_log_char, is_ascii_alphanumeric.
  rewrite (proj2 (N.leb_le _ _)), (proj2 (N.leb_le _ _)) by lia. done.
Qed.

(** A text from which a field is read wherever it stands in a line. *)
Definition renders (field : string * string) (text : string) : Prop :=
  ∀ rest, at_field_end rest → read_field (bytes text ++ rest) = Some (field, rest).

Lemma formatted_renders field : plain field.1 → renders field (format_field field).
Proof using HJ. intros Hkey rest. by apply read_field_formatted. Qed.

Lemma raw_renders key value :
  plain key → Forall (λ c, not_blank c = true) (bytes value) → head (bytes value) ≠ Some quote_char →
  renders (key, value) (key +:+ "=" +:+ value).
Proof using Type.
  intros Hkey Hblank Hquote rest Hend. rewrite !bytes_app, <-app_assoc.
  unfold read_field. rewrite span_app; [|done|by intros c [= <-]]. simpl. unfold read_field_value.
  rewrite bool_decide_eq_false_2, span_app.
  - simpl. by rewrite !of_bytes_bytes.
  - done.
  - by destruct Hend as [-> | ->]; [|intros c [= <-]].
  - destruct (bytes value); [|done]. simpl. by destruct Hend as [-> | ->].
Qed.

Lemma join_cons text text' texts :
  join " " (text :: text' :: texts) = text +:+ " " +:+ join " " (text' :: texts).
Proof using Type. done. Qed.

(** As many steps as there are fields read them all. *)
Lemma read_fields_joined fields texts fuel :
  fields ≠ [] → Forall2 renders fields texts → (length fields ≤ fuel)%nat →
  read_fields fuel (bytes (join " " texts)) = Some fields.
Proof using Type.
  intros Hne Hall. revert fuel.
  induction Hall as [|field text fields texts Hf Hall IH]; intros fuel Hfuel; [done|].
  destruct fuel as [|fuel]; [simpl in Hfuel; lia|]. simpl in Hfuel.
  destruct Hall as [|field' text' fields texts Hf' Hall].
  - simpl. rewrite <-(app_nil_r (bytes _)), Hf; by try left.
  - rewrite join_cons, !bytes_app. cbn [read_fields]. rewrite Hf by by right.
    cbn [bytes app String.list_ascii_of_string].
    rewrite bool_decide_eq_true_2 by done. rewrite IH; [done|done|simpl in *; lia].
Qed.

Lemma renders_length field text : renders field text → (1 ≤ length (bytes text))%nat.
Proof using Type.
  intros Hr. specialize (Hr [] (or_introl eq_refl)). rewrite app_nil_r in Hr.
  destruct (bytes text); [done|simpl; lia].
Qed.

Lemma length_joined fields texts :
  Forall2 renders fields texts → (length fields ≤ length (bytes (join " " texts)))%nat.
Proof using Type.
  intros Hr. induction Hr as [|field text fields texts Hf Hall IH]; [simpl; lia|].
  pose proof (renders_length _ _ Hf). destruct Hall as [|field' text' fields texts]; [simpl; lia|].
  rewrite join_cons, !bytes_app, !length_app. simpl in *. lia.
Qed.

Lemma read_log_line_joined fields texts :
  fields ≠ [] → Forall2 renders fields texts → read_log_line (join " " texts) = Some fields.
Proof using Type. intros. eapply read_fields_joined; [done..|]. by apply length_joined. Qed.

Lemma joined_no_control fields :
  Forall (λ field, plain field.1) fields →
  Forall (λ c, is_control c = false) (bytes (join " " (format_field <$> fields))).
Proof using HJ.
  assert (∀ l, Forall (λ c, is_unquoted_log_char c = true) l → Forall (λ c, is_control c = false) l)
    as Hplain.
  { intros l Hl. eapply Forall_impl; [exact Hl|]. intros c Hc. by apply unquoted_bytes. }
  assert (∀ field, plain field.1 →
    Forall (λ c, is_control c = false) (bytes (format_field field))) as Hfield.
  { intros [key value] Hkey. rewrite bytes_field. apply Forall_app. split; [by apply Hplain|].
    constructor; [done|]. destruct (formatted_value value) as [[Hv ->]|(t & -> & _ & Ht & _)]; auto. }
  induction 1 as [|field fields Hf Hfs IH]; [constructor|].
  destruct fields as [|field' fields]; [simpl; auto|].
  cbn [fmap list_fmap]. rewrite join_cons, !bytes_app. apply Forall_app. split; [auto|].
  constructor; [done|]. exact IH.
Qed.

(** ** The keys of the events *)

Definition plain_keys (e : UnderlayEvent) : Prop := map_Forall (λ key _, plain key) (ue_fields e).

Lemma log_fields_plain now e : plain_keys e → Forall (λ field, plain field.1) (log_fields now e).
Proof using Type.
  intros Hkeys. unfold log_fields. rewrite !Forall_app. split_and!.
  - repeat (constructor; [by repeat constructor|]). constructor.
  - destruct (au_tx_id _); by repeat constructor.
  - destruct (au_device_id _); by repeat constructor.
  - destruct (ue_phase _); by repeat constructor.
  - destruct (ue_strategy _); by repeat constructor.
  - destruct (au_error_code _); by repeat constructor.
  - destruct (au_error_message _); by repeat constructor.
  - apply Forall_fmap, Forall_forall. intros [key value] Hin%elem_of_bt_entries. simpl.
    unfold plain. rewrite bytes_app. apply Forall_app. split; [by repeat constructor|].
    by apply (Hkeys key value).
Qed.
End lines.

(** The events the program builds. *)
Inductive emitted : UnderlayEvent → Prop :=
  | emitted_transaction req tr tx device phase strategy result :
      emitted (transaction_result req tr tx device phase strategy result)
  | emitted_phase req tr tx device phase strategy :
      emitted (transaction_phase req tr tx device phase strategy)
  | emitted_with_error e code message : emitted e → emitted (with_error e code message)
  | emitted_apply req tr result e :
      from_device_apply_result req tr result = Some e → emitted e
  | emitted_drift req tr report : emitted (event_drift_detected req tr report)
  | emitted_drift_audit req tr count drifted failed listing_error :
      emitted (drift_audit_completed_with_failures req tr count drifted failed listing_error)
  | emitted_journal_gc req tr report : emitted (Collect.journal_gc_completed req tr report)
  | emitted_idempotency_gc req tr report : emitted (Collect.apply_idempotency_gc_completed req tr report)
  | emitted_recovery req tr report : emitted (recovery_completed req tr report)
  | emitted_write_failed req tr action code message :
      emitted (audit_write_failed_with_code req tr action code message)
  | emitted_force_resolved req tr tx phase devices operator reason :
      emitted (transaction_force_resolved req tr tx phase devices operator reason).

Lemma plain_insert key value (m : gmap string string) :
  plain key → map_Forall (λ key _, plain key) m →
  map_Forall (λ key _, plain key) (<[key := value]> m).
Proof. intros. by apply map_Forall_insert_2. Qed.
Lemma plain_insert_refs key refs (m : gmap string string) :
  plain key → map_Forall (λ key _, plain key) m →
  map_Forall (λ key _, plain key) (Collect.insert_refs key refs m).
Proof. intros. destruct refs; [done|]. by apply plain_insert. Qed.
Lemma plain_singleton key value :
  plain key → map_Forall (λ key _, plain key) ({[key := value]} : gmap string string).
Proof. intros. by apply map_Forall_singleton. Qed.
Lemma plain_empty : map_Forall (λ key _, plain key) (∅ : gmap string string).
Proof. apply map_Forall_empty. Qed.
Create HintDb loglines.
#[export] Hint Resolve plain_insert plain_insert_refs plain_singleton plain_empty : loglines.
#[export] Hint Extern 1 (plain _) => solve [by repeat constructor] : loglines.

Lemma emitted_plain_keys e : emitted e → plain_keys e.
Proof.
  unfold plain_keys.
  induction 1 as [| | | req tr result e He | | | | | | |]; simpl; repeat case_match;
    auto 12 with loglines.
  unfold from_device_apply_result in He.
  destruct (res_tx_id result) as [tx|]; [|done].
  destruct (tx_phase_for_apply_status _) as [p|]; [|done]. simpl in He.
  repeat case_match; simplify_eq/=; auto with loglines.
Qed.

(** ** The log *)

Lemma strip_cr_none l : carriage_return ∉ l → strip_cr l = l.
Proof.
  unfold strip_cr. intros Hl. destruct (reverse l) as [|c r] eqn:Hr; [done|].
  rewrite decide_False; [done|]. intros ->. destruct Hl.
  rewrite <-(reverse_involutive l), Hr, reverse_cons. set_solver.
Qed.

Lemma no_control_line l :
  Forall (λ c, is_control c = false) l → newline ∉ l ∧ carriage_return ∉ l.
Proof. rewrite Forall_forall. intros Hl. by split; intros Hin%Hl. Qed.

Section log.
Context `{HJ : !JsonStringLaws J read_json}.

Definition stderr_log (events : list (N * UnderlayEvent)) : list ascii :=
  foldl (λ stderr '(now, e), stderr_emit now e stderr) [] events.

Lemma stderr_log_concat events :
  stderr_log events =
  events ≫= λ '(now, e), bytes (format_underlay_event_log_line now e) ++ [newline].
Proof using Type.
  unfold stderr_log. assert (∀ l, foldl (λ stderr '(now, e), stderr_emit now e stderr) l events =
    l ++ (events ≫= λ '(now, e), bytes (format_underlay_event_log_line now e) ++ [newline])) as Hgen;
    [|by rewrite Hgen].
  induction events as [|[now e] events IH]; intros l; [by rewrite app_nil_r|].
  simpl. rewrite IH. unfold stderr_emit. by rewrite <-!app_assoc.
Qed.

Lemma event_line now e :
  emitted e →
  read_log_line read_json (format_underlay_event_log_line now e) = Some (log_fields now e) ∧
  newline ∉ bytes (format_underlay_event_log_line now e) ∧
  carriage_return ∉ bytes (format_underlay_event_log_line now e).
Proof using HJ.
  intros He%emitted_plain_keys%(log_fields_plain now). split.
  - apply read_log_line_joined; [done|]. apply Forall2_fmap_r, Forall_Forall2_diag.
    eapply Forall_impl; [exact He|]. intros field. by apply formatted_renders.
  - eapply no_control_line, (joined_no_control read_json), He.
Qed.

(** C37. The log keeps the events apart and says of each what it was: the lines of what
    [StderrEventSink] writes for any sequence of events are one line per event, and a reader
    of [key=value] fields gets from each line exactly the fields the formatter lists for
    its event ([log_fields]), in order, whatever their values contain (blanks, quotes, [=],
    line ends). *)
Theorem event_log_reads_back (events : list (N * UnderlayEvent)) :
  Forall (λ x, emitted x.2) events →
  mapM (read_log_line read_json) (str_lines (of_bytes (stderr_log events))) =
  Some ((λ x, log_fields x.1 x.2) <$> events).
Proof using HJ.
  rewrite stderr_log_concat. unfold str_lines. rewrite bytes_of_bytes.
  induction 1 as [|[now e] events He _ IH]; [done|].
  destruct (event_line now e He) as (Hread & Hnl & Hcr). cbn [mbind list_bind].
  rewrite <-app_assoc. cbn [app]. rewrite (lines_from_line [] _ _ Hnl).
  cbn [fmap list_fmap app]. rewrite strip_cr_none, of_bytes_bytes by done. cbn [mapM].
  rewrite Hread. cbn [mbind option_bind]. cbn [fmap list_fmap] in IH. by rewrite IH.
Qed.

(** The line of a failed connection reads back too, when the address has no blank and does
    not start with a quote. *)
Lemma connection_failed_line_reads_back now peer error :
  Forall (λ c, not_blank c = true) (bytes peer) → head (bytes peer) ≠ Some quote_char →
  read_log_line read_json (connection_failed_line now peer error) =
  Some [("ts", fmt_N now); ("level", "warn"); ("component", "product_http");
        ("action", "connection_failed"); ("peer_addr", peer); ("error", error_text error)].
Proof using HJ.
  intros Hblank Hquote.
  set (texts := [format_field ("ts", fmt_N now); "level=warn"; "component=product_http";
    "action=connection_failed"; "peer_addr=" +:+ peer; format_field ("error", error_text error)]).
  assert (connection_failed_line now peer error = join " " texts) as ->.
  { unfold connection_failed_line, texts, format_field. cbn [fst snd].
    rewrite (formatted_plain (fmt_N now)) by apply fmt_N_plain.
    apply (inj bytes). cbn [join]. rewrite !bytes_app, <-!app_assoc. done. }
  assert (∀ key value, plain key → Forall (λ c, not_blank c = true) (bytes value) →
    head (bytes value) ≠ Some quote_char → renders read_json (key, value) (key +:+ "=" +:+ value))
    as Hraw by apply raw_renders.
  apply read_log_line_joined; [done|]. repeat (apply Forall2_cons; split).
  - apply formatted_renders; [done|]. auto with loglines.
  - apply (Hraw "level" "warn"); [auto with loglines|by repeat constructor|done].
  - apply (Hraw "component" "product_http"); [auto with loglines|by repeat constructor|done].
  - apply (Hraw "action" "connection_failed"); [auto with loglines|by repeat constructor|done].
  - apply (Hraw "peer_addr" peer); [auto with loglines|by repeat constructor|done].
  - apply formatted_renders; [done|]. auto with loglines.
  - constructor.
Qed.
End log.

(** ** The JSON strings of RFC 8259, as [serde_json] writes them *)

Module JsonText.
(** Quotes, backslashes and control characters are escaped, anything else stands for
    itself. *)
Definition escape (c : ascii) : list ascii :=
  let n := N_of_ascii c in
  if (n =? 34)%N || (n =? 92)%N then [byte 92; c]
  else if (n =? 8)%N then bytes "\b" else if (n =? 9)%N then bytes "\t"
  else if (n =? 10)%N then bytes "\n" else if (n =? 12)%N then bytes "\f"
  else if (n =? 13)%N then bytes "\r"
  else if (n <? 32)%N then bytes "\u00" ++ [hex_digit (n / 16); hex_digit (n mod 16)]
  else [c].
Definition to_string (s : string) : string :=
  of_bytes ([quote_char] ++ (bytes s ≫= escape) ++ [quote_char]).
#[export] Instance writer : JsonString := λ s, Ok (to_string s).

Definition hex_val (c : ascii) : option N :=
  let n := N_of_ascii c in
  if ((48 <=? n) && (n <=? 57))%N then Some (n - 48)%N
  else if ((97 <=? n) && (n <=? 102))%N then Some (n - 87)%N else None.
Definition unescape (c : ascii) : option ascii :=
  if bool_decide (c = byte 34 ∨ c = byte 92) then Some c
  else if bool_decide (c = "b"%char) then Some (byte 8)
  else if bool_decide (c = "t"%char) then Some (byte 9)
  else if bool_decide (c = "n"%char) then Some (byte 10)
  else if bool_decide (c = "f"%char) then Some (byte 12)
  else if bool_decide (c = "r"%char) then Some (byte 13)
  else None.
(** The characters up to the closing quote, and what follows it. *)
Fixpoint read_body (l : list ascii) : option (list ascii * list ascii) :=
  match l with
  | [] => None
  | c :: l =>
      if bool_decide (c = quote_char) then Some ([], l)
      else if bool_decide (c = byte 92) then
        match l with
        | c1 :: l =>
            if bool_decide (c1 = "u"%char) then
              match l with
              | _ :: _ :: h :: h' :: l =>
                  h ← hex_val h; h' ← hex_val h';
                  '(s, rest) ← read_body l; Some (byte (h * 16 + h') :: s, rest)
              | _ => None
              end
            else c1 ← unescape c1; '(s, rest) ← read_body l; Some (c1 :: s, rest)
        | [] => None
        end
      else '(s, rest) ← read_body l; Some (c :: s, rest)
  end.
Definition read (l : list ascii) : option (string * list ascii) :=
  match l with
  | c :: l => if bool_decide (c = quote_char)
              then '(s, rest) ← read_body l; Some (of_bytes s, rest) else None
  | [] => None
  end.

Lemma read_body_escape c l s rest :
  read_body l = Some (s, rest) → read_body (escape c ++ l) = Some (c :: s, rest).
Proof. intros Hl. destruct c as [[] [] [] [] [] [] [] []]; simpl; by rewrite Hl. Qed.

Lemma escape_no_control c : Forall (λ c, is_control c = false) (escape c).
Proof. destruct c as [[] [] [] [] [] [] [] []]; by repeat constructor. Qed.

Lemma read_body_written l rest : read_body ((l ≫= escape) ++ quote_char :: rest) = Some (l, rest).
Proof.
  induction l as [|c l IH]; [done|]. cbn [mbind list_bind]. rewrite <-app_assoc.
  by apply read_body_escape.
Qed.

#[export] Instance laws : JsonStringLaws writer read.
Proof.
  split. intros s. exists (to_string s). unfold to_string. rewrite bytes_of_bytes.
  split_and!; [done..| |].
  - constructor; [done|]. apply Forall_app. split; [|by repeat constructor].
    apply Forall_bind, Forall_forall. intros c _. apply escape_no_control.
  - intros rest. cbn [app]. unfold read. rewrite bool_decide_eq_true_2 by done.
    rewrite <-app_assoc. cbn [app]. rewrite read_body_written. cbn. by rewrite of_bytes_bytes.
Qed.
End JsonText.

Module LogSample.
Import JsonText.
(** A message that tries to end its line and to write another one. *)
Definition message : string :=
  of_bytes (bytes "disk full" ++ [quote_char; newline] ++ bytes "ts=1 level=info action=ok").
Definition events : list (N * UnderlayEvent) :=
  [(7%N, audit_write_failed "req 1" "tr" "drift.detected" message);
   (8%N, drift_audit_completed "req" "" 1 [])].
End LogSample.

#[local] Existing Instance JsonText.writer.

Lemma event_log_reads_back_witness :
  mapM (read_log_line JsonText.read) (str_lines (of_bytes (stderr_log LogSample.events))) =
    Some ((λ x, log_fields x.1 x.2) <$> LogSample.events) ∧
  length (str_lines (of_bytes (stderr_log LogSample.events))) = 2%nat ∧
  log_fields 8 (drift_audit_completed "req" "" 1 []) !! 5%nat = Some ("trace_id", "").
Proof.
  split; [|by vm_compute].
  apply (event_log_reads_back (HJ := JsonText.laws) LogSample.events). repeat constructor.
Defined.
