(* ===== verification/HttpAnswer.v ===== *)
(** * The answers of the HTTP front end (src/api/product_http_server.rs)

    What a client gets from the bytes the server writes.  The client ([HttpClient]) is written
    for this file and shares nothing with the server's request parser: it reads lines up to
    a carriage return and a line feed, splits the status line at blanks and a header at its
    first colon, reads decimal numbers digit by digit, and takes what follows the first
    empty line as the body, which must be as long as the headers announce.  It finds the
    status, the headers and the body of the response the router gave, whatever bytes the
    body holds.

    The second part joins the parser, the router and the encoder: bytes that are no trusted
    request are not answered 200 and change nothing. *)
From S2P Require Export HttpServer LogLine.

Create HintDb http.

(** ** A client *)

Module HttpClient.
(** The bytes up to the first CR LF, and those after it. *)
Fixpoint read_line (l : list ascii) : option (list ascii * list ascii) :=
  match l with
  | [] => None
  | a :: rest =>
      match rest with
      | b :: rest' =>
          if bool_decide (a = byte 13 ∧ b = byte 10) then Some ([], rest')
          else '(line, after) ← read_line rest; Some (a :: line, after)
      | [] => None
      end
  end.
(** The bytes before the first [c], and those after it. *)
Fixpoint cut (c : ascii) (l : list ascii) : option (list ascii * list ascii) :=
  match l with
  | [] => None
  | a :: rest => if bool_decide (a = c) then Some ([], rest)
                 else '(before, after) ← cut c rest; Some (a :: before, after)
  end.

Definition digit (c : ascii) : option N :=
  if ((48 <=? N_of_ascii c) && (N_of_ascii c <=? 57))%N then Some (N_of_ascii c - 48)%N else None.
Fixpoint read_digits (acc : N) (l : list ascii) : option N :=
  match l with
  | [] => Some acc
  | c :: l => d ← digit c; read_digits (10 * acc + d) l
  end.
Definition read_number (l : list ascii) : option N :=
  match l with [] => None | _ => read_digits 0 l end.

(** Blanks and tabs around a value do not count. *)
Fixpoint drop_blanks (l : list ascii) : list ascii :=
  match l with
  | c :: rest => if bool_decide (c = byte 32 ∨ c = byte 9) then drop_blanks rest else l
  | [] => []
  end.
Definition strip (l : list ascii) : list ascii := reverse (drop_blanks (reverse (drop_blanks l))).

Definition read_status (line : list ascii) : option N :=
  '(version, rest) ← cut (byte 32) line;
  '(code, reason) ← cut (byte 32) rest;
  if bool_decide (version = bytes "HTTP/1.1") then read_number code else None.
Definition read_field (line : list ascii) : option (string * string) :=
  '(name, value) ← cut (byte 58) line; Some (of_bytes name, of_bytes (strip value)).

(** Headers up to the first empty line, none twice; every line takes a unit of fuel. *)
Fixpoint read_fields (fuel : nat) (l : list ascii) (headers : gmap string string)
    : option (gmap string string * list ascii) :=
  match fuel with
  | O => None
  | S fuel =>
      '(line, rest) ← read_line l;
      if bool_decide (line = []) then Some (headers, rest) else
      '(name, value) ← read_field line;
      if bool_decide (is_Some (headers !! name)) then None
      else read_fields fuel rest (<[name := value]> headers)
  end.

(** The status, the headers and the body of an answer. *)
Definition read_answer (answer : list ascii) : option (N * gmap string string * list ascii) :=
  '(line, rest) ← read_line answer;
  status ← read_status line;
  '(headers, body) ← read_fields (length answer) rest ∅;
  announced ← headers !! "content-length" ≫= (read_number ∘ bytes);
  if (announced =? N.of_nat (length body))%N then Some (status, headers, body) else None.

(** *** What it reads *)

Lemma read_line_app l rest :
  byte 13 ∉ l → read_line (l ++ byte 13 :: byte 10 :: rest) = Some (l, rest).
Proof.
  induction l as [|c l IH]; intros Hl; [done|]. simpl.
  destruct (l ++ _) as [|d l'] eqn:Hd; [by destruct l|].
  rewrite bool_decide_eq_false_2 by (intros [-> _]; apply Hl; by left).
  rewrite IH by set_solver. done.
Qed.
Lemma cut_app c l rest : c ∉ l → cut c (l ++ c :: rest) = Some (l, rest).
Proof.
  induction l as [|d l IH]; intros Hl; simpl; [by rewrite bool_decide_eq_true_2|].
  rewrite bool_decide_eq_false_2 by set_solver. by rewrite IH by set_solver.
Qed.

Lemma read_digits_val acc l ds :
  mapM digit_val l = Some ds → read_digits acc l = Some (foldl (λ a d, a * 10 + d)%N acc ds).
Proof.
  intros H%mapM_Some. revert acc. induction H as [|c d l ds Hc H IH]; intros acc; [done|].
  simpl. change (digit c) with (digit_val c). rewrite Hc. simpl. rewrite IH. do 2 f_equal. lia.
Qed.
Lemma read_number_fmt n : read_number (bytes (fmt_N n)) = Some n.
Proof.
  destruct (fmt_N_digits n) as [Hne Hval]. unfold digits_val in Hval.
  apply fmap_Some in Hval as (ds & Hds & ->). unfold read_number.
  rewrite (read_digits_val 0 _ ds) by done. by destruct (bytes (fmt_N _)).
Qed.
End HttpClient.

Module Answer.
Import Ops Api Http.

(** ** Text that stays on its line *)

(** Printable ASCII, and visible: printable and not a blank. *)
Definition printable (c : ascii) : bool := ((32 <=? N_of_ascii c) && (N_of_ascii c <=? 126))%N.
Definition visible (c : ascii) : bool := ((33 <=? N_of_ascii c) && (N_of_ascii c <=? 126))%N.
Definition visible_ends (l : Buf) : Prop :=
  (∃ c, head l = Some c ∧ visible c = true) ∧ (∃ c, list.last l = Some c ∧ visible c = true).
Definition printable_text (l : Buf) : Prop := Forall (λ c, printable c = true) l.

(** A header the encoder writes on one line: a name of visible characters without a colon,
    and a value with neither blanks around it nor control characters. *)
Definition header_name (name : string) : Prop :=
  bytes name ≠ [] ∧ Forall (λ c, visible c = true ∧ c ≠ ":"%char) (bytes name).
Definition header_text (value : string) : Prop :=
  visible_ends (bytes value) ∧ printable_text (bytes value).
Definition safe_headers (headers : Headers) : Prop :=
  map_Forall (λ name value, header_name name ∧ header_text value) headers.

Lemma printable_no_cr l : printable_text l → byte 13 ∉ l.
Proof. intros Hl Hin. by specialize (proj1 (Forall_forall _ _) Hl _ Hin). Qed.

Lemma drop_blanks_visible l c :
  head l = Some c → visible c = true → HttpClient.drop_blanks l = l.
Proof.
  destruct l as [|d l]; [done|]. intros [= ->] Hv. simpl.
  rewrite bool_decide_eq_false_2; [done|]. by intros [->| ->].
Qed.
Lemma strip_visible l : visible_ends l → HttpClient.strip (byte 32 :: l) = l.
Proof.
  intros [(c & Hc & Hv) (d & Hd & Hv')]. unfold HttpClient.strip. simpl.
  rewrite (drop_blanks_visible l c), (drop_blanks_visible (reverse l) d) by
    (done || by rewrite head_reverse). apply reverse_involutive.
Qed.

Section answers.
Context `{!Serialize ProductHttpErrorResponse}.

(** The headers of an answer. *)
Definition answer_headers (r : ProductHttpResponse) : Headers :=
  <["content-length" := fmt_N (len (bytes (hr_body r)))]> (<["connection" := "close"]> (hr_headers r)).
Definition status_line (r : ProductHttpResponse) : Buf :=
  bytes ("HTTP/1.1 " +:+ fmt_N (hr_status r) +:+ " " +:+ reason_phrase (hr_status r)).
Definition header_line (h : string * string) : Buf := bytes (h.1 +:+ ": " +:+ h.2).

#[local] Hint Extern 1 (header_name _) => split; [done|by repeat constructor] : http.
#[local] Hint Extern 1 (header_text _) =>
  split; [split; eexists; split; reflexivity|by repeat constructor] : http.
#[local] Hint Extern 2 (header_name _ ∧ header_text _) => split : http.

Lemma digits_printable n : printable_text (bytes (fmt_N n)) ∧ visible_ends (bytes (fmt_N n)).
Proof using Type.
  pose proof (fmt_N_is_digit n) as Hd. destruct (fmt_N_digits n) as [Hne _].
  assert (∀ c, is_digit c → visible c = true ∧ printable c = true) as Hc.
  { intros c Hc%digit_byte. unfold visible, printable.
    rewrite !(proj2 (N.leb_le _ _)) by lia. done. }
  split; [eapply Forall_impl; [exact Hd|]; naive_solver|].
  rewrite Forall_forall in Hd. split.
  - destruct (bytes (fmt_N n)) as [|c l]; [done|]. exists c. split; [done|]. apply Hc, Hd. by left.
  - destruct (list.last _) as [c|] eqn:Hl; [|by apply last_None in Hl].
    exists c. split; [done|]. by apply Hc, Hd, last_Some_elem_of.
Qed.

Lemma answer_headers_safe r : safe_headers (hr_headers r) → safe_headers (answer_headers r).
Proof using Type.
  intros Hs. destruct (digits_printable (len (bytes (hr_body r)))) as [Hp Hv].
  unfold answer_headers. apply map_Forall_insert_2; [split; [auto with http|by split]|].
  apply map_Forall_insert_2; auto with http.
Qed.

Lemma reason_printable status : printable_text (bytes (reason_phrase status)).
Proof using Type.
  unfold reason_phrase. repeat case_match; by repeat constructor.
Qed.

Lemma status_line_printable r : printable_text (status_line r).
Proof using Type.
  destruct (digits_printable (hr_status r)) as [Hp _].
  unfold status_line, printable_text. rewrite !bytes_app, !Forall_app.
  split_and!; [by repeat constructor|done|by repeat constructor|apply reason_printable].
Qed.

Lemma header_line_printable name value :
  header_name name → header_text value → printable_text (header_line (name, value)).
Proof using Type.
  intros [_ Hk] [_ Hv]. unfold header_line, printable_text. cbn [fst snd].
  rewrite !bytes_app, !Forall_app. split_and!; [|by repeat constructor|done].
  eapply Forall_impl; [exact Hk|]. intros c [Hc _]. unfold visible, printable in *.
  apply andb_prop in Hc as [H1%N.leb_le H2%N.leb_le]. rewrite !(proj2 (N.leb_le _ _)) by lia. done.
Qed.

Lemma read_own_status r : HttpClient.read_status (status_line r) = Some (hr_status r).
Proof using Type.
  unfold HttpClient.read_status, status_line. rewrite !bytes_app.
  assert (byte 32 ∉ bytes (fmt_N (hr_status r))) as Hblank.
  { intros Hin. pose proof (fmt_N_is_digit (hr_status r)) as Hd.
    specialize (proj1 (Forall_forall _ _) Hd _ Hin) as Hb%digit_byte. vm_compute in Hb. naive_solver. }
  change (bytes "HTTP/1.1 ") with (bytes "HTTP/1.1" ++ [byte 32]). rewrite <-app_assoc. cbn [app].
  rewrite HttpClient.cut_app by (by apply (bool_decide_unpack _)). cbn [mbind option_bind].
  change (bytes " " ++ ?x) with (byte 32 :: x). rewrite HttpClient.cut_app by done.
  cbn [mbind option_bind]. rewrite bool_decide_eq_true_2 by done. apply HttpClient.read_number_fmt.
Qed.

Lemma read_own_field name value :
  header_name name → header_text value →
  HttpClient.read_field (header_line (name, value)) = Some (name, value).
Proof using Type.
  intros [_ Hn] [Hv _]. unfold HttpClient.read_field, header_line. cbn [fst snd]. rewrite !bytes_app.
  change (bytes ": " ++ bytes value) with (byte 58 :: byte 32 :: bytes value).
  rewrite HttpClient.cut_app.
  - cbn [mbind option_bind]. by rewrite strip_visible, !of_bytes_bytes.
  - intros Hin. by eapply Forall_forall in Hn as [_ []].
Qed.

(** The client reads back the headers that are written one per line. *)
Lemma read_own_fields (l : list (string * string)) (m : Headers) fuel body :
  NoDup l.*1 → Forall (λ kv, m !! kv.1 = None) l →
  Forall (λ kv, header_name kv.1 ∧ header_text kv.2) l → (length l < fuel)%nat →
  HttpClient.read_fields fuel ((l ≫= encode_header) ++ CRLF ++ body) m = Some (list_to_map l ∪ m, body).
Proof using Type.
  revert m fuel. induction l as [|[k v] l IH]; intros m fuel Hnd Hm Hs Hf;
    (destruct fuel as [|fuel]; [simpl in Hf; lia|]).
  { cbn. by rewrite (left_id_L ∅ (∪)). }
  cbn [fmap list_fmap fst] in Hnd. apply NoDup_cons in Hnd as [Hk Hnd].
  apply Forall_cons in Hm as [Hmk Hm]. apply Forall_cons in Hs as [[Hn Ht] Hs].
  cbn [fst snd] in *. cbn [mbind list_bind HttpClient.read_fields].
  assert (encode_header (k, v) = header_line (k, v) ++ byte 13 :: byte 10 :: []) as -> by done.
  rewrite <-!app_assoc. cbn [app]. rewrite HttpClient.read_line_app
    by (by apply printable_no_cr, header_line_printable).
  cbn [mbind option_bind]. rewrite bool_decide_eq_false_2.
  2:{ destruct Hn as [Hne _]. unfold header_line. cbn [fst snd]. rewrite bytes_app. by destruct (bytes k). }
  rewrite read_own_field by done. cbn [mbind option_bind].
  rewrite Hmk, bool_decide_eq_false_2 by (by intros []).
  rewrite IH; [|done| |done|simpl in Hf; lia].
  - rewrite list_to_map_cons, <-insert_union_r by (by apply not_elem_of_list_to_map).
    by rewrite insert_union_l.
  - apply Forall_forall. intros [k' v'] Hin. cbn [fst]. rewrite lookup_insert_ne.
    + by apply (proj1 (Forall_forall _ _) Hm (k', v')).
    + intros ->. apply Hk. apply list_elem_of_fmap. by exists (k', v').
Qed.

(** A response the client understands. *)
Definition readable (r : ProductHttpResponse) : Prop := safe_headers (hr_headers r).

Lemma encode_length r :
  (length (bt_entries (answer_headers r)) < length (encode_http_response r))%nat.
Proof using Type.
  unfold encode_http_response. fold (answer_headers r). rewrite !length_app.
  assert (∀ l, length l ≤ length (l ≫= encode_header))%nat as Hl.
  { induction l as [|h l IH]; [done|]. cbn [mbind list_bind length]. rewrite length_app.
    unfold encode_header at 1. rewrite length_app. cbn. lia. }
  specialize (Hl (bt_entries (answer_headers r))). unfold CRLF. simpl. lia.
Qed.

Lemma read_answer_encode r :
  readable r →
  HttpClient.read_answer (encode_http_response r) =
  Some (hr_status r, answer_headers r, bytes (hr_body r)).
Proof using Type.
  intros Hs. apply answer_headers_safe in Hs. unfold HttpClient.read_answer.
  pose proof (encode_length r) as Hfuel. revert Hfuel.
  generalize (length (encode_http_response r)) as fuel. intros fuel Hfuel.
  unfold encode_http_response. fold (answer_headers r) (status_line r).
  change (CRLF ++ ?x) with (byte 13 :: byte 10 :: x) at 1.
  rewrite HttpClient.read_line_app by (by apply printable_no_cr, status_line_printable).
  cbn [mbind option_bind]. rewrite read_own_status. cbn [mbind option_bind].
  rewrite read_own_fields; [|apply NoDup_bt_keys|by apply Forall_true| |done].
  2:{ apply Forall_forall. intros [k v] Hin%elem_of_bt_entries. by apply (Hs k v). }
  cbn [mbind option_bind]. rewrite (right_id_L ∅ (∪)).
  assert (list_to_map (bt_entries (answer_headers r)) = answer_headers r) as ->.
  { apply map_eq. intros k. apply option_eq. intros v.
    rewrite <-elem_of_list_to_map by apply NoDup_bt_keys. apply elem_of_bt_entries. }
  rewrite (lookup_insert_eq _ _ _ : answer_headers r !! "content-length" = Some _). cbn [mbind option_bind compose].
  rewrite HttpClient.read_number_fmt. cbn [mbind option_bind]. by rewrite N.eqb_refl.
Qed.

(** ** The responses of the server are readable *)

Context (utf8_error : Buf → string).

(** An error answer: readable, and not 200. *)
Definition refusal (r : ProductHttpResponse) : Prop := readable r ∧ hr_status r ≠ 200%N.
Definition refuses {A} (x : result ProductHttpResponse A) : Prop := ∀ r, x = Err r → refusal r.

Lemma json_headers_safe : safe_headers {[ "content-type" := "application/json" ]}.
Proof using Type. apply map_Forall_singleton. auto with http. Qed.
Lemma server_error_refusal headers status code message :
  status = 400%N ∨ status = 413%N → refusal (server_error_response headers status code message).
Proof using Type.
  intros Hst. unfold refusal, readable. cbn [hr_headers hr_status server_error_response].
  split; [apply json_headers_safe|destruct_or! Hst; by subst].
Qed.

Lemma refuses_Ok {A} (a : A) : refuses (Ok a).
Proof using Type. done. Qed.
Lemma refuses_Err {A} r : refusal r → @refuses A (Err r).
Proof using Type. by intros Hr ? [= <-]. Qed.
Lemma refuses_bind {A B} (x : result ProductHttpResponse A) (f : A → result ProductHttpResponse B) :
  refuses x → (∀ a, refuses (f a)) → refuses (x ≫= f).
Proof using Type. intros Hx Hf. destruct x; [apply Hf|]. intros ? [= <-]. by apply Hx. Qed.
Lemma refuses_ok_or {A} (x : option A) r : refusal r → refuses (ok_or x r).
Proof using Type. destruct x; [done|]. apply refuses_Err. Qed.
Lemma refuses_reject_if c r : refusal r → refuses (reject_if c r).
Proof using Type. destruct c; [apply refuses_Err|done]. Qed.
Lemma refuses_map_err {E A} (f : E → ProductHttpResponse) (x : result E A) :
  (∀ e, refusal (f e)) → refuses (map_err f x).
Proof using Type. intros Hf. destruct x; [done|]. by apply refuses_Err. Qed.
#[local] Hint Resolve server_error_refusal refuses_Ok refuses_Err refuses_bind refuses_ok_or
  refuses_reject_if refuses_map_err : http.
#[local] Hint Extern 1 (_ = 400%N ∨ _ = 413%N) => by (left + right) : http.

Lemma request_line_refuses line : refuses (parse_request_line line).
Proof using Type. unfold parse_request_line. repeat case_match; auto with http. Qed.
Lemma parse_headers_refuses lines : refuses (parse_headers lines).
Proof using Type.
  unfold parse_headers. generalize (∅ : Headers). induction lines as [|line lines IH]; intros m; [done|].
  cbn [foldM]. apply refuses_bind; [|done]. unfold parse_header. repeat case_match; auto with http.
Qed.
Lemma parse_refuses payload max : refuses (parse_http_request utf8_error payload max).
Proof using Type.
  unfold parse_http_request. repeat (apply refuses_bind; [|intros ?]); auto with http.
  { apply request_line_refuses. }
  case_match. repeat (apply refuses_bind; [|intros ?]); auto with http.
  { apply parse_headers_refuses. }
  case_match; auto with http.
Qed.
End answers.

(** ** The task of a connection *)

Section connections.
Context `{!JsonString} `{!Serialize ProductHttpErrorResponse} (utf8_error : Buf → string).
Context {W : Type} (router_handle : ProductHttpRequest → W → ProductHttpResponse * W).
Context (config : ProductHttpListenerConfig).

(** [if let Err(error) = server.serve_stream(stream).await { eprintln!(..) }]: the state and
    standard error after it, [None] while the peer keeps the server waiting. *)
Definition connection_task (now : N) (peer_addr : string) (stream : TcpStream) (w : W) (stderr : Buf)
    : option (W * Buf) :=
  match serve_stream utf8_error router_handle config stream w with
  | None => None
  | Some (Ok _, _, w) => Some (w, stderr)
  | Some (Err error, _, w) =>
      Some (w, stderr ++ bytes (connection_failed_line now peer_addr error) ++ [newline])
  end.
End connections.

(** ** The server *)

Section product.
Context {S P : Type} `{!OperationSummaryStore S} `{!ProductAuditStore P}.
Context (o : FsOracle) (audit_time : N).
Context (config_codec : Codec UnderlayWorkerDaemonConfig) (checkpoint_codec : Codec WorkerReloadCheckpoint).
Context (alert_codec : Codec Alerts.OperationAlert) (state_codec : Codec Alerts.Records).
Context `{!DeserializeOwned ListOperationSummariesRequest}.
Context `{!DeserializeOwned ExportProductAuditRequest}.
Context `{!DeserializeOwned ProductChangeSummaryRetentionRequest}.
Context `{!DeserializeOwned ProductChangeJournalGcRetentionRequest}.
Context `{!DeserializeOwned ProductChangeWorkerScheduleRequest}.
Context `{!DeserializeOwned ProductGetWorkerReloadStatusRequest}.
Context `{!DeserializeOwned ProductStatusBundleRequest}.
Context `{!Serialize ProductHttpErrorResponse}.
Context `{!Serialize (ProductApiResponse ListOperationSummariesResponse)}.
Context `{!Serialize (ProductApiResponse ExportProductAuditResponse)}.
Context `{!Serialize (ProductApiResponse WorkerConfigAdminResponse)}.
Context `{!Serialize (ProductApiResponse WorkerReloadCheckpoint)}.
Context `{!Serialize (ProductApiResponse ProductStatusBundleResponse)}.
Context (utf8_error : Buf → string).
Notation Product := (@Ops.Product S P).

Lemma json_readable {T} `{!Serialize T} status (body : T) : readable (json_response status body).
Proof using Type. apply json_headers_safe. Qed.
Lemma insert_header_readable name value r :
  header_name name → header_text value → readable r → readable (insert_header name value r).
Proof using Type. intros. by apply map_Forall_insert_2. Qed.
#[local] Hint Resolve json_readable insert_header_readable : http.
#[local] Hint Extern 1 (_ < _)%N => reflexivity : http.
#[local] Hint Extern 1 (header_name _) => split; [done|by repeat constructor] : http.
#[local] Hint Extern 1 (header_text _) =>
  split; [split; eexists; split; reflexivity|by repeat constructor] : http.

Lemma underlay_error_readable request e : readable (underlay_error_response request e).
Proof using Type.
  unfold underlay_error_response, error_response. destruct e; cbn; auto with http.
Qed.
Lemma handle_with_readable {A B} `{!HasDefault A}
    `{!DeserializeOwned A} `{!Serialize (ProductApiResponse B)}
    (operation : ProductApiRequest A → ST UnderlayError Product (ProductApiResponse B)) request w :
  readable (handle_with operation request w).1.
Proof using Type.
  unfold handle_with. case_match. case_match; [apply json_readable|apply underlay_error_readable].
Qed.

(** [ProductHttpRouter::handle] of a configuration's router. *)
Notation route e := (handle e o audit_time config_codec checkpoint_codec alert_codec state_codec).

Lemma handle_readable {E} `{!ProductSessionExtractor E} (e : E) request (w : Product) :
  readable (route e request w).1.
Proof using Type.
  assert (∀ h : ProductHttpResponse * Product, readable h.1 → readable
    (match hq_method request with
     | Post => h | _ => (method_not_allowed_response request "POST", w) end).1) as Hpost.
  { intros h Hh. unfold method_not_allowed_response, error_response.
    destruct (hq_method request); cbn; auto with http. }
  unfold handle.
  repeat match goal with |- context [String.eqb (hq_path request) ?p] =>
    destruct (String.eqb (hq_path request) p); [apply Hpost, handle_with_readable; apply _|] end.
  unfold not_found_response, error_response. cbn. auto with http.
Qed.

Context (config : ProductHttpListenerConfig).

(** The response and the state after a payload. *)
Definition respond {E} `{!ProductSessionExtractor E} (e : E) (payload : Buf) (w : Product)
    : ProductHttpResponse * Product :=
  match parse_http_request utf8_error payload (li_max_body_bytes config) with
  | Ok request => route e request w
  | Err response => (response, w)
  end.

Lemma handle_http_bytes_respond {E} `{!ProductSessionExtractor E} (e : E) payload w :
  handle_http_bytes utf8_error (route e) config payload w =
  (encode_http_response (respond e payload w).1, (respond e payload w).2).
Proof using Type.
  unfold handle_http_bytes, respond. destruct (parse_http_request _ _ _); [|done].
  by destruct (route e _ w).
Qed.

Lemma respond_readable {E} `{!ProductSessionExtractor E} (e : E) payload w :
  readable (respond e payload w).1.
Proof using Type.
  unfold respond. destruct (parse_http_request _ _ _) as [request|r] eqn:Hp; [apply handle_readable|].
  by apply parse_refuses in Hp as [].
Qed.

(** C36. What the server writes is what it answers.  Whatever bytes a connection sends, the
    client of this file ([HttpClient.read_answer], which has its own line, field and number
    readers and refuses a header given twice or a body of another length than announced)
    reads from the bytes written the status, the headers and the whole body of the
    response, and nothing after it; no byte of the body is taken for a header or the other
    way round. *)
Theorem http_answer_reads_back {E} `{!ProductSessionExtractor E} (e : E) payload w :
  let r := (respond e payload w).1 in
  HttpClient.read_answer (handle_http_bytes utf8_error (route e) config payload w).1 =
  Some (hr_status r,
        <["content-length" := fmt_N (len (bytes (hr_body r)))]> (<["connection" := "close"]> (hr_headers r)),
        bytes (hr_body r)).
Proof using Type.
  cbv zeta. rewrite handle_http_bytes_respond. apply read_answer_encode, respond_readable.
Qed.

(** C35. The product server acts for nobody it does not trust, whatever bytes it is sent.
    With the router of a configuration, bytes that do not parse as a POST to a known path
    with a bearer token listed in the configuration, whose principal has every action the
    path asks for (the status bundle asks for two), are answered by the encoding of a
    response whose status is not 200, and leave the configuration and alert files, the operation summaries and the product audit log as they
    were. *)
Theorem http_bytes_only_trusted c e payload w :
  router c = Ok e →
  (∃ request, parse_http_request utf8_error payload (li_max_body_bytes config) = Ok request ∧
     trusted c request) ∨
  (∃ r, (handle_http_bytes utf8_error (route e) config payload w).1 = encode_http_response r ∧
     hr_status r ≠ 200%N) ∧
  @unchanged S P w (handle_http_bytes utf8_error (route e) config payload w).2.
Proof using Type.
  intros He. rewrite handle_http_bytes_respond. unfold respond.
  destruct (parse_http_request _ _ _) as [request|r] eqn:Hp.
  - destruct (http_only_trusted o audit_time config_codec checkpoint_codec alert_codec state_codec
      c e request w He) as [Ht|[Hst Hu]]; [left|right]; eauto.
  - right. apply parse_refuses in Hp as [_ Hst]. split; [eauto|]. apply unchanged_refl.
Qed.
End product.
End Answer.

(** ** A request and its answer *)

Import ApiSample.

Module AnswerSample.
Import Api Http Answer.
Definition utf8 : list ascii → string := λ _, "invalid utf-8".
Definition listener : ProductHttpListenerConfig := listener_config ApiSample.config.
Definition payload (token : string) : list ascii :=
  HttpSample.line ("POST " +:+ WORKER_CONFIG_SCHEDULE_CHANGE_PATH +:+ " HTTP/1.1") ++
  HttpSample.line ("Authorization: Bearer " +:+ token) ++
  HttpSample.line "X-Aria-Request-Id: req-1" ++
  bytes "Content-Length: 11" ++ HEADER_END ++ bytes "daemon.json".
Definition extractor := mkBearerExtractor (identity_verifier ApiSample.config).
Definition served (token : string) :=
  handle_http_bytes utf8 (handle extractor sample_oracle 7 OpsSample.codec checkpoints alerts states)
    listener (payload token) OpsSample.product.
Definition response (token : string) : ProductHttpResponse :=
  (respond sample_oracle 7 OpsSample.codec checkpoints alerts states utf8 listener extractor
     (payload token) OpsSample.product).1.
Definition parsed (token : string) : result ProductHttpResponse ProductHttpRequest :=
  parse_http_request utf8 (payload token) (li_max_body_bytes listener).
(** What the client reads: the status, a header and the body. *)
Definition seen (token : string) : option (N * option string * string) :=
  '(status, headers, body) ← HttpClient.read_answer (served token).1;
  Some (status, (headers : gmap string string) !! "content-length", of_bytes body).
End AnswerSample.

(** The trusted token is answered by its operator's name, which the sample prints as the
    body, another one by the code of the error. *)
Example answers_seen :
  AnswerSample.seen "t0ken" = Some (200%N, Some "5", "alice") ∧
  AnswerSample.seen "guess" = Some (401%N, Some "21", "authentication_failed").
Proof. by vm_compute. Qed.

Lemma http_answer_reads_back_witness :
  let r := AnswerSample.response "t0ken" in
  Api.hr_body r = "alice" ∧
  HttpClient.read_answer (AnswerSample.served "t0ken").1 =
  Some (Api.hr_status r,
        <["content-length" := fmt_N (Http.len (bytes (Api.hr_body r)))]>
          (<["connection" := "close"]> (Api.hr_headers r)),
        bytes (Api.hr_body r)).
Proof.
  intros r. split; [by vm_compute|].
  apply (Answer.http_answer_reads_back sample_oracle 7 OpsSample.codec checkpoints alerts states
    AnswerSample.utf8 AnswerSample.listener AnswerSample.extractor (AnswerSample.payload "t0ken")
    OpsSample.product).
Defined.

Lemma http_bytes_only_trusted_witness :
  (∃ request, AnswerSample.parsed "guess" = Ok request ∧ Api.trusted ApiSample.config request) ∨
  (∃ r, (AnswerSample.served "guess").1 = Http.encode_http_response r ∧ Api.hr_status r ≠ 200%N) ∧
  Api.unchanged OpsSample.product (AnswerSample.served "guess").2.
Proof.
  apply (Answer.http_bytes_only_trusted sample_oracle 7 OpsSample.codec checkpoints alerts states
    AnswerSample.utf8 AnswerSample.listener ApiSample.config); reflexivity.
Defined.
