(* ===== verification/Construct.v ===== *)
(** * Building a service (src/api/service.rs)

    The constructors of [AriaUnderlayService] and the methods that replace one part of it.
    A service is its environment, what does not change and what lies outside, and its
    state.  The lock table with its policy and the pool of adapter connections are the
    functions of [Env] that stand for them.

    An [Arc<dyn ShadowStateStore>] is a store of any kind: where a caller brings one and the
    constructor adds an in-memory one, both are [DynShadow]. *)
From S2P Require Export ApplyScope.
From S2P Require Import Client.
Local Open Scope N_scope.

Module Construct.

(** ** A store given by the caller or made by the constructor *)

Inductive DynShadow (S : Type) :=
  | Given (s : S)
  | InMemory (s : InMemoryShadow.Store).
Arguments Given {S} s.
Arguments InMemory {S} s.

Section dyn.
Context {S : Type} `{!ShadowStateStore S}.

Definition dyn_run {A} (f : ST UnderlayError S A) (g : ST UnderlayError InMemoryShadow.Store A)
    : ST UnderlayError (DynShadow S) A := λ d,
  match d with
  | Given s => let '(x, s) := f s in (x, Given s)
  | InMemory s => let '(x, s) := g s in (x, InMemory s)
  end.
#[export] Instance dyn_store : ShadowStateStore (DynShadow S) :=
  {| shadow_get d := dyn_run (shadow_get d) (shadow_get d);
     shadow_put state := dyn_run (shadow_put state) (shadow_put state);
     shadow_remove d := dyn_run (shadow_remove d) (shadow_remove d);
     shadow_list := dyn_run shadow_list shadow_list |}.

(** Whichever it is, the store keeps the contract of shadow stores. *)
Context (ok : S → Prop) (view : S → gmap DeviceId DeviceShadowState) `{!ShadowStoreLaws S ok view}.
Definition dyn_ok (d : DynShadow S) : Prop :=
  match d with Given s => ok s | InMemory s => InMemoryShadow.ok s end.
Definition dyn_view (d : DynShadow S) : gmap DeviceId DeviceShadowState :=
  match d with Given s => view s | InMemory s => InMemoryShadow.inner s end.

#[export] Instance dyn_laws : ShadowStoreLaws (DynShadow S) dyn_ok dyn_view.
Proof using Type*.
  pose proof InMemoryShadow.laws as Hmem.
  split; intros *; destruct s as [s|s]; cbn [shadow_get shadow_put shadow_remove shadow_list dyn_store];
    unfold dyn_run; cbn [dyn_ok dyn_view]; intros Hok.
  - destruct (shadow_get d s) as [x s1] eqn:Hrun. intros [= <- <-]. exact (shadow_get_law d s x s1 Hok Hrun).
  - destruct (shadow_get d s) as [x s1] eqn:Hrun. intros [= <- <-]. exact (shadow_get_law d s x s1 Hok Hrun).
  - destruct (shadow_put st s) as [x s1] eqn:Hrun. intros [= <- <-]. exact (shadow_put_law st s x s1 Hok Hrun).
  - destruct (shadow_put st s) as [x s1] eqn:Hrun. intros [= <- <-]. exact (shadow_put_law st s x s1 Hok Hrun).
  - destruct (shadow_remove d s) as [x s1] eqn:Hrun. intros [= <- <-]. exact (shadow_remove_law d s x s1 Hok Hrun).
  - destruct (shadow_remove d s) as [x s1] eqn:Hrun. intros [= <- <-]. exact (shadow_remove_law d s x s1 Hok Hrun).
  - destruct (shadow_list s) as [x s1] eqn:Hrun. intros [= <- <-]. exact (shadow_list_law s x s1 Hok Hrun).
  - destruct (shadow_list s) as [x s1] eqn:Hrun. intros [= <- <-]. exact (shadow_list_law s x s1 Hok Hrun).
Qed.
End dyn.

(** ** Constructors *)

(** [EndpointLockTable] with its [LockAcquisitionPolicy], and [AdapterClientPool]. *)
Record EndpointLocks := mkEndpointLocks {
  el_acquire : nat → DeviceId → UnderlayResult unit;
  el_acquire_many : nat → list DeviceId → UnderlayResult unit;
}.
Definition with_locks (locks : EndpointLocks) (env : Env) : Env :=
  mkEnv (now_unix_secs env) (new_tx_id env) (el_acquire locks) (el_acquire_many locks)
    (pool_client env) (get_current_state_for_desired env) (get_capabilities env) (adapter env).

Section construct.
(** The clock, the adapter and the serializer. *)
Context (outside : ServiceEnv (Z:=PermitAll.Policy)).

Notation built Z J S K := (ServiceEnv (Z:=Z) *
  AriaUnderlayService (J:=J) (S:=S) (I:=InMemoryIdempotency.Store) (D:=InMemoryDomainRecords.Store)
    (O:=InMemoryOperationSummaries.Store) (U:=NoopOperationAudit.Store)
    (P:=NoopProductAudit.Store) (K:=K))%type.

(** What every constructor puts beside the parts it is given. *)
Definition service_of {J S K} (env : Env) (inventory : Inventory.t) (journal : J) (secret_store : K)
    (shadow_store observed_store : S) : built PermitAll.Policy J S K :=
  (mkServiceEnv env DEFAULT_CONFIRMED_COMMIT_TIMEOUT_SECS PermitAll.mkPolicy
     (se_get_current_state outside) (se_force_unlock outside) (se_endpoint_from_shared outside)
     (se_to_string outside),
   mkAriaUnderlayService (mkWorld journal shadow_store observed_store [] 0 []) inventory
     (mkApplyIdempotencyRegistry ∅ (InMemoryIdempotency.mkStore ∅)) (InMemoryDomainRecords.mkStore ∅)
     (mkSinkState [] (InMemoryOperationSummaries.mkStore []) None) NoopProductAudit.mkStore secret_store).

Definition new (inventory : Inventory.t)
    : built PermitAll.Policy InMemoryJournal.Store InMemoryShadow.Store InMemorySecrets.Store :=
  service_of (se_env outside) inventory (InMemoryJournal.mkStore ∅) (∅ : InMemorySecrets.Store)
    (InMemoryShadow.mkStore ∅) (InMemoryShadow.mkStore ∅).
Definition new_with_journal {J} (inventory : Inventory.t) (journal : J)
    : built PermitAll.Policy J InMemoryShadow.Store InMemorySecrets.Store :=
  service_of (se_env outside) inventory journal (∅ : InMemorySecrets.Store)
    (InMemoryShadow.mkStore ∅) (InMemoryShadow.mkStore ∅).
Definition new_with_journal_and_locks {J} (inventory : Inventory.t) (journal : J)
    (endpoint_locks : EndpointLocks)
    : built PermitAll.Policy J InMemoryShadow.Store InMemorySecrets.Store :=
  service_of (with_locks endpoint_locks (se_env outside)) inventory journal
    (∅ : InMemorySecrets.Store) (InMemoryShadow.mkStore ∅) (InMemoryShadow.mkStore ∅).
Definition new_with_components {J K} (inventory : Inventory.t) (journal : J)
    (endpoint_locks : EndpointLocks) (secret_store : K)
    : built PermitAll.Policy J InMemoryShadow.Store K :=
  service_of (with_locks endpoint_locks (se_env outside)) inventory journal secret_store
    (InMemoryShadow.mkStore ∅) (InMemoryShadow.mkStore ∅).
Definition new_with_shadow_store {J S K} (inventory : Inventory.t) (journal : J)
    (endpoint_locks : EndpointLocks) (secret_store : K) (shadow_store : S)
    : built PermitAll.Policy J (DynShadow S) K :=
  service_of (with_locks endpoint_locks (se_env outside)) inventory journal secret_store
    (Given shadow_store) (InMemory (InMemoryShadow.mkStore ∅)).
End construct.

(** ** Replacing a part *)

Section parts.
Context {J S I D O U P Z K : Type}.
Notation Service I D O U P := (AriaUnderlayService (J:=J) (S:=S) (I:=I) (D:=D) (O:=O) (U:=U) (P:=P) (K:=K)).

Definition with_observed_state_store (observed_store : S) (s : Service I D O U P)
    : Service I D O U P :=
  let w := sv_world s in
  mkAriaUnderlayService (mkWorld (w_journal w) (w_shadow w) observed_store (w_events w) (w_tick w)
      (w_trace w))
    (sv_inventory s) (sv_apply_idempotency s) (sv_domain_apply_records s) (sv_event_sink s)
    (sv_product_audit s) (sv_secret_store s).
Definition with_operation_summary_store {O'} (store : O') (s : Service I D O U P)
    : Service I D O' U P :=
  mkAriaUnderlayService (sv_world s) (sv_inventory s) (sv_apply_idempotency s)
    (sv_domain_apply_records s)
    (mkSinkState (inner (sv_event_sink s)) store (operation_audit (sv_event_sink s)))
    (sv_product_audit s) (sv_secret_store s).
Definition with_operation_audit_store {U'} (store : U') (s : Service I D O U P)
    : Service I D O U' P :=
  mkAriaUnderlayService (sv_world s) (sv_inventory s) (sv_apply_idempotency s)
    (sv_domain_apply_records s)
    (mkSinkState (inner (sv_event_sink s)) (operation_summaries (sv_event_sink s)) (Some store))
    (sv_product_audit s) (sv_secret_store s).
Definition with_product_audit_store {P'} (store : P') (s : Service I D O U P)
    : Service I D O U P' :=
  mkAriaUnderlayService (sv_world s) (sv_inventory s) (sv_apply_idempotency s)
    (sv_domain_apply_records s) (sv_event_sink s) store (sv_secret_store s).
(** [ApplyIdempotencyRegistry::new(store)]: no slots over the store. *)
Definition with_apply_idempotency_store {I'} (store : I') (s : Service I D O U P)
    : Service I' D O U P :=
  mkAriaUnderlayService (sv_world s) (sv_inventory s) (mkApplyIdempotencyRegistry ∅ store)
    (sv_domain_apply_records s) (sv_event_sink s) (sv_product_audit s) (sv_secret_store s).
Definition with_domain_apply_record_store {D'} (store : D') (s : Service I D O U P)
    : Service I D' O U P :=
  mkAriaUnderlayService (sv_world s) (sv_inventory s) (sv_apply_idempotency s) store
    (sv_event_sink s) (sv_product_audit s) (sv_secret_store s).

Definition with_adapter_pool (pool : nat → string → UnderlayResult unit) (se : ServiceEnv (Z:=Z))
    : ServiceEnv (Z:=Z) :=
  let env := se_env se in
  mkServiceEnv (mkEnv (now_unix_secs env) (new_tx_id env) (acquire_endpoint env) (acquire_many env)
      pool (get_current_state_for_desired env) (get_capabilities env) (adapter env))
    (se_confirmed_commit_timeout_secs se) (se_authorization_policy se) (se_get_current_state se)
    (se_force_unlock se) (se_endpoint_from_shared se) (se_to_string se).
Definition with_confirmed_commit_timeout_secs (timeout_secs : N) (se : ServiceEnv (Z:=Z))
    : ServiceEnv (Z:=Z) :=
  mkServiceEnv (se_env se) (N.max timeout_secs 1) (se_authorization_policy se)
    (se_get_current_state se) (se_force_unlock se) (se_endpoint_from_shared se) (se_to_string se).
Definition with_authorization_policy {Z'} (policy : Z') (se : ServiceEnv (Z:=Z))
    : ServiceEnv (Z:=Z') :=
  mkServiceEnv (se_env se) (se_confirmed_commit_timeout_secs se) policy (se_get_current_state se)
    (se_force_unlock se) (se_endpoint_from_shared se) (se_to_string se).
End parts.

(** ** What a new service starts from *)

Section start.
Context {J S I D O U P Z K : Type}.
Context `{!TxJournalStore J} `{!ShadowStateStore S} `{!ApplyIdempotencyStore I}.
Context `{!DomainApplyRecordStore D} `{!OperationSummaryStore O} `{!OperationAuditStore U}.
Context `{!ProductAuditStore P} `{!AuthorizationPolicy Z} `{!SecretStore K}.
Context (se : ServiceEnv (Z:=Z)).
Context (view : I → string → option ApplyIdempotencyRecord) `{!IdempotencyStoreLaws I view}.

(** A registry that was just made holds nothing, so that what the slots hold is on record
    after whatever calls and restarts follow. *)
Lemma new_registry_slots_ok {I'} (store : I)
    (s : AriaUnderlayService (J:=J) (S:=S) (I:=I') (D:=D) (O:=O) (U:=U) (P:=P) (K:=K)) steps :
  slots_ok view (serve se steps (with_apply_idempotency_store store s)).
Proof using Type*.
  apply (serve_keeps se view). intros k r Hk. cbn in Hk. by rewrite lookup_empty in Hk.
Qed.
End start.
End Construct.
