(* ===== verification/Probe.v ===== *)
(** * The probe that writes to a real device (src/examples/real_domain_apply_probe.rs)

    The program an operator runs against a switch that carries traffic.  Its environment
    names the device and what to configure; it plans the change as a dry run, refuses a
    plan that deletes a part of the configuration or alters an access list or binding
    that is there, and applies the intent only when the operator has acknowledged the
    write.  Updates of VLANs and ports pass.  [main] runs on the three methods of the
    service it calls; what it prints is left out.  The environment is the map of the
    variables that are set and are UTF-8, which is what [std::env::var] tells apart. *)
From S2P Require Export Construct Decimal.

Module Probe.

(** ** Errors: [Box<dyn std::error::Error>] *)

Inductive ErrorKind := PermissionDenied | InvalidInput | AlreadyExists | OtherError.
Inductive ProbeError :=
  | IoError (kind : ErrorKind) (message : string)
  | ParseIntError (message : string)
  | ServiceError (e : UnderlayError).
Notation ProbeResult := (result ProbeError).

(** [str::parse::<u16>]: digit by digit, the first bad digit or overflow ends it. *)
Definition u16_digit (n : N) (c : ascii) : ProbeResult N :=
  match digit_val c with
  | None => Err (ParseIntError "invalid digit found in string")
  | Some d => if (2 ^ 16 <=? n * 10 + d)%N
              then Err (ParseIntError "number too large to fit in target type")
              else Ok (n * 10 + d)%N
  end.
Definition parse_u16 (s : string) : ProbeResult N :=
  match bytes s with
  | [] => Err (ParseIntError "cannot parse integer from empty string")
  | [c] => foldM u16_digit 0%N [c]
  | c :: l => foldM u16_digit 0%N (if bool_decide (c = byte 43) then l else c :: l)
  end.

(** ** The environment *)

Definition WRITE_ACK : string := "I_UNDERSTAND_THIS_WRITES_DEVICE".

Section environment.
Context (env : gmap string string).

Definition var_or (name default : string) : string :=
  match env !! name with Some value => value | None => default end.
Definition required_env (name : string) : ProbeResult string :=
  ok_or (env !! name) (IoError InvalidInput ("missing required environment variable " +:+ name)).
Definition optional_env (name : string) : option string :=
  value ← env !! name;
  let value := trim value in
  if str_is_empty value then None else Some value.
Definition env_u16 (name : string) (default : N) : ProbeResult N :=
  match env !! name with
  | Some value => if negb (str_is_empty (trim value)) then parse_u16 value else Ok default
  | None => Ok default
  end.
Definition env_bool (name : string) (default : bool) : ProbeResult bool :=
  match env !! name with
  | Some value =>
      if negb (str_is_empty (trim value)) then
        if bool_decide (value ∈ ["1"; "true"; "TRUE"; "yes"; "YES"]) then Ok true
        else if bool_decide (value ∈ ["0"; "false"; "FALSE"; "no"; "NO"]) then Ok false
        else Err (IoError InvalidInput (name +:+ " must be a boolean"))
      else Ok default
  | None => Ok default
  end.

Definition lower (value : string) : string := to_ascii_lowercase (trim value).
Definition acl_action (value : string) : ProbeResult AclAction :=
  if String.eqb (lower value) "permit" then Ok Permit
  else if String.eqb (lower value) "deny" then Ok Deny
  else Err (IoError InvalidInput "ACL rule action must be permit or deny").
Definition acl_protocol (value : string) : ProbeResult AclProtocol :=
  if String.eqb (lower value) "ip" then Ok Ip
  else if String.eqb (lower value) "tcp" then Ok Tcp
  else if String.eqb (lower value) "udp" then Ok Udp
  else if String.eqb (lower value) "icmp" then Ok Icmp
  else Err (IoError InvalidInput "ACL rule protocol must be ip, tcp, udp, or icmp").
Definition acl_kind (value : option string) : ProbeResult AclKind :=
  let value := match trim <$> value with
    | Some value => if str_is_empty value then "advanced_ipv4" else value
    | None => "advanced_ipv4"
    end in
  let value := to_ascii_lowercase value in
  if bool_decide (value ∈ ["advanced_ipv4"; "ipv4_advanced"; "advanced"]) then Ok AdvancedIpv4
  else if bool_decide (value ∈ ["basic_ipv4"; "ipv4_basic"; "basic"]) then Ok BasicIpv4
  else Err (IoError InvalidInput ("unsupported ACL kind " +:+ value)).
Definition acl_direction (value : string) : ProbeResult AclDirection :=
  if bool_decide (lower value ∈ ["inbound"; "in"]) then Ok Inbound
  else if bool_decide (lower value ∈ ["outbound"; "out"]) then Ok Outbound
  else Err (IoError InvalidInput ("unsupported ACL binding direction " +:+ lower value)).
Definition acl_endpoint (address_env wildcard_env : string) : ProbeResult (option AclEndpoint) :=
  match optional_env address_env, optional_env wildcard_env with
  | Some address, Some wildcard => Ok (Some (mkAclEndpoint address wildcard))
  | None, None => Ok None
  | _, _ => Err (IoError InvalidInput
                   (address_env +:+ " and " +:+ wildcard_env +:+ " must be set together"))
  end.
(** [optional_env(name).map(|value| value.parse::<u16>()).transpose()] *)
Definition optional_u16 (name : string) : ProbeResult (option N) :=
  match optional_env name with
  | Some value => n ← parse_u16 value; Ok (Some n)
  | None => Ok None
  end.

(** [value.split(',')] *)
Fixpoint split_commas (l cur : list ascii) : list (list ascii) :=
  match l with
  | [] => [reverse cur]
  | c :: l => if bool_decide (c = ","%char) then reverse cur :: split_commas l []
              else split_commas l (c :: cur)
  end.
Definition push_vlan (vlans : list N) (token : list ascii) : ProbeResult (list N) :=
  let token := trim (of_bytes token) in
  if str_is_empty token then Ok vlans
  else vlan ← parse_u16 token; Ok (vlans ++ [vlan]).
Definition parse_vlan_list (value : string) : ProbeResult (list N) :=
  vlans ← foldM push_vlan [] (split_commas (bytes value) []);
  match vlans with
  | [] => Err (IoError InvalidInput "VLAN list must not be empty")
  | _ => Ok vlans
  end.

(** ** What to configure *)

Definition desired_acls : ProbeResult (list AclIntent) :=
  match optional_env "ARIA_UNDERLAY_TEST_ACL_ID" with
  | None => Ok []
  | Some acl_id =>
      acl_id ← parse_u16 acl_id;
      kind ← acl_kind (optional_env "ARIA_UNDERLAY_TEST_ACL_KIND");
      sequence ← env_u16 "ARIA_UNDERLAY_ACL_RULE_SEQUENCE" 10;
      action ← acl_action (default "permit" (optional_env "ARIA_UNDERLAY_ACL_RULE_ACTION"));
      protocol ← acl_protocol (default "ip" (optional_env "ARIA_UNDERLAY_ACL_RULE_PROTOCOL"));
      source ← acl_endpoint "ARIA_UNDERLAY_ACL_RULE_SOURCE" "ARIA_UNDERLAY_ACL_RULE_SOURCE_WILDCARD";
      destination ← acl_endpoint "ARIA_UNDERLAY_ACL_RULE_DESTINATION"
        "ARIA_UNDERLAY_ACL_RULE_DESTINATION_WILDCARD";
      source_port_eq ← optional_u16 "ARIA_UNDERLAY_ACL_RULE_SOURCE_PORT_EQ";
      destination_port_eq ← optional_u16 "ARIA_UNDERLAY_ACL_RULE_DESTINATION_PORT_EQ";
      let rule := mkAclRule sequence action protocol source destination source_port_eq
        destination_port_eq (optional_env "ARIA_UNDERLAY_ACL_RULE_DESCRIPTION") in
      Ok [mkAclIntent acl_id kind None (optional_env "ARIA_UNDERLAY_TEST_ACL_DESCRIPTION") [rule]]
  end.

Definition desired_acl_bindings (member_id : string) (acls : list AclIntent)
    : ProbeResult (list AclBindingIntent) :=
  match optional_env "ARIA_UNDERLAY_ACL_BIND_INTERFACE" with
  | None => Ok []
  | Some interface_name =>
      if str_is_empty (trim interface_name) then Ok [] else
      acl_id ← match optional_env "ARIA_UNDERLAY_ACL_BIND_ID" with
        | Some value => parse_u16 value
        | None => ok_or (ai_acl_id <$> head acls) (IoError InvalidInput
                    "ARIA_UNDERLAY_ACL_BIND_INTERFACE requires a declared test ACL")
        end;
      direction ← acl_direction (default "inbound" (optional_env "ARIA_UNDERLAY_ACL_BIND_DIRECTION"));
      Ok [mkAclBindingIntent (mkDeviceId member_id) interface_name direction acl_id]
  end.

Definition access_interfaces (member_id : string) (test_vlan : N) : list InterfaceIntent :=
  match env !! "ARIA_UNDERLAY_ACCESS_INTERFACE" with
  | Some name => if negb (str_is_empty (trim name))
      then [mkInterfaceIntent (mkDeviceId member_id) name Up
              (optional_env "ARIA_UNDERLAY_ACCESS_DESCRIPTION") (Access test_vlan)]
      else []
  | None => []
  end.
Definition desired_interfaces (member_id : string) (test_vlan : N) : ProbeResult (list InterfaceIntent) :=
  let interfaces := access_interfaces member_id test_vlan in
  match env !! "ARIA_UNDERLAY_TRUNK_INTERFACE" with
  | Some name =>
      if negb (str_is_empty (trim name)) then
        allowed ← required_env "ARIA_UNDERLAY_TRUNK_ALLOWED_VLANS";
        allowed_vlans ← parse_vlan_list allowed;
        _ ← reject_if (negb (bool_decide (test_vlan ∈ allowed_vlans))) (IoError InvalidInput
          "ARIA_UNDERLAY_TRUNK_ALLOWED_VLANS must include ARIA_UNDERLAY_TEST_VLAN");
        Ok (interfaces ++ [mkInterfaceIntent (mkDeviceId member_id) name Up
              (optional_env "ARIA_UNDERLAY_TRUNK_DESCRIPTION") (Trunk None allowed_vlans)])
      else Ok interfaces
  | None => Ok interfaces
  end.
End environment.

Definition port_vlans (mode : PortMode) : list N :=
  match mode with
  | Access vlan_id => [vlan_id]
  | Trunk native_vlan allowed_vlans =>
      match native_vlan with Some vlan_id => [vlan_id] | None => [] end ++ allowed_vlans
  end.
Definition desired_vlans (test_vlan : N) (vlan_name : string) (vlan_description : option string)
    (interfaces : list InterfaceIntent) : list VlanIntent :=
  let vlan_ids : gset N :=
    foldl (λ ids i, ids ∪ list_to_set (port_vlans (ii_mode i))) {[ test_vlan ]} interfaces in
  (λ vlan_id, mkVlanIntent vlan_id
     (if bool_decide (vlan_id = test_vlan) then Some vlan_name else None)
     (if bool_decide (vlan_id = test_vlan) then vlan_description else None)) <$> bs_elems vlan_ids.

(** ** What the plan may contain *)

Definition planned_ops (change_sets : list ChangeSet) : list ChangeOp := change_sets ≫= ops.
Definition alters_existing (op : ChangeOp) : bool :=
  match op with
  | DeleteVlan _ | DeleteInterfaceConfig _ | DeleteAcl _ | UpdateAcl _ _
  | UpdateAclBinding _ _ | DeleteAclBinding _ _ _ => true
  | _ => false
  end.
Definition creates_acl (acl : AclIntent) (op : ChangeOp) : bool :=
  match op with CreateAcl created => (acl_id created =? ai_acl_id acl)%N | _ => false end.
Definition ensure_requested_acls_are_creates (change_sets : list ChangeSet) (acls : list AclIntent)
    : ProbeResult unit :=
  foldM (λ _ acl, reject_if (negb (existsb (creates_acl acl) (planned_ops change_sets)))
    (IoError AlreadyExists ("ACL " +:+ fmt_N (ai_acl_id acl) +:+
       " was not planned as CreateAcl; choose a non-existing ACL id"))) tt acls.

Definition acl_binding_create_matches_request (created : AclBinding) (requested : AclBindingIntent)
    : bool :=
  String.eqb (canonical_interface_name (ab_interface_name created))
             (canonical_interface_name (abi_interface_name requested))
  && bool_decide (ab_direction created = abi_direction requested)
  && (ab_acl_id created =? abi_acl_id requested)%N.
Definition creates_binding (binding : AclBindingIntent) (op : ChangeOp) : bool :=
  match op with
  | CreateAclBinding created => acl_binding_create_matches_request created binding
  | _ => false
  end.
Definition debug_AclDirection (d : AclDirection) : string :=
  match d with Inbound => "Inbound" | Outbound => "Outbound" end.
Definition ensure_requested_acl_bindings_are_creates (change_sets : list ChangeSet)
    (bindings : list AclBindingIntent) : ProbeResult unit :=
  foldM (λ _ binding, reject_if (negb (existsb (creates_binding binding) (planned_ops change_sets)))
    (IoError AlreadyExists ("ACL binding " +:+ abi_interface_name binding +:+ " " +:+
       debug_AclDirection (abi_direction binding) +:+
       " was not planned as CreateAclBinding; choose an unbound test interface"))) tt bindings.

(** ** [main] *)

(** The methods of the service the probe calls. *)
Class UnderlayService (W : Type) := {
  register_device : RegisterDeviceRequest → ST UnderlayError W (DeviceId * DeviceLifecycleState);
  dry_run_domain : ApplyDomainIntentRequest → ST UnderlayError W DryRunResponse;
  apply_domain_intent : ApplyDomainIntentRequest → ST UnderlayError W ApplyIntentResponse;
}.

Section main.
Context {W : Type} `{!UnderlayService W}.
Context (env : gmap string string).

(** [service.method(..).await?] *)
Definition call {A} (m : ST UnderlayError W A) : ST ProbeError W A := λ w,
  let '(r, w) := m w in (map_err ServiceError r, w).

(** What [main] reads before it calls the service. *)
Definition read_environment : ProbeResult (bool * RegisterDeviceRequest * ApplyDomainIntentRequest) :=
  dry_run_only ← env_bool env "ARIA_UNDERLAY_REAL_APPLY_DRY_RUN_ONLY" false;
  _ ← reject_if (negb dry_run_only &&
                 negb (bool_decide (env !! "ARIA_UNDERLAY_REAL_APPLY_ACK" = Some WRITE_ACK)))
    (IoError PermissionDenied
       ("set ARIA_UNDERLAY_REAL_APPLY_ACK=" +:+ WRITE_ACK +:+ " to run a real device write"));
  let adapter_endpoint := var_or env "ARIA_UNDERLAY_ADAPTER_ENDPOINT" "http://127.0.0.1:50051" in
  let endpoint_id := var_or env "ARIA_UNDERLAY_ENDPOINT_ID" "stack-mgmt" in
  let member_id := var_or env "ARIA_UNDERLAY_MEMBER_ID" "member-a" in
  management_ip ← required_env env "ARIA_UNDERLAY_MGMT_IP";
  management_port ← env_u16 env "ARIA_UNDERLAY_MGMT_PORT" 830;
  let secret_ref := var_or env "ARIA_UNDERLAY_SECRET_REF" "local/real-device" in
  let test_vlan_was_set := bool_decide (is_Some (optional_env env "ARIA_UNDERLAY_TEST_VLAN")) in
  test_vlan ← env_u16 env "ARIA_UNDERLAY_TEST_VLAN" 4093;
  let vlan_name := var_or env "ARIA_UNDERLAY_TEST_VLAN_NAME" "aria-test" in
  let vlan_description := optional_env env "ARIA_UNDERLAY_TEST_VLAN_DESCRIPTION" in
  allow_degraded ← env_bool env "ARIA_UNDERLAY_ALLOW_DEGRADED" true;
  interfaces ← desired_interfaces env member_id test_vlan;
  acls ← desired_acls env;
  acl_bindings ← desired_acl_bindings env member_id acls;
  let vlans := if match interfaces with [] => true | _ => false end && negb test_vlan_was_set then []
               else desired_vlans test_vlan vlan_name vlan_description interfaces in
  Ok (dry_run_only,
      mkRegisterDeviceRequest (var_or env "ARIA_UNDERLAY_TENANT_ID" "tenant-a")
        (var_or env "ARIA_UNDERLAY_SITE_ID" "site-a") (mkDeviceId endpoint_id) management_ip
        management_port (Some H3c) None LeafA secret_ref TrustOnFirstUse adapter_endpoint,
      mkApplyDomainIntentRequest (var_or env "ARIA_UNDERLAY_REQUEST_ID" "real-domain-apply-probe")
        (Some (var_or env "ARIA_UNDERLAY_TRACE_ID" "real-domain-apply-probe"))
        (env !! "ARIA_UNDERLAY_IDEMPOTENCY_KEY")
        (mkUnderlayDomainIntent (var_or env "ARIA_UNDERLAY_DOMAIN_ID" "real-domain")
           StackSingleManagementIp
           [mkManagementEndpointIntent endpoint_id management_ip management_port secret_ref
              (Some H3c) None]
           [mkSwitchMemberIntent member_id (Some LeafA) endpoint_id]
           vlans interfaces acls acl_bindings [] [] [] [] [] [] [] [])
        (mkApplyOptions false allow_degraded ReportOnly (opt_lock_scope default_apply_options)
           (opt_region_id default_apply_options))).

(** The three checks of the plan. *)
Definition check_plan (request : ApplyDomainIntentRequest) (dry_run : DryRunResponse)
    : ProbeResult unit :=
  let change_sets := drr_change_sets dry_run in
  _ ← reject_if (existsb alters_existing (planned_ops change_sets)) (IoError OtherError
    "dry-run planned a delete or existing ACL/binding update; refusing real device write");
  _ ← ensure_requested_acls_are_creates change_sets (di_acls (adr_intent request));
  ensure_requested_acl_bindings_are_creates change_sets (di_acl_bindings (adr_intent request)).

(** The answer to an apply, or [None] after a dry run alone. *)
Definition main : ST ProbeError W (option ApplyIntentResponse) :=
  inputs ← st_lift read_environment;
  let '(dry_run_only, registration, request) := inputs in
  _ ← call (register_device registration);
  dry_run ← call (dry_run_domain request);
  _ ← st_lift (check_plan request dry_run);
  if (dry_run_only : bool) then mret None
  else response ← call (apply_domain_intent request); mret (Some response).

(** ** What an apply was preceded by *)

(** The operations that take something away, and those that alter an access list or a
    binding that is there. *)
Inductive deletes : ChangeOp → Prop :=
  | deletes_vlan id : deletes (DeleteVlan id)
  | deletes_interface name : deletes (DeleteInterfaceConfig name)
  | deletes_acl id : deletes (DeleteAcl id)
  | deletes_binding name direction id : deletes (DeleteAclBinding name direction id)
  | deletes_process vrf : deletes (DeleteBgpProcess vrf)
  | deletes_neighbor vrf address : deletes (DeleteBgpNeighbor vrf address).
Inductive alters_acl : ChangeOp → Prop :=
  | alters_list before after : alters_acl (UpdateAcl before after)
  | alters_binding before after : alters_acl (UpdateAclBinding before after).
Inductive deletes_bgp : ChangeOp → Prop :=
  | bgp_process vrf : deletes_bgp (DeleteBgpProcess vrf)
  | bgp_neighbor vrf address : deletes_bgp (DeleteBgpNeighbor vrf address).

(** The plan deletes nothing outside BGP, alters no access list or binding, and creates
    every access list and binding that was asked for. *)
Definition harmless (request : ApplyDomainIntentRequest) (dry_run : DryRunResponse) : Prop :=
  let planned := planned_ops (drr_change_sets dry_run) in
  (∀ op, op ∈ planned → deletes op → deletes_bgp op) ∧
  (∀ op, op ∈ planned → ¬ alters_acl op) ∧
  (∀ acl, acl ∈ di_acls (adr_intent request) →
     ∃ created, CreateAcl created ∈ planned ∧ acl_id created = ai_acl_id acl) ∧
  (∀ binding, binding ∈ di_acl_bindings (adr_intent request) →
     ∃ created, CreateAclBinding created ∈ planned ∧
       canonical_interface_name (ab_interface_name created) =
         canonical_interface_name (abi_interface_name binding) ∧
       ab_direction created = abi_direction binding ∧ ab_acl_id created = abi_acl_id binding).

(** What the code's test tells. *)
Lemma alters_existing_spec op :
  alters_existing op = false ↔ (deletes op → deletes_bgp op) ∧ ¬ alters_acl op.
Proof using Type.
  split.
  - intros Hf. split; [intros Hd|intros Ha]; [destruct Hd; (discriminate || constructor)|].
    by destruct Ha.
  - intros [Hd Ha]. destruct op; try done; exfalso;
      (apply Ha; constructor) || (assert (deletes_bgp _) as Hb by (apply Hd; constructor); inversion Hb).
Qed.

Lemma existsb_elem {A} (f : A → bool) l : existsb f l = true ↔ ∃ x, x ∈ l ∧ f x = true.
Proof using Type. rewrite existsb_exists. by setoid_rewrite list_elem_of_In. Qed.

Lemma existsb_none {A} (f : A → bool) l : existsb f l = false → ∀ x, x ∈ l → f x = false.
Proof using Type.
  intros Hl x Hx. destruct (f x) eqn:Hf; [|done]. rewrite <-Hl. symmetry. apply existsb_elem. eauto.
Qed.

(** A loop of checks passes when every element does, and ends in one of its errors
    otherwise. *)
Lemma foldM_checks {A} (f : A → bool) (e : A → ProbeError) l :
  let x := foldM (λ _ x, reject_if (negb (f x)) (e x)) tt l in
  (x = Ok tt ∧ ∀ x, x ∈ l → f x = true) ∨ (∃ y, y ∈ l ∧ f y = false ∧ x = Err (e y)).
Proof using Type.
  induction l as [|y l IH]; [left; split; [done|]; by intros x ?%elem_of_nil|]. cbn [foldM].
  destruct (f y) eqn:Hy; [|right; exists y; split; [by left|done]]. cbn.
  destruct IH as [[-> Hall]|(z & Hz & Hf & ->)].
  - left. split; [done|]. intros x [->|Hx]%elem_of_cons; auto.
  - right. exists z. split; [by right|done].
Qed.

Lemma creates_acl_spec acl planned :
  existsb (creates_acl acl) planned = true ↔
  ∃ created, CreateAcl created ∈ planned ∧ acl_id created = ai_acl_id acl.
Proof using Type.
  rewrite existsb_elem. split.
  - intros (op & Hop & Hc). destruct op; try done. apply N.eqb_eq in Hc. eauto.
  - intros (created & Hin & Hid). exists (CreateAcl created). split; [done|]. by apply N.eqb_eq.
Qed.

Lemma creates_binding_spec binding planned :
  existsb (creates_binding binding) planned = true ↔
  ∃ created, CreateAclBinding created ∈ planned ∧
    canonical_interface_name (ab_interface_name created) =
      canonical_interface_name (abi_interface_name binding) ∧
    ab_direction created = abi_direction binding ∧ ab_acl_id created = abi_acl_id binding.
Proof using Type.
  assert (∀ created, acl_binding_create_matches_request created binding = true ↔
    canonical_interface_name (ab_interface_name created) =
      canonical_interface_name (abi_interface_name binding) ∧
    ab_direction created = abi_direction binding ∧ ab_acl_id created = abi_acl_id binding) as Hm.
  { intros created. unfold acl_binding_create_matches_request.
    rewrite !andb_true_iff, String.eqb_eq, bool_decide_eq_true, N.eqb_eq. tauto. }
  rewrite existsb_elem. split.
  - intros (op & Hop & Hc). destruct op; try done. apply Hm in Hc. eauto.
  - intros (created & Hin & Hc). exists (CreateAclBinding created). split; [done|]. by apply Hm.
Qed.

(** The checks pass exactly when the plan is harmless. *)
Lemma check_plan_spec request dry_run :
  (check_plan request dry_run = Ok tt ∧ harmless request dry_run) ∨
  (∃ kind message, check_plan request dry_run = Err (IoError kind message) ∧
     ¬ harmless request dry_run).
Proof using Type.
  unfold check_plan, harmless. set (planned := planned_ops _).
  destruct (existsb alters_existing planned) eqn:Halters.
  { right. do 2 eexists. split; [done|]. apply existsb_elem in Halters as (op & Hin & Hop).
    intros (Hd & Ha & _). by rewrite (proj2 (alters_existing_spec op)) in Hop by auto. }
  assert (∀ op, op ∈ planned → (deletes op → deletes_bgp op) ∧ ¬ alters_acl op) as Hno.
  { intros op Hin. by apply alters_existing_spec, (existsb_none _ _ Halters). }
  cbn.
  unfold ensure_requested_acls_are_creates. fold planned.
  destruct (foldM_checks (λ acl, existsb (creates_acl acl) planned)
    (λ acl, IoError AlreadyExists ("ACL " +:+ fmt_N (ai_acl_id acl) +:+
       " was not planned as CreateAcl; choose a non-existing ACL id"))
    (di_acls (adr_intent request))) as [[-> Hacls]|(acl & Hin & Hf & ->)]; cbn beta iota;
    [|right; do 2 eexists; split; [done|]; intros (_ & _ & Hall & _); specialize (Hall acl Hin);
      apply creates_acl_spec in Hall; by rewrite Hf in Hall].
  unfold ensure_requested_acl_bindings_are_creates. fold planned. cbn [mbind result_bind].
  destruct (foldM_checks (λ binding, existsb (creates_binding binding) planned)
    (λ binding, IoError AlreadyExists ("ACL binding " +:+ abi_interface_name binding +:+ " " +:+
       debug_AclDirection (abi_direction binding) +:+
       " was not planned as CreateAclBinding; choose an unbound test interface"))
    (di_acl_bindings (adr_intent request))) as [[-> Hbinds]|(b & Hin & Hf & ->)].
  - left. split; [done|]. split_and!; [by apply Hno..| |]; intros x Hx.
    + by apply creates_acl_spec, Hacls.
    + by apply creates_binding_spec, Hbinds.
  - right. do 2 eexists. split; [done|]. intros (_ & _ & _ & Hall). specialize (Hall b Hin).
    apply creates_binding_spec in Hall. by rewrite Hf in Hall.
Qed.

(** An intent that adds: it deletes nothing, has no BGP part, and declares every VLAN its
    ports use. *)
Definition additive (intent : UnderlayDomainIntent) : Prop :=
  di_delete_vlan_ids intent = [] ∧ di_delete_interfaces intent = [] ∧
  di_delete_acl_ids intent = [] ∧ di_delete_acl_bindings intent = [] ∧
  di_bgp_processes intent = [] ∧ di_bgp_neighbors intent = [] ∧
  di_delete_bgp_processes intent = [] ∧ di_delete_bgp_neighbors intent = [] ∧
  ∀ i v, i ∈ di_interfaces intent → v ∈ port_vlans (ii_mode i) → v ∈ vi_vlan_id <$> di_vlans intent.

Lemma desired_vlans_cover test_vlan name description interfaces i v :
  i ∈ interfaces → v ∈ port_vlans (ii_mode i) →
  v ∈ vi_vlan_id <$> desired_vlans test_vlan name description interfaces.
Proof using Type.
  intros Hi Hv. unfold desired_vlans. rewrite <-list_fmap_compose.
  apply list_elem_of_fmap. exists v. split; [done|]. apply elem_of_bs_elems.
  generalize ({[ test_vlan ]} : gset N). induction interfaces as [|j l IH]; intros ids;
    [by apply elem_of_nil in Hi|]. cbn [foldl].
  apply elem_of_cons in Hi as [->|Hi]; [|by apply IH].
  assert (∀ (l : list InterfaceIntent) (ids : gset N), v ∈ ids →
    v ∈ foldl (λ ids i, ids ∪ list_to_set (port_vlans (ii_mode i))) ids l) as Hmono.
  { clear. induction l as [|k l IH]; intros ids Hin; [done|]. cbn [foldl]. apply IH. set_solver. }
  apply Hmono. set_solver.
Qed.

Lemma read_environment_ok dry_run_only registration request :
  read_environment = Ok (dry_run_only, registration, request) →
  (dry_run_only = false → env !! "ARIA_UNDERLAY_REAL_APPLY_ACK" = Some WRITE_ACK) ∧
  additive (adr_intent request) ∧ opt_dry_run (adr_options request) = false.
Proof using Type.
  unfold read_environment. intros Hok. inv_ok. split_and!; [|split_and!; [done..|]|done].
  - intros ->. by apply andb_false_iff in Hok1 as [|Hack%negb_false_iff%bool_decide_eq_true_1].
  - cbn [adr_intent di_interfaces di_vlans]. intros i v Hi Hv.
    match goal with |- context [if ?c then _ else _] => destruct c eqn:Hc end;
      [|by eapply desired_vlans_cover].
    apply andb_prop in Hc as [Hc _]. case_match; [|done]. by apply elem_of_nil in Hi.
Qed.

(** What the probe does with the service [W]. *)
Definition probe_runs (w : W) : Prop :=
  match read_environment with
  | Err e => main w = (Err e, w)
  | Ok (dry_run_only, registration, request) =>
      (dry_run_only = false → env !! "ARIA_UNDERLAY_REAL_APPLY_ACK" = Some WRITE_ACK) ∧
      additive (adr_intent request) ∧
      match register_device registration w with
      | (Err e, w1) => main w = (Err (ServiceError e), w1)
      | (Ok _, w1) =>
          match dry_run_domain request w1 with
          | (Err e, w2) => main w = (Err (ServiceError e), w2)
          | (Ok dry_run, w2) =>
              (¬ harmless request dry_run ∧ ∃ kind message, main w = (Err (IoError kind message), w2)) ∨
              (harmless request dry_run ∧
               main w = if dry_run_only then (Ok None, w2)
                        else let '(r, w3) := apply_domain_intent request w2 in
                             (Some <$> map_err ServiceError r, w3))
          end
      end
  end.
Lemma main_probe_runs w : probe_runs w.
Proof using Type.
  unfold probe_runs, main, call, st_lift, mbind, ST_bind, mret, ST_ret.
  destruct read_environment as [[[dry_run_only registration] request]|e] eqn:Henv; [|done].
  destruct (read_environment_ok _ _ _ Henv) as (Hack & Hadd & _). split; [done|]. split; [done|].
  destruct (register_device registration w) as [[d|e] w1]; [|done]. cbn.
  destruct (dry_run_domain request w1) as [[dry_run|e] w2]; [|done]. cbn.
  destruct (check_plan_spec request dry_run) as [[-> Hh]|(kind & message & -> & Hh)]; [right|left; eauto].
  split; [done|]. destruct dry_run_only; [done|].
  by destruct (apply_domain_intent request w2) as [[r|e] w3].
Qed.
End main.

(** ** On the service *)

Section service.
Context {J S I D O U P Z K : Type}.
Context `{!TxJournalStore J} `{!ShadowStateStore S} `{!ApplyIdempotencyStore I}.
Context `{!DomainApplyRecordStore D} `{!OperationSummaryStore O} `{!OperationAuditStore U}.
Context `{!ProductAuditStore P} `{!AuthorizationPolicy Z} `{!SecretStore K}.
Definition service_methods (se : ServiceEnv (Z:=Z)) : UnderlayService
    (AriaUnderlayService (J:=J) (S:=S) (I:=I) (D:=D) (O:=O) (U:=U) (P:=P) (K:=K)) :=
  {| register_device := service_register_device se;
     dry_run_domain := Service.dry_run_domain se;
     apply_domain_intent := Service.apply_domain_intent se |}.

(** A desired state that asks for no delete, BGP ones included. *)
Definition deletes_nothing (d : DeviceDesiredState) : Prop :=
  ds_delete_vlan_ids d = ∅ ∧ ds_delete_interface_names d = ∅ ∧ ds_delete_acl_ids d = ∅ ∧
  ds_delete_acl_bindings d = ∅ ∧ ds_delete_bgp_process_vrfs d = ∅ ∧ ds_delete_bgp_neighbors d = ∅.

Lemma planned_without_deletes i states :
  additive i → plan_underlay_domain i = Ok states → Forall deletes_nothing states.
Proof using Type.
  intros (H1 & H2 & H3 & H4 & _ & _ & H5 & H6 & _) Hplan.
  pose proof (plan_valid_intent i states Hplan) as Hv.
  rewrite (plan_valid i Hv) in Hplan. inv_ok. apply Forall_fmap, Forall_forall. intros e _.
  destruct (endpoint_fold_planned i e Hv). unfold deletes_nothing, binding_named in *.
  rewrite H1 in *. rewrite H2 in *. rewrite H3 in *. rewrite H4 in *. rewrite H5 in *.
  rewrite H6 in *.
  split_and!; first [apply map_eq; intros k; rewrite lookup_empty; by eauto | set_solver].
Qed.

(** No operation of the diff of such a state deletes. *)
Lemma diff_without_deletes d s op :
  deletes_nothing d → op ∈ ops (compute_diff d s) → ¬ deletes op.
Proof using Type.
  intros (H1 & H2 & H3 & H4 & H5 & H6). unfold compute_diff. cbn [ops].
  unfold diff_ops, normalize_desired_state. cbn. rewrite H1, H2, H3, H4, H5, H6.
  rewrite !elem_of_app. intros Hop Hd. unfold diff_upserts, diff_deletes, diff_delete_entries in Hop.
  destruct_or! Hop; try (by apply elem_of_nil in Hop).
  all: apply list_elem_of_bind in Hop as ([k v] & Hop & _); repeat case_match;
    first [apply list_elem_of_singleton in Hop | by apply elem_of_nil in Hop]; subst op; inversion Hd.
Qed.

(** The service's dry run of an intent that adds shows no delete of any kind. *)
Lemma dry_run_without_deletes (se : ServiceEnv (Z:=Z)) request
    (s : AriaUnderlayService (J:=J) (S:=S) (I:=I) (D:=D) (O:=O) (U:=U) (P:=P) (K:=K)) r s' op :
  additive (adr_intent request) → Service.dry_run_domain se request s = (Ok r, s') →
  op ∈ planned_ops (drr_change_sets r) → ¬ deletes op.
Proof using Type.
  intros Hadd. unfold Service.dry_run_domain, dry_run_states.
  intros (states & s1 & [= Hplan <-] & (plan & s2 & Hrun & [= <- <-])%ST_bind_Ok)%ST_bind_Ok.
  apply (planned_without_deletes _ _ Hadd) in Hplan. cbn [dry_run_response drr_change_sets].
  revert Hrun. unfold coordinate. destruct (dry_run_desired_states _ _ _ _) as [x w] eqn:Hx.
  intros [= -> <-]. unfold dry_run_desired_states in Hx.
  apply ST_bind_Ok in Hx as (current & w1 & _ & [= Hx <-]).
  unfold build_dry_run_plan, build_dry_run_plan_with_profiles in Hx.
  apply bind_Ok in Hx as ([sets plans] & Hloop & [= <-]).
  pose proof (dry_run_loop states current ∅ [] []) as Hspec. unfold current_of in Hspec.
  rewrite Hloop in Hspec. destruct Hspec as (cur & _ & -> & _).
  unfold planned_ops. cbn [dp_change_sets app]. intros (cs & Hop & Hcs)%list_elem_of_bind.
  apply elem_of_zip_with in Hcs as (d & cur_d & -> & Hd & _).
  eapply diff_without_deletes; [|exact Hop]. by apply (proj1 (Forall_forall _ _) Hplan).
Qed.

(** C40. The probe writes to the device exactly when the write was acknowledged and the dry
    run showed it harmless, whatever the service it calls answers ([probe_runs]).  From the
    environment it makes an intent that deletes nothing and declares every VLAN its ports
    use, and asks for a real write only with the acknowledgement.  A dry run that deletes a
    VLAN, a port configuration, an access list or a binding, that changes an access list or
    binding, or that does not create every access list and binding asked for, ends in an
    error before any write; one that does not is followed by the apply, unless a dry run was
    all that was asked for.  Deletes of BGP processes and neighbors are not among the
    operations the probe looks for; on the program's own service they cannot occur: the
    dry run of an intent that adds shows no delete of any kind. *)
Theorem probe_writes_only_harmless :
  (∀ W (methods : UnderlayService W) (variables : gmap string string) (w : W),
     probe_runs variables w) ∧
  (∀ (se : ServiceEnv (Z:=Z)) request
     (s : AriaUnderlayService (J:=J) (S:=S) (I:=I) (D:=D) (O:=O) (U:=U) (P:=P) (K:=K)) r s' op,
     additive (adr_intent request) → Service.dry_run_domain se request s = (Ok r, s') →
     op ∈ planned_ops (drr_change_sets r) → ¬ deletes op).
Proof using Type.
  split; [intros; apply main_probe_runs|]. intros. by eapply dry_run_without_deletes.
Qed.
End service.
End Probe.

(** ** A switch without configuration, and one whose access list 3000 is in use *)

Module ProbeSample.
Import Probe Construct.
Definition acl : AclConfig := mkAclConfig 3000 AdvancedIpv4 None None [].
Definition env (acls : gmap N AclConfig) : Env :=
  let e := ServiceSample.env in
  mkEnv (now_unix_secs e) (new_tx_id e) (acquire_endpoint e) (acquire_many e) (pool_client e)
    (λ _ _ desired, Ok (mkDeviceShadowState (ds_device_id desired) 0 ∅ ∅ acls ∅ ∅ ∅ []))
    (get_capabilities e) (adapter e).
Definition outside (acls : gmap N AclConfig) : ServiceEnv (Z:=PermitAll.Policy) :=
  let se := ServiceSample.se in
  mkServiceEnv (env acls) 120 PermitAll.mkPolicy (se_get_current_state se) (se_force_unlock se)
    (se_endpoint_from_shared se) (se_to_string se).
Definition variables (ack : string) : gmap string string :=
  list_to_map [("ARIA_UNDERLAY_MGMT_IP", "10.0.0.9"); ("ARIA_UNDERLAY_REAL_APPLY_ACK", ack);
    ("ARIA_UNDERLAY_TRUNK_INTERFACE", "GE1/0/9"); ("ARIA_UNDERLAY_TRUNK_ALLOWED_VLANS", "7, 4093,");
    ("ARIA_UNDERLAY_TEST_ACL_ID", " 3000 "); ("ARIA_UNDERLAY_ACL_BIND_INTERFACE", "GE1/0/9")].
(** The outcome, the adapter calls, and how many devices are registered. *)
Definition run (ack : string) (acls : gmap N AclConfig) : ProbeResult (option ApplyStatus) * nat * nat :=
  let '(se, s) := new (outside acls) ∅ in
  let _ := service_methods (J:=InMemoryJournal.Store) (S:=InMemoryShadow.Store)
    (I:=InMemoryIdempotency.Store) (D:=InMemoryDomainRecords.Store)
    (O:=InMemoryOperationSummaries.Store) (U:=NoopOperationAudit.Store)
    (P:=NoopProductAudit.Store) (K:=InMemorySecrets.Store) se in
  let '(r, s) := main (variables ack) s in
  ((λ answer : option ApplyIntentResponse, resp_status <$> answer) <$> r, length (w_trace (sv_world s)), length (map_to_list (sv_inventory s))).
(** The intent of the acknowledged run, and its dry run once the device is registered. *)
Definition request : ApplyDomainIntentRequest :=
  match read_environment (variables WRITE_ACK) with
  | Ok (_, _, request) => request
  | Err _ => mkApplyDomainIntentRequest "" None None Sample.intent default_apply_options
  end.
Definition service : ServiceEnv (Z:=PermitAll.Policy) * AriaUnderlayService
    (J:=InMemoryJournal.Store) (S:=InMemoryShadow.Store) (I:=InMemoryIdempotency.Store)
    (D:=InMemoryDomainRecords.Store) (O:=InMemoryOperationSummaries.Store)
    (U:=NoopOperationAudit.Store) (P:=NoopProductAudit.Store) (K:=InMemorySecrets.Store) :=
  let '(se, s) := new (outside ∅) ∅ in
  match read_environment (variables WRITE_ACK) with
  | Ok (_, registration, _) => (se, (service_register_device se registration s).2)
  | Err _ => (se, s)
  end.
Definition dry_run := Service.dry_run_domain service.1 request service.2.
Definition planned : list ChangeOp :=
  match dry_run.1 with
  | Ok r => planned_ops (drr_change_sets r)
  | Err _ => []
  end.
End ProbeSample.

(** With the acknowledgement an empty switch is written to; without it nothing happens, and
    an access list that is in use stops the probe after the dry run. *)
Example probe_sample :
  ProbeSample.run Probe.WRITE_ACK ∅ = (Ok (Some Success), 12%nat, 1%nat) ∧
  ProbeSample.run "yes" ∅ = (Err (Probe.IoError Probe.PermissionDenied
    ("set ARIA_UNDERLAY_REAL_APPLY_ACK=" +:+ Probe.WRITE_ACK +:+ " to run a real device write")),
    0%nat, 0%nat) ∧
  ProbeSample.run Probe.WRITE_ACK {[ 3000%N := ProbeSample.acl ]} =
    (Err (Probe.IoError Probe.OtherError
       "dry-run planned a delete or existing ACL/binding update; refusing real device write"),
     0%nat, 1%nat).
Proof. vm_compute. auto. Qed.

(** On the empty switch the dry run plans five operations, none of which deletes. *)
Lemma probe_writes_only_harmless_witness :
  length ProbeSample.planned = 5%nat ∧ (∀ op, op ∈ ProbeSample.planned → ¬ Probe.deletes op) ∧
  Probe.probe_runs (W:=_) (UnderlayService0:=Probe.service_methods ProbeSample.service.1)
    (ProbeSample.variables Probe.WRITE_ACK) ProbeSample.service.2.
Proof.
  split; [vm_compute; reflexivity|]. split.
  - intros op. unfold ProbeSample.planned.
    destruct ProbeSample.dry_run as [[r|e] s'] eqn:Hr; cbn [fst];
      [|intros Hin; destruct (not_elem_of_nil op Hin)].
    unfold ProbeSample.dry_run in Hr.
    apply (proj2 Probe.probe_writes_only_harmless ProbeSample.service.1 ProbeSample.request
             ProbeSample.service.2 r s' op); [|exact Hr].
    clear. unfold ProbeSample.request.
    destruct (Probe.read_environment _) as [[[d registration] q]|e] eqn:He;
      [by apply Probe.read_environment_ok in He as (_ & ? & _)|vm_compute in He; discriminate He].
  - apply (proj1 (Probe.probe_writes_only_harmless (J:=InMemoryJournal.Store)
      (S:=InMemoryShadow.Store) (I:=InMemoryIdempotency.Store) (D:=InMemoryDomainRecords.Store)
      (O:=InMemoryOperationSummaries.Store) (U:=NoopOperationAudit.Store)
      (P:=NoopProductAudit.Store) (Z:=PermitAll.Policy) (K:=InMemorySecrets.Store))).
Defined.
