(* ===== verification/CliRun.v ===== *)
(** * Running a command of the operators' command line (src/ops_cli.rs)

    [Cli] says what a command line means; here the command runs.  It opens the stores whose
    paths it names, calls one operation and prints its answer.  The answer is the value that
    is printed.

    The files a command names are on one [Disk] of five directories: the journal's, that of
    the summary log, that of the alert log and the life cycle records, that of the product
    audit log, and that of the worker configuration and its checkpoint.  The command line
    takes any paths, so this is an assumption of everything stated here: paths of different
    directories of the disk name different files.  Within a directory the files are told
    apart by their names, and what a command leaves alone includes the other files of the
    directories it writes to. *)
From S2P Require Export Cli Construct.

Module CliRun.
Import Alerts Ops Cli Construct.

Record Codecs := mkCodecs {
  cd_journal : Codec TxJournalRecord;
  cd_summary : Codec OperationSummary;
  cd_product_audit : Codec ProductAuditRecord;
  cd_alert : Codec OperationAlert;
  cd_states : Codec Records;
  cd_config : Codec UnderlayWorkerDaemonConfig;
  cd_checkpoint : Codec WorkerReloadCheckpoint;
}.
Record Disk := mkDisk {
  dk_journal : Fs;
  dk_summaries : Fs;
  dk_alerts : Fs;
  dk_audit : Fs;
  dk_config : Fs;
}.

Inductive Part := PJournal | PSummaries | PAlerts | PAudit | PConfig.
Definition part (p : Part) (d : Disk) : Fs :=
  match p with
  | PJournal => dk_journal d | PSummaries => dk_summaries d | PAlerts => dk_alerts d
  | PAudit => dk_audit d | PConfig => dk_config d
  end.

(** [Box<dyn Error>]: an [io::Error] of kind [InvalidInput], or an error of the service. *)
Inductive Failure := InvalidInput (message : string) | Failed (e : UnderlayError).

Inductive Output :=
  | InDoubtTransactions (l : list InDoubtTransactionSummary)
  | Resolved (r : ForceResolveTransactionResponse)
  | Operations (l : list OperationSummary) (overview : OperationSummaryOverview)
  | OperationOverview (overview : OperationSummaryOverview)
  | AlertViews (l : list OperationAlertView) (overview : OperationAlertOverview)
  | AlertOverview (overview : OperationAlertOverview)
  | Transitioned (r : OperationAlertLifecycleRecord)
  | Changed (r : WorkerConfigAdminResponse)
  | Checkpoint (c : WorkerReloadCheckpoint)
  | Report (r : Preflight.WorkerDeploymentPreflightReport)
  | UsageText.

(** ** Reading *)

Section reading.
Context (o : FsOracle).

Lemma read_file_reads io_error path : reads_only (map_io io_error (read_file o path)).
Proof. apply reads_only_call. intros s. by destruct (fs_files s !! path). Qed.
Lemma read_to_string_reads io_error path : reads_only (map_io io_error (read_to_string o path)).
Proof.
  intros s r s'. unfold read_to_string, map_io, read_file, syscall, mbind, ST_bind, st_lift.
  destruct (io_fault o (fs_calls s)); simpl; [by intros [= <- <-]|].
  destruct (fs_files s !! path); simpl; [|by intros [= <- <-]]. case_match; by intros [= <- <-].
Qed.
Lemma log_list_reads {A} (codec : Codec A) path io_error parse_error :
  reads_only (log_list o codec path io_error parse_error).
Proof.
  apply reads_only_bind; [apply reads_only_get|]. intros s. case_match; [apply reads_only_ret|].
  apply reads_only_bind; [apply read_to_string_reads|]. intros. apply reads_only_lift.
Qed.
Lemma read_value_reads {A} (codec : Codec A) path empty io_error parse_error :
  reads_only (read_value o codec path empty io_error parse_error).
Proof.
  apply reads_only_bind; [apply reads_only_get|]. intros s. case_match; [apply reads_only_ret|].
  apply reads_only_bind; [apply read_to_string_reads|]. intros. apply reads_only_lift.
Qed.
Lemma list_alerts_reads alert_codec state_codec q :
  reads_only (list_operation_alerts o alert_codec state_codec q).
Proof.
  apply reads_only_bind.
  { apply reads_only_bind; [apply log_list_reads|]. intros. apply reads_only_ret. }
  intros alerts. apply reads_only_bind; [|intros; apply reads_only_ret].
  unfold lifecycle_records. case_match; [|apply reads_only_ret].
  apply reads_only_bind; [|intros; apply reads_only_ret].
  apply reads_only_bind; [apply read_value_reads|]. intros. apply reads_only_ret.
Qed.
End reading.

(** ** What a command may do to a directory *)

Definition same_files (s s' : Fs) : Prop := fs_files s' = fs_files s ∧ fs_root s' = fs_root s.
(** The file at [path] may have grown at its end, or be new; no other file is touched. *)
Definition appended (path : string) (s s' : Fs) : Prop :=
  (∀ k, k ≠ path → fs_files s' !! k = fs_files s !! k) ∧
  (∀ text, fs_files s !! path = Some text → ∃ more, fs_files s' !! path = Some (text +:+ more)).
(** The file at [path] may have other contents, or be new, and temporary files beside it may
    have come and gone; no other file is touched and the file is not lost. *)
Definition replaced (path : string) (s s' : Fs) : Prop :=
  (∀ k, k ≠ path → (∀ id, k ≠ "." +:+ path +:+ "." +:+ id +:+ ".tmp") →
     fs_files s' !! k = fs_files s !! k) ∧
  (is_Some (fs_files s !! path) → is_Some (fs_files s' !! path)).
(** Empty markers of the strict check may be left behind. *)
Definition marked (s s' : Fs) : Prop := ∀ k,
  fs_files s' !! k = fs_files s !! k ∨
  fs_files s !! k = None ∧ fs_files s' !! k = Some "" ∧
  ∃ id, k = ".aria-underlay-preflight-" +:+ id +:+ ".tmp".

#[export] Instance same_files_preorder : PreOrder same_files.
Proof. split; [done|]. intros s1 s2 s3 [? ?] [? ?]. split; congruence. Qed.
#[export] Instance appended_preorder path : PreOrder (appended path).
Proof.
  split.
  - intros s. split; [done|]. intros text Ht. exists "". rewrite Ht.
    f_equal. apply (inj bytes). by rewrite bytes_app, app_nil_r.
  - intros s1 s2 s3 [Ho1 Hp1] [Ho2 Hp2]. split; [intros k Hk; by rewrite Ho2, Ho1|].
    intros text (more & (more' & Ht)%Hp2)%Hp1. exists (more +:+ more'). rewrite Ht. f_equal.
    apply (inj bytes). by rewrite !bytes_app, app_assoc.
Qed.
#[export] Instance replaced_preorder path : PreOrder (replaced path).
Proof.
  split; [done|]. intros s1 s2 s3 [Ho1 Hp1] [Ho2 Hp2]. split; [|auto].
  intros k Hk Ht. by rewrite Ho2, Ho1.
Qed.
Lemma same_files_appended path s s' : same_files s s' → appended path s s'.
Proof.
  intros [Hf _]. split; [by rewrite Hf|]. intros text Ht. exists "". rewrite Hf, Ht.
  f_equal. apply (inj bytes). by rewrite bytes_app, app_nil_r.
Qed.
Lemma same_files_replaced path s s' : same_files s s' → replaced path s s'.
Proof. intros [Hf _]. split; by rewrite Hf. Qed.

(** Computations every step of which stays within a relation. *)
Section keeps.
Context {S : Type} (R : S → S → Prop) `{!PreOrder R}.
Definition keeps {A} (m : ST UnderlayError S A) : Prop := ∀ s r s', m s = (r, s') → R s s'.
Lemma keeps_ret {A} (a : A) : keeps (mret a).
Proof using PreOrder0. by intros s r s' [= <- <-]. Qed.
Lemma keeps_lift {A} (a : UnderlayResult A) : keeps (st_lift a).
Proof using PreOrder0. by intros s r s' [= <- <-]. Qed.
Lemma keeps_bind {A B} (m : ST UnderlayError S A) (f : A → ST UnderlayError S B) :
  keeps m → (∀ a, keeps (f a)) → keeps (m ≫= f).
Proof using PreOrder0.
  intros Hm Hf s r s'. unfold mbind, ST_bind. destruct (m s) as [[a|e] s1] eqn:Hs.
  - intros Hr. etrans; [by eapply Hm|by eapply Hf].
  - intros [= <- <-]. by eapply Hm.
Qed.
End keeps.

Lemma reads_keeps (R : Fs → Fs → Prop) {A} (m : ST UnderlayError Fs A) :
  (∀ s s', same_files s s' → R s s') → reads_only m → keeps R m.
Proof. intros HR Hm s r s' Hs. by apply HR, (Hm s r s'). Qed.

Section writing.
Context (o : FsOracle).

Lemma create_dir_appended io_error path : keeps (appended path) (map_io io_error (create_dir_all o)).
Proof.
  intros s r s' Hs. apply create_dir_files in Hs. split; [by rewrite Hs|]. intros text Ht.
  exists "". rewrite Hs, Ht. f_equal. apply (inj bytes). by rewrite bytes_app, app_nil_r.
Qed.
Lemma open_appended io_error path : keeps (appended path) (map_io io_error (open_append o path)).
Proof.
  intros s r s'. unfold map_io, open_append, syscall.
  destruct (io_fault o (fs_calls s)); [intros [= <- <-]; by apply same_files_appended|].
  destruct (fs_files s !! path) as [t|] eqn:Ht; intros [= <- <-];
    [by apply same_files_appended|]. simpl. split; simpl.
  - intros k Hk. by rewrite lookup_insert_ne.
  - intros text Htext. congruence.
Qed.
Lemma append_appended io_error path payload :
  keeps (appended path) (map_io io_error (append_all o path payload)).
Proof.
  intros s r s'. unfold map_io, append_all.
  destruct (io_fault o (fs_calls s)); intros [= <- <-]; (split; simpl;
    [intros k Hk; by rewrite lookup_insert_ne|]);
    intros text Ht; rewrite lookup_insert_eq, Ht; simpl; eauto.
Qed.
Lemma sync_appended io_error path : keeps (appended path) (map_io io_error (sync o)).
Proof. apply reads_keeps; [apply same_files_appended|]. by apply reads_only_call. Qed.

Lemma log_append_appended {A} (codec : Codec A) path io_error serialize_error a :
  keeps (appended path) (log_append o codec path io_error serialize_error a).
Proof.
  repeat (apply keeps_bind; [apply _| |intros ?]);
    eauto using create_dir_appended, open_appended, append_appended, sync_appended.
  apply keeps_lift, _.
Qed.
Lemma product_append_appended codec path a :
  keeps (appended path) (JsonFileProductAudit.append o codec path a).
Proof.
  repeat (apply keeps_bind; [apply _| |intros ?]);
    eauto using create_dir_appended, open_appended, append_appended, sync_appended.
  apply keeps_lift, _.
Qed.

Lemma atomic_write_replaced path payload io_error :
  keeps (replaced path) (atomic_write o path payload io_error).
Proof.
  intros s r s' Hw. apply atomic_write_spec in Hw as ((id & Hu) & _ & Hx). split.
  - intros k Hk Ht. apply Hu. rewrite !not_elem_of_cons. split_and!; [done|done|apply not_elem_of_nil].
  - intros Hs. destruct r; [destruct Hx as [_ ->]; by eexists|]. destruct Hx as [->| ->]; [by eexists|done].
Qed.
Lemma write_value_replaced {A} (codec : Codec A) path io_error serialize_error a :
  keeps (replaced path) (write_value o codec path io_error serialize_error a).
Proof.
  apply keeps_bind; [apply _|apply keeps_lift, _|]. intros. apply atomic_write_replaced.
Qed.
End writing.

Section run.
Context (o : FsOracle) (codecs : Codecs) (host : Preflight.Host).
(** The ids of the markers of the strict check that could be created in a directory but
    not removed again. *)
Context (left_behind : Part → list string).
Context (outside : ServiceEnv (Z:=PermitAll.Policy)) (uuid : string) (audit_time transition_time : N).
Notation CM := (λ A, Disk → result Failure A * Disk).

#[local] Instance journal_store : TxJournalStore Fs := JsonFileJournal.store o (cd_journal codecs).

(** *** The service of a command *)

Definition summary_store (path : string) : OperationSummaryStore Fs :=
  JsonFileOperationSummaries.store o (cd_summary codecs) path.

(** [service_for_journal_root(root, None)] and [service_for_journal_root(root, Some(path))] *)
Definition service_for_journal_root (journal : Fs) := new_with_journal outside ∅ journal.
Definition service_for_journal_and_summaries (journal summaries : Fs) :=
  let '(se, s) := service_for_journal_root journal in (se, with_operation_summary_store summaries s).
Definition service_for_operation_summary_path (summaries : Fs) :=
  let '(se, s) := new outside ∅ in (se, with_operation_summary_store summaries s).

(** *** The commands *)

Definition run_list_in_doubt (device_id : option DeviceId) : CM Output := λ d,
  let '(se, s) := service_for_journal_root (dk_journal d) in
  let '(x, s) := service_list_in_doubt_transactions device_id s in
  (map_err Failed (InDoubtTransactions <$> x),
   mkDisk (w_journal (sv_world s)) (dk_summaries d) (dk_alerts d) (dk_audit d) (dk_config d)).

Definition run_force_resolve (path : string) (q : ForceResolveTransactionRequest) : CM Output := λ d,
  let store := summary_store path in
  let '(se, s) := service_for_journal_and_summaries (dk_journal d) (dk_summaries d) in
  let '(x, s) := service_force_resolve_transaction se q s in
  (map_err Failed (Resolved <$> x),
   mkDisk (w_journal (sv_world s)) (operation_summaries (sv_event_sink s)) (dk_alerts d)
     (dk_audit d) (dk_config d)).

Definition run_summaries (path : string) (q : ListOperationSummariesRequest)
    : CM (list OperationSummary * OperationSummaryOverview)%type := λ d,
  let store := summary_store path in
  let '(se, s) := service_for_operation_summary_path (dk_summaries d) in
  let '(x, s) := list_operation_summaries q s in
  (map_err Failed x,
   mkDisk (dk_journal d) (operation_summaries (sv_event_sink s)) (dk_alerts d) (dk_audit d)
     (dk_config d)).

Definition run_alerts (q : ListOperationAlertsRequest)
    : CM (list OperationAlertView * OperationAlertOverview)%type := λ d,
  let '(x, s) := list_operation_alerts o (cd_alert codecs) (cd_states codecs) q (dk_alerts d) in
  (map_err Failed x, mkDisk (dk_journal d) (dk_summaries d) s (dk_audit d) (dk_config d)).

(** Whoever runs the command is the one operator of its policy. *)
Definition run_transition (state_path audit_path : string) (q : AlertLifecycleTransitionRequest)
    : CM Output := λ d,
  let audit := JsonFileProductAudit.store o (cd_product_audit codecs) audit_path in
  let states := JsonFileLifecycle.store o (cd_states codecs) state_path in
  let policy := StaticPolicy.with_operator (ar_operator q) StaticPolicy.new in
  let '(x, (p, l)) := manager_transition policy audit_time transition_time q
                        (dk_audit d, dk_alerts d) in
  (map_err Failed (Transitioned <$> x), mkDisk (dk_journal d) (dk_summaries d) l p (dk_config d)).

Definition run_config_change (operator audit_path : string) (c : ConfigChange) : CM Output := λ d,
  let audit := JsonFileProductAudit.store o (cd_product_audit codecs) audit_path in
  let policy := StaticPolicy.with_operator operator StaticPolicy.new in
  let '(x, w) := run_change policy o audit_time (cd_config codecs) c
                   (mkProduct (dk_config d) tt (dk_audit d)) in
  (map_err Failed (Changed <$> x),
   mkDisk (dk_journal d) (dk_summaries d) (dk_alerts d) (pr_audit w) (pr_fs w)).

(** A strict check tries the directories it is told of by creating a marker and removing
    it ([Preflight.Host] has the answers); a failure to remove it is ignored. *)
Definition leave_marker (s : Fs) (id : string) : Fs :=
  let name := ".aria-underlay-preflight-" +:+ id +:+ ".tmp" in
  if has_file name s then s else set_files (<[name := ""]> (fs_files s)) s.
Definition leave_markers (strict_paths : bool) (d : Disk) : Disk :=
  let leave p := if strict_paths then foldl leave_marker (part p d) (left_behind p) else part p d in
  mkDisk (leave PJournal) (leave PSummaries) (leave PAlerts) (leave PAudit) (leave PConfig).
Definition run_check (path : string) (strict_paths : bool) : CM Output := λ d,
  let '(loaded, s) := config_from_path o (cd_config codecs) path (dk_config d) in
  let report := Preflight.check_config_path strict_paths host path loaded in
  (if Preflight.rp_valid report then Ok (Report report)
   else Err (InvalidInput "worker config preflight failed"),
   leave_markers strict_paths (mkDisk (dk_journal d) (dk_summaries d) (dk_alerts d) (dk_audit d) s)).

Definition run_reload_status (path : string) : CM Output := λ d,
  let '(x, s) := checkpoint_from_path o (cd_checkpoint codecs) path (dk_config d) in
  (map_err Failed (Checkpoint <$> x),
   mkDisk (dk_journal d) (dk_summaries d) (dk_alerts d) (dk_audit d) s).

Definition execute (c : Command) : CM Output := λ d,
  match c with
  | ListInDoubt _ device_id => run_list_in_doubt device_id d
  | ForceResolve _ path q => run_force_resolve path q d
  | ListOperations path q =>
      let '(x, d) := run_summaries path q d in ((λ '(l, overview), Operations l overview) <$> x, d)
  | OperationSummaryOverviewOf path q =>
      let '(x, d) := run_summaries path q d in ((λ '(_, overview), OperationOverview overview) <$> x, d)
  | ListAlerts q =>
      let '(x, d) := run_alerts q d in ((λ '(l, overview), AlertViews l overview) <$> x, d)
  | AlertSummary q =>
      let '(x, d) := run_alerts q d in ((λ '(_, overview), AlertOverview overview) <$> x, d)
  | TransitionAlert state_path audit_path q => run_transition state_path audit_path q d
  | ChangeConfig operator audit_path c => run_config_change operator audit_path c d
  | CheckWorkerConfig path strict_paths => run_check path strict_paths d
  | WorkerReloadStatus path => run_reload_status path d
  | Usage => (Ok UsageText, d)
  end.

(** [ops_cli::run]: read the command line, then run the command. *)
Definition ops (args : list string) : CM Output := λ d,
  match Cli.run uuid args with
  | Ok c => execute c d
  | Err message => (Err (InvalidInput message), d)
  end.

(** ** What a command may change *)

(** What a force-resolve may do to the journal: replace the file of the transaction whose
    record is the one stored under the id asked for. *)
Definition resolved_file (q : ForceResolveTransactionRequest) (s s' : Fs) : Prop :=
  same_files s s' ∨
  ∃ text record, fs_files s !! (fr_tx_id q +:+ ".json") = Some text ∧
    decode (cd_journal codecs) text = Ok record ∧ replaced (tx_id record +:+ ".json") s s'.

Definition allowed (c : Command) (p : Part) : Fs → Fs → Prop :=
  match c, p with
  | ForceResolve _ _ q, PJournal => if fr_break_glass_enabled q then resolved_file q else same_files
  | ForceResolve _ path q, PSummaries => if fr_break_glass_enabled q then appended path else same_files
  | TransitionAlert state_path _ _, PAlerts => replaced state_path
  | TransitionAlert _ audit_path _, PAudit => appended audit_path
  | ChangeConfig _ audit_path _, PAudit => appended audit_path
  | ChangeConfig _ _ change, PConfig => replaced (change_path change)
  | CheckWorkerConfig _ true, _ => marked
  | _, _ => same_files
  end.

Lemma list_in_doubt_same device_id d r d' :
  run_list_in_doubt device_id d = (r, d') → ∀ p, same_files (part p d) (part p d').
Proof using Type.
  unfold run_list_in_doubt, service_list_in_doubt_transactions, coordinate, list_in_doubt_transactions,
    journal_scan, mbind, ST_bind. simpl.
  destruct (JsonFileJournal.list_recoverable _ _ _) as [x j] eqn:Hl.
  apply scan_records_reads in Hl as Hsame.
  destruct x; simpl; intros [= <- <-] []; try done; exact Hsame.
Qed.

Lemma force_resolve_refused path q d r d' :
  fr_break_glass_enabled q = false →
  run_force_resolve path q d = (r, d') → ∀ p, same_files (part p d) (part p d').
Proof using Type.
  intros Hb. unfold run_force_resolve, service_force_resolve_transaction, force_resolve_transaction.
  unfold mbind at 1, ST_bind at 1, st_lift at 1.
  destruct (validate_force_resolve_request q) as [[]|e] eqn:Hv.
  - unfold validate_force_resolve_request in Hv. inv_ok. by rewrite Hb in *.
  - simpl. by intros [= <- <-] [].
Qed.

Lemma summaries_same path q d r d' :
  run_summaries path q d = (r, d') → ∀ p, same_files (part p d) (part p d').
Proof using Type.
  unfold run_summaries, list_operation_summaries. simpl.
  set (m := if ls_attention_required_only q then _ else _).
  assert (reads_only m) as Hm.
  { unfold m. case_match; [|apply log_list_reads].
    apply reads_only_bind; [apply log_list_reads|]. intros. apply reads_only_ret. }
  destruct (m (dk_summaries d)) as [x s] eqn:Hl. apply Hm in Hl.
  simpl. by intros [= <- <-] [].
Qed.

Lemma alerts_same q d r d' :
  run_alerts q d = (r, d') → ∀ p, same_files (part p d) (part p d').
Proof using Type.
  unfold run_alerts. destruct (list_operation_alerts _ _ _ _ _) as [x s] eqn:Hl.
  apply list_alerts_reads in Hl. by intros [= <- <-] [].
Qed.

Lemma config_from_path_reads path : reads_only (config_from_path o (cd_config codecs) path).
Proof using Type.
  apply reads_only_bind; [apply read_file_reads|]. intros. apply reads_only_lift.
Qed.
Lemma checkpoint_reads path : reads_only (checkpoint_from_path o (cd_checkpoint codecs) path).
Proof using Type.
  apply reads_only_bind; [apply read_file_reads|]. intros. apply reads_only_lift.
Qed.

(** *** The commands that write *)

Lemma leave_marker_marked s id : marked s (leave_marker s id).
Proof using Type.
  intros k. unfold leave_marker, has_file. case_bool_decide as Hf; [by left|]. simpl.
  destruct (decide (k = ".aria-underlay-preflight-" +:+ id +:+ ".tmp")) as [->|Hk].
  - right. apply eq_None_not_Some in Hf. rewrite lookup_insert_eq. eauto.
  - left. by rewrite lookup_insert_ne.
Qed.
Lemma leave_all_marked ids s : marked s (foldl leave_marker s ids).
Proof using Type.
  revert s. induction ids as [|id ids IH]; intros s; simpl; [by left|]. intros k.
  destruct (leave_marker_marked s id k) as [H1|(H1 & H2 & H3)],
    (IH (leave_marker s id) k) as [H4|(H4 & H5 & H6)]; rewrite ?H1 in *; rewrite ?H4 in *; eauto.
Qed.

#[local] Instance prod_preorder {A B} (R1 : relation A) (R2 : relation B) :
  PreOrder R1 → PreOrder R2 → PreOrder (prod_relation R1 R2).
Proof using Type. intros. split; apply _. Qed.

Lemma lifecycle_replaced path now t :
  keeps (replaced path) (JsonFileLifecycle.transition o (cd_states codecs) path now t).
Proof using Type.
  apply keeps_bind; [apply _|apply reads_keeps; [apply same_files_replaced|apply read_value_reads]|].
  intros records. apply keeps_bind; [apply _|apply keeps_lift, _|]. intros record.
  apply keeps_bind; [apply _|apply write_value_replaced|]. intros. apply keeps_ret, _.
Qed.

Lemma manager_keeps {Z} `{!AuthorizationPolicy Z} (policy : Z) state_path audit_path q :
  keeps (prod_relation (appended audit_path) (replaced state_path))
    (manager_transition (ProductAuditStore0:=JsonFileProductAudit.store o (cd_product_audit codecs) audit_path)
       (LifecycleStore0:=JsonFileLifecycle.store o (cd_states codecs) state_path)
       policy audit_time transition_time q).
Proof using Type.
  unfold manager_transition. do 3 (apply keeps_bind; [apply _|apply keeps_lift, _|intros ?]).
  apply keeps_bind; [apply _| |intros _].
  - intros [p l] r s'. unfold Alerts.on_audit. simpl.
    destruct (JsonFileProductAudit.append _ _ _ _ p) as [x p'] eqn:Ha. intros [= <- <-].
    split; [by eapply product_append_appended|reflexivity].
  - intros [p l] r s'. unfold on_lifecycle. simpl.
    destruct (JsonFileLifecycle.transition _ _ _ _ _ l) as [x l'] eqn:Ha. intros [= <- <-].
    split; [reflexivity|by eapply lifecycle_replaced].
Qed.

Lemma transition_allowed state_path audit_path q d r d' :
  run_transition state_path audit_path q d = (r, d') →
  ∀ p, allowed (TransitionAlert state_path audit_path q) p (part p d) (part p d').
Proof using Type.
  unfold run_transition. destruct (manager_transition _ _ _ _ _) as [x [p l]] eqn:Hm.
  apply manager_keeps in Hm as [Hp Hl]. intros [= <- <-] []; try reflexivity; done.
Qed.

(** The state of a configuration change. *)
Definition config_relation (path audit_path : string) (w w' : @Product unit Fs) : Prop :=
  replaced path (pr_fs w) (pr_fs w') ∧ appended audit_path (pr_audit w) (pr_audit w').
#[local] Instance config_relation_preorder path audit_path :
  PreOrder (config_relation path audit_path).
Proof using Type.
  split; [by split|]. intros w1 w2 w3 [? ?] [? ?]. split; etrans; done.
Qed.

Lemma change_keeps {Z} `{!AuthorizationPolicy Z} (policy : Z) audit_path c :
  keeps (config_relation (change_path c) audit_path)
    (run_change (ProductAuditStore0:=JsonFileProductAudit.store o (cd_product_audit codecs) audit_path)
       policy o audit_time (cd_config codecs) c).
Proof using Type.
  intros w0 r0 w0' Hr0. rewrite run_change_steps in Hr0. revert w0 r0 w0' Hr0.
  assert (∀ A (m : ST UnderlayError Fs A), keeps (replaced (change_path c)) m →
    keeps (config_relation (change_path c) audit_path) (on_fs (S:=unit) m)) as Hfs.
  { intros A m Hm w r w'. unfold on_fs. destruct (m (pr_fs w)) as [x fs] eqn:Hx.
    intros [= <- <-]. split; [by eapply Hm|reflexivity]. }
  unfold change_steps. do 2 (apply keeps_bind; [apply _|apply keeps_lift, _|intros ?]).
  apply keeps_bind; [apply _| |intros config].
  { apply Hfs, reads_keeps; [apply same_files_replaced|]. apply config_from_path_reads. }
  do 2 (apply keeps_bind; [apply _|apply keeps_lift, _|intros ?]).
  apply keeps_bind; [apply _| |intros _].
  { intros w r w'. unfold append_audit, Ops.on_audit. simpl.
    destruct (JsonFileProductAudit.append _ _ _ _ (pr_audit w)) as [x p'] eqn:Ha. intros [= <- <-].
    split; [reflexivity|by eapply product_append_appended]. }
  apply keeps_bind; [apply _| |intros _; apply keeps_ret, _].
  apply Hfs. apply write_value_replaced.
Qed.

Lemma change_allowed operator audit_path c d r d' :
  run_config_change operator audit_path c d = (r, d') →
  ∀ p, allowed (ChangeConfig operator audit_path c) p (part p d) (part p d').
Proof using Type.
  unfold run_config_change. destruct (run_change _ _ _ _ _ _) as [x w] eqn:Hm.
  apply change_keeps in Hm as [Hf Ha]. intros [= <- <-] []; try reflexivity; done.
Qed.

(** *** The journal of a force-resolve *)

Definition journal_relation {P} (R : Fs → Fs → Prop)
    (s s' : World (J:=Fs) (S:=InMemoryShadow.Store) * P) : Prop :=
  R (w_journal s.1) (w_journal s'.1).
#[local] Instance journal_relation_preorder {P} R : PreOrder R → PreOrder (journal_relation (P:=P) R).
Proof using Type.
  intros HR. split; [intros s; unfold journal_relation; reflexivity|].
  intros s1 s2 s3 H1 H2. unfold journal_relation in *. by etrans.
Qed.

Lemma keeps_lift_bind {S A B} (R : S → S → Prop) `{!PreOrder R} (x : UnderlayResult A)
    (f : A → ST UnderlayError S B) :
  (∀ a, x = Ok a → keeps R (f a)) → keeps R (st_lift x ≫= f).
Proof using Type.
  intros Hf s r s'. unfold mbind, ST_bind, st_lift. destruct x as [a|e]; [by apply Hf|].
  by intros [= <- <-].
Qed.

Lemma read_record_found t s record s1 :
  JsonFileJournal.get o (cd_journal codecs) t s = (Ok (Some record), s1) →
  ∃ text, fs_files s !! (t +:+ ".json") = Some text ∧ decode (cd_journal codecs) text = Ok record.
Proof using Type.
  unfold JsonFileJournal.get. intros (path & s2 & [= Hp <-] & Hr)%ST_bind_Ok.
  apply JsonFileJournal.journal_path_for_Ok in Hp as [-> _].
  unfold read_if_exists in Hr. apply ST_bind_Ok in Hr as (s3 & s4 & [= <- <-] & Hr).
  case_match; [|done]. apply ST_bind_Ok in Hr as (r & s5 & Hr & [= -> _]).
  unfold read_record in Hr. apply ST_bind_Ok in Hr as (text & s6 & Hr & [= Hd _]).
  unfold map_io, read_file, syscall in Hr. destruct (io_fault o (fs_calls s)); [done|].
  unfold file_of, json_name in *. destruct (fs_files s !! _) as [t'|] eqn:Ht; [|done].
  injection Hr as <- _. exists t'. split; [done|].
  destruct (decode (cd_journal codecs) t'); by simplify_eq/=.
Qed.

Lemma put_replaced record :
  keeps (replaced (tx_id record +:+ ".json")) (JsonFileJournal.put o (cd_journal codecs) record).
Proof using Type.
  apply keeps_lift_bind; [apply _|]. intros path [-> _]%JsonFileJournal.journal_path_for_Ok.
  apply keeps_bind; [apply _|apply keeps_lift, _|]. intros. apply atomic_write_replaced.
Qed.

Lemma journal_read_same t (w0 : World (J:=Fs) (S:=InMemoryShadow.Store)) x0 w1 :
  journal_read t w0 = (x0, w1) → same_files (w_journal w0) (w_journal w1).
Proof using Type.
  unfold journal_read. simpl.
  destruct (JsonFileJournal.get _ _ t (w_journal w0)) as [y j] eqn:Hg. intros [= <- <-]. simpl.
  unfold JsonFileJournal.get in Hg. eapply reads_only_bind; [| |exact Hg];
    [apply reads_only_lift|intros; apply read_if_exists_reads].
Qed.

(** A step of the service that is not about the journal. *)
Lemma on_world_quiet {P A} R `{!PreOrder R}
    (m : ST UnderlayError (World (J:=Fs) (S:=InMemoryShadow.Store)) A) :
  (∀ w0 x0 w1, m w0 = (x0, w1) → w_journal w1 = w_journal w0) →
  keeps (journal_relation (P:=P) R) (on_world m).
Proof using Type.
  intros Hm [w0 p0] r s. unfold on_world. destruct (m w0) as [x0 w4] eqn:Hx.
  intros [= <- <-]. unfold journal_relation. simpl. rewrite (Hm _ _ _ Hx). reflexivity.
Qed.
Ltac quiet := apply keeps_bind; [apply _|apply on_world_quiet; [apply _|by intros ? ? ? [= <- <-]]|].

Lemma force_resolve_journal {Z P} `{!AuthorizationPolicy Z} `{!ProductAuditStore P} env (policy : Z) q w p x w' p' :
  force_resolve_transaction (J:=Fs) (S:=InMemoryShadow.Store) (P:=P) env policy q (w, p) = (x, (w', p')) →
  resolved_file q (w_journal w) (w_journal w').
Proof using Type.
  unfold force_resolve_transaction.
  intros Hrun. unfold mbind at 1, ST_bind at 1, st_lift at 1 in Hrun.
  destruct (validate_force_resolve_request q) as [[]|e]; [|by simplify_eq; left].
  unfold mbind at 1, ST_bind at 1, on_world at 1 in Hrun.
  destruct (journal_read (fr_tx_id q) w) as [c0 w1] eqn:H1. apply journal_read_same in H1.
  destruct c0 as [c0|e]; [|by simplify_eq; left].
  unfold mbind at 1, ST_bind at 1, st_lift at 1 in Hrun.
  destruct (ok_or c0 _) as [candidate|e]; [|by simplify_eq; left].
  unfold mbind at 1, ST_bind at 1, on_world at 1 in Hrun.
  destruct (ask_result _ w1) as [y w2] eqn:H2.
  assert (w_journal w2 = w_journal w1) as Hj2 by (by injection H2 as _ <-).
  destruct y; [|simplify_eq; left; by rewrite Hj2].
  unfold mbind at 1, ST_bind at 1, on_world at 1 in Hrun.
  destruct (journal_read (fr_tx_id q) w2) as [r0 w3] eqn:H3. pose proof (journal_read_same _ _ _ _ H3) as Hs3.
  rewrite Hj2 in Hs3. assert (same_files (w_journal w) (w_journal w3)) as Hs by (by etrans).
  destruct r0 as [r0|e]; [|injection Hrun as _ <- _; by left].
  unfold mbind at 1, ST_bind at 1, st_lift at 1 in Hrun.
  destruct r0 as [record|]; [|injection Hrun as _ <- _; by left]. cbn [ok_or] in Hrun.
  right. assert (∃ text, fs_files (w_journal w) !! (fr_tx_id q +:+ ".json") = Some text ∧
    decode (cd_journal codecs) text = Ok record) as (text & Ht & Hd).
  { destruct H1 as [Hf1 _]. rewrite <-Hf1, <-Hj2. revert H3. unfold journal_read. simpl.
    destruct (JsonFileJournal.get _ _ _ (w_journal w2)) as [y j] eqn:Hg. intros [= -> _].
    by eapply read_record_found. }
  exists text, record. split_and!; [done..|].
  etrans; [by apply same_files_replaced|].
  change (journal_relation (P:=P) (replaced (tx_id record +:+ ".json")) (w3, p) (w', p')).
  revert Hrun. generalize (w3, p) as s0, (w', p') as s1. intros s0 s1 Hrun.
  set (R := journal_relation (P:=P) (replaced (tx_id record +:+ ".json"))).
  revert s0 x s1 Hrun. apply keeps_bind; [apply _|apply keeps_lift, _|intros _].
  apply keeps_bind; [apply _|apply keeps_lift, _|intros authorization].
  quiet. intros t1.
  apply keeps_bind; [apply _| |intros _].
  { intros [w0 p0] r s. unfold AdminOps.on_audit. destruct (product_append _ p0).
    intros [= <- <-]. unfold R, journal_relation. simpl. reflexivity. }
  quiet. intros t2. quiet. intros t3.
  apply keeps_lift_bind; [apply _|]. intros resolved Hres.
  assert (tx_id resolved = tx_id record) as Htx.
  { unfold transition_phase in Hres. inv_ok. by destruct record. }
  apply keeps_bind; [apply _| |intros _].
  { intros [w0 p0] r s. unfold on_world, journal_write. simpl.
    destruct (JsonFileJournal.put _ _ resolved (w_journal w0)) as [y j] eqn:Hp.
    intros [= <- <-]. unfold R, journal_relation. simpl. rewrite <-Htx. by eapply put_replaced. }
  quiet. intros _. apply keeps_ret, _.
Qed.

Lemma emits_appended path (k : SinkState Fs NoopOperationAudit.Store) events :
  appended path (operation_summaries k)
    (operation_summaries (foldl (λ k e, sink_emit
       (OperationSummaryStore0:=summary_store path) e k) k events)).
Proof using Type.
  revert k. induction events as [|e events IH]; intros k; simpl; [reflexivity|].
  etrans; [|apply IH]. unfold sink_emit. simpl.
  destruct (JsonFileOperationSummaries.record_event _ _ _ e (operation_summaries k)) as [r s] eqn:Hr.
  assert (appended path (operation_summaries k) s) as Ha.
  { unfold JsonFileOperationSummaries.record_event in Hr. case_match; [|injection Hr as _ <-; reflexivity].
    by eapply log_append_appended. }
  repeat case_match; simpl; done.
Qed.

Lemma force_resolve_allowed root path q d r d' :
  run_force_resolve path q d = (r, d') →
  ∀ p, allowed (ForceResolve root path q) p (part p d) (part p d').
Proof using Type.
  intros Hrun. destruct (fr_break_glass_enabled q) eqn:Hb.
  2:{ intros p. pose proof (force_resolve_refused _ _ _ _ _ Hb Hrun p) as Hs. simpl. rewrite Hb.
      by destruct p. }
  revert Hrun. unfold run_force_resolve, service_force_resolve_transaction.
  destruct (service_for_journal_and_summaries (dk_journal d) (dk_summaries d)) as [se s] eqn:Hs.
  destruct (force_resolve_transaction _ _ _ _) as [x [w p]] eqn:Hr.
  apply force_resolve_journal in Hr. injection Hs as <- <-.
  intros [= <- <-] []; simpl; rewrite ?Hb; try reflexivity; [exact Hr|]. apply emits_appended.
Qed.

Lemma execute_allowed c d r d' :
  execute c d = (r, d') → ∀ p, allowed c p (part p d) (part p d').
Proof using Type.
  destruct c; simpl execute.
  - intros Hrun p. by eapply list_in_doubt_same.
  - apply force_resolve_allowed.
  - intros Hrun p. destruct (run_summaries _ _ d) as [x d1] eqn:H1. simplify_eq/=.
    by eapply summaries_same.
  - intros Hrun p. destruct (run_summaries _ _ d) as [x d1] eqn:H1. simplify_eq/=.
    by eapply summaries_same.
  - intros Hrun p. destruct (run_alerts _ d) as [x d1] eqn:H1. simplify_eq/=. by eapply alerts_same.
  - intros Hrun p. destruct (run_alerts _ d) as [x d1] eqn:H1. simplify_eq/=. by eapply alerts_same.
  - apply transition_allowed.
  - apply change_allowed.
  - intros Hrun p. unfold run_check in Hrun.
    destruct (config_from_path _ _ _ _) as [x s] eqn:H1. apply config_from_path_reads in H1 as [Hf Hr].
    injection Hrun as <- <-. destruct strict_paths; simpl; [|by destruct p].
    intros k. destruct p; simpl; try apply leave_all_marked. rewrite <-Hf. apply leave_all_marked.
  - intros Hrun p. unfold run_reload_status in Hrun.
    destruct (checkpoint_from_path _ _ _ _) as [x s] eqn:H1. apply checkpoint_reads in H1.
    simplify_eq/=. by destruct p.
  - intros Hrun p. simplify_eq. by destruct p.
Qed.

(** C39. A command line touches nothing its command does not name, file by file.  For paths
    of different directories of the disk, whatever the arguments and whatever system calls
    fail: arguments that are no command change nothing; an alert transition may replace the
    file of life cycle records and append to the product audit log; a configuration change
    may replace the configuration file and append to the product audit log; a
    force-resolve, with its break-glass flag only, may replace the journal file of the
    transaction stored under the id it names and append to the summary log; a check with
    strict paths may leave its empty markers behind; and a listing, a check without strict
    paths, a status or a force-resolve without the flag changes no file.  Every other file
    of every directory, the alert log and the checkpoint too, keeps its contents, and an
    appended log keeps what it held as a prefix. *)
Theorem command_changes_only_its_parts args d r d' :
  ops args d = (r, d') →
  match Cli.run uuid args with
  | Ok c => ∀ p, allowed c p (part p d) (part p d')
  | Err _ => d' = d
  end.
Proof using Type.
  unfold ops. destruct (Cli.run uuid args) as [c|e]; [apply execute_allowed|]. by intros [= _ <-].
Qed.

End run.
End CliRun.

(** ** A transaction in doubt *)

Module CliRunSample.
Import CliRun.
(** The directory of the summary log is on a full device. *)
Definition full : FsOracle :=
  mkFsOracle (λ n, if (100 <=? n)%nat then Some "No space left on device (os error 28)" else None)
    (λ _, O) (λ l, l) (λ l, reflexivity l) (λ n, fmt_usize n) (λ _ _, false).
Definition codecs : Codecs :=
  mkCodecs (mkCodec (λ r, Ok (debug_TxPhase (phase r))) (λ _, Ok AdminSample.stuck))
    (mkCodec (λ _, Ok "summary") (λ _, Err "parse")) (mkCodec (λ _, Ok "audit") (λ _, Err "parse"))
    (mkCodec (λ _, Err "unsupported") (λ _, Err "parse"))
    (mkCodec (λ _, Err "unsupported") (λ _, Err "parse"))
    (mkCodec (λ _, Err "unsupported") (λ _, Err "parse"))
    (mkCodec (λ _, Err "unsupported") (λ _, Err "parse")).
Definition host : Preflight.Host := Preflight.mkHost (λ _, false) (λ _, false) (λ _, false) (λ _, "1").
Definition disk : Disk :=
  mkDisk (mkFs true {[ "tx-0.json" := "InDoubt" ]} 0) (mkFs true ∅ 100) (mkFs true ∅ 0)
    (mkFs true ∅ 0) (mkFs true ∅ 0).
Definition sample_ops := ops full codecs host (λ _, []) ServiceSample.se "1" 7 8.
Definition command (flags : list string) : list string :=
  "force-resolve" :: Cli.command_line
    [("--journal-root", "journal"); ("--operation-summary-path", "ops.jsonl"); ("--tx-id", "tx-0");
     ("--operator", "alice"); ("--reason", "checked on the console")] flags.
Definition resolved (flags : list string) : bool * option string * nat * nat :=
  let '(r, d) := sample_ops (command flags) disk in
  (is_ok r, fs_files (dk_journal d) !! "tx-0.json", size (fs_files (dk_summaries d)),
   size (fs_files (dk_audit d))).
End CliRunSample.

(** The command is answered, the transaction resolved, and neither the summary log, whose
    failure goes to a sink that drops it, nor an audit log knows of it. *)
Example force_resolve_off_the_books :
  CliRunSample.resolved ["--break-glass"] = (true, Some "ForceResolved", O, O) ∧
  CliRunSample.resolved [] = (false, Some "InDoubt", O, O).
Proof. by vm_compute. Qed.

(** The resolved transaction's file is the only one of the journal that may differ. *)
Lemma command_changes_only_its_parts_witness :
  CliRun.resolved_file CliRunSample.codecs
    (mkForceResolveTransactionRequest "1" None "tx-0" "alice" "checked on the console" true)
    (CliRun.dk_journal CliRunSample.disk)
    (CliRun.dk_journal (CliRunSample.sample_ops (CliRunSample.command ["--break-glass"]) CliRunSample.disk).2).
Proof.
  pose proof (CliRun.command_changes_only_its_parts CliRunSample.full CliRunSample.codecs
    CliRunSample.host (λ _, []) ServiceSample.se "1" 7 8 (CliRunSample.command ["--break-glass"])
    CliRunSample.disk _ _ (surjective_pairing
      (CliRunSample.sample_ops (CliRunSample.command ["--break-glass"]) CliRunSample.disk))) as H.
  destruct (Cli.run "1" _) as [c|e] eqn:Hc; vm_compute in Hc; [|discriminate Hc].
  injection Hc as <-. exact (H CliRun.PJournal).
Defined.
