(* ===== verification/Tasks.v ===== *)
(** * The tasks of the worker runtime (src/worker/runtime.rs, src/worker/daemon.rs)

    [Runtime] computes what the supervisor does with the ends of its tasks.  Here are the tasks
    themselves: a task waits for the delay of its restart or for the shutdown, then runs its
    worker in a task of its own so that a panic comes back as a value.  The supervisor and its
    tasks share the shutdown channel; tokio is free to run them in any order.  The runs of
    that system are exactly what [Runtime] takes as given: [supervision_refined] shows it, and
    [shutdown_ends] that a shutdown ends the system. *)
From S2P Require Export Daemon.

(** ** The shutdown channel *)

(** What a receiver of a [watch] channel sees: a new value, or that the sender is gone.  The
    supervisor sends once, so no value is overwritten before it is seen. *)
Inductive Change := Sent (value : bool) | SenderDropped.

(** Has [wait_for_shutdown] returned once the receiver saw these changes? *)
Fixpoint wait_for_shutdown (value : bool) (changes : list Change) : bool :=
  if value then true else
  match changes with
  | [] => false
  | Sent value :: changes => wait_for_shutdown value changes
  | SenderDropped :: _ => true
  end.

Lemma wait_for_shutdown_iff value changes :
  wait_for_shutdown value changes = true ↔
    value = true ∨ Sent true ∈ changes ∨ SenderDropped ∈ changes.
Proof.
  revert value. induction changes as [|[b|] changes IH]; intros []; simpl; set_solver.
Qed.

(** ** The worker of a task *)

(** What the worker of a kind reports. *)
Definition Report (k : RuntimeWorkerKind) : Type :=
  match k with
  | KJournalGc => SchedulerReport Collect.JournalGcReport
  | KApplyIdempotencyGc => SchedulerReport Collect.ApplyIdempotencyGcReport
  | KConfirmedCommitTimeout => SchedulerReport RecoveryReport
  | KDriftAudit => SchedulerReport DriftAuditRunSummary
  | KOperationAlertDelivery => SchedulerReport Alerts.OperationAlertDeliveryReport
  | KOperationSummaryCompaction => SchedulerReport CompactionReport
  | KOperationAuditCompaction => SchedulerReport CompactionReport
  end.

(** [tokio::spawn(future).await]: what the future returns, or the text of the error of
    joining it. *)
Definition run_isolated {T} (awaited : result string (UnderlayResult T)) : WorkerRun T :=
  match awaited with
  | Ok x => Finished x
  | Err e => Panicked e
  end.

(** [RuntimeWorkerSpec::run]: the outcome of the worker's own kind *)
Definition spec_run (k : RuntimeWorkerKind)
    : result string (UnderlayResult (Report k)) → RuntimeWorkerOutcome :=
  match k with
  | KJournalGc => λ awaited, OJournalGc (run_isolated awaited)
  | KApplyIdempotencyGc => λ awaited, OApplyIdempotencyGc (run_isolated awaited)
  | KConfirmedCommitTimeout => λ awaited, OConfirmedCommitTimeout (run_isolated awaited)
  | KDriftAudit => λ awaited, ODriftAudit (run_isolated awaited)
  | KOperationAlertDelivery => λ awaited, OOperationAlertDelivery (run_isolated awaited)
  | KOperationSummaryCompaction => λ awaited, OOperationSummaryCompaction (run_isolated awaited)
  | KOperationAuditCompaction => λ awaited, OOperationAuditCompaction (run_isolated awaited)
  end.

Lemma spec_run_own_kind k awaited :
  outcome_of (spec_run k awaited) =
    Some (k, match awaited with Err _ => true | Ok _ => false end,
          match awaited with Ok (Ok _) => false | _ => true end).
Proof. by destruct k, awaited as [[]|]. Qed.

(** ** Tasks *)

Inductive Phase :=
  | Delaying               (* in the [select!] of the delay and the shutdown *)
  | Running                (* in [spec.run] *)
  | Ended (joined : Joined).

(** The spec of a task is the kind of its worker. *)
Record Task := mkTask {
  t_kind : RuntimeWorkerKind;
  t_delay : option N;
  t_phase : Phase;
}.

Definition spawn_runtime_worker (kind : RuntimeWorkerKind) (tasks : list Task)
    (restart_delay : option N) : list Task :=
  tasks ++ [mkTask kind restart_delay
    (match restart_delay with Some _ => Delaying | None => Running end)].

(** A task's next step; [changes] is what its receiver has seen.  Between the delay and the
    shutdown tokio chooses when both are ready; it may also lose a task. *)
Inductive task_step (changes : list Change) : Task → Task → Prop :=
  | task_slept k delay :
      task_step changes (mkTask k delay Delaying) (mkTask k delay Running)
  | task_skipped k delay :
      wait_for_shutdown false changes = true →
      task_step changes (mkTask k delay Delaying) (mkTask k delay (Ended (JoinOk RestartSkipped)))
  | task_ran k delay awaited :
      task_step changes (mkTask k delay Running) (mkTask k delay (Ended (JoinOk (spec_run k awaited))))
  | task_lost k delay phase err :
      (∀ joined, phase ≠ Ended joined) →
      task_step changes (mkTask k delay phase) (mkTask k delay (Ended (JoinErr err))).

(** ** The supervisor with its tasks *)

Record Supervisor := mkSupervisor {
  sv_tasks : list Task;
  sv_attempts : gmap RuntimeWorkerKind N;
  sv_report : UnderlayWorkerRuntimeReport;
}.

(** [for spec in &specs { spawn_runtime_worker(spec, .., None) }] *)
Definition launch (specs : list RuntimeWorkerKind) : Supervisor :=
  mkSupervisor (foldl (λ tasks k, spawn_runtime_worker k tasks None) [] specs) ∅ default_runtime_report.

(** The branch [joined = tasks.join_next()] *)
Definition join_task (specs : list RuntimeWorkerKind) (i : nat) (joined : Joined) (s : Supervisor)
    : Supervisor :=
  let tasks := delete i (sv_tasks s) in
  match joined with
  | JoinOk outcome =>
      let '(restart, report) := record_worker_outcome outcome (sv_report s) in
      match restart with
      | Some kind =>
          if decide (kind ∈ specs) then
            let attempts := default 0%N (sv_attempts s !! kind) in
            mkSupervisor (spawn_runtime_worker kind tasks (Some (worker_restart_delay attempts)))
              (<[kind := N.min (attempts + 1) U32_MAX]> (sv_attempts s)) report
          else mkSupervisor tasks (sv_attempts s) report
      | None => mkSupervisor tasks (sv_attempts s) report
      end
  | JoinErr err => mkSupervisor tasks (sv_attempts s) (record_worker_join_error err (sv_report s))
  end.
(** A turn of [while let Some(joined) = tasks.join_next().await] *)
Definition drain_task (i : nat) (joined : Joined) (s : Supervisor) : Supervisor :=
  mkSupervisor (delete i (sv_tasks s)) (sv_attempts s) (on_shutdown_joined (sv_report s) joined).
Definition set_task (i : nat) (t : Task) (s : Supervisor) : Supervisor :=
  mkSupervisor (<[i := t]> (sv_tasks s)) (sv_attempts s) (sv_report s).

Inductive Config :=
  | Supervising (s : Supervisor)
  | Stopping (s : Supervisor)      (* after [shutdown_tx.send(true)] *)
  | Returned (report : UnderlayWorkerRuntimeReport).

Definition after_join (s : Supervisor) : Config :=
  match sv_tasks s with [] => Returned (sv_report s) | _ => Supervising s end.
(** What the receivers see of the channel in each state of the supervisor. *)
Definition before_shutdown : list Change := [].
Definition after_shutdown : list Change := [Sent true].

(** What the supervisor joins in a step. *)
Inductive Label := Quiet | Joins (i : nat) (joined : Joined) | Drains (joined : Joined).

Inductive step (specs : list RuntimeWorkerKind) : Label → Config → Config → Prop :=
  | step_task s i t t' :
      sv_tasks s !! i = Some t → task_step before_shutdown t t' →
      step specs Quiet (Supervising s) (Supervising (set_task i t' s))
  | step_join s i k delay joined :
      sv_tasks s !! i = Some (mkTask k delay (Ended joined)) →
      step specs (Joins i joined) (Supervising s) (after_join (join_task specs i joined s))
  | step_shutdown s : step specs Quiet (Supervising s) (Stopping s)
  | step_stopping_task s i t t' :
      sv_tasks s !! i = Some t → task_step after_shutdown t t' →
      step specs Quiet (Stopping s) (Stopping (set_task i t' s))
  | step_drain s i k delay joined :
      sv_tasks s !! i = Some (mkTask k delay (Ended joined)) →
      step specs (Drains joined) (Stopping s) (Stopping (drain_task i joined s))
  | step_return s : sv_tasks s = [] → step specs Quiet (Stopping s) (Returned (sv_report s)).

(** The runs of the system, with what was joined before the shutdown and after it. *)
Inductive runs (specs : list RuntimeWorkerKind) : list (nat * Joined) → list Joined → Config → Prop :=
  | runs_start : runs specs [] [] (Supervising (launch specs))
  | runs_quiet ended last c c' :
      runs specs ended last c → step specs Quiet c c' → runs specs ended last c'
  | runs_joins ended last i joined c c' :
      runs specs ended last c → step specs (Joins i joined) c c' →
      runs specs (ended ++ [(i, joined)]) last c'
  | runs_drains ended last joined c c' :
      runs specs ended last c → step specs (Drains joined) c c' →
      runs specs ended (last ++ [joined]) c'.

(** ** The system seen as the runtime's state *)

Definition task_view (t : Task) : RuntimeWorkerKind * option N := (t_kind t, t_delay t).
Definition view (s : Supervisor) : RuntimeState :=
  mkRuntimeState (task_view <$> sv_tasks s) (sv_attempts s) (sv_report s).

Lemma launch_tasks l tasks :
  foldl (λ tasks k, spawn_runtime_worker k tasks None) tasks l =
    tasks ++ ((λ k, mkTask k None Running) <$> l).
Proof.
  revert tasks. induction l as [|k l IH]; intros tasks; simpl; [by rewrite app_nil_r|].
  rewrite IH. unfold spawn_runtime_worker. by rewrite <-app_assoc.
Qed.
Lemma view_launch l : view (launch l) = start l.
Proof. unfold view, launch, start. simpl. rewrite launch_tasks. simpl. by rewrite <-list_fmap_compose. Qed.
Lemma view_join l i joined s : view (join_task l i joined s) = on_joined l i joined (view s).
Proof.
  unfold view, join_task, on_joined, restart_worker. simpl.
  destruct joined as [outcome|err]; simpl; [|by rewrite list_fmap_delete].
  destruct (record_worker_outcome outcome (sv_report s)) as [[kind|] report]; [case_decide|]; simpl;
    unfold spawn_runtime_worker; by rewrite ?fmap_app, list_fmap_delete.
Qed.
Lemma task_step_view changes t t' : task_step changes t t' → task_view t' = task_view t.
Proof. by destruct 1. Qed.
Lemma view_set_task i t t' s :
  sv_tasks s !! i = Some t → task_view t' = task_view t → view (set_task i t' s) = view s.
Proof.
  intros Hi Ht. unfold view, set_task. simpl. f_equal.
  rewrite list_fmap_insert. apply list_insert_id. by rewrite Ht, list_lookup_fmap, Hi.
Qed.
Lemma view_nil s : rt_tasks (view s) = [] ↔ sv_tasks s = [].
Proof. simpl. split; [apply fmap_nil_inv|by intros ->]. Qed.

(** ** Ends of tasks *)

(** Before the shutdown an ended task ended as its worker did. *)
Definition task_sound (t : Task) : Prop :=
  match t_phase t with Ended joined => ends_as (t_kind t) joined | _ => True end.

Lemma task_step_sound t t' : task_step before_shutdown t t' → task_sound t'.
Proof.
  destruct 1; unfold task_sound; simpl; [done|done| |done].
  rewrite spec_run_own_kind. by do 2 eexists.
Qed.
Lemma set_task_sound i t s :
  Forall task_sound (sv_tasks s) → task_sound t → Forall task_sound (sv_tasks (set_task i t s)).
Proof. intros. by apply Forall_insert. Qed.
Lemma delete_sound i (l : list Task) : Forall task_sound l → Forall task_sound (delete i l).
Proof. rewrite delete_take_drop. intros. apply Forall_app. by split; [apply Forall_take|apply Forall_drop]. Qed.

Lemma join_task_sound l i joined s :
  Forall task_sound (sv_tasks s) → Forall task_sound (sv_tasks (join_task l i joined s)).
Proof.
  intros Hs%(delete_sound i). unfold join_task, spawn_runtime_worker.
  destruct joined as [outcome|err]; [|done].
  destruct (record_worker_outcome outcome (sv_report s)) as [[kind|] report]; [case_decide|]; simpl; [|done..].
  apply Forall_app. split; [done|]. by apply Forall_singleton.
Qed.

(** ** The refinement *)

(** What the runs of the system keep: the supervisor's state is one of [Runtime], reached by
    ends its workers have. *)
Definition refined (l : list RuntimeWorkerKind) (ended : list (nat * Joined)) (last : list Joined)
    (c : Config) : Prop :=
  match c with
  | Supervising s =>
      Forall task_sound (sv_tasks s) ∧ last = [] ∧ sv_tasks s ≠ [] ∧
      (∃ history, supervised l history (view s) ∧ history.*2 = ended.*2) ∧
      ∀ rest last', join_loop l (ended ++ rest) last' (start l) = join_loop l rest last' (view s)
  | Stopping s =>
      ∀ last', join_loop l ended (last ++ last') (start l) =
        foldl on_shutdown_joined (sv_report s) last'
  | Returned report => join_loop l ended last (start l) = report
  end.

Lemma refined_start l : l ≠ [] → refined l [] [] (Supervising (launch l)).
Proof.
  intros Hl. simpl. split_and!; [|done| | |by rewrite view_launch].
  - rewrite launch_tasks. simpl. by apply Forall_fmap, Forall_true.
  - rewrite launch_tasks. by destruct l.
  - exists []. rewrite view_launch. by split; [constructor|].
Qed.
Lemma refined_join l ended last i joined s k delay :
  refined l ended last (Supervising s) →
  sv_tasks s !! i = Some (mkTask k delay (Ended joined)) →
  refined l (ended ++ [(i, joined)]) last (after_join (join_task l i joined s)).
Proof.
  intros (Hs & -> & Hne & (history & Hsup & Hh) & Hloop) Hi.
  assert (∀ rest last', join_loop l ((ended ++ [(i, joined)]) ++ rest) last' (start l) =
    match rt_tasks (view (join_task l i joined s)) with
    | [] => sv_report (join_task l i joined s)
    | _ => join_loop l rest last' (view (join_task l i joined s))
    end) as Hloop'.
  { intros rest last'. rewrite <-app_assoc, Hloop, view_join. simpl.
    change (sv_report (join_task l i joined s)) with (rt_report (view (join_task l i joined s))).
    by rewrite view_join. }
  assert (supervised l (history ++ [(k, joined)]) (view (join_task l i joined s))) as Hsup'.
  { rewrite view_join. apply (supervised_joined _ _ _ _ _ delay); [done| |].
    - simpl. by rewrite list_lookup_fmap, Hi.
    - apply (Forall_lookup_1 _ _ _ _ Hs Hi). }
  unfold after_join. destruct (sv_tasks (join_task l i joined s)) eqn:Htasks; simpl.
  - specialize (Hloop' [] []). rewrite app_nil_r in Hloop'. rewrite Hloop'. simpl. by rewrite Htasks.
  - split_and!; [by apply join_task_sound|done|by rewrite Htasks| |].
    + exists (history ++ [(k, joined)]). split; [done|]. by rewrite !fmap_app, Hh.
    + intros rest last'. rewrite Hloop'. simpl. by rewrite Htasks.
Qed.
Lemma refined_task l ended last s i t t' :
  refined l ended last (Supervising s) → sv_tasks s !! i = Some t → task_step before_shutdown t t' →
  refined l ended last (Supervising (set_task i t' s)).
Proof.
  intros (Hs & -> & Hne & Hsup & Hloop) Hi Ht.
  assert (view (set_task i t' s) = view s) as Hv by (eapply view_set_task, task_step_view; done).
  simpl. rewrite Hv. split_and!; [|done| |done|done].
  - eapply set_task_sound, task_step_sound; done.
  - intros Hnil%(f_equal length). rewrite length_insert in Hnil. by apply Hne, nil_length_inv.
Qed.
Lemma runs_refined l ended last c : l ≠ [] → runs l ended last c → refined l ended last c.
Proof.
  intros Hl. induction 1 as [|ended last c c' _ IH Hstep|ended last i joined c c' _ IH Hstep
    |ended last joined c c' _ IH Hstep].
  - by apply refined_start.
  - inversion Hstep; subst.
    + by eapply refined_task.
    + destruct IH as (_ & -> & _ & _ & Hloop). intros last'.
      specialize (Hloop [] last'). by rewrite app_nil_r in Hloop.
    + exact IH.
    + specialize (IH []). by rewrite app_nil_r in IH.
  - inversion Hstep; subst. by eapply refined_join.
  - inversion Hstep; subst. intros last'. by rewrite <-app_assoc, IH.
Qed.

(** C38. The tasks behave as the supervision assumes.  However tokio interleaves the
    supervisor, its tasks and the shutdown: as long as no shutdown came, the supervisor's
    state is one that the model of the runtime reaches with the same ends of tasks, each task
    having ended with the outcome of its own worker and no restart having been skipped; and
    when the supervisor returns, it returns the report that [run_until_shutdown] computes from
    the tasks it joined. *)
Theorem supervision_refined {Wk} (self : UnderlayWorkerRuntime Wk) ended last c :
  validate_schedules self = Ok tt → specs self ≠ [] → runs (specs self) ended last c →
  match c with
  | Supervising s =>
      ∃ history, supervised (specs self) history (view s) ∧ history.*2 = ended.*2
  | Stopping s => True
  | Returned report => run_until_shutdown self ended last = Ok report
  end.
Proof.
  intros Hok Hne Hruns. pose proof (runs_refined _ _ _ _ Hne Hruns) as Hr.
  destruct c as [s|s|report]; [apply Hr|done|].
  unfold run_until_shutdown. rewrite Hok. simpl in *. destruct (specs self); [done|]. by rewrite Hr.
Qed.

(** ** The shutdown *)

(** The steps a task and the supervisor can still make. *)
Definition phase_steps (p : Phase) : nat :=
  match p with Delaying => 3 | Running => 2 | Ended _ => 1 end.
Definition steps_left (c : Config) : nat :=
  match c with
  | Supervising _ => 0
  | Stopping s => S (sum_list_with (λ t, phase_steps (t_phase t)) (sv_tasks s))
  | Returned _ => 0
  end.
Inductive steps (l : list RuntimeWorkerKind) : nat → Config → Config → Prop :=
  | steps_none c : steps l 0 c c
  | steps_one n label c c' c'' :
      step l label c c' → steps l n c' c'' → steps l (S n) c c''.
Definition shut_down (c : Config) : bool := match c with Supervising _ => false | _ => true end.

Lemma task_step_fewer changes t t' :
  task_step changes t t' → phase_steps (t_phase t') < phase_steps (t_phase t).
Proof. destruct 1 as [| | |k delay [] err Hne]; simpl; try lia. by destruct (Hne joined). Qed.
Lemma sum_delete {A} (f : A → nat) (l : list A) i x :
  l !! i = Some x → sum_list_with f l = f x + sum_list_with f (delete i l).
Proof. intros Hx. by rewrite (delete_Permutation _ _ _ Hx) at 1. Qed.
Lemma sum_insert {A} (f : A → nat) (l : list A) i x y :
  l !! i = Some x → f y < f x → sum_list_with f (<[i := y]> l) < sum_list_with f l.
Proof.
  intros Hx Hy. rewrite <-(take_drop_middle l i x Hx) at 2.
  rewrite insert_take_drop by (by eapply lookup_lt_Some). rewrite !sum_list_with_app. simpl. lia.
Qed.

(** Each step after the shutdown leaves fewer, and brings no worker back. *)
Definition remaining (c : Config) : list RuntimeWorkerKind :=
  match c with Supervising s | Stopping s => running (view s) | Returned _ => [] end.
Lemma step_after_shutdown l label c c' :
  step l label c c' → shut_down c = true →
  shut_down c' = true ∧ steps_left c' < steps_left c ∧ remaining c' ⊆+ remaining c.
Proof.
  destruct 1 as [| | |s i t t' Hi Ht|s i k delay joined Hi|s Hnil]; try done; intros _; simpl.
  - split_and!; [done| |by erewrite view_set_task by (done || by eapply task_step_view)].
    apply (proj1 (Nat.succ_lt_mono _ _)), (sum_insert _ _ _ t); [done|]. by eapply task_step_fewer.
  - rewrite (sum_delete _ _ _ _ Hi). simpl. split_and!; [done|lia|].
    unfold running. simpl. rewrite !list_fmap_delete. by apply submseteq_delete.
  - rewrite Hnil. split_and!; [done|simpl; lia|apply submseteq_nil_l].
Qed.
Lemma phase_steps_bound l : sum_list_with (λ t, phase_steps (t_phase t)) l ≤ 3 * length l.
Proof. induction l as [|[? ? []] l IH]; simpl in *; lia. Qed.
(** After the shutdown a system that has not returned has a next step. *)
Lemma step_enabled l s : ∃ label c, step l label (Stopping s) c.
Proof.
  destruct (sv_tasks s) as [|[k delay [| |joined]] tasks] eqn:Htasks.
  - exists Quiet, (Returned (sv_report s)). by constructor.
  - eexists Quiet, _. eapply (step_stopping_task _ _ 0); [by rewrite Htasks|by apply task_skipped].
  - eexists Quiet, _. eapply (step_stopping_task _ _ 0); [by rewrite Htasks|].
    apply (task_ran _ _ _ (Ok (Err (Internal "stopped")))).
  - eexists (Drains joined), _. apply (step_drain _ _ 0 k delay). by rewrite Htasks.
Qed.

(** A shutdown ends the runtime.  After the shutdown, in whatever order the tasks go on, the
    runtime makes at most three steps for each task it had and one to return; it never goes
    back to supervising, starts no worker that was not running, and is never stuck: a task in
    the delay of a restart skips it, one that runs its worker ends with it, one that ended is
    joined, and when none is left the runtime returns. *)
Theorem shutdown_ends l s n c :
  steps l n (Stopping s) c →
  n ≤ 3 * length (sv_tasks s) + 1 ∧ shut_down c = true ∧ remaining c ⊆+ running (view s) ∧
  ((∃ report, c = Returned report) ∨ ∃ label c', step l label c c').
Proof.
  intros Hsteps. cut (shut_down c = true ∧ n + steps_left c ≤ steps_left (Stopping s) ∧
    remaining c ⊆+ remaining (Stopping s)).
  { intros (Hc & Hn & Hrem). simpl in Hn. pose proof (phase_steps_bound (sv_tasks s)).
    split_and!; [lia|done|done|]. destruct c as [|s'|report]; [done|right; apply step_enabled|].
    left. by exists report. }
  assert (shut_down (Stopping s) = true) as Hs by done. revert Hs. generalize (Stopping s) Hsteps.
  clear. intros c0. induction 1 as [c|n label c c' c'' Hstep _ IH]; intros Hc; [split_and!; done|].
  destruct (step_after_shutdown _ _ _ _ Hstep Hc) as (Hc' & Hlt & Hsub).
  destruct (IH Hc') as (? & ? & ?). split_and!; [done|lia|by etrans].
Qed.

(** ** The daemon's runtime task ([RunningWorkerRuntime] in src/worker/daemon.rs) *)

Definition worker_runtime_join_error (err : string) : UnderlayError :=
  Internal ("worker daemon runtime task join error: " +:+ err).
(** [RunningWorkerRuntime::spawn]: the channel of a new runtime task starts at [false], and the
    task's shutdown is [wait_for_daemon_runtime_shutdown] on it, which is the loop of
    [wait_for_shutdown] again. *)
Definition wait_for_daemon_runtime_shutdown (changes : list Change) : bool :=
  wait_for_shutdown false changes.
(** [RunningWorkerRuntime::stop] sends the shutdown and awaits the task: [awaited] is what the
    task brings then. *)
Definition stop (awaited : result string (UnderlayResult UnderlayWorkerRuntimeReport))
    : UnderlayResult UnderlayWorkerRuntimeReport :=
  match awaited with
  | Ok report => report
  | Err err => Err (worker_runtime_join_error err)
  end.

(** ** An example *)

Module TasksSample.
Definition audit_only : UnderlayWorkerRuntime (λ _, unit) :=
  with_worker KDriftAudit tt (mkSchedule 60 true) new_runtime.
Definition crash : Joined := JoinOk (ODriftAudit (Panicked "boom")).
Definition crashed : Supervisor :=
  set_task 0 (mkTask KDriftAudit None (Ended crash)) (launch (specs audit_only)).
Definition restarted : Supervisor := join_task (specs audit_only) 0 crash crashed.
Definition skipped : Supervisor :=
  set_task 0 (mkTask KDriftAudit (Some 100%N) (Ended (JoinOk RestartSkipped))) restarted.
Definition final : Supervisor := drain_task 0 (JoinOk RestartSkipped) skipped.
Lemma sample_runs : runs (specs audit_only) [(0, crash)] [] (Stopping restarted).
Proof.
  eapply runs_quiet; [|apply step_shutdown].
  change (Supervising restarted) with (after_join (join_task (specs audit_only) 0 crash crashed)).
  eapply (runs_joins _ [] [] 0 crash); [|by apply (step_join _ crashed 0 KDriftAudit None)].
  eapply runs_quiet; [apply runs_start|].
  eapply (step_task _ _ 0); [reflexivity|]. apply (task_ran _ KDriftAudit None (Err "boom")).
Qed.
Lemma sample_steps : steps (specs audit_only) 3 (Stopping restarted) (Returned (sv_report final)).
Proof.
  eapply (steps_one _ _ Quiet _ (Stopping skipped)).
  { eapply (step_stopping_task _ _ 0); [reflexivity|]. by apply task_skipped. }
  eapply (steps_one _ _ (Drains (JoinOk RestartSkipped)) _ (Stopping final)).
  { by apply (step_drain _ _ 0 KDriftAudit (Some 100%N)). }
  eapply (steps_one _ _ Quiet); [by apply step_return|constructor].
Qed.
End TasksSample.

Lemma shutdown_ends_witness :
  3 ≤ 3 * length (sv_tasks TasksSample.restarted) + 1.
Proof.
  destruct (shutdown_ends _ TasksSample.restarted 3 _ TasksSample.sample_steps) as (H & _). exact H.
Defined.
Lemma supervision_refined_witness :
  run_until_shutdown TasksSample.audit_only [(0, TasksSample.crash)] [JoinOk RestartSkipped] =
    Ok (sv_report TasksSample.final).
Proof.
  apply (supervision_refined TasksSample.audit_only [(0, TasksSample.crash)] [JoinOk RestartSkipped]
    (Returned (sv_report TasksSample.final))); [reflexivity|done|].
  eapply runs_quiet; [|by apply step_return].
  eapply (runs_drains _ _ [] (JoinOk RestartSkipped) (Stopping TasksSample.skipped));
    [|by apply (step_drain _ _ 0 KDriftAudit (Some 100%N))].
  eapply runs_quiet; [exact TasksSample.sample_runs|].
  eapply (step_stopping_task _ _ 0); [reflexivity|]. by apply task_skipped.
Defined.
