(* ===== verification/Binaries.v ===== *)
(** * The programs (src/bin/, src/utils/retry.rs)

    The two servers from their command line on: where the configuration file is looked for,
    what is done with it, and what is written to standard error on the way.  The third
    program hands its arguments to [CliRun.ops]. *)
From S2P Require Export HttpAnswer Tasks.

Module Binaries.
Import Api Http.

(** Why a program ends with an error. *)
Inductive MainError :=
  | UsageError (message : string)
  | ReadError (message : string)
  | ParseError (message : string)
  | Refused (e : UnderlayError).

(** [std::env::args_os().nth(1)], else the variable, else the usage *)
Definition config_path (usage variable : string) (args : list string) (env : gmap string string)
    : result MainError string :=
  match args !! 1 with
  | Some path => Ok path
  | None => match env !! variable with Some path => Ok path | None => Err (UsageError usage) end
  end.
Definition product_api_config_path : list string → gmap string string → result MainError string :=
  config_path "usage: aria-underlay-product-api <config.json>" "ARIA_UNDERLAY_PRODUCT_API_CONFIG".
Definition worker_config_path : list string → gmap string string → result MainError string :=
  config_path "usage: aria_underlay_worker <config.json>" "ARIA_UNDERLAY_WORKER_CONFIG".

Lemma server_config_validated c :
  server_config_validate c = Ok tt →
  is_loopback (ip (sc_bind_addr c)) = true ∧ sc_static_tokens c ≠ ∅.
Proof.
  unfold server_config_validate, reject_if. intros Hv.
  destruct (listener_validate _); [|done]. simpl in Hv.
  destruct (validate_non_empty_path "operation_summary_path" _); [|done]. simpl in Hv.
  destruct (validate_non_empty_path "product_audit_path" _); [|done]. simpl in Hv.
  case_bool_decide; [done|]. simpl in Hv. by destruct (is_loopback _).
Qed.

(** ** Delays ([exponential_delay] in src/utils/retry.rs) *)

(** In nanoseconds. *)
Definition DURATION_MAX : N := U64_MAX * 1000000000 + 999999999.
Definition exponential_delay (initial : N) (attempt : N) (max : N) : N :=
  let multiplier := N.min (2 ^ attempt) U32_MAX in
  let delay := N.min (initial * multiplier) DURATION_MAX in
  N.min delay max.

(** The delays double from the first until they reach the limit; from the thirty-second
    attempt on the factor stays what it is. *)
Lemma exponential_delay_doubles initial attempt max :
  (max ≤ DURATION_MAX → attempt < 32 →
   exponential_delay initial attempt max = N.min (initial * 2 ^ attempt) max)%N ∧
  (exponential_delay initial attempt max ≤ exponential_delay initial (attempt + 1) max ≤ max)%N.
Proof.
  unfold exponential_delay. split.
  - intros Hmax Hlt. assert (2 ^ attempt ≤ 2 ^ 31)%N by (apply N.pow_le_mono_r; lia).
    assert (2 ^ 31 ≤ U32_MAX)%N by (vm_compute; discriminate).
    rewrite (N.min_l (2 ^ attempt)) by lia. lia.
  - split; [|lia]. apply N.min_le_compat_r, N.min_le_compat_r, N.mul_le_mono_l, N.min_le_compat_r.
    apply N.pow_le_mono_r; lia.
Qed.

(** A program so far: its lines on standard error, the address it says it listens on, and its
    result once it ended. *)
Record Process := mkProcess {
  stderr : list string;
  listening : option SocketAddr;
  exit : option (result MainError unit);
}.

Section programs.
(** [Display] of an address, [Debug] of a text, and the clock at its successive readings. *)
Context (show_addr : SocketAddr → string) (debug_text : string → string) (now : nat → N).
Context (args : list string) (env : gmap string string).

Definition log_line (level component action : string) (rest : string) (reading : nat) : string :=
  "ts=" +:+ fmt_N (now reading) +:+ " level=" +:+ level +:+ " component=" +:+ component +:+
  " action=" +:+ action +:+ rest.

(** ** The product API server *)

Section product_api.
Context (read : string → result string string).
Context (parse : string → result string ProductApiServerConfig).

Definition from_path (path : string) : result MainError ProductApiServerConfig :=
  payload ← map_err ReadError (read path);
  map_err ParseError (parse payload).
(** [ProductHttpServer::new] *)
Definition new_server {R} (router : R) (config : ProductHttpListenerConfig)
    : UnderlayResult (R * ProductHttpListenerConfig) :=
  _ ← listener_validate config; Ok (router, config).
(** The streams a task was spawned for, and the result once there is one. *)
Definition serve_until_shutdown (bound : result string unit) (events : list ListenerEvent)
    : list TcpStream * option (UnderlayResult unit) :=
  match bound with
  | Err e => ([], Some (Err (product_http_io_error e)))
  | Ok _ => serve_listener_until_shutdown events
  end.

Definition product_api_main (bound : result string unit) (events : list ListenerEvent) : Process :=
  match product_api_config_path args env with
  | Err e => mkProcess [] None (Some (Err e))
  | Ok path =>
      let starting := log_line "info" "product_api" "starting" (" config_path=" +:+ path) 0 in
      match config ← from_path path;
            router ← map_err Refused (router config);
            map_err Refused (new_server router (listener_config config)) with
      | Err e => mkProcess [starting] None (Some (Err e))
      | Ok (_, config) =>
          let bind_addr := li_bind_addr config in
          let log := [starting; log_line "info" "product_api" "listening"
                                  (" bind_addr=" +:+ show_addr bind_addr) 1] in
          match (serve_until_shutdown bound events).2 with
          | None => mkProcess log (Some bind_addr) None
          | Some (Err e) =>
              mkProcess (log ++ [log_line "error" "product_api" "failed"
                                   (" error=" +:+ debug_text (error_text e)) 2])
                (Some bind_addr) (Some (Err (Refused e)))
          | Some (Ok _) =>
              mkProcess (log ++ [log_line "info" "product_api" "stopped" "" 2])
                (Some bind_addr) (Some (Ok tt))
          end
      end
  end.
End product_api.

(** ** The worker *)

(** [run] is [UnderlayWorkerDaemon::run_config_path_until_shutdown]; it ends when the shutdown
    comes. *)
Definition worker_main (run : string → UnderlayResult UnderlayWorkerRuntimeReport)
    : Process * option UnderlayWorkerRuntimeReport :=
  match worker_config_path args env with
  | Err e => (mkProcess [] None (Some (Err e)), None)
  | Ok path =>
      let starting := log_line "info" "worker" "starting" (" config_path=" +:+ path) 0 in
      match run path with
      | Err e =>
          (mkProcess [starting; log_line "error" "worker" "failed"
                                  (" error=" +:+ debug_text (error_text e)) 1]
             None (Some (Err (Refused e))), None)
      | Ok report =>
          (mkProcess [starting; log_line "info" "worker" "stopped" "" 1] None (Some (Ok tt)), Some report)
      end
  end.

(** The product API is never offered beyond the host, nor without tokens: whatever the
    arguments and the file are, a process that listens does so on a loopback address, with a
    configuration that has at least one token and whose tokens and principals are valid. *)
Theorem product_api_listens_locally read parse bound events addr :
  listening (product_api_main read parse bound events) = Some addr →
  ∃ path payload config, product_api_config_path args env = Ok path ∧ read path = Ok payload ∧
    parse payload = Ok config ∧ addr = sc_bind_addr config ∧
    is_loopback (ip addr) = true ∧ sc_static_tokens config ≠ ∅ ∧ server_config_validate config = Ok tt.
Proof using Type.
  unfold product_api_main, from_path, new_server, router.
  destruct (product_api_config_path args env) as [path|]; [|done].
  destruct (read path) as [payload|] eqn:Hread; [|done]. simpl.
  destruct (parse payload) as [config|] eqn:Hparse; [|done]. simpl.
  destruct (server_config_validate config) as [[]|] eqn:Hv; [|done]. simpl.
  destruct (listener_validate (listener_config config)) as [[]|]; [|done]. simpl.
  intros Haddr. exists path, payload, config.
  assert (addr = sc_bind_addr config) as -> by (repeat case_match; by simplify_eq/=).
  split_and!; try done; by apply server_config_validated in Hv as [??].
Qed.
End programs.
End Binaries.
